(* ===== verification/_CoqProject ===== *)
-Q . S2P
Prelude.v
Text.v
RPath.v
BTree.v
FsError.v
Metadata.v
Flags.v
Handle.v
FileSystem.v
AbsPath.v
Metrics.v
MemFS.v
QueueFS.v
KvFS.v
Compression.v
StreamFS.v
HelloFS.v
HeartbeatFS.v
ServerInfoFS.v
DevFS.v
LocalFS.v
StreamRotateFS.v
HandleManager.v
MountableFS.v
Json.v
Cache.v
CachedFs.v
HttpFS.v
Contents.v
SqlTable.v
KvSqlite.v
SqlFS.v
PgsFS.v
S3FS.v
VectorFS.v
Http.v
HttpError.v
Validation.v
RateLimiter.v
StatCache.v
Auth.v
ServerTypes.v
ServerApi.v
ClientTypes.v
FuseInodes.v
FileLocks.v
FuseCache.v
ClientCircuit.v
ClientApi.v
Remote.v
ProxyFS.v
FuseFs.v
BlockingAdapter.v
FuseMount.v
FuseRemote.v
Stack.v
Cli.v
Config.v
SocketAddr.v
Startup.v
