(* ===== verification/Prelude.v ===== *)
(** * RACFS: a verification development for the Remote Agent Call File System

    RACFS presents message queues, key-value stores, logs, devices, remote
    services and plain memory as one tree of files.  A server mounts backends
    ("plugins") at paths and exports the tree over REST; a client library talks
    to it with retries and a circuit breaker; a FUSE process puts the client
    behind the kernel.  The library translates the Rust code of these parts and
    proves what they promise, and where they break it.  File names below are
    under [src/crates/].

    ** How the program is modelled

    - Every function of the code is a definition of the same name.  A comment
      [src: file first-last symbol] in front of a definition names the lines it
      translates.
    - A method on a state behind locks is a computation of the monad [M S E A]
      below: it takes the state and returns it with an outcome, [Ok], [Err],
      [Panic] or [Diverge].  An error or a panic keeps the changes made before
      it, as the locks of the program do not poison.  A [?] is the bind, an early
      return [fail_if].
    - Integers are [Z]; sums and casts of machine width are written out
      ([usize_add], [i64_as_usize], ...), and whether an overflow panics or
      wraps is the parameter [BuildProfile].  The target has 64 bits.
    - Strings and paths are Rocq strings holding their UTF-8 bytes, contents are
      lists of bytes.  A [HashMap] keyed by paths is a [PathMap], which compares
      the components of its keys as [Path] does; a [BTreeMap] is a sorted list.
    - The clock is an argument: [now k] is the reading number [k] of a call.
    - Where a lock is taken more than once the critical sections are definitions
      of their own, so that other callers can run between them.
    - A crate that the repository only calls is a class or a parameter with the
      laws it documents ([Trie], [Foyer], [JsonText], [Reqwest], [Prometheus],
      [SqlLaws], [S3Laws], ...).  Each theorem with such a law has a witness with a concrete
      implementation.

    ** The files

    Foundations.
    - [Prelude]: bytes, machine integers, outcomes, the monad and its lemmas,
      slices and resizing, chains in finite graphs, stable sorting, tactics.
    - [Text], [RPath], [AbsPath], [BTree], [Json]: what is used of the standard
      library's strings, paths and ordered maps, and of serde.

    [racfs-core].
    - [FsError], [Metadata], [Flags], [Handle], [Compression]: [error.rs],
      [metadata.rs], [flags.rs], [file_handle.rs], [compression.rs].
    - [FileSystem]: the traits of [filesystem.rs] as one class; every backend is
      an instance, and everything above is proved against the class.
    - [Cache]: the caches of [cache.rs], the trait with its laws and the two
      implementations.

    Backends, one per crate [racfs-plugin-*], all calls of the trait.
    - In memory: [MemFS], [QueueFS], [KvFS], [StreamFS], [StreamRotateFS],
      [HelloFS], [HeartbeatFS], [ServerInfoFS], [DevFS], [HttpFS].
    - [LocalFS]: the disk, whose calls are a class.
    - On a database: [SqlTable] has the rows and what the statements of SQL mean
      for them; [SqlFS], [PgsFS] and [KvSqlite] (the second store of [KvFS]) are
      the plugins.  [VectorFS] keeps documents in a table of vectors; [Contents]
      is the change of a content that these plugins share.
    - [S3FS]: the objects of a bucket.

    [racfs-vfs].
    - [MountableFS]: the mount table, the prefix search and the routing.
    - [HandleManager]: open handles, leases and the limit, sequentially and as
      interleaved critical sections.
    - [CachedFs]: a cache in front of any [FileSystem].

    [racfs-server].
    - [Http], [HttpError], [Validation], [RateLimiter], [StatCache], [Auth],
      [ServerTypes]: requests, errors, checks, limits, caching, logins, the
      bodies of the API.  [Metrics]: what the server counts and the registry
      that it shares with the plugins.  [ServerApi]: the handlers and the router.
    - [SocketAddr]: the parser of addresses of the standard library.
    - [Config] and [Startup]: reading and validating the configuration, opening
      the plugins, building the tree, and reloading on SIGHUP.

    [racfs-client].
    - [ClientTypes], [ClientCircuit], [ClientApi]: the bodies, the retry loop and
      the circuit breaker, the methods.
    - [Remote]: the client's methods over the server, by composing the two.
    - [ProxyFS], a backend that is a client: [racfs-plugin-proxyfs], alone and over
      the server of [Remote].

    [racfs-fuse].
    - [FuseInodes], [FileLocks], [FuseCache], [FuseFs]: [inode_manager.rs],
      [advanced.rs], [cache.rs] and [async_fs.rs], the last over the interface
      [RacfsClient].
    - [BlockingAdapter]: [blocking_adapter.rs], the requests of the kernel with
      their replies, and sessions of them.
    - [FuseRemote]: the interface implemented by [ClientApi] over [Remote], from
      the calls of the kernel down to the filesystem of the server.
    - [FuseMount]: [error.rs], [lib.rs] and [main.rs], and the adapter that only
      reads.
    - [Stack]: the way of a write from the kernel to the backend; the interface
      [FileView] says what content a filesystem shows at a path and what a write
      does to it.

    [racfs-cli].
    - [Cli]: the commands of [main.rs] over an interface of client calls.

    ** What is proved

    - Backends.  Invariants over all sequences of calls
      ([MemFS.memfs_reachable_ok]); reads after writes; refinement of abstract
      lists and logs ([QueueFS.run_refines_fifo], [StreamFS.streamfs_ring_buffer],
      [StreamRotateFS.streamrotate_write_refines]); what every branch leaves
      ([MemFS.memfs_write_spec], [HttpFS.httpfs_write_spec], ...); the answers
      that the cache of [HttpFS] gives ([HttpFS.httpfs_cached_get]).
    - Backends that keep their files elsewhere refine a filesystem on what they
      keep: the documents of [VectorFS] ([VectorFS.vectorfs_documents_refine]), rows
      ([SqlFS.sqlfs_refines], [PgsFS.pgsfs_refines], [KvSqlite.kv_sqlite_refines]) and
      objects ([S3FS.s3fs_refines], through uploads in parts and pages of
      listings).  [LocalFS] does not leave its root on the disk
      ([LocalFS.localfs_confined]).
    - Routing.  [MountableFS.mountable_routing_refines] and
      [mountable_calls_routed]: a call goes to the backend of the longest mount
      point, and is that backend's call.  [Startup.server_tree]: the tree of a
      server is that of its configuration; [Startup.whole_system] evaluates one
      from the text of the configuration to the bytes that a program reads.
    - Caches are transparent: [CachedFs.cached_fs_transparent],
      [StatCache.stat_cache_transparent], each with the conditions it needs.
    - Concurrency.  [HandleManager.handle_manager_concurrent_ok],
      [FuseInodes.inodes_concurrent_sound], [FileLocks.locks_exclusive], and the
      races that the code leaves open.
    - The server and the client.  [RateLimiter.rate_limit_bound],
      [Auth.login_spec], [Config.validate_spec], [ClientCircuit.send_with_retry_spec];
      [Remote.remote_call_spec] follows a call through both, and
      [ProxyFS.proxyfs_changes_unchecked] one of the backend in front of a server.
    - FUSE.  [FuseCache.merge_write_segments_spec] and
      [FuseFs.fuse_writes_reach_server]: the requests that a buffer makes of
      the writes put the same bytes at the same places.  [BlockingAdapter.fuse_session_invariant] holds over
      whatever the kernel asks for, and [fuse_listing_complete] says that its
      loop over a directory sees every entry once.  [Stack.fuse_copy_arrives]
      puts the layers together: what is copied to a mounted file is the content
      of the file in the backend.
    - The command line.  [Cli.cli_tree_spec]: the loop of the command tree prints
      what the recursion over directories does, and ends.
    - Where the code does not do what it means to, a lemma shows it on the
      definitions, next to the theorem it limits: the lost head of a queue after
      999999 messages, routing that ignores component boundaries, a rate limit
      that runs the refused call, contents that the client reads in quotes and
      copies so, names of directories that are patterns, a start that refuses
      the name of a host, and others.

    ** Recursion and bounds

    The loops of the code are recursions on their data.  Those with fuel are
    - [MemFS.read_fuel], which follows symlinks: [memfs_read_terminates] shows
      that as many steps as there are entries decide, and that beyond them the
      recursion of the code has no end;
    - [StreamFS.evict_loop] and [StreamRotateFS.prune], whose fuel is the number
      of entries, one of which goes in every turn ([streamfs_evict_spec]);
    - [Cli.tree_loop], [S3FS.remove_pages] and [S3FS.list_pages], loops that a
      server keeps going, whose fuel is an argument: as many steps as there are
      directories, objects and pages are enough ([cli_tree_spec],
      [S3FS.remove_pages_ok], [S3FS.s3fs_listing]);
    - [S3FS.upload_parts], whose fuel is the length of the content, and every part
      has a byte ([S3FS.upload_parts_ok]);
    - the printing of numbers ([Text.fmt_radix]), which has a digit of fuel for
      each digit of a [u64].

    ** What is not modelled

    - What SQLite, PostgreSQL, LanceDB and S3 do beyond the laws named; isolation
      between connections of a pool, which the plugins do not ask for.  What
      the server opens a backend on (a disk, a connection, a world with the
      network) comes with the interface [Openers] of [Startup]; every backend has
      one of its own, so that two mounts of overlapping directories are two disks.
    - OpenAPI documents, tracing, and the text that Prometheus makes of metrics.
    - The binaries' argument parsing; log lines, everywhere.
    - The crates [axum], [hyper], [tokio], [reqwest], [fuser], [foyer], [serde_json]
      and the like, beyond the laws named in the files that use them.
    - Task scheduling beyond the interleavings stated: an operation that takes
      its locks once is one step. *)

From stdpp Require Export base tactics option list numbers strings gmap sets fin_maps.
From Stdlib Require Export ZArith Lia.
From Stdlib Require Import Strings.Byte.

#[global] Open Scope Z_scope.

Declare Scope racfs_scope.
Delimit Scope racfs_scope with racfs.
#[global] Open Scope racfs_scope.

Create HintDb racfs discriminated.
Create Rewrite HintDb racfs.

(** ** Bytes and vectors *)

(** [u8] and [Vec<u8>]. *)
Abbreviation u8 := Byte.byte.
Abbreviation bytes := (list Byte.byte).

#[global] Instance byte_eq_dec : EqDecision u8 := Byte.byte_eq_dec.

(** [Vec::len], as a [usize]. *)
Definition len {A} (l : list A) : Z := Z.of_nat (length l).

Lemma len_nonneg {A} (l : list A) : 0 <= len l.
Proof. unfold len. lia. Qed.

Lemma len_app {A} (l k : list A) : len (l ++ k) = len l + len k.
Proof. unfold len. rewrite length_app. lia. Qed.

Lemma len_nil {A} : len (@nil A) = 0.
Proof. reflexivity. Qed.

Lemma len_zero_inv {A} (l : list A) : len l = 0 -> l = [].
Proof. destruct l; [done|]. unfold len; simpl; lia. Qed.

#[export] Hint Rewrite @len_app @len_nil : racfs.

Lemma elem_of_map {A B} (f : A -> B) (l : list A) (y : B) :
  y ∈ map f l <-> exists x, y = f x /\ x ∈ l.
Proof. change (map f l) with (f <$> l). apply list_elem_of_fmap. Qed.

(** ** Machine integers

    Values of the Rust integer types are [Z]; the target is a 64-bit one, so
    [usize] is [u64] and [isize] is [i64]. *)

Definition i64_max : Z := 2 ^ 63 - 1.
Definition i64_min : Z := - 2 ^ 63.
Definition u64_max : Z := 2 ^ 64 - 1.
Definition u32_max : Z := 2 ^ 32 - 1.
(** [isize::MAX], the largest number of bytes a [Vec] may hold. *)
Definition isize_max : Z := 2 ^ 63 - 1.

Definition in_i64 (z : Z) : bool := (i64_min <=? z) && (z <=? i64_max).
Definition in_u64 (z : Z) : bool := (0 <=? z) && (z <=? u64_max).
Definition i32_max : Z := 2 ^ 31 - 1.
Definition in_i32 (z : Z) : bool := (- 2 ^ 31 <=? z) && (z <=? i32_max).
Definition in_u32 (z : Z) : bool := (0 <=? z) && (z <=? u32_max).

(** Octal literals: [octal 755] is [0o755]. *)
Fixpoint octal_aux (fuel : nat) (n : Z) : Z :=
  match fuel with
  | O => 0
  | S f => octal_aux f (n / 10) * 8 + n mod 10
  end.
Definition octal (n : Z) : Z := octal_aux 12 n.

(** Two's complement wrap-around. *)
Definition i64_wrap (z : Z) : Z := (z + 2 ^ 63) mod 2 ^ 64 - 2 ^ 63.
Definition u64_wrap (z : Z) : Z := z mod 2 ^ 64.
Definition u32_wrap (z : Z) : Z := z mod 2 ^ 32.
Definition i32_wrap (z : Z) : Z := (z + 2 ^ 31) mod 2 ^ 32 - 2 ^ 31.

(** [x as usize] for [x : i64], and [x as i64] for [x : usize]. *)
Definition i64_as_usize (z : Z) : Z := u64_wrap z.
Definition usize_as_i64 (z : Z) : Z := i64_wrap z.

Lemma i64_as_usize_nonneg z : 0 <= z <= i64_max -> i64_as_usize z = z.
Proof. unfold i64_as_usize, u64_wrap, i64_max. intros. apply Z.mod_small. lia. Qed.

Lemma i64_as_usize_neg z : i64_min <= z < 0 -> i64_as_usize z = 2 ^ 64 + z.
Proof.
  unfold i64_as_usize, u64_wrap, i64_min. intros.
  rewrite <- (Z.mod_add z 1) by lia. rewrite Z.mod_small; lia.
Qed.

Lemma usize_as_i64_small z : 0 <= z <= i64_max -> usize_as_i64 z = z.
Proof.
  unfold usize_as_i64, i64_wrap, i64_max. intros.
  rewrite Z.mod_small; lia.
Qed.

(** ** Results

    What a call ends with: a value, an error of type [E] ([Result::Err]), a
    panic of the task, or no end at all (an unbounded recursion). *)

Inductive outcome (E A : Type) : Type :=
| Ok (a : A)
| Err (e : E)
| Panic
| Diverge.
Arguments Ok {E A} a.
Arguments Err {E A} e.
Arguments Panic {E A}.
Arguments Diverge {E A}.

#[global] Instance outcome_eq_dec {E A} `{EqDecision E, EqDecision A} : EqDecision (outcome E A).
Proof. solve_decision. Defined.

#[global] Instance outcome_ret {E} : MRet (outcome E) := fun A a => Ok a.
#[global] Instance outcome_bind {E} : MBind (outcome E) := fun A B f m =>
  match m with
  | Ok a => f a
  | Err e => Err e
  | Panic => Panic
  | Diverge => Diverge
  end.

Definition is_ok {E A} (m : outcome E A) : bool :=
  match m with Ok _ => true | _ => false end.

(** [Option::ok_or] and [Option::ok_or_else]. *)
Definition ok_or {E A} (o : option A) (e : E) : outcome E A :=
  match o with Some a => Ok a | None => Err e end.

(** [Result::map_err] *)
Definition map_err {E F A} (f : E -> F) (m : outcome E A) : outcome F A :=
  match m with
  | Ok a => Ok a
  | Err e => Err (f e)
  | Panic => Panic
  | Diverge => Diverge
  end.

(** ** Stateful operations

    An operation runs on the component's state; the state is returned with
    every outcome, because the locks of the program do not poison and an error
    or a panic leaves the changes made before it in place. *)

Definition M (S E A : Type) : Type := S -> outcome E A * S.

#[global] Instance M_ret {S E} : MRet (M S E) := fun A a s => (Ok a, s).
#[global] Instance M_bind {S E} : MBind (M S E) := fun A B f m s =>
  match m s with
  | (Ok a, s') => f a s'
  | (Err e, s') => (Err e, s')
  | (Panic, s') => (Panic, s')
  | (Diverge, s') => (Diverge, s')
  end.

#[global] Instance outcome_fmap {E} : FMap (outcome E) := fun A B f m =>
  match m with
  | Ok a => Ok (f a)
  | Err e => Err e
  | Panic => Panic
  | Diverge => Diverge
  end.
#[global] Instance M_fmap {S E} : FMap (M S E) := fun A B f m s => (f <$> fst (m s), snd (m s)).

Section Operations.
Context {S E : Type}.

Definition get : M S E S := fun s => (Ok s, s).
Definition put (s : S) : M S E () := fun _ => (Ok (), s).
Definition gets {A} (f : S -> A) : M S E A := fun s => (Ok (f s), s).
Definition modify (f : S -> S) : M S E () := fun s => (Ok (), f s).
Definition fail {A} (e : E) : M S E A := fun s => (Err e, s).
Definition lift {A} (m : outcome E A) : M S E A := fun s => (m, s).
(** [if c { return Err(e) }] *)
Definition fail_if (c : bool) (e : E) : M S E () := if c then fail e else mret ().

(** Replace the state by the result of a pure computation on it. *)
Definition update_state (f : S -> outcome E S) : M S E () := s ← get; s' ← lift (f s); put s'.
End Operations.

(** The outcome of a call as a value: [match m { Ok(..) .. Err(..) .. }].  A panic
    goes on. *)
Definition attempt {S E A} (m : M S E A) : M S E (E + A) := fun s =>
  match m s with
  | (Ok a, s') => (Ok (inr a), s')
  | (Err e, s') => (Ok (inl e), s')
  | (Panic, s') => (Panic, s')
  | (Diverge, s') => (Diverge, s')
  end.

Lemma attempt_ok {S E A} (m : M S E A) s a s' : m s = (Ok a, s') -> attempt m s = (Ok (inr a), s').
Proof. intros Hm. unfold attempt. by rewrite Hm. Qed.

Lemma attempt_err {S E A} (m : M S E A) s e s' : m s = (Err e, s') -> attempt m s = (Ok (inl e), s').
Proof. intros Hm. unfold attempt. by rewrite Hm. Qed.

(** Run one operation after another, whatever the first returns. *)
Definition exec {S E A} (m : M S E A) (s : S) : S := snd (m s).
Definition result {S E A} (m : M S E A) (s : S) : outcome E A := fst (m s).

(** The call came back to its caller, with a value or an error. *)
Definition returned {E A} (m : outcome E A) : bool :=
  match m with Ok _ | Err _ => true | _ => false end.

(** [keeps I m]: when [m] comes back, an assertion that held still does. *)
Definition keeps {S E A} (I : S -> Prop) (m : M S E A) : Prop :=
  forall s, I s -> returned (fst (m s)) = true -> I (snd (m s)).

Lemma keeps_bind {S E A B} (I : S -> Prop) (m : M S E A) (f : A -> M S E B) :
  keeps I m -> (forall a, keeps I (f a)) -> keeps I (m ≫= f).
Proof.
  intros Hm Hf s Hs. unfold mbind, M_bind. specialize (Hm s Hs).
  destruct (m s) as [[a|e| |] s']; simpl in *; auto.
  intros. apply Hf; auto.
Qed.

Lemma keeps_fmap {S E A B} (I : S -> Prop) (f : A -> B) (m : M S E A) :
  keeps I m -> keeps I (f <$> m).
Proof.
  intros Hm s Hs. unfold fmap, M_fmap. simpl. specialize (Hm s Hs).
  destruct (fst (m s)); simpl; auto.
Qed.

Lemma keeps_ret {S E A} (I : S -> Prop) (a : A) : keeps I (mret a : M S E A).
Proof. by intros s Hs. Qed.

Lemma keeps_fail {S E A} (I : S -> Prop) (e : E) : keeps I (fail e : M S E A).
Proof. by intros s Hs. Qed.

Lemma keeps_lift {S E A} (I : S -> Prop) (o : outcome E A) : keeps I (lift o : M S E A).
Proof. by intros s Hs. Qed.

Lemma keeps_modify {S E} (I : S -> Prop) f :
  (forall s, I s -> I (f s)) -> keeps I (modify f : M S E ()).
Proof. intros Hf s Hs _. simpl. auto. Qed.

(** A computation that starts by reading the state may use what holds of it. *)
Lemma keeps_get {S E A} (I : S -> Prop) (f : S -> M S E A) :
  (forall s, I s -> returned (fst (f s s)) = true -> I (snd (f s s))) -> keeps I (get ≫= f).
Proof. intros Hf s Hs. unfold mbind, M_bind, get. auto. Qed.

Lemma keeps_fail_if {S E} (I : S -> Prop) (c : bool) (e : E) : keeps I (fail_if c e : M S E ()).
Proof. destruct c; [apply keeps_fail|apply keeps_ret]. Qed.

#[export] Hint Resolve keeps_bind keeps_fmap keeps_ret keeps_fail keeps_lift keeps_fail_if
  keeps_modify : racfs.

Lemma run_bind {S E A B} (m : M S E A) (f : A -> M S E B) (s : S) :
  (m ≫= f) s =
  match m s with
  | (Ok a, s') => f a s'
  | (Err e, s') => (Err e, s')
  | (Panic, s') => (Panic, s')
  | (Diverge, s') => (Diverge, s')
  end.
Proof. reflexivity. Qed.

Lemma bind_ok {S E A B} (m : M S E A) (f : A -> M S E B) (s s' : S) a :
  m s = (Ok a, s') -> (m ≫= f) s = f a s'.
Proof. intros Hm. by rewrite run_bind, Hm. Qed.

(** Run steps from a state, collecting the results. *)
Fixpoint run_all {O S R} (step : O -> S -> R * S) (ops : list O) (s : S) : list R * S :=
  match ops with
  | [] => ([], s)
  | o :: ops' => let '(r, s1) := step o s in let '(rs, s2) := run_all step ops' s1 in (r :: rs, s2)
  end.

(** ** Overflow

    [cargo build] checks the arithmetic of the fixed-width types and panics;
    [cargo build --release] wraps around.  The profile is a parameter of every
    definition with such an operation. *)

Class BuildProfile := { overflow_checks : bool }.
Definition debug_profile : BuildProfile := {| overflow_checks := true |}.
Definition release_profile : BuildProfile := {| overflow_checks := false |}.

Definition checked_arith `{BuildProfile} {E} (in_range : Z -> bool) (wrap : Z -> Z) (z : Z)
  : outcome E Z :=
  if in_range z then Ok z else if overflow_checks then Panic else Ok (wrap z).

Definition i64_add `{BuildProfile} {E} (a b : Z) : outcome E Z :=
  checked_arith in_i64 i64_wrap (a + b).
Definition usize_add `{BuildProfile} {E} (a b : Z) : outcome E Z :=
  checked_arith in_u64 u64_wrap (a + b).
Definition u64_add `{BuildProfile} {E} (a b : Z) : outcome E Z :=
  checked_arith in_u64 u64_wrap (a + b).
Definition u32_add `{BuildProfile} {E} (a b : Z) : outcome E Z :=
  checked_arith in_u32 u32_wrap (a + b).
Definition i32_add `{BuildProfile} {E} (a b : Z) : outcome E Z :=
  checked_arith in_i32 i32_wrap (a + b).

(** [saturating_add] on [i64] and [saturating_sub] on the unsigned types. *)
Definition i64_saturating_add (a b : Z) : Z := Z.max i64_min (Z.min i64_max (a + b)).
Definition saturating_sub (a b : Z) : Z := Z.max 0 (a - b).

(** [Instant + Duration]: the seconds of an instant are an [i64]. Instants
    and durations are in nanoseconds. *)
Definition instant_max : Z := i64_max * 10 ^ 9 + 999999999.
Definition instant_add {E} (t d : Z) : outcome E Z :=
  if instant_max <? t + d then Panic else Ok (t + d).

Section Arith.
Context `{BuildProfile} {E : Type}.

Lemma i64_add_ok a b : i64_min <= a + b <= i64_max -> @i64_add _ E a b = Ok (a + b).
Proof.
  intros. unfold i64_add, checked_arith, in_i64.
  destruct (Z.leb_spec i64_min (a + b)), (Z.leb_spec (a + b) i64_max); simpl; done || lia.
Qed.

Lemma unsigned_add_ok a b : 0 <= a + b <= u64_max -> @u64_add _ E a b = Ok (a + b).
Proof.
  intros. unfold u64_add, checked_arith, in_u64.
  destruct (Z.leb_spec 0 (a + b)), (Z.leb_spec (a + b) u64_max); simpl; done || lia.
Qed.

Lemma usize_add_ok a b : 0 <= a + b <= u64_max -> @usize_add _ E a b = Ok (a + b).
Proof. apply unsigned_add_ok. Qed.

Lemma u32_add_ok a b : 0 <= a + b <= u32_max -> @u32_add _ E a b = Ok (a + b).
Proof.
  intros. unfold u32_add, checked_arith, in_u32.
  destruct (Z.leb_spec 0 (a + b)), (Z.leb_spec (a + b) u32_max); simpl; done || lia.
Qed.
End Arith.

(** ** Slices and resizing *)

Definition ztake {A} (n : Z) (l : list A) : list A := take (Z.to_nat n) l.
Definition zdrop {A} (n : Z) (l : list A) : list A := drop (Z.to_nat n) l.

(** [&l[a..b]]; the index expression panics out of range. *)
Definition slice {E A} (a b : Z) (l : list A) : outcome E (list A) :=
  if (a <=? b) && (b <=? len l) then Ok (ztake (b - a) (zdrop a l)) else Panic.

(** [l.resize(n, x)]; growing past [isize::MAX] elements is a capacity
    overflow, which panics. *)
Definition resize {E A} (n : Z) (x : A) (l : list A) : outcome E (list A) :=
  if n <=? len l then Ok (ztake n l)
  else if isize_max <? n then Panic
  else Ok (l ++ replicate (Z.to_nat (n - len l)) x).

(** [l.extend_from_slice(data)] *)
Definition extend_from_slice {E A} (data l : list A) : outcome E (list A) :=
  if isize_max <? len l + len data then Panic else Ok (l ++ data).

(** [l[a..a + data.len()].copy_from_slice(data)] *)
Definition copy_from_slice {E A} (a : Z) (data l : list A) : outcome E (list A) :=
  if a + len data <=? len l
  then Ok (ztake a l ++ data ++ zdrop (a + len data) l)
  else Panic.

(** The pure content of a grow-then-copy write at offset [a]: the list is
    padded with [x] up to [a] and overlaid with [data]. *)
Definition overlay {A} (x : A) (a : Z) (data l : list A) : list A :=
  ztake a l ++ replicate (Z.to_nat (a - len l)) x ++ data ++ zdrop (a + len data) l.

Lemma len_ztake {A} n (l : list A) : 0 <= n -> len (ztake n l) = Z.min n (len l).
Proof. intros. unfold len, ztake. rewrite length_take. lia. Qed.

Lemma len_zdrop {A} n (l : list A) : 0 <= n -> len (zdrop n l) = Z.max 0 (len l - n).
Proof. intros. unfold len, zdrop. rewrite length_drop. lia. Qed.

Lemma len_replicate {A} n (x : A) : 0 <= n -> len (replicate (Z.to_nat n) x) = n.
Proof. intros. unfold len. rewrite length_replicate. lia. Qed.

Lemma ztake_ge {A} n (l : list A) : len l <= n -> ztake n l = l.
Proof. intros. unfold ztake. apply take_ge. unfold len in *. lia. Qed.

Lemma zdrop_ge {A} n (l : list A) : len l <= n -> zdrop n l = [].
Proof. intros. unfold zdrop. apply drop_ge. unfold len in *. lia. Qed.

Lemma zdrop_0 {A} (l : list A) : zdrop 0 l = l.
Proof. reflexivity. Qed.

Lemma ztake_zdrop {A} n (l : list A) : ztake n l ++ zdrop n l = l.
Proof. apply take_drop. Qed.

Lemma len_overlay {A} (x : A) a data l :
  0 <= a -> len (overlay x a data l) = Z.max (len l) (a + len data).
Proof.
  intros Ha. unfold overlay. rewrite !len_app.
  pose proof (len_nonneg data). pose proof (len_nonneg l).
  rewrite len_ztake, len_zdrop by lia.
  destruct (Z.leb_spec a (len l)).
  - replace (Z.to_nat (a - len l)) with 0%nat by lia. simpl replicate. unfold len in *. simpl length. lia.
  - rewrite len_replicate by lia. lia.
Qed.

Lemma slice_ok {E A} a b (l : list A) :
  0 <= a <= b -> b <= len l -> @slice E A a b l = Ok (ztake (b - a) (zdrop a l)).
Proof.
  intros. unfold slice.
  destruct (Z.leb_spec a b), (Z.leb_spec b (len l)); simpl; done || lia.
Qed.

Lemma slice_panic {E A} a b (l : list A) :
  b < a \/ len l < b -> @slice E A a b l = Panic.
Proof.
  intros. unfold slice.
  destruct (Z.leb_spec a b), (Z.leb_spec b (len l)); simpl; done || lia.
Qed.

Lemma slice_full {E A} (l : list A) : @slice E A 0 (len l) l = Ok l.
Proof.
  pose proof (len_nonneg l). rewrite slice_ok by lia.
  rewrite zdrop_0, ztake_ge by lia. done.
Qed.

Lemma resize_grow {E A} n (x : A) l :
  len l < n <= isize_max ->
  @resize E A n x l = Ok (l ++ replicate (Z.to_nat (n - len l)) x).
Proof.
  intros. unfold resize.
  destruct (Z.leb_spec n (len l)); [lia|].
  destruct (Z.ltb_spec isize_max n); [lia|done].
Qed.

Lemma extend_from_slice_ok {E A} (data l : list A) :
  len l + len data <= isize_max -> @extend_from_slice E A data l = Ok (l ++ data).
Proof. intros. unfold extend_from_slice. destruct (Z.ltb_spec isize_max (len l + len data)); done || lia. Qed.

Lemma copy_from_slice_ok {E A} a (data l : list A) :
  a + len data <= len l ->
  @copy_from_slice E A a data l = Ok (ztake a l ++ data ++ zdrop (a + len data) l).
Proof. intros. unfold copy_from_slice. destruct (Z.leb_spec (a + len data) (len l)); done || lia. Qed.

(** Growing to the end of the write and then copying is [overlay]. *)
Lemma resize_copy_overlay {E A} (x : A) a data l :
  0 <= a -> a + len data <= isize_max -> len l <= a + len data ->
  (l' ← (if len l <? a + len data then @resize E A (a + len data) x l else Ok l);
   copy_from_slice a data l') = Ok (overlay x a data l).
Proof.
  intros Ha Hmax Hl. pose proof (len_nonneg data).
  destruct (Z.ltb_spec (len l) (a + len data)).
  - rewrite resize_grow by lia. simpl.
    set (n := Z.to_nat (a + len data - len l)).
    assert (Hlen : len (l ++ replicate n x) = a + len data).
    { rewrite len_app. unfold n. rewrite len_replicate; lia. }
    rewrite copy_from_slice_ok by lia. unfold overlay. f_equal.
    rewrite (zdrop_ge (a + len data) l) by lia.
    rewrite zdrop_ge by lia.
    rewrite (app_assoc (ztake a l)). f_equal.
    unfold ztake, len in *. rewrite take_app. f_equal.
    rewrite take_replicate. f_equal. unfold n. lia.
  - simpl. rewrite copy_from_slice_ok by lia. unfold overlay.
    replace (Z.to_nat (a - len l)) with 0%nat by lia. done.
Qed.

(** ** Chains in a finite graph

    Following a partial function [next] whose domain is finite: a walk longer
    than the domain never ends. *)

Section Chain.
Context {K : Type} `{Countable K} (next : K -> option K) (D : gset K).
Hypothesis next_dom : forall c c', next c = Some c' -> c ∈ D.

(** [f + 1] steps can be taken from [c]. *)
Fixpoint chain (f : nat) (c : K) : bool :=
  match next c with
  | None => false
  | Some c' => match f with O => true | S f' => chain f' c' end
  end.

Definition starts (f : nat) : gset K := filter (fun c => chain f c = true) D.

Lemma elem_of_starts f c : c ∈ starts f <-> chain f c = true.
Proof.
  unfold starts. rewrite elem_of_filter. split; [by intros []|]. intros Hc. split; [done|].
  destruct f; simpl in Hc; destruct (next c) eqn:E; eauto; done.
Qed.

Lemma chain_pred f c : chain (S f) c = true -> chain f c = true.
Proof.
  revert c. induction f as [|f IH]; intros c.
  - simpl. by destruct (next c).
  - change (match next c with Some c' => chain (S f) c' | None => false end = true ->
            match next c with Some c' => chain f c' | None => false end = true).
    destruct (next c); auto.
Qed.

Lemma starts_stable j m : starts (S j) = starts j -> starts (m + j) = starts j.
Proof.
  intros Hj. induction m as [|m IH]; [done|]. rewrite <- Hj. apply set_eq. intros c.
  rewrite !elem_of_starts. simpl. destruct (next c) as [c'|]; [|done].
  rewrite <- !elem_of_starts. by rewrite IH.
Qed.

Lemma starts_shrink k :
  (exists j, (j <= k)%nat /\ starts (S j) = starts j) \/ (size (starts k) + k <= size D)%nat.
Proof.
  induction k as [|k [(j & Hj & Hs)|IH]].
  - right. rewrite Nat.add_0_r. apply subseteq_size. unfold starts. set_solver.
  - left. exists j. split; [lia|done].
  - destruct (decide (starts (S k) = starts k)) as [He|Hne]; [left; eauto|]. right.
    enough (size (starts (S k)) < size (starts k))%nat by lia.
    apply subset_size. split.
    + intros c. rewrite !elem_of_starts. apply chain_pred.
    + intros Hsub. apply Hne. apply set_eq. intros c. split; [|apply Hsub].
      rewrite !elem_of_starts. apply chain_pred.
Qed.

Lemma chain_forever f c m : (size D <= f)%nat -> chain f c = true -> chain m c = true.
Proof.
  intros Hf Hc.
  assert (Hle : forall a b, (a <= b)%nat -> chain b c = true -> chain a c = true).
  { intros a b Hab. induction Hab; [done|]. intros ?%chain_pred. auto. }
  destruct (starts_shrink f) as [(j & Hj & Hs)|Hsz].
  - apply (Hle m (m + j)%nat); [lia|]. rewrite <- elem_of_starts, (starts_stable j m Hs).
    apply elem_of_starts, (Hle j f); done.
  - assert (Hz : size (starts f) = 0%nat) by lia. apply size_empty_inv in Hz.
    apply elem_of_starts in Hc. set_solver.
Qed.
End Chain.

(** ** Sorting

    [sort_by], which is stable, as an insertion sort. *)

Section Sort.
Context {A : Type} (cmp : A -> A -> comparison).

Fixpoint insert_by (x : A) (l : list A) : list A :=
  match l with
  | [] => [x]
  | y :: l' => match cmp x y with Gt => y :: insert_by x l' | _ => x :: l end
  end.

Definition sort_by (l : list A) : list A := fold_right insert_by [] l.

Lemma insert_by_perm x l : insert_by x l ≡ₚ x :: l.
Proof.
  induction l as [|y l IH]; simpl; [done|]. destruct (cmp x y); try done.
  rewrite IH. constructor.
Qed.

Lemma sort_by_perm l : sort_by l ≡ₚ l.
Proof. induction l as [|x l IH]; simpl; [done|]. by rewrite insert_by_perm, IH. Qed.
End Sort.

(** How many elements pass a test, when one of them is replaced. *)
Lemma filter_insert_length {A} (f : A -> bool) (l : list A) i x y :
  l !! i = Some x ->
  Z.of_nat (length (List.filter f (<[i := y]> l)))
  = Z.of_nat (length (List.filter f l)) + (if f y then 1 else 0) - (if f x then 1 else 0).
Proof.
  revert i. induction l as [|z l IH]; intros [|i]; simpl; try done.
  - intros; simplify_eq. destruct (f x), (f y); simpl; lia.
  - intros Hi. specialize (IH i Hi). destruct (f z); simpl; lia.
Qed.

(** ** Tactics *)

(** Unfold the monadic plumbing of an operation applied to a state. *)
Ltac munfold :=
  unfold exec, result, lift, fail_if, gets, modify, put, get, fail in *;
  unfold mbind, mret, M_bind, M_ret, outcome_bind, outcome_ret in *; simpl in *.

(** Case split on the boolean and option tests of the goal. *)
Ltac msplit :=
  repeat (case_match || case_decide); simplify_eq; try done.

Ltac bool_lia :=
  repeat match goal with
  | H : (_ <=? _) = true |- _ => apply Z.leb_le in H
  | H : (_ <=? _) = false |- _ => apply Z.leb_gt in H
  | H : (_ <? _) = true |- _ => apply Z.ltb_lt in H
  | H : (_ <? _) = false |- _ => apply Z.ltb_ge in H
  | H : (_ =? _) = true |- _ => apply Z.eqb_eq in H
  | H : (_ =? _) = false |- _ => apply Z.eqb_neq in H
  | H : (_ && _) = true |- _ => apply andb_true_iff in H as [? ?]
  | H : (_ || _) = false |- _ => apply orb_false_iff in H as [? ?]
  end; try lia.
