(* ===== verification/Text.v ===== *)
(** * Text: Rust strings

    A [String], a [&str] or a path is a Rocq [string], read as its UTF-8
    bytes.  This file holds the pieces of [core::str], [core::fmt] and
    [core::num] that the program uses: decoding and lossy decoding of bytes,
    [trim], the affix functions, decimal and octal formatting, the parsing of
    unsigned numbers, and the byte order of strings. *)

From S2P Require Import Prelude.
From Stdlib Require Import Strings.Byte Strings.Ascii.
From Stdlib Require Strings.String.

(** ** Bytes of a string *)

Definition as_bytes (s : string) : bytes := String.list_byte_of_string s.
Definition from_bytes (l : bytes) : string := String.string_of_list_byte l.

Definition str_len (s : string) : Z := Z.of_nat (String.length s).

Definition byte_val (b : u8) : Z := Z.of_N (Byte.to_N b).

Lemma from_bytes_as_bytes s : from_bytes (as_bytes s) = s.
Proof. apply String.string_of_list_byte_of_string. Qed.

Lemma as_bytes_from_bytes l : as_bytes (from_bytes l) = l.
Proof. apply String.list_byte_of_string_of_list_byte. Qed.

#[global] Instance as_bytes_inj : Inj (=) (=) as_bytes.
Proof. intros s t H. rewrite <- (from_bytes_as_bytes s), H. apply from_bytes_as_bytes. Qed.

Lemma string_app_cons a (s t : string) : String a s +:+ t = String a (s +:+ t).
Proof. reflexivity. Qed.

Lemma as_bytes_app s t : as_bytes (s +:+ t) = as_bytes s ++ as_bytes t.
Proof.
  unfold as_bytes, String.list_byte_of_string.
  induction s as [|a s IH]; [done|].
  rewrite string_app_cons. simpl. by rewrite IH.
Qed.

Lemma len_as_bytes s : len (as_bytes s) = str_len s.
Proof.
  unfold len, str_len, as_bytes, String.list_byte_of_string. rewrite List.length_map.
  f_equal. induction s as [|a s IH]; simpl; congruence.
Qed.

Lemma str_len_app s t : str_len (s +:+ t) = str_len s + str_len t.
Proof. rewrite <- !len_as_bytes, as_bytes_app. apply len_app. Qed.

Lemma string_app_assoc (r s t : string) : r +:+ (s +:+ t) = (r +:+ s) +:+ t.
Proof. induction r as [|a r IH]; [done|]. by rewrite !string_app_cons, IH. Qed.

Lemma string_app_nil_r (s : string) : s +:+ ""%string = s.
Proof. induction s as [|a s IH]; [done|]. by rewrite !string_app_cons, IH. Qed.

#[export] Hint Rewrite as_bytes_app as_bytes_from_bytes from_bytes_as_bytes str_len_app : racfs.

(** ** UTF-8 *)

(** One step of the decoder: a character with its code point and its bytes, or
    a maximal invalid sequence. *)
Inductive utf8_item :=
| Char (cp : Z) (raw : bytes)
| Invalid.

Definition is_cont (b : u8) : bool := let v := byte_val b in (128 <=? v) && (v <=? 191).

(** The ranges allowed for the second byte of a three- or four-byte sequence. *)
Definition second3_ok (b c : u8) : bool :=
  let v := byte_val b in let w := byte_val c in
  (((v =? 224) && (160 <=? w) && (w <=? 191))
   || ((225 <=? v) && (v <=? 236) && (128 <=? w) && (w <=? 191))
   || ((v =? 237) && (128 <=? w) && (w <=? 159))
   || ((238 <=? v) && (v <=? 239) && (128 <=? w) && (w <=? 191)))%bool.

Definition second4_ok (b c : u8) : bool :=
  let v := byte_val b in let w := byte_val c in
  (((v =? 240) && (144 <=? w) && (w <=? 191))
   || ((241 <=? v) && (v <=? 243) && (128 <=? w) && (w <=? 191))
   || ((v =? 244) && (128 <=? w) && (w <=? 143)))%bool.

Definition cp2 (b c : u8) : Z := (byte_val b - 192) * 64 + (byte_val c - 128).
Definition cp3 (b c d : u8) : Z :=
  (byte_val b - 224) * 4096 + (byte_val c - 128) * 64 + (byte_val d - 128).
Definition cp4 (b c d e : u8) : Z :=
  (byte_val b - 240) * 262144 + (byte_val c - 128) * 4096 + (byte_val d - 128) * 64
  + (byte_val e - 128).

(** The decoder of [core::str::lossy], item by item. *)
Fixpoint utf8_items (l : bytes) : list utf8_item :=
  match l with
  | [] => []
  | b :: l1 =>
    let v := byte_val b in
    if v <? 128 then Char v [b] :: utf8_items l1
    else if (194 <=? v) && (v <=? 223) then
      match l1 with
      | c :: l2 => if is_cont c then Char (cp2 b c) [b; c] :: utf8_items l2
                   else Invalid :: utf8_items l1
      | [] => [Invalid]
      end
    else if (224 <=? v) && (v <=? 239) then
      match l1 with
      | c :: l2 =>
        if second3_ok b c then
          match l2 with
          | d :: l3 => if is_cont d then Char (cp3 b c d) [b; c; d] :: utf8_items l3
                       else Invalid :: utf8_items l2
          | [] => [Invalid]
          end
        else Invalid :: utf8_items l1
      | [] => [Invalid]
      end
    else if (240 <=? v) && (v <=? 244) then
      match l1 with
      | c :: l2 =>
        if second4_ok b c then
          match l2 with
          | d :: l3 =>
            if is_cont d then
              match l3 with
              | e :: l4 => if is_cont e then Char (cp4 b c d e) [b; c; d; e] :: utf8_items l4
                           else Invalid :: utf8_items l3
              | [] => [Invalid]
              end
            else Invalid :: utf8_items l2
          | [] => [Invalid]
          end
        else Invalid :: utf8_items l1
      | [] => [Invalid]
      end
    else Invalid :: utf8_items l1
  end.

Definition is_char (i : utf8_item) : bool := match i with Char _ _ => true | Invalid => false end.

Definition replacement : bytes := [Byte.xef; Byte.xbf; Byte.xbd].

Definition item_bytes (i : utf8_item) : bytes :=
  match i with Char _ raw => raw | Invalid => replacement end.

(** [str::from_utf8] *)
Definition from_utf8 (l : bytes) : option string :=
  if forallb is_char (utf8_items l) then Some (from_bytes l) else None.

(** [String::from_utf8_lossy] *)
Definition from_utf8_lossy (l : bytes) : string :=
  from_bytes (concat (map item_bytes (utf8_items l))).

(** Bytes of ASCII are their own characters. *)
Definition ascii_item (b : u8) : utf8_item := Char (byte_val b) [b].

Lemma utf8_items_ascii l : Forall (fun b => byte_val b < 128) l -> utf8_items l = map ascii_item l.
Proof.
  induction 1 as [|b l Hb _ IH]; [done|].
  cbn [utf8_items]. destruct (Z.ltb_spec (byte_val b) 128); [|lia]. simpl. by rewrite IH.
Qed.

Lemma concat_ascii_items l : concat (map item_bytes (map ascii_item l)) = l.
Proof. induction l as [|b l IH]; [done|]. simpl. by rewrite IH. Qed.

Lemma lossy_ascii l : Forall (fun b => byte_val b < 128) l -> from_utf8_lossy l = from_bytes l.
Proof. intros Hl. unfold from_utf8_lossy. by rewrite utf8_items_ascii, concat_ascii_items. Qed.

Lemma from_utf8_ascii l : Forall (fun b => byte_val b < 128) l -> from_utf8 l = Some (from_bytes l).
Proof.
  intros Hl. unfold from_utf8. rewrite utf8_items_ascii by done.
  replace (forallb is_char (map ascii_item l)) with true; [done|]. symmetry. clear Hl. by induction l.
Qed.

(** [str::is_char_boundary], on an index of the string. *)
Definition is_char_boundary (s : string) (i : nat) : bool :=
  if (i =? 0)%nat then true
  else match as_bytes s !! i with
       | Some b => negb (is_cont b)
       | None => (i =? String.length s)%nat
       end.

Definition is_ascii (s : string) : bool := forallb (fun b => byte_val b <? 128) (as_bytes s).

(** How many bytes are decoded before the first invalid sequence. *)
Fixpoint valid_up_to (l : list utf8_item) : nat :=
  match l with
  | Char _ raw :: l' => (length raw + valid_up_to l')%nat
  | _ => O
  end.

(** [Utf8Error::error_len] of the invalid sequence that [l] starts with. *)
Definition utf8_error_len (l : bytes) : option Z :=
  match l with
  | b :: l1 =>
    let v := byte_val b in
    if (194 <=? v) && (v <=? 223) then match l1 with [] => None | _ => Some 1 end
    else if (224 <=? v) && (v <=? 239) then
      match l1 with
      | [] => None
      | c :: l2 => if second3_ok b c then match l2 with [] => None | _ => Some 2 end else Some 1
      end
    else if (240 <=? v) && (v <=? 244) then
      match l1 with
      | [] => None
      | c :: l2 =>
        if second4_ok b c then
          match l2 with
          | [] => None
          | d :: l3 => if is_cont d then match l3 with [] => None | _ => Some 3 end else Some 2
          end
        else Some 1
      end
    else Some 1
  | [] => None
  end.

(** [char::is_whitespace]: the Unicode property White_Space. *)
Definition is_whitespace (cp : Z) : bool :=
  (((9 <=? cp) && (cp <=? 13)) || (cp =? 32) || (cp =? 133) || (cp =? 160) || (cp =? 5760)
   || ((8192 <=? cp) && (cp <=? 8202)) || (cp =? 8232) || (cp =? 8233) || (cp =? 8239)
   || (cp =? 8287) || (cp =? 12288))%bool.

Definition ws_item (i : utf8_item) : bool :=
  match i with Char cp _ => is_whitespace cp | Invalid => false end.

Fixpoint drop_while {A} (p : A -> bool) (l : list A) : list A :=
  match l with
  | [] => []
  | x :: l' => if p x then drop_while p l' else l
  end.

(** [str::trim] *)
Definition trim (s : string) : string :=
  let items := drop_while ws_item (utf8_items (as_bytes s)) in
  from_bytes (concat (map item_bytes (rev (drop_while ws_item (rev items))))).

(** A text of ASCII without white space is trimmed already. *)
Lemma trim_id s :
  Forall (fun b => byte_val b < 128 /\ is_whitespace (byte_val b) = false) (as_bytes s) -> trim s = s.
Proof.
  intros Hs. unfold trim.
  assert (Hkeep : forall l, Forall (fun b => byte_val b < 128 /\ is_whitespace (byte_val b) = false) l ->
                            drop_while ws_item (map ascii_item l) = map ascii_item l).
  { intros [|b l] Hl; [done|]. apply Forall_cons in Hl as [[_ Hb] _]. simpl. by rewrite Hb. }
  rewrite utf8_items_ascii by (by eapply Forall_impl; [exact Hs|intros ? []]).
  rewrite Hkeep by done. rewrite <- map_rev, Hkeep by (by apply Forall_rev).
  by rewrite <- map_rev, rev_involutive, concat_ascii_items, from_bytes_as_bytes.
Qed.

(** [str::to_uppercase].  The characters whose uppercase is ASCII are listed;
    every other one is kept, and its uppercase holds a character outside
    ASCII. *)
Definition uppercase_item (i : utf8_item) : bytes :=
  match i with
  | Char cp b =>
    if (97 <=? cp) && (cp <=? 122)
    then as_bytes (String (ascii_of_nat (Z.to_nat (cp - 32))) EmptyString)
    else if cp =? 305 then as_bytes "I"
    else if cp =? 383 then as_bytes "S"
    else if cp =? 223 then as_bytes "SS"
    else if cp =? 64256 then as_bytes "FF"
    else if cp =? 64257 then as_bytes "FI"
    else if cp =? 64258 then as_bytes "FL"
    else if cp =? 64259 then as_bytes "FFI"
    else if cp =? 64260 then as_bytes "FFL"
    else if (cp =? 64261) || (cp =? 64262) then as_bytes "ST"
    else item_bytes i
  | Invalid => item_bytes i
  end.
Definition to_uppercase (s : string) : string :=
  from_bytes (concat (map uppercase_item (utf8_items (as_bytes s)))).

(** [u8::to_ascii_lowercase] on every byte. *)
Definition ascii_lower (a : ascii) : ascii :=
  let n := nat_of_ascii a in if ((65 <=? n) && (n <=? 90))%nat then ascii_of_nat (n + 32) else a.
Fixpoint to_ascii_lowercase (s : string) : string :=
  match s with EmptyString => EmptyString | String a s' => String (ascii_lower a) (to_ascii_lowercase s') end.

(** [str::eq_ignore_ascii_case] *)
Definition eq_ignore_ascii_case (s t : string) : bool :=
  String.eqb (to_ascii_lowercase s) (to_ascii_lowercase t).

(** ** Affixes *)

Definition starts_with (s p : string) : bool := String.prefix p s.

(** [str::strip_prefix] *)
Definition strip_prefix_str (s p : string) : option string :=
  if String.prefix p s
  then Some (String.substring (String.length p) (String.length s - String.length p) s)
  else None.

Definition ends_with (s p : string) : bool :=
  let n := String.length s in let m := String.length p in
  if (m <=? n)%nat then String.eqb (String.substring (n - m) m s) p else false.

(** [str::strip_suffix] *)
Definition strip_suffix_str (s p : string) : option string :=
  if ends_with s p then Some (String.substring 0 (String.length s - String.length p) s) else None.

(** [str::trim_start_matches(c)] for a character [c]. *)
Fixpoint trim_start_char (c : ascii) (s : string) : string :=
  match s with
  | String a s' => if Ascii.eqb a c then trim_start_char c s' else s
  | EmptyString => EmptyString
  end.

(** [str::trim_end_matches(p)] for a non-empty string [p]. *)
Fixpoint trim_end_str_aux (fuel : nat) (p s : string) : string :=
  match fuel with
  | O => s
  | S f => match strip_suffix_str s p with
           | Some s' => trim_end_str_aux f p s'
           | None => s
           end
  end.
Definition trim_end_str (p s : string) : string := trim_end_str_aux (String.length s) p s.

(** [str::split(c)]: the pieces between the occurrences of [c]; never empty. *)
Fixpoint split_char (c : ascii) (s : string) : list string :=
  match s with
  | EmptyString => [EmptyString]
  | String a s' =>
    if Ascii.eqb a c then EmptyString :: split_char c s'
    else match split_char c s' with
         | [] => [String a EmptyString]
         | p :: ps => String a p :: ps
         end
  end.

(** [[..].join(sep)] *)
Fixpoint join_str (sep : string) (l : list string) : string :=
  match l with
  | [] => EmptyString
  | [s] => s
  | s :: l' => s +:+ sep +:+ join_str sep l'
  end.

Definition contains_char (s : string) (c : ascii) : bool :=
  existsb (Ascii.eqb c) (String.list_ascii_of_string s).

(** [str::contains(p)] *)
Fixpoint contains_str (s p : string) : bool :=
  String.prefix p s ||
  match s with
  | String _ s' => contains_str s' p
  | EmptyString => false
  end.

(** The order of strings, by their bytes. *)
Fixpoint bytes_cmp (s t : string) : comparison :=
  match s, t with
  | EmptyString, EmptyString => Eq
  | EmptyString, String _ _ => Lt
  | String _ _, EmptyString => Gt
  | String a s', String b t' =>
    match N.compare (N_of_ascii a) (N_of_ascii b) with
    | Eq => bytes_cmp s' t'
    | c => c
    end
  end.

(** ** Formatting of unsigned integers *)

Definition digit (d : Z) : ascii := ascii_of_nat (48 + Z.to_nat d).

Fixpoint fmt_radix (fuel : nat) (r n : Z) (acc : string) : string :=
  match fuel with
  | O => acc
  | S f =>
    let acc' := String (digit (n mod r)) acc in
    if n <? r then acc' else fmt_radix f r (n / r) acc'
  end.

(** [n.to_string()], [format!("{:o}", n)]: a [u64] has at most twenty decimal
    and twenty-two octal digits. *)
Definition to_string (n : Z) : string := fmt_radix 20 10 n "".
Definition to_octal (n : Z) : string := fmt_radix 22 8 n "".

Fixpoint zeros (n : nat) : string :=
  match n with O => EmptyString | S k => String "0"%char (zeros k) end.

(** [Display] of [Utf8Error] for bytes that [from_utf8] rejects. *)
Definition utf8_error_text (l : bytes) : string :=
  let n := valid_up_to (utf8_items l) in
  match utf8_error_len (drop n l) with
  | Some k => "invalid utf-8 sequence of " +:+ to_string k +:+ " bytes from index "
                +:+ to_string (Z.of_nat n)
  | None => "incomplete utf-8 byte sequence from index " +:+ to_string (Z.of_nat n)
  end.

(** [s] between double quotes. *)
Definition dquote : string := String (ascii_of_nat 34) EmptyString.
Definition quoted (s : string) : string := dquote +:+ s +:+ dquote.

(** [format!("{:0w$}", n)] *)
Definition fmt_zero_pad (w : nat) (n : Z) : string :=
  let s := to_string n in zeros (w - String.length s) +:+ s.

(** ** Parsing of [u64] *)

Definition digit_val (a : ascii) : option Z :=
  let n := Z.of_nat (nat_of_ascii a) in
  if (48 <=? n) && (n <=? 57) then Some (n - 48) else None.

(** Every step checks the range of [u64]. *)
Fixpoint parse_digits (acc : Z) (s : string) : option Z :=
  match s with
  | EmptyString => Some acc
  | String a s' =>
    match digit_val a with
    | Some d => let acc' := acc * 10 + d in
                if acc' <=? u64_max then parse_digits acc' s' else None
    | None => None
    end
  end.

(** [s.parse::<u64>()], and [usize] on a 64-bit target. *)
Definition parse_u64 (s : string) : option Z :=
  match s with
  | EmptyString => None
  | String a s' =>
    if Ascii.eqb a "+"%char
    then match s' with EmptyString => None | _ => parse_digits 0 s' end
    else parse_digits 0 s
  end.

Lemma digit_val_range a d : digit_val a = Some d -> 0 <= d <= 9.
Proof. unfold digit_val. case_match; [|done]. intros [= <-]. bool_lia. Qed.

Lemma parse_digits_range acc s n : 0 <= acc <= u64_max -> parse_digits acc s = Some n -> 0 <= n <= u64_max.
Proof.
  revert acc. induction s as [|a s IH]; intros acc Hacc; cbn [parse_digits]; [by intros [= <-]|].
  destruct (digit_val a) as [d|] eqn:Ed; [|done]. apply digit_val_range in Ed.
  destruct (Z.leb_spec (acc * 10 + d) u64_max); [|done]. apply IH. lia.
Qed.

Lemma parse_u64_range s n : parse_u64 s = Some n -> 0 <= n <= u64_max.
Proof.
  unfold parse_u64. destruct s as [|a s]; [done|].
  assert (0 <= 0 <= u64_max) by (unfold u64_max; lia).
  destruct (Ascii.eqb a "+"%char); [destruct s; [done|]|]; by apply parse_digits_range.
Qed.

(** ** Fixed-width decimals *)

(** The [w] low decimal digits of [n]. *)
Fixpoint fixed (w : nat) (n : Z) : string :=
  match w with
  | O => EmptyString
  | S k => fixed k (n / 10) +:+ String (digit (n mod 10)) EmptyString
  end.

Lemma string_length_app (s t : string) :
  String.length (s +:+ t) = (String.length s + String.length t)%nat.
Proof. pose proof (str_len_app s t). unfold str_len in *. lia. Qed.

Lemma length_fixed w n : String.length (fixed w n) = w.
Proof.
  revert n. induction w as [|w IH]; intros n; simpl; [done|].
  rewrite string_length_app, IH. simpl. lia.
Qed.

Lemma fixed_0 w : fixed w 0 = zeros w.
Proof.
  assert (Hz : forall k, zeros k +:+ String "0"%char EmptyString = zeros (S k)).
  { induction k as [|k IH]; [done|]. simpl zeros. rewrite string_app_cons. by rewrite IH. }
  induction w as [|w IH]; simpl fixed; [done|]. change (0 / 10) with 0. rewrite IH. apply Hz.
Qed.

Lemma fmt_radix_acc fuel r n acc : fmt_radix fuel r n acc = fmt_radix fuel r n "" +:+ acc.
Proof.
  revert n acc. induction fuel as [|f IH]; intros n acc; simpl; [done|].
  destruct (n <? r); [done|].
  rewrite IH, (IH _ (String _ EmptyString)), <- string_app_assoc. done.
Qed.

Lemma fmt_radix_fixed fuel w n :
  0 <= n < 10 ^ Z.of_nat w -> (1 <= w <= fuel)%nat ->
  (String.length (fmt_radix fuel 10 n "") <= w)%nat /\
  zeros (w - String.length (fmt_radix fuel 10 n "")) +:+ fmt_radix fuel 10 n "" = fixed w n.
Proof.
  revert w n. induction fuel as [|f IH]; intros w n Hn Hw; [lia|].
  destruct w as [|w]; [lia|]. cbn [fmt_radix fixed].
  destruct (Z.ltb_spec n 10).
  - rewrite Z.div_small by lia. cbn [String.length]. split; [lia|].
    replace (S w - 1)%nat with w by lia. by rewrite fixed_0.
  - rewrite fmt_radix_acc. rewrite string_length_app. cbn [String.length].
    rewrite Nat2Z.inj_succ, Z.pow_succ_r in Hn by lia.
    destruct (IH w (n / 10)) as [H1 H2].
    + split; [apply Z.div_pos; lia|]. apply Z.div_lt_upper_bound; lia.
    + destruct w; [simpl in Hn; lia|]. lia.
    + split; [lia|].
      replace (S w - (String.length (fmt_radix f 10 (n / 10) "") + 1))%nat
        with (w - String.length (fmt_radix f 10 (n / 10) ""))%nat by lia.
      by rewrite string_app_assoc, H2.
Qed.

(** Zero padding to a width that is enough gives the fixed-width form. *)
Lemma fmt_zero_pad_fixed w n :
  0 <= n < 10 ^ Z.of_nat w -> (1 <= w <= 20)%nat -> fmt_zero_pad w n = fixed w n.
Proof. intros. unfold fmt_zero_pad, to_string. by apply fmt_radix_fixed. Qed.

Lemma nat_of_digit d : 0 <= d < 10 -> nat_of_ascii (digit d) = (48 + Z.to_nat d)%nat.
Proof. intros. unfold digit. apply nat_ascii_embedding. lia. Qed.

(** ** A number reads back from its decimal form *)

Definition is_digit (a : ascii) : Prop := exists d, 0 <= d < 10 /\ a = digit d.

Lemma digit_val_digit d : 0 <= d < 10 -> digit_val (digit d) = Some d.
Proof.
  intros Hd. unfold digit_val. rewrite nat_of_digit by done.
  replace (Z.of_nat (48 + Z.to_nat d)) with (48 + d) by lia.
  destruct (Z.leb_spec 48 (48 + d)); [|lia]. destruct (Z.leb_spec (48 + d) 57); [|lia]. simpl. f_equal. lia.
Qed.

Fixpoint all_digits (s : string) : Prop :=
  match s with EmptyString => True | String a s' => is_digit a /\ all_digits s' end.

Lemma mod_10_digit n : 0 <= n -> 0 <= n mod 10 < 10.
Proof. intros. apply Z.mod_pos_bound. lia. Qed.

Lemma fmt_radix_digits fuel n t : 0 <= n -> all_digits t -> all_digits (fmt_radix fuel 10 n t).
Proof.
  revert n t. induction fuel as [|f IH]; intros n t Hn Ht; [done|]. cbn [fmt_radix].
  assert (Hd : is_digit (digit (n mod 10))) by (exists (n mod 10); split; [by apply mod_10_digit|done]).
  destruct (n <? 10); [done|]. apply IH; [|done]. apply Z.div_pos; lia.
Qed.

Lemma parse_fmt_radix fuel n t :
  0 <= n <= u64_max -> n < 10 ^ Z.of_nat fuel -> parse_digits 0 (fmt_radix fuel 10 n t) = parse_digits n t.
Proof.
  revert n t. induction fuel as [|f IH]; intros n t Hn Hlt.
  { simpl in Hlt. by replace n with 0 by lia. }
  rewrite Nat2Z.inj_succ, Z.pow_succ_r in Hlt by lia. cbn [fmt_radix].
  destruct (Z.ltb_spec n 10) as [Hs|Hb].
  - rewrite Z.mod_small by lia. cbn [parse_digits]. rewrite digit_val_digit by lia.
    change (0 * 10 + n) with n. by destruct (Z.leb_spec n u64_max); [|lia].
  - rewrite IH.
    + cbn [parse_digits]. rewrite digit_val_digit by (apply mod_10_digit; lia). cbv zeta.
      replace (n / 10 * 10 + n mod 10) with n by (rewrite (Z.div_mod n 10) at 1; lia).
      by destruct (Z.leb_spec n u64_max); [|lia].
    + split; [apply Z.div_pos; lia|]. apply Z.le_trans with n; [|lia]. apply Z.div_le_upper_bound; lia.
    + apply Z.div_lt_upper_bound; lia.
Qed.

Lemma to_string_digits n : 0 <= n -> all_digits (to_string n).
Proof. intros. by apply fmt_radix_digits. Qed.

Lemma digits_bytes s :
  all_digits s -> Forall (fun b => byte_val b < 128 /\ is_whitespace (byte_val b) = false) (as_bytes s).
Proof.
  induction s as [|a s IH]; intros Hs; [constructor|]. destruct Hs as [(d & Hd & ->) Hs].
  change (as_bytes (String (digit d) s)) with (byte_of_ascii (digit d) :: as_bytes s).
  constructor; [|by apply IH].
  assert (Hall : forallb (fun d => let b := byte_of_ascii (digit d) in
            (byte_val b <? 128) && negb (is_whitespace (byte_val b))) [0; 1; 2; 3; 4; 5; 6; 7; 8; 9] = true)
    by (vm_compute; reflexivity).
  rewrite forallb_forall in Hall. specialize (Hall d). apply andb_true_iff in Hall as [H1 H2].
  - split; [by apply Z.ltb_lt|by apply negb_true_iff].
  - simpl. lia.
Qed.

Lemma parse_to_string n : 0 <= n <= u64_max -> parse_u64 (trim (to_string n)) = Some n.
Proof.
  intros Hn. pose proof (to_string_digits n ltac:(lia)) as Hd.
  rewrite trim_id by (by apply digits_bytes). unfold parse_u64.
  pose proof (parse_fmt_radix 20 n "" Hn ltac:(apply Z.le_lt_trans with u64_max; [lia|vm_compute; reflexivity])) as Hp. fold (to_string n) in Hp.
  destruct (to_string n) as [|a s] eqn:E.
  { unfold to_string in E. cbn [fmt_radix] in E. destruct (n <? 10); [done|].
    exfalso. revert E. generalize (n / 10). intros m. clear.
    enough (Hne : forall f m a t, fmt_radix f 10 m (String a t) <> ""%string) by apply (Hne 19%nat).
    induction f as [|f IH]; intros m' a t; cbn [fmt_radix]; [done|]. destruct (m' <? 10); [done|apply IH]. }
  destruct Hd as [(d & Hdr & ->) _].
  replace (Ascii.eqb (digit d) "+"%char) with false; [exact Hp|]. symmetry. apply Ascii.eqb_neq. intros He.
  apply (f_equal nat_of_ascii) in He. rewrite nat_of_digit in He by done. change (nat_of_ascii "+"%char) with 43%nat in He. lia.
Qed.

Lemma from_utf8_to_string n : 0 <= n -> from_utf8 (as_bytes (to_string n)) = Some (to_string n).
Proof.
  intros Hn. rewrite from_utf8_ascii, from_bytes_as_bytes; [done|].
  eapply Forall_impl; [by apply digits_bytes, to_string_digits|]. by intros ? [].
Qed.
