(* ===== verification/RPath.v ===== *)
(** * RPath: std::path on Unix

    A [Path] or [PathBuf] is its raw text.  The functions follow the standard
    library: components skip empty and [.] segments, equality, hashing,
    [starts_with] and [strip_prefix] work on components, while [as_os_str],
    [to_string_lossy] and [push] work on the raw text.  Every path of the
    program is built from a [String], so the lossy conversion to text is the
    identity.  [PathMap] is a [HashMap] keyed by paths: equal keys are equal
    component lists, and the raw text of the first insertion is kept. *)

From S2P Require Import Prelude Text.
From Stdlib Require Import Strings.Ascii.
From Stdlib Require Strings.String.

Inductive Component :=
| RootDir
| CurDir
| ParentDir
| Normal (name : string).

#[global] Instance Component_eq_dec : EqDecision Component.
Proof. solve_decision. Defined.

#[global] Instance Component_countable : Countable Component.
Proof.
  refine (inj_countable'
    (fun c => match c with
              | RootDir => inl 0%nat | CurDir => inl 1%nat | ParentDir => inl 2%nat
              | Normal s => inr s
              end)
    (fun x => match x with
              | inl 0%nat => RootDir | inl 1%nat => CurDir | inl _ => ParentDir
              | inr s => Normal s
              end) _).
  by intros [].
Defined.

Abbreviation Path := string.

(** [/], the separator. *)
Definition slash : ascii := "/"%char.

Definition has_root (p : Path) : bool :=
  match p with String a _ => Ascii.eqb a slash | EmptyString => false end.

(** A segment between separators that [Components] skips. *)
Definition trivial_seg (s : string) : bool := String.eqb s "" || String.eqb s ".".

Definition seg_component (s : string) : Component :=
  if String.eqb s ".." then ParentDir else Normal s.

Definition segments (p : Path) : list string := split_char slash p.

(** The leading [.] of a relative path is the only one that is kept. *)
Definition has_cur_dir (p : Path) : bool :=
  negb (has_root p) &&
  match segments p with s :: _ => String.eqb s "." | [] => false end.

Definition body_components (segs : list string) : list Component :=
  map seg_component (List.filter (fun s => negb (trivial_seg s)) segs).

(** [Path::components] *)
Definition components (p : Path) : list Component :=
  (if has_root p then [RootDir] else if has_cur_dir p then [CurDir] else [])
    ++ body_components (segments p).

(** [Path == Path] *)
Definition path_eqb (p q : Path) : bool := bool_decide (components p = components q).

Definition component_str (c : Component) : string :=
  match c with
  | RootDir => "/"
  | CurDir => "."
  | ParentDir => ".."
  | Normal s => s
  end.

(** [Path::iter], as the strings of its items. *)
Definition path_iter (p : Path) : list string := map component_str (components p).

(** *** Raw views of a part of a path *)

(** The text in front of the body: the root, or the leading [.]. *)
Definition before_body (p : Path) : string :=
  if has_root p then "/" else if has_cur_dir p then "." else "".

(** The segments of the body, with the skipped ones. *)
Definition body_segments (p : Path) : list string :=
  if has_root p || has_cur_dir p then tail (segments p) else segments p.

(** Put a body back behind the text before it. *)
Definition with_body (p : Path) (body : list string) : Path :=
  if has_root p then "/" +:+ join_str "/" body
  else if has_cur_dir p then join_str "/" ("."%string :: body)
  else join_str "/" body.

Definition trim_right (segs : list string) : list string :=
  rev (drop_while trivial_seg (rev segs)).
Definition trim_left (segs : list string) : list string := drop_while trivial_seg segs.

(** [Path::parent] *)
Definition parent (p : Path) : option Path :=
  match trim_right (body_segments p) with
  | [] => if has_root p then None else if has_cur_dir p then Some ""%string else None
  | body => Some (with_body p (trim_right (removelast body)))
  end.

(** [Path::file_name] *)
Definition file_name (p : Path) : option string :=
  match last (components p) with Some (Normal s) => Some s | _ => None end.

(** Is [l] a prefix of [k]?  [Some] of the rest when it is. *)
Fixpoint list_strip_prefix {A} `{EqDecision A} (l k : list A) : option (list A) :=
  match l, k with
  | [], _ => Some k
  | x :: l', y :: k' => if decide (x = y) then list_strip_prefix l' k' else None
  | _ :: _, [] => None
  end.

(** [Path::starts_with] *)
Definition path_starts_with (p base : Path) : bool :=
  match list_strip_prefix (components base) (components p) with Some _ => true | None => false end.

(** Skip [n] components of a list of segments. *)
Fixpoint skip_components (n : nat) (segs : list string) : list string :=
  match n with
  | O => segs
  | S k => match trim_left segs with
           | [] => []
           | _ :: rest => skip_components k rest
           end
  end.

(** [Path::strip_prefix] *)
Definition path_strip_prefix (p base : Path) : option Path :=
  match list_strip_prefix (components base) (components p) with
  | None => None
  | Some _ =>
    Some
      (match components base with
       | [] => with_body p (trim_right (body_segments p))
       | _ =>
         let front := if has_root p || has_cur_dir p then 1%nat else 0%nat in
         let skipped := skip_components (length (components base) - front) (body_segments p) in
         join_str "/" (trim_right (trim_left skipped))
       end)
  end.

Definition last_char (p : Path) : option ascii := last (String.list_ascii_of_string p).

(** [PathBuf::push], also [Path::join]. *)
Definition join (p q : Path) : Path :=
  if has_root q then q
  else match last_char p with
       | Some c => if Ascii.eqb c slash then p +:+ q else p +:+ "/" +:+ q
       | None => q
       end.

(** [PathBuf::pop] *)
Definition pop (p : Path) : Path := match parent p with Some q => q | None => p end.

(** *** Order *)

(** The variants in the order of the enum, names by their bytes. *)
Definition component_cmp (c d : Component) : comparison :=
  let rank x := match x with RootDir => 0 | CurDir => 1 | ParentDir => 2 | Normal _ => 3 end in
  match c, d with
  | Normal s, Normal t => bytes_cmp s t
  | _, _ => Z.compare (rank c) (rank d)
  end.

(** [Path::cmp] *)
Definition path_cmp (p q : Path) : comparison :=
  (fix go (l k : list Component) : comparison :=
     match l, k with
     | [], [] => Eq
     | [], _ => Lt
     | _, [] => Gt
     | c :: l', d :: k' => match component_cmp c d with Eq => go l' k' | r => r end
     end) (components p) (components q).

(** *** Paths as keys *)

Definition PathMap (V : Type) : Type := gmap (list Component) (Path * V).

Section PathMap.
Context {V : Type}.
Implicit Types (m : PathMap V) (p : Path) (v : V).

Definition pm_get p m : option V := snd <$> (m : gmap _ _) !! components p.
Definition pm_contains p m : bool := bool_decide (is_Some ((m : gmap _ _) !! components p)).
(** [HashMap::insert]: an equal key that is already there stays. *)
Definition pm_insert p v m : PathMap V :=
  <[components p := (from_option fst p ((m : gmap _ _) !! components p), v)]> (m : gmap _ _).
Definition pm_remove p m : PathMap V := delete (components p) (m : gmap _ _).
(** An update through [get_mut]. *)
Definition pm_update p (f : V -> V) m : PathMap V :=
  alter (fun kv => (fst kv, f (snd kv))) (components p) (m : gmap _ _).
(** The entries in the map's iteration order, which is unspecified. *)
Definition pm_entries m : list (Path * V) := snd <$> map_to_list (m : gmap _ _).
Definition pm_keys m : list Path := fst <$> pm_entries m.
Definition pm_len m : Z := Z.of_nat (size (m : gmap _ _)).
(** [HashMap::retain] on the key. *)
Definition pm_retain (f : Path -> bool) m : PathMap V :=
  filter (fun kv => f (fst (snd kv)) = true) (m : gmap _ _).

Lemma pm_get_insert p v m : pm_get p (pm_insert p v m) = Some v.
Proof. unfold pm_get, pm_insert. by rewrite lookup_insert_eq. Qed.

Lemma pm_get_insert_ne p q v m :
  components p <> components q -> pm_get q (pm_insert p v m) = pm_get q m.
Proof. intros. unfold pm_get, pm_insert. by rewrite lookup_insert_ne. Qed.

Lemma pm_get_remove p m : pm_get p (pm_remove p m) = None.
Proof. unfold pm_get, pm_remove. by rewrite lookup_delete_eq. Qed.

Lemma pm_get_remove_ne p q m :
  components p <> components q -> pm_get q (pm_remove p m) = pm_get q m.
Proof. intros. unfold pm_get, pm_remove. by rewrite lookup_delete_ne. Qed.

Lemma pm_get_update p f m : pm_get p (pm_update p f m) = f <$> pm_get p m.
Proof.
  unfold pm_get, pm_update. rewrite lookup_alter, decide_True by done.
  by destruct ((m : gmap _ _) !! components p) as [[]|].
Qed.

Lemma pm_get_update_ne p q f m :
  components p <> components q -> pm_get q (pm_update p f m) = pm_get q m.
Proof.
  intros. unfold pm_get, pm_update. by rewrite lookup_alter, decide_False.
Qed.

Lemma pm_contains_get p m : pm_contains p m = true <-> is_Some (pm_get p m).
Proof. unfold pm_contains, pm_get. rewrite bool_decide_eq_true. by rewrite fmap_is_Some. Qed.

Lemma pm_contains_false p m : pm_contains p m = false <-> pm_get p m = None.
Proof.
  rewrite <- not_true_iff_false, pm_contains_get, eq_None_not_Some. done.
Qed.

Lemma pm_get_congr p q m : components p = components q -> pm_get p m = pm_get q m.
Proof. unfold pm_get. by intros ->. Qed.

(** A key text stored in the map denotes the slot it is stored in. *)
Definition pm_wf m : Prop :=
  forall c k v, (m : gmap _ _) !! c = Some (k, v) -> components k = c.

Lemma pm_wf_insert p v m : pm_wf m -> pm_wf (pm_insert p v m).
Proof.
  intros Hwf c k w. unfold pm_insert. rewrite lookup_insert. case_decide; [|apply Hwf].
  intros; simplify_eq. destruct ((m : gmap _ _) !! components p) as [[k' w']|] eqn:E; simpl; eauto.
Qed.

Lemma pm_wf_remove p m : pm_wf m -> pm_wf (pm_remove p m).
Proof.
  intros Hwf c k v. unfold pm_remove. rewrite lookup_delete. case_decide; [done|apply Hwf].
Qed.

Lemma pm_wf_update p f m : pm_wf m -> pm_wf (pm_update p f m).
Proof.
  intros Hwf c k v. unfold pm_update. rewrite lookup_alter. case_decide; [|apply Hwf].
  subst. destruct ((m : gmap _ _) !! components p) as [[k' w']|] eqn:E; simpl; [|done].
  intros; simplify_eq. eauto.
Qed.

Lemma pm_wf_retain f m : pm_wf m -> pm_wf (pm_retain f m).
Proof. intros Hwf c k v. unfold pm_retain. rewrite map_lookup_filter_Some. intros [? _]. eauto. Qed.

(** Every value satisfies an assertion on its slot. *)
Definition pm_all (P : list Component -> V -> Prop) m : Prop :=
  forall c k v, (m : gmap _ _) !! c = Some (k, v) -> P c v.

Lemma pm_all_get P p m v : pm_all P m -> pm_get p m = Some v -> P (components p) v.
Proof.
  unfold pm_get. intros Hall. destruct ((m : gmap _ _) !! components p) as [[k w]|] eqn:E; simpl; [|done].
  intros; simplify_eq. eauto.
Qed.

Lemma pm_all_empty P : pm_all P ∅.
Proof. intros c k v H. unfold PathMap in *. by rewrite lookup_empty in H. Qed.

Lemma pm_all_insert P p v m : P (components p) v -> pm_all P m -> pm_all P (pm_insert p v m).
Proof.
  intros Hv Hall c k w. unfold pm_insert. rewrite lookup_insert. case_decide; [|apply Hall].
  intros; simplify_eq. done.
Qed.

Lemma pm_all_remove P p m : pm_all P m -> pm_all P (pm_remove p m).
Proof. intros Hall c k v. unfold pm_remove. rewrite lookup_delete. case_decide; [done|apply Hall]. Qed.

Lemma pm_all_retain P f m : pm_all P m -> pm_all P (pm_retain f m).
Proof. intros Hall c k v. unfold pm_retain. rewrite map_lookup_filter_Some. intros [? _]. eauto. Qed.

Lemma pm_all_update P p v m :
  P (components p) v -> pm_all P m -> pm_all P (pm_update p (fun _ => v) m).
Proof.
  intros Hv Hall c k w. unfold pm_update. rewrite lookup_alter. case_decide; [|apply Hall].
  subst. destruct ((m : gmap _ _) !! components p) as [[k' w']|]; simpl; [|done].
  intros; by simplify_eq.
Qed.

Lemma pm_wf_empty : pm_wf ∅.
Proof. intros c k v H. unfold PathMap in *. by rewrite lookup_empty in H. Qed.

(** On a well-formed map a key test that respects component equality can be
    read off any text of the key. *)
Lemma pm_get_retain f p m :
  pm_wf m -> (forall k, components k = components p -> f k = f p) ->
  pm_get p (pm_retain f m) = if f p then pm_get p m else None.
Proof.
  intros Hwf Hf. unfold pm_get, pm_retain.
  destruct ((m : gmap _ _) !! components p) as [[k v]|] eqn:E.
  - specialize (Hf k (Hwf _ _ _ E)). destruct (f p).
    + rewrite (map_lookup_filter_Some_2 _ _ _ _ E); done.
    + rewrite map_lookup_filter_None_2; [done|]. right. intros x Hx.
      rewrite E in Hx. simplify_eq. simpl. congruence.
  - rewrite map_lookup_filter_None_2 by auto. by destruct (f p).
Qed.

Lemma elem_of_pm_entries k v m :
  pm_wf m -> (k, v) ∈ pm_entries m <-> (m : gmap _ _) !! components k = Some (k, v).
Proof.
  intros Hwf. unfold pm_entries. rewrite list_elem_of_fmap. split.
  - intros [[c kv] [Heq H]]. simpl in Heq. subst kv. apply elem_of_map_to_list in H.
    by rewrite (Hwf _ _ _ H).
  - intros H. exists (components k, (k, v)). split; [done|]. by apply elem_of_map_to_list.
Qed.

(** What [remove] asks of the other keys. *)
Lemma pm_has_below p c k v m :
  pm_wf m -> (m : gmap _ _) !! c = Some (k, v) -> c <> components p -> path_starts_with k p = true ->
  existsb (fun k => negb (path_eqb k p) && path_starts_with k p) (pm_keys (pm_remove p m)) = true.
Proof.
  intros Hwf Hc Hne Hsub. assert (Hk : components k = c) by eauto. apply existsb_exists. exists k. split.
  - apply list_elem_of_In. unfold pm_keys. apply list_elem_of_fmap. exists (k, v). split; [done|].
    apply elem_of_pm_entries; [by apply pm_wf_remove|]. unfold pm_remove.
    by rewrite lookup_delete_ne, Hk by congruence.
  - unfold path_eqb. rewrite Hsub, bool_decide_eq_false_2 by congruence. done.
Qed.
End PathMap.

#[export] Hint Resolve pm_all_empty pm_all_insert pm_all_remove pm_all_retain pm_all_update pm_wf_empty : racfs.
#[export] Hint Resolve pm_wf_insert pm_wf_remove pm_wf_update pm_wf_retain : racfs.
#[export] Hint Rewrite @pm_get_insert @pm_get_remove @pm_get_update : racfs.
