(* ===== verification/BTree.v ===== *)
(** * BTree: ordered maps

    [std::collections::BTreeMap] as an association list sorted by key, for the
    key types of the program: [u64] and [usize] ([Z]) and [String] (byte
    order).  The order is the class [KeyOrder]. *)

From S2P Require Import Prelude Text.
From Stdlib Require Import Strings.Ascii Sorting.Sorted.
From Stdlib Require Strings.String.

(** ** Ordered keys *)

Class KeyOrder (K : Type) := {
  kcmp : K -> K -> comparison;
  kcmp_refl : forall a, kcmp a a = Eq;
  kcmp_eq : forall a b, kcmp a b = Eq -> a = b;
  kcmp_antisym : forall a b, kcmp b a = CompOpp (kcmp a b);
  kcmp_trans : forall a b c, kcmp a b = Lt -> kcmp b c = Lt -> kcmp a c = Lt
}.

#[global] Instance Z_key_order : KeyOrder Z.
Proof.
  refine {| kcmp := Z.compare |}.
  - apply Z.compare_refl.
  - apply Z.compare_eq.
  - apply Z.compare_antisym.
  - intros a b c. rewrite !Z.compare_lt_iff. lia.
Defined.

Lemma N_of_ascii_inj a b : N_of_ascii a = N_of_ascii b -> a = b.
Proof. intros H. by rewrite <- (ascii_N_embedding a), H, ascii_N_embedding. Qed.

#[global] Instance string_key_order : KeyOrder string.
Proof.
  refine {| kcmp := bytes_cmp |}.
  - induction a as [|a s IH]; simpl; [done|]. by rewrite N.compare_refl.
  - induction a as [|a s IH]; intros [|b t]; simpl; try done.
    destruct (N.compare_spec (N_of_ascii a) (N_of_ascii b)) as [E| |]; try done.
    intros ->%IH. by rewrite (N_of_ascii_inj _ _ E).
  - induction a as [|a s IH]; intros [|b t]; simpl; try done.
    rewrite (N.compare_antisym (N_of_ascii a)).
    destruct (N.compare_spec (N_of_ascii a) (N_of_ascii b)); simpl; auto.
  - induction a as [|a s IH]; intros [|b t] [|c u]; simpl; try done.
    destruct (N.compare_spec (N_of_ascii a) (N_of_ascii b)),
      (N.compare_spec (N_of_ascii b) (N_of_ascii c)),
      (N.compare_spec (N_of_ascii a) (N_of_ascii c)); try done; try lia; eauto.
Defined.

Lemma bytes_cmp_refl s : bytes_cmp s s = Eq.
Proof. apply (@kcmp_refl string string_key_order). Qed.

Lemma bytes_cmp_eq s t : bytes_cmp s t = Eq -> s = t.
Proof. apply (@kcmp_eq string string_key_order). Qed.

(** *** The order of numerals *)

Lemma bytes_cmp_app s t a b :
  String.length s = String.length t ->
  bytes_cmp (s +:+ a) (t +:+ b) = match bytes_cmp s t with Eq => bytes_cmp a b | c => c end.
Proof.
  revert t. induction s as [|x s IH]; intros [|y t]; simpl; try done.
  intros [= Hl]. destruct (N.compare (N_of_ascii x) (N_of_ascii y)); [by apply IH|done..].
Qed.

Lemma bytes_cmp_digit a b :
  0 <= a < 10 -> 0 <= b < 10 ->
  bytes_cmp (String (digit a) EmptyString) (String (digit b) EmptyString) = Z.compare a b.
Proof.
  intros. cbn [bytes_cmp].
  assert (Hc : N.compare (N_of_ascii (digit a)) (N_of_ascii (digit b)) = Z.compare a b).
  { pose proof (nat_of_digit a ltac:(lia)) as Ha. pose proof (nat_of_digit b ltac:(lia)) as Hb.
    unfold nat_of_ascii in *.
    destruct (N.compare_spec (N_of_ascii (digit a)) (N_of_ascii (digit b))),
      (Z.compare_spec a b); done || lia. }
  rewrite Hc. by destruct (Z.compare a b).
Qed.

(** Decimals of one width are ordered as the numbers. *)
Lemma bytes_cmp_fixed w n m :
  0 <= n < 10 ^ Z.of_nat w -> 0 <= m < 10 ^ Z.of_nat w ->
  bytes_cmp (fixed w n) (fixed w m) = Z.compare n m.
Proof.
  revert n m. induction w as [|w IH]; intros n m Hn Hm.
  - simpl in *. symmetry. apply Z.compare_eq_iff. lia.
  - simpl fixed. rewrite bytes_cmp_app by by rewrite !length_fixed.
    rewrite Nat2Z.inj_succ, Z.pow_succ_r in Hn, Hm by lia.
    rewrite IH by (split; [apply Z.div_pos; lia|apply Z.div_lt_upper_bound; lia]).
    pose proof (Z.div_mod n 10 ltac:(lia)). pose proof (Z.div_mod m 10 ltac:(lia)).
    pose proof (Z.mod_pos_bound n 10 ltac:(lia)). pose proof (Z.mod_pos_bound m 10 ltac:(lia)).
    rewrite bytes_cmp_digit by lia.
    destruct (Z.compare_spec (n / 10) (m / 10)), (Z.compare_spec (n mod 10) (m mod 10));
      symmetry; rewrite ?Z.compare_eq_iff, ?Z.compare_lt_iff, ?Z.compare_gt_iff; lia.
Qed.

(** ** The map *)

Definition BTreeMap (K V : Type) : Type := list (K * V).

Section BTree.
Context {K V : Type} `{KeyOrder K}.
Implicit Types (k : K) (v : V) (m : BTreeMap K V).

Definition key_lt k k' : Prop := kcmp k k' = Lt.

#[global] Instance key_lt_strict : StrictOrder key_lt.
Proof.
  split.
  - intros k Hk. unfold key_lt in Hk. rewrite kcmp_refl in Hk. done.
  - intros ???. apply kcmp_trans.
Qed.

Fixpoint bt_get k m : option V :=
  match m with
  | [] => None
  | (k', v) :: m' => match kcmp k k' with
                     | Eq => Some v
                     | _ => bt_get k m'
                     end
  end.

Fixpoint bt_insert k v m : BTreeMap K V :=
  match m with
  | [] => [(k, v)]
  | (k', v') :: m' => match kcmp k k' with
                      | Lt => (k, v) :: (k', v') :: m'
                      | Eq => (k, v) :: m'
                      | Gt => (k', v') :: bt_insert k v m'
                      end
  end.

Fixpoint bt_remove k m : BTreeMap K V :=
  match m with
  | [] => []
  | (k', v') :: m' => match kcmp k k' with
                      | Eq => m'
                      | _ => (k', v') :: bt_remove k m'
                      end
  end.

(** An update through [get_mut]. *)
Fixpoint bt_update k (f : V -> V) m : BTreeMap K V :=
  match m with
  | [] => []
  | (k', v') :: m' => match kcmp k k' with
                      | Eq => (k', f v') :: m'
                      | _ => (k', v') :: bt_update k f m'
                      end
  end.

Definition bt_contains k m : bool := match bt_get k m with Some _ => true | None => false end.
Definition bt_keys m : list K := map fst m.
Definition bt_values m : list V := map snd m.
Definition bt_len m : Z := len m.
(** [first_key_value], [iter().next()] *)
Definition bt_first m : option (K * V) := head m.

Definition bt_wf m : Prop := StronglySorted key_lt (bt_keys m).

Lemma bt_wf_cons k v m :
  bt_wf ((k, v) :: m) <-> bt_wf m /\ Forall (key_lt k) (bt_keys m).
Proof.
  unfold bt_wf. split; [apply StronglySorted_inv|]. intros [? ?]. by constructor.
Qed.

(** *** Laws *)

Lemma key_lt_cases k k' : key_lt k k' \/ k = k' \/ key_lt k' k.
Proof.
  unfold key_lt. destruct (kcmp k k') eqn:E.
  - right; left. by apply kcmp_eq.
  - by left.
  - right; right. by rewrite kcmp_antisym, E.
Qed.

Lemma bt_get_insert k v m : bt_get k (bt_insert k v m) = Some v.
Proof.
  induction m as [|[k' v'] m IH]; simpl; [by rewrite kcmp_refl|].
  destruct (kcmp k k') eqn:E; simpl; rewrite ?kcmp_refl, ?E; done.
Qed.

Lemma bt_get_insert_ne k k0 v m : k <> k0 -> bt_get k0 (bt_insert k v m) = bt_get k0 m.
Proof.
  intros Hne. assert (Hc : kcmp k0 k <> Eq) by (intros ?%kcmp_eq; congruence).
  induction m as [|[k' v'] m IH]; simpl.
  - destruct (kcmp k0 k) eqn:?; done.
  - destruct (kcmp k k') eqn:E; simpl.
    + apply kcmp_eq in E. subst. destruct (kcmp k0 k') eqn:?; done.
    + destruct (kcmp k0 k) eqn:?; done.
    + destruct (kcmp k0 k') eqn:?; done.
Qed.

Lemma bt_get_update k f m : bt_get k (bt_update k f m) = f <$> bt_get k m.
Proof.
  induction m as [|[k' v'] m IH]; simpl; [done|].
  destruct (kcmp k k') eqn:E; simpl; rewrite ?E; done.
Qed.

Lemma bt_get_update_ne k k0 f m : k <> k0 -> bt_get k0 (bt_update k f m) = bt_get k0 m.
Proof.
  intros Hne. induction m as [|[k' v'] m IH]; simpl; [done|].
  destruct (kcmp k k') eqn:E; simpl.
  - apply kcmp_eq in E as ->. destruct (kcmp k0 k') eqn:E'; try done.
    apply kcmp_eq in E'. congruence.
  - by rewrite IH.
  - by rewrite IH.
Qed.

Lemma bt_get_remove_ne k k0 m : k <> k0 -> bt_get k0 (bt_remove k m) = bt_get k0 m.
Proof.
  intros Hne. induction m as [|[k' v'] m IH]; simpl; [done|].
  destruct (kcmp k k') eqn:E; simpl.
  - apply kcmp_eq in E as ->. destruct (kcmp k0 k') eqn:E'; try done.
    apply kcmp_eq in E'. congruence.
  - by rewrite IH.
  - by rewrite IH.
Qed.

Lemma bt_get_above k m : Forall (key_lt k) (bt_keys m) -> bt_get k m = None.
Proof.
  induction m as [|[k' v'] m IH]; simpl; [done|].
  intros [Hk Hm]%Forall_cons_1. unfold key_lt in Hk. rewrite Hk. auto.
Qed.

Lemma bt_get_remove k m : bt_wf m -> bt_get k (bt_remove k m) = None.
Proof.
  unfold bt_wf. induction m as [|[k' v'] m IH]; simpl; [done|].
  intros [Hs Hk]%StronglySorted_inv.
  destruct (kcmp k k') eqn:E; simpl; rewrite ?E; auto.
  apply kcmp_eq in E as ->. by apply bt_get_above.
Qed.

Lemma bt_contains_get k m : bt_contains k m = true <-> is_Some (bt_get k m).
Proof. unfold bt_contains. destruct (bt_get k m); split; try done; intros [? ?]; done. Qed.

Lemma elem_of_bt_keys k m : k ∈ bt_keys m -> is_Some (bt_get k m).
Proof.
  induction m as [|[k' v'] m IH]; simpl; [by intros ?%elem_of_nil|].
  intros [->|Hin]%elem_of_cons; [rewrite kcmp_refl; eauto|].
  destruct (kcmp k k'); eauto.
Qed.

Lemma bt_get_elem k v m : bt_get k m = Some v -> (k, v) ∈ m.
Proof.
  induction m as [|[k' v'] m IH]; simpl; [done|].
  destruct (kcmp k k') eqn:E.
  - apply kcmp_eq in E as ->. intros [= ->]. left.
  - intros; right; auto.
  - intros; right; auto.
Qed.

Lemma bt_get_keys k m : is_Some (bt_get k m) <-> k ∈ bt_keys m.
Proof.
  split; [|apply elem_of_bt_keys].
  intros [v Hv%bt_get_elem]. unfold bt_keys. rewrite elem_of_map. by exists (k, v).
Qed.

Lemma bt_elem_get k v m : bt_wf m -> (k, v) ∈ m -> bt_get k m = Some v.
Proof.
  induction m as [|[k' v'] m IH]; [by intros _ ?%elem_of_nil|].
  intros [Hs Hk]%bt_wf_cons [Heq|Hin]%elem_of_cons; simpl.
  - simplify_eq. by rewrite kcmp_refl.
  - rewrite Forall_forall in Hk. assert (Hlt : key_lt k' k).
    { apply Hk. unfold bt_keys. rewrite elem_of_map. by exists (k, v). }
    unfold key_lt in Hlt. rewrite (kcmp_antisym k' k), Hlt. simpl. auto.
Qed.

Lemma bt_keys_insert_forall (P : K -> Prop) k v m :
  P k -> Forall P (bt_keys m) -> Forall P (bt_keys (bt_insert k v m)).
Proof.
  intros HP. induction m as [|[k' v'] m IH]; simpl; [by repeat constructor|].
  intros [Hk Hm]%Forall_cons_1. destruct (kcmp k k'); simpl; auto.
Qed.

Lemma bt_keys_remove_forall (P : K -> Prop) k m :
  Forall P (bt_keys m) -> Forall P (bt_keys (bt_remove k m)).
Proof.
  induction m as [|[k' v'] m IH]; simpl; [done|].
  intros [Hk Hm]%Forall_cons_1. destruct (kcmp k k'); simpl; auto.
Qed.

Lemma bt_keys_update k f m : bt_keys (bt_update k f m) = bt_keys m.
Proof.
  induction m as [|[k' v'] m IH]; simpl; [done|].
  destruct (kcmp k k'); simpl; congruence.
Qed.

Lemma bt_wf_nil : bt_wf [].
Proof. constructor. Qed.

Lemma bt_wf_insert k v m : bt_wf m -> bt_wf (bt_insert k v m).
Proof.
  unfold bt_wf. induction m as [|[k' v'] m IH]; simpl; [by repeat constructor|].
  intros [Hs Hk]%StronglySorted_inv. destruct (kcmp k k') eqn:E; simpl.
  - apply kcmp_eq in E as ->. by constructor.
  - constructor; [by constructor|]. constructor; [done|].
    eapply Forall_impl; [exact Hk|]. intros x Hx. by transitivity k'.
  - constructor; [auto|]. apply bt_keys_insert_forall; [|done].
    unfold key_lt. rewrite kcmp_antisym, E. done.
Qed.

Lemma bt_wf_remove k m : bt_wf m -> bt_wf (bt_remove k m).
Proof.
  unfold bt_wf. induction m as [|[k' v'] m IH]; simpl; [done|].
  intros [Hs Hk]%StronglySorted_inv.
  destruct (kcmp k k'); simpl; auto using SSorted_cons, bt_keys_remove_forall.
Qed.

Lemma bt_wf_update k f m : bt_wf m -> bt_wf (bt_update k f m).
Proof. unfold bt_wf. by rewrite bt_keys_update. Qed.

Lemma bt_wf_tail kv m : bt_wf (kv :: m) -> bt_wf m.
Proof. unfold bt_wf. simpl. by intros [? ?]%StronglySorted_inv. Qed.

(** A key above every other goes to the end. *)
Lemma bt_insert_last k v m :
  Forall (fun k' => key_lt k' k) (bt_keys m) -> bt_insert k v m = m ++ [(k, v)].
Proof.
  induction m as [|[k' v'] m IH]; simpl; [done|].
  intros [Hk Hm]%Forall_cons_1. unfold key_lt in Hk.
  rewrite (kcmp_antisym k' k), Hk. simpl. by rewrite IH.
Qed.

Lemma bt_remove_head k v m : bt_remove k ((k, v) :: m) = m.
Proof. simpl. by rewrite kcmp_refl. Qed.

Lemma bt_len_insert_le k v m : bt_len (bt_insert k v m) <= bt_len m + 1.
Proof.
  unfold bt_len, len. induction m as [|[k' v'] m IH]; simpl; [lia|].
  destruct (kcmp k k'); simpl; lia.
Qed.

Lemma bt_remove_absent k m : bt_get k m = None -> bt_remove k m = m.
Proof.
  induction m as [|[k' v'] m IH]; simpl; [done|].
  destruct (kcmp k k'); [done|intros; by rewrite IH ..].
Qed.
End BTree.

#[export] Hint Resolve bt_wf_nil bt_wf_insert bt_wf_remove bt_wf_update bt_wf_tail : racfs.
#[export] Hint Rewrite @bt_get_insert @bt_get_update : racfs.
