(* ===== verification/FsError.v ===== *)
(** * FsError: the error type of every filesystem operation
    ([crates/racfs-core/src/error.rs]) *)

From S2P Require Import Prelude Text RPath.

(* src: crates/racfs-core/src/error.rs 14-74 FSError *)
Inductive FSError :=
| NotFound (path : Path)
| PermissionDenied (path : Path)
| AlreadyExists (path : Path)
| IsDirectory (path : Path)
| NotADirectory (path : Path)
| InvalidInput (message : string)
| Io (message : string)
| NotSupported (message : string)
| AlreadyInUse (handle_id : string)
| InvalidHandle (handle_id : string)
| OutOfMemory
| PathTooLong
| FilenameTooLong
| ReadOnly
| StorageFull
| TooManyOpenFiles
| DirectoryNotEmpty
| CrossDeviceLink
| InvalidUtf8 (message : string)
| Timeout.

#[global] Instance FSError_eq_dec : EqDecision FSError.
Proof. solve_decision. Defined.

(** The kinds of [std::io::ErrorKind] that the conversion tells apart; every
    other kind is [OtherKind]. *)
Inductive ErrorKind :=
| KNotFound | KPermissionDenied | KAlreadyExists | KIsADirectory | KNotADirectory
| KInvalidInput | KUnsupported | KOutOfMemory | KFileTooLarge | KDirectoryNotEmpty
| KReadOnlyFilesystem | KStorageFull | OtherKind.

(** [impl From<std::io::Error> for FSError], on the kind and the text of the
    error. *)
(* src: crates/racfs-core/src/error.rs 76-112 FSError::from *)
Definition from_io_error (kind : ErrorKind) (text : string) : FSError :=
  match kind with
  | KNotFound => NotFound ""
  | KPermissionDenied => PermissionDenied ""
  | KAlreadyExists => AlreadyExists ""
  | KIsADirectory => IsDirectory ""
  | KNotADirectory => NotADirectory ""
  | KInvalidInput => InvalidInput text
  | KUnsupported => NotSupported text
  | KOutOfMemory => OutOfMemory
  | KFileTooLarge => InvalidInput "file too large"
  | KDirectoryNotEmpty => DirectoryNotEmpty
  | KReadOnlyFilesystem => ReadOnly
  | KStorageFull => StorageFull
  | OtherKind => Io text
  end.

(** [impl From<FromUtf8Error> for FSError] *)
(* src: crates/racfs-core/src/error.rs 114-120 FSError::from *)
Definition from_utf8_error (text : string) : FSError := InvalidUtf8 text.

(** The [Display] of the enum, from its [snafu(display)] attributes. *)
(* src: crates/racfs-core/src/error.rs 15-73 FSError *)
Definition error_display (e : FSError) : string :=
  match e with
  | NotFound p => "path not found: " +:+ p
  | PermissionDenied p => "permission denied: " +:+ p
  | AlreadyExists p => "path already exists: " +:+ p
  | IsDirectory p => "path is a directory: " +:+ p
  | NotADirectory p => "path is not a directory: " +:+ p
  | InvalidInput m => "invalid input: " +:+ m
  | Io m => "I/O error: " +:+ m
  | NotSupported m => "operation not supported: " +:+ m
  | AlreadyInUse h => "handle already in use: " +:+ h
  | InvalidHandle h => "invalid handle: " +:+ h
  | OutOfMemory => "out of memory"
  | PathTooLong => "path too long"
  | FilenameTooLong => "filename too long"
  | ReadOnly => "read-only filesystem"
  | StorageFull => "storage full"
  | TooManyOpenFiles => "too many open files"
  | DirectoryNotEmpty => "directory not empty"
  | CrossDeviceLink => "cross-device link not allowed"
  | InvalidUtf8 m => "invalid UTF-8: " +:+ m
  | Timeout => "timeout"
  end.

(** A [Result<T, FSError>], with the ways a call may fail to return. *)
Abbreviation Res := (outcome FSError).
