(* ===== verification/Metadata.v ===== *)
(** * Metadata: file types, permission bits and [FileMetadata]
    ([crates/racfs-core/src/metadata.rs]) *)

From S2P Require Import Prelude Text RPath.

(* src: crates/racfs-core/src/metadata.rs 12-12 S_IFMT *)
Definition S_IFMT : Z := Eval cbv in octal 170000.
(* src: crates/racfs-core/src/metadata.rs 15-15 S_IFIFO *)
Definition S_IFIFO : Z := Eval cbv in octal 10000.
(* src: crates/racfs-core/src/metadata.rs 16-16 S_IFCHR *)
Definition S_IFCHR : Z := Eval cbv in octal 20000.
(* src: crates/racfs-core/src/metadata.rs 17-17 S_IFDIR *)
Definition S_IFDIR : Z := Eval cbv in octal 40000.
(* src: crates/racfs-core/src/metadata.rs 18-18 S_IFBLK *)
Definition S_IFBLK : Z := Eval cbv in octal 60000.
(* src: crates/racfs-core/src/metadata.rs 19-19 S_IFREG *)
Definition S_IFREG : Z := Eval cbv in octal 100000.
(* src: crates/racfs-core/src/metadata.rs 20-20 S_IFLNK *)
Definition S_IFLNK : Z := Eval cbv in octal 120000.
(* src: crates/racfs-core/src/metadata.rs 21-21 S_IFSOCK *)
Definition S_IFSOCK : Z := Eval cbv in octal 140000.

(* src: crates/racfs-core/src/metadata.rs 24-24 S_IRWXU *)
Definition S_IRWXU : Z := Eval cbv in octal 700.
(* src: crates/racfs-core/src/metadata.rs 25-25 S_IRUSR *)
Definition S_IRUSR : Z := Eval cbv in octal 400.
(* src: crates/racfs-core/src/metadata.rs 26-26 S_IWUSR *)
Definition S_IWUSR : Z := Eval cbv in octal 200.
(* src: crates/racfs-core/src/metadata.rs 29-29 S_IRGRP *)
Definition S_IRGRP : Z := Eval cbv in octal 40.
(* src: crates/racfs-core/src/metadata.rs 31-31 S_IXGRP *)
Definition S_IXGRP : Z := Eval cbv in octal 10.
(* src: crates/racfs-core/src/metadata.rs 33-33 S_IROTH *)
Definition S_IROTH : Z := Eval cbv in octal 4.
(* src: crates/racfs-core/src/metadata.rs 35-35 S_IXOTH *)
Definition S_IXOTH : Z := Eval cbv in octal 1.

(** [0o777] *)
Definition perm_mask : Z := Eval cbv in octal 777.

(** [DateTime<Utc>], in nanoseconds since the epoch. *)
Abbreviation DateTime := Z.

(** The readings of the clock made during one call: [now i] is the [i]-th. *)
Abbreviation Now := (nat -> DateTime).

(** The readings from the [k]-th on. *)
Definition now_from (k : nat) (now : Now) : Now := fun i => now (k + i)%nat.

(* src: crates/racfs-core/src/metadata.rs 44-65 FileMetadata *)
Record FileMetadata := {
  path : Path;
  size : Z;
  mode : Z;
  created : option DateTime;
  modified : option DateTime;
  accessed : option DateTime;
  is_symlink_flag : bool;
  symlink_target : option Path
}.

#[global] Instance FileMetadata_eq_dec : EqDecision FileMetadata.
Proof. solve_decision. Defined.

Implicit Types (m : FileMetadata) (now : Now).

(** Field updates. *)
Definition set_path p m : FileMetadata :=
  {| path := p; size := size m; mode := mode m; created := created m; modified := modified m;
     accessed := accessed m; is_symlink_flag := is_symlink_flag m;
     symlink_target := symlink_target m |}.
Definition set_size n m : FileMetadata :=
  {| path := path m; size := n; mode := mode m; created := created m; modified := modified m;
     accessed := accessed m; is_symlink_flag := is_symlink_flag m;
     symlink_target := symlink_target m |}.
Definition set_mode n m : FileMetadata :=
  {| path := path m; size := size m; mode := n; created := created m; modified := modified m;
     accessed := accessed m; is_symlink_flag := is_symlink_flag m;
     symlink_target := symlink_target m |}.
Definition set_modified t m : FileMetadata :=
  {| path := path m; size := size m; mode := mode m; created := created m; modified := t;
     accessed := accessed m; is_symlink_flag := is_symlink_flag m;
     symlink_target := symlink_target m |}.
Definition set_accessed t m : FileMetadata :=
  {| path := path m; size := size m; mode := mode m; created := created m;
     modified := modified m; accessed := t; is_symlink_flag := is_symlink_flag m;
     symlink_target := symlink_target m |}.

(* src: crates/racfs-core/src/metadata.rs 69-80 FileMetadata::new *)
Definition new (p : Path) (md : Z) : FileMetadata :=
  {| path := p; size := 0; mode := md; created := None; modified := None; accessed := None;
     is_symlink_flag := false; symlink_target := None |}.

(* src: crates/racfs-core/src/metadata.rs 140-142 FileMetadata::dir_mode *)
Definition dir_mode : Z :=
  Z.lor S_IFDIR (Z.lor S_IRWXU (Z.lor S_IRGRP (Z.lor S_IXGRP (Z.lor S_IROTH S_IXOTH)))).

(* src: crates/racfs-core/src/metadata.rs 145-147 FileMetadata::file_mode *)
Definition file_mode : Z :=
  Z.lor S_IFREG (Z.lor S_IRUSR (Z.lor S_IWUSR (Z.lor S_IRGRP S_IROTH))).

(* src: crates/racfs-core/src/metadata.rs 83-94 FileMetadata::file *)
Definition file now (p : Path) (n : Z) : FileMetadata :=
  {| path := p; size := n; mode := file_mode;
     created := Some (now 0%nat); modified := Some (now 1%nat); accessed := Some (now 2%nat);
     is_symlink_flag := false; symlink_target := None |}.

(* src: crates/racfs-core/src/metadata.rs 97-108 FileMetadata::directory *)
Definition directory now (p : Path) : FileMetadata :=
  {| path := p; size := 0; mode := dir_mode;
     created := Some (now 0%nat); modified := Some (now 1%nat); accessed := Some (now 2%nat);
     is_symlink_flag := false; symlink_target := None |}.

(* src: crates/racfs-core/src/metadata.rs 111-122 FileMetadata::symlink *)
Definition symlink now (p target : Path) : FileMetadata :=
  {| path := p; size := str_len target;
     mode := Z.lor S_IFLNK (Z.lor S_IRWXU (Z.lor S_IRGRP (Z.lor S_IXGRP (Z.lor S_IROTH S_IXOTH))));
     created := Some (now 0%nat); modified := Some (now 1%nat); accessed := Some (now 2%nat);
     is_symlink_flag := true; symlink_target := Some target |}.

(* src: crates/racfs-core/src/metadata.rs 125-127 FileMetadata::is_file *)
Definition is_file m : bool := Z.land (mode m) S_IFMT =? S_IFREG.

(* src: crates/racfs-core/src/metadata.rs 130-132 FileMetadata::is_directory *)
Definition is_directory m : bool := Z.land (mode m) S_IFMT =? S_IFDIR.

(* src: crates/racfs-core/src/metadata.rs 135-137 FileMetadata::is_symlink *)
Definition is_symlink m : bool := is_symlink_flag m || (Z.land (mode m) S_IFMT =? S_IFLNK).

(* src: crates/racfs-core/src/metadata.rs 150-152 FileMetadata::permissions *)
Definition permissions m : Z := Z.land (mode m) perm_mask.

(** The new value of the field [mode]. *)
Definition with_permissions (old new_mode : Z) : Z :=
  Z.lor (Z.land old S_IFMT) (Z.land new_mode perm_mask).

(* src: crates/racfs-core/src/metadata.rs 155-157 FileMetadata::set_permissions *)
Definition set_permissions (new_mode : Z) m : FileMetadata :=
  set_mode (with_permissions (mode m) new_mode) m.

(* src: crates/racfs-core/src/metadata.rs 160-171 FileMetadata::file_type *)
Definition file_type m : string :=
  let t := Z.land (mode m) S_IFMT in
  if t =? S_IFREG then "file"
  else if t =? S_IFDIR then "directory"
  else if t =? S_IFLNK then "symlink"
  else if t =? S_IFCHR then "character device"
  else if t =? S_IFBLK then "block device"
  else if t =? S_IFIFO then "FIFO"
  else if t =? S_IFSOCK then "socket"
  else "unknown".

(** [Display]; [fmt_time] is chrono's formatting of a timestamp. *)
(* src: crates/racfs-core/src/metadata.rs 174-188 FileMetadata::fmt *)
Definition display (fmt_time : DateTime -> string) m : string :=
  file_type m +:+ " " +:+ to_string (permissions m) +:+ " " +:+ to_string (size m) +:+ " "
  +:+ match modified m with Some t => fmt_time t | None => "unknown" end
  +:+ " " +:+ path m.

(** ** Laws *)

Lemma is_file_file now p n : is_file (file now p n) = true.
Proof. reflexivity. Qed.
Lemma is_directory_file now p n : is_directory (file now p n) = false.
Proof. reflexivity. Qed.
Lemma is_directory_directory now p : is_directory (directory now p) = true.
Proof. reflexivity. Qed.
Lemma is_directory_symlink now p t : is_directory (symlink now p t) = false.
Proof. reflexivity. Qed.

(** The type bits and the permission bits are disjoint, so setting the
    permissions keeps the type and reads back. *)
Lemma land_type_with_permissions old md :
  Z.land (with_permissions old md) S_IFMT = Z.land old S_IFMT.
Proof.
  unfold with_permissions. rewrite Z.land_lor_distr_l.
  rewrite <- !Z.land_assoc. change (Z.land S_IFMT S_IFMT) with S_IFMT.
  change (Z.land perm_mask S_IFMT) with 0. by rewrite Z.land_0_r, Z.lor_0_r.
Qed.

Lemma permissions_set_permissions md m : permissions (set_permissions md m) = Z.land md perm_mask.
Proof.
  unfold permissions, set_permissions, with_permissions. simpl mode.
  rewrite Z.land_lor_distr_l, <- !Z.land_assoc.
  change (Z.land S_IFMT perm_mask) with 0.
  change (Z.land perm_mask perm_mask) with perm_mask.
  by rewrite Z.land_0_r, Z.lor_0_l.
Qed.

Lemma is_directory_set_permissions md m :
  is_directory (set_permissions md m) = is_directory m.
Proof. unfold is_directory, set_permissions. simpl mode. by rewrite land_type_with_permissions. Qed.

Lemma is_file_set_permissions md m : is_file (set_permissions md m) = is_file m.
Proof. unfold is_file, set_permissions. simpl mode. by rewrite land_type_with_permissions. Qed.

Lemma file_type_set_permissions md m : file_type (set_permissions md m) = file_type m.
Proof. unfold file_type, set_permissions. simpl mode. by rewrite land_type_with_permissions. Qed.

#[export] Hint Rewrite is_file_file is_directory_file is_directory_directory is_directory_symlink
  permissions_set_permissions is_directory_set_permissions is_file_set_permissions
  file_type_set_permissions : racfs.
