(* ===== verification/Flags.v ===== *)
(** * Flags: open and write flags ([crates/racfs-core/src/flags.rs])

    A [bitflags] type is its bits, a [u32]. *)

From S2P Require Import Prelude Text.

(** [bitflags::contains] and [bitflags::is_empty]. *)
Definition contains (bits other : Z) : bool := Z.land bits other =? other.
Definition is_empty (bits : Z) : bool := bits =? 0.

(** [from_bits_truncate], for a type whose defined bits are [all]. *)
Definition from_bits_truncate (all bits : Z) : Z := Z.land bits all.

(** The names of the flags that are set, in the order of the table. *)
Definition flag_names (table : list (Z * string)) (bits : Z) : list string :=
  map snd (List.filter (fun fn => contains bits (fst fn)) table).

Module OpenFlags.
(* src: crates/racfs-core/src/flags.rs 5-30 OpenFlags *)
Definition READ : Z := 0x0001.
Definition WRITE : Z := 0x0002.
Definition APPEND : Z := 0x0004.
Definition CREATE : Z := 0x0008.
Definition EXCLUSIVE : Z := 0x0010.
Definition TRUNCATE : Z := 0x0020.
Definition SYNC : Z := 0x0040.
Definition NO_ATIME : Z := 0x0080.
Definition NON_BLOCK : Z := 0x0100.
Definition DIRECTORY : Z := 0x0200.

(* src: crates/racfs-core/src/flags.rs 33-35 OpenFlags::read *)
Definition read : Z := READ.
(* src: crates/racfs-core/src/flags.rs 37-39 OpenFlags::write *)
Definition write : Z := Z.lor READ WRITE.
(* src: crates/racfs-core/src/flags.rs 41-43 OpenFlags::read_write *)
Definition read_write : Z := Z.lor READ WRITE.
(* src: crates/racfs-core/src/flags.rs 45-47 OpenFlags::create *)
Definition create : Z := Z.lor READ (Z.lor WRITE CREATE).
(* src: crates/racfs-core/src/flags.rs 49-51 OpenFlags::create_truncate *)
Definition create_truncate : Z := Z.lor READ (Z.lor WRITE (Z.lor CREATE TRUNCATE)).

(* src: crates/racfs-core/src/flags.rs 53-55 OpenFlags::is_read_only *)
Definition is_read_only (f : Z) : bool := Z.land f WRITE =? 0.
(* src: crates/racfs-core/src/flags.rs 57-59 OpenFlags::is_write_only *)
Definition is_write_only (f : Z) : bool :=
  (Z.land f READ =? 0) && negb (Z.land f WRITE =? 0).
(* src: crates/racfs-core/src/flags.rs 61-63 OpenFlags::is_read_write *)
Definition is_read_write (f : Z) : bool :=
  negb (Z.land f READ =? 0) && negb (Z.land f WRITE =? 0).

(* src: crates/racfs-core/src/flags.rs 65-67 OpenFlags::contains_create *)
Definition contains_create (f : Z) : bool := contains f CREATE.
(* src: crates/racfs-core/src/flags.rs 69-71 OpenFlags::contains_truncate *)
Definition contains_truncate (f : Z) : bool := contains f TRUNCATE.
(* src: crates/racfs-core/src/flags.rs 73-75 OpenFlags::contains_append *)
Definition open_contains_append (f : Z) : bool := contains f APPEND.
(* src: crates/racfs-core/src/flags.rs 77-79 OpenFlags::contains_sync *)
Definition open_contains_sync (f : Z) : bool := contains f SYNC.
(* src: crates/racfs-core/src/flags.rs 81-83 OpenFlags::contains_directory *)
Definition contains_directory (f : Z) : bool := contains f DIRECTORY.

(* src: crates/racfs-core/src/flags.rs 86-121 OpenFlags::fmt *)
Definition open_flags_display (f : Z) : string :=
  join_str "|" (flag_names
    [(READ, "READ"); (WRITE, "WRITE"); (APPEND, "APPEND"); (CREATE, "CREATE");
     (EXCLUSIVE, "EXCLUSIVE"); (TRUNCATE, "TRUNCATE"); (SYNC, "SYNC");
     (NO_ATIME, "NO_ATIME"); (NON_BLOCK, "NON_BLOCK"); (DIRECTORY, "DIRECTORY")]%string f).

(** The three access predicates partition the flag words: a word without
    [WRITE] is read-only, with [WRITE] it is write-only or read-write. *)
Lemma access_partition f :
  is_read_only f = negb (is_write_only f) && negb (is_read_write f).
Proof.
  unfold is_read_only, is_write_only, is_read_write.
  by destruct (Z.land f READ =? 0), (Z.land f WRITE =? 0).
Qed.
End OpenFlags.

Module WriteFlags.
(* src: crates/racfs-core/src/flags.rs 123-134 WriteFlags *)
Definition NONE : Z := 0x0000.
Definition WSYNC : Z := 0x0001.
Definition WAPPEND : Z := 0x0002.

(** The defined bits. *)
Definition all_bits : Z := Z.lor WSYNC WAPPEND.

(* src: crates/racfs-core/src/flags.rs 137-139 WriteFlags::none *)
Definition none : Z := NONE.
(* src: crates/racfs-core/src/flags.rs 141-143 WriteFlags::sync *)
Definition sync : Z := WSYNC.
(* src: crates/racfs-core/src/flags.rs 145-147 WriteFlags::append *)
Definition append : Z := WAPPEND.

(* src: crates/racfs-core/src/flags.rs 149-151 WriteFlags::contains_sync *)
Definition contains_sync (f : Z) : bool := contains f WSYNC.
(* src: crates/racfs-core/src/flags.rs 153-155 WriteFlags::contains_append *)
Definition contains_append (f : Z) : bool := contains f WAPPEND.

(* src: crates/racfs-core/src/flags.rs 158-173 WriteFlags::fmt *)
Definition write_flags_display (f : Z) : string :=
  if is_empty f then "NONE"
  else join_str "|" (flag_names [(WSYNC, "SYNC"); (WAPPEND, "APPEND")]%string f).
End WriteFlags.
