(* ===== verification/Handle.v ===== *)
(** * Handle: file handles ([crates/racfs-core/src/file_handle.rs])

    A [HandleId] wraps a version 7 UUID drawn from the clock and a random
    source; it is an abstract number here, drawn by the caller. *)

From S2P Require Import Prelude Text RPath Flags.
Import OpenFlags.

Abbreviation HandleId := Z.

(* src: crates/racfs-core/src/file_handle.rs 42-55 FileHandle *)
Record FileHandle := {
  id : HandleId;
  path : Path;
  flags : Z;
  offset : Z;
  valid : bool
}.

#[global] Instance FileHandle_eq_dec : EqDecision FileHandle.
Proof. solve_decision. Defined.

Implicit Types h : FileHandle.

(* src: crates/racfs-core/src/file_handle.rs 70-78 FileHandle::with_id *)
Definition with_id (p : Path) (fl : Z) (i : HandleId) : FileHandle :=
  {| id := i; path := p; flags := fl; offset := 0; valid := true |}.

(** [FileHandle::new], with the identifier that [HandleId::new] draws. *)
(* src: crates/racfs-core/src/file_handle.rs 59-67 FileHandle::new *)
Definition new (fresh : HandleId) (p : Path) (fl : Z) : FileHandle :=
  {| id := fresh; path := p; flags := fl; offset := 0; valid := true |}.

(* src: crates/racfs-core/src/file_handle.rs 81-83 FileHandle::is_readable *)
Definition is_readable h : bool := is_read_only (flags h) || is_read_write (flags h).

(* src: crates/racfs-core/src/file_handle.rs 86-88 FileHandle::is_writable *)
Definition is_writable h : bool := is_write_only (flags h) || is_read_write (flags h).

(* src: crates/racfs-core/src/file_handle.rs 96-98 FileHandle::seek *)
Definition seek (o : Z) h : FileHandle :=
  {| id := id h; path := path h; flags := flags h; offset := o; valid := valid h |}.

(* src: crates/racfs-core/src/file_handle.rs 91-93 FileHandle::advance *)
Definition advance (count : Z) h : FileHandle := seek (i64_saturating_add (offset h) count) h.

(* src: crates/racfs-core/src/file_handle.rs 106-108 FileHandle::invalidate *)
Definition invalidate h : FileHandle :=
  {| id := id h; path := path h; flags := flags h; offset := offset h; valid := false |}.

(* src: crates/racfs-core/src/file_handle.rs 111-113 FileHandle::is_valid *)
Definition is_valid h : bool := valid h.

(** An offset that fits [i64] still does after [advance]. *)
Lemma advance_in_range count h :
  in_i64 (offset (advance count h)) = true.
Proof.
  unfold advance, seek, i64_saturating_add, in_i64, i64_min, i64_max. simpl.
  rewrite andb_true_iff, !Z.leb_le. lia.
Qed.

