(* ===== verification/FileSystem.v ===== *)
(** * FileSystem: the trait every backend implements
    ([crates/racfs-core/src/filesystem.rs])

    [ReadFS], [WriteFS], [DirFS], [ChmodFS] and [FileSystem] are one class over
    the type [S] of the backend's state.  A call takes the clock readings it
    makes, runs on the state and returns it with the outcome.  The class is the
    interface [MountableFS] and [CachedFs] are proved against. *)

From S2P Require Import Prelude Text RPath FsError Metadata Flags.
From Stdlib Require Strings.String.

(** An operation of a backend with state [S]. *)
Abbreviation FsOp S := (M S FSError).

(* src: crates/racfs-core/src/filesystem.rs 16-161 FileSystem *)
Class FileSystem (S : Type) := {
  fs_read : Now -> Path -> Z -> Z -> FsOp S bytes;
  fs_stat : Now -> Path -> FsOp S FileMetadata;
  fs_create : Now -> Path -> FsOp S ();
  fs_write : Now -> Path -> bytes -> Z -> Z -> FsOp S Z;
  fs_mkdir : Now -> Path -> Z -> FsOp S ();
  fs_read_dir : Now -> Path -> FsOp S (list FileMetadata);
  fs_remove : Now -> Path -> FsOp S ();
  fs_remove_all : Now -> Path -> FsOp S ();
  fs_rename : Now -> Path -> Path -> FsOp S ();
  fs_chmod : Now -> Path -> Z -> FsOp S ();
  fs_truncate : Now -> Path -> Z -> FsOp S ();
  fs_touch : Now -> Path -> FsOp S ();
  fs_readlink : Now -> Path -> FsOp S Path;
  fs_symlink : Now -> Path -> Path -> FsOp S ();
  fs_get_xattr : Now -> Path -> string -> FsOp S bytes;
  fs_set_xattr : Now -> Path -> string -> bytes -> FsOp S ();
  fs_remove_xattr : Now -> Path -> string -> FsOp S ();
  fs_list_xattr : Now -> Path -> FsOp S (list string)
}.

(** ** The default methods *)

Section Defaults.
Context {S : Type}.
Implicit Types (now : Now) (p : Path).

(* src: crates/racfs-core/src/filesystem.rs 99-104 FileSystem::truncate *)
Definition default_truncate now p (n : Z) : FsOp S () :=
  fail (NotSupported "truncate not implemented").
(* src: crates/racfs-core/src/filesystem.rs 107-112 FileSystem::touch *)
Definition default_touch now p : FsOp S () := fail (NotSupported "touch not implemented").
(* src: crates/racfs-core/src/filesystem.rs 115-120 FileSystem::readlink *)
Definition default_readlink now p : FsOp S Path := fail (NotSupported "readlink not implemented").
(* src: crates/racfs-core/src/filesystem.rs 123-128 FileSystem::symlink *)
Definition default_symlink now (target link : Path) : FsOp S () :=
  fail (NotSupported "symlink not implemented").
(* src: crates/racfs-core/src/filesystem.rs 131-136 FileSystem::get_xattr *)
Definition default_get_xattr now p (name : string) : FsOp S bytes :=
  fail (NotSupported "get_xattr not implemented").
(* src: crates/racfs-core/src/filesystem.rs 139-144 FileSystem::set_xattr *)
Definition default_set_xattr now p (name : string) (v : bytes) : FsOp S () :=
  fail (NotSupported "set_xattr not implemented").
(* src: crates/racfs-core/src/filesystem.rs 147-152 FileSystem::remove_xattr *)
Definition default_remove_xattr now p (name : string) : FsOp S () :=
  fail (NotSupported "remove_xattr not implemented").
(* src: crates/racfs-core/src/filesystem.rs 155-160 FileSystem::list_xattr *)
Definition default_list_xattr now p : FsOp S (list string) :=
  fail (NotSupported "list_xattr not implemented").
End Defaults.

(** ** Calls

    A call of the trait as data, so that a property of every method, and of
    every sequence of calls, is one statement. *)

Inductive FsCall :=
| CRead (p : Path) (offset size : Z)
| CStat (p : Path)
| CCreate (p : Path)
| CWrite (p : Path) (data : bytes) (offset flags : Z)
| CMkdir (p : Path) (perm : Z)
| CReadDir (p : Path)
| CRemove (p : Path)
| CRemoveAll (p : Path)
| CRename (old new : Path)
| CChmod (p : Path) (mode : Z)
| CTruncate (p : Path) (size : Z)
| CTouch (p : Path)
| CReadlink (p : Path)
| CSymlink (target link : Path)
| CGetXattr (p : Path) (name : string)
| CSetXattr (p : Path) (name : string) (value : bytes)
| CRemoveXattr (p : Path) (name : string)
| CListXattr (p : Path).

(** The integer arguments have their machine types. *)
Definition call_wf (c : FsCall) : bool :=
  match c with
  | CRead _ o n => in_i64 o && in_i64 n
  | CWrite _ d o f => in_i64 o && in_u32 f && (len d <=? isize_max)
  | CMkdir _ m | CChmod _ m => in_u32 m
  | CTruncate _ n => in_u64 n
  | CSetXattr _ _ v => len v <=? isize_max
  | _ => true
  end.

Inductive FsReply :=
| RUnit
| RBytes (b : bytes)
| RMeta (m : FileMetadata)
| RCount (n : Z)
| RList (l : list FileMetadata)
| RPathV (p : Path)
| RNames (l : list string).

Section Calls.
Context {S : Type} `{FileSystem S}.

Definition run_call (now : Now) (c : FsCall) : FsOp S FsReply :=
  match c with
  | CRead p o n => RBytes <$> fs_read now p o n
  | CStat p => RMeta <$> fs_stat now p
  | CCreate p => fs_create now p ;; mret RUnit
  | CWrite p d o f => RCount <$> fs_write now p d o f
  | CMkdir p perm => fs_mkdir now p perm ;; mret RUnit
  | CReadDir p => RList <$> fs_read_dir now p
  | CRemove p => fs_remove now p ;; mret RUnit
  | CRemoveAll p => fs_remove_all now p ;; mret RUnit
  | CRename o n => fs_rename now o n ;; mret RUnit
  | CChmod p m => fs_chmod now p m ;; mret RUnit
  | CTruncate p n => fs_truncate now p n ;; mret RUnit
  | CTouch p => fs_touch now p ;; mret RUnit
  | CReadlink p => RPathV <$> fs_readlink now p
  | CSymlink t l => fs_symlink now t l ;; mret RUnit
  | CGetXattr p x => RBytes <$> fs_get_xattr now p x
  | CSetXattr p x v => fs_set_xattr now p x v ;; mret RUnit
  | CRemoveXattr p x => fs_remove_xattr now p x ;; mret RUnit
  | CListXattr p => RNames <$> fs_list_xattr now p
  end.

(** One call on the state, which comes back with a reply or an error. *)
Inductive fs_step : S -> S -> Prop :=
| step_call now c s r s' :
    call_wf c = true -> run_call now c s = (r, s') -> returned r = true -> fs_step s s'.

Definition reachable : S -> S -> Prop := rtc fs_step.

(** What every method keeps, every call keeps. *)
Lemma keeps_run_call (I : S -> Prop) now c :
  match c with
  | CRead p o n => keeps I (fs_read now p o n)
  | CStat p => keeps I (fs_stat now p)
  | CCreate p => keeps I (fs_create now p)
  | CWrite p d o f => keeps I (fs_write now p d o f)
  | CMkdir p perm => keeps I (fs_mkdir now p perm)
  | CReadDir p => keeps I (fs_read_dir now p)
  | CRemove p => keeps I (fs_remove now p)
  | CRemoveAll p => keeps I (fs_remove_all now p)
  | CRename o n => keeps I (fs_rename now o n)
  | CChmod p m => keeps I (fs_chmod now p m)
  | CTruncate p n => keeps I (fs_truncate now p n)
  | CTouch p => keeps I (fs_touch now p)
  | CReadlink p => keeps I (fs_readlink now p)
  | CSymlink t l => keeps I (fs_symlink now t l)
  | CGetXattr p x => keeps I (fs_get_xattr now p x)
  | CSetXattr p x v => keeps I (fs_set_xattr now p x v)
  | CRemoveXattr p x => keeps I (fs_remove_xattr now p x)
  | CListXattr p => keeps I (fs_list_xattr now p)
  end -> keeps I (run_call now c).
Proof. destruct c; simpl; eauto with racfs. Qed.

(** An assertion kept by every call holds in every reachable state. *)
Lemma reachable_invariant (I : S -> Prop) s0 s :
  (forall now c, call_wf c = true -> keeps I (run_call now c)) ->
  I s0 -> reachable s0 s -> I s.
Proof.
  intros Hstep H0. induction 1 as [|x y z Hxy Hyz IH]; [done|]. apply IH.
  destruct Hxy as [now c x r y Hc Hr Hret].
  specialize (Hstep now c Hc x H0). rewrite Hr in Hstep. auto.
Qed.
End Calls.

(** ** Refinement

    What a call answers and leaves, against a description of it on another
    state. *)

Section Refinement.
Context {S T : Type} (sim : S -> T -> Prop).

Definition agrees {A} (reply : A -> FsReply) (r : Res A * S) (e : Res FsReply * T) : Prop :=
  reply <$> fst r = fst e /\ sim (snd r) (snd e).

Lemma agrees_unit (x : FsOp S ()) s e : agrees (fun _ => RUnit) (x s) e -> agrees id ((x ;; mret RUnit) s) e.
Proof. unfold agrees. rewrite run_bind. destruct (x s) as [[[]| | |] s']; intros Hx; exact Hx. Qed.

Lemma agrees_fmap {A} (f : A -> FsReply) (x : FsOp S A) s e : agrees f (x s) e -> agrees id ((f <$> x) s) e.
Proof.
  unfold agrees. change ((f <$> x) s) with (f <$> fst (x s), snd (x s)).
  destruct (fst (x s)); intros Hx; exact Hx.
Qed.

(** Step by step, every answer is the described one. *)
Lemma run_all_agrees {O} (step : O -> S -> Res FsReply * S) (spec : O -> T -> Res FsReply * T) (ok : O -> bool)
    (os : list O) (s : S) (t : T) :
  (forall o s t, ok o = true -> sim s t -> agrees id (step o s) (spec o t)) ->
  forallb ok os = true -> sim s t ->
  fst (run_all step os s) = fst (run_all spec os t) /\ sim (snd (run_all step os s)) (snd (run_all spec os t)).
Proof.
  intros Hstep. revert s t. induction os as [|o os IH]; intros s t Hos Hsim; [by split|].
  cbn [forallb] in Hos. apply andb_true_iff in Hos as [Ho Hos]. cbn [run_all].
  destruct (Hstep o s t Ho Hsim) as [Hr Hs].
  destruct (step o s) as [r s1], (spec o t) as [e t1]. cbn [fst snd] in *.
  destruct (IH s1 t1 Hos Hs) as [Hrs Hend].
  destruct (run_all step os s1), (run_all spec os t1). cbn [fst snd] in *. split; [|done].
  f_equal; [|done]. by destruct r.
Qed.
End Refinement.

(** ** Path utilities *)

(** One step of the loop of [normalize_path]. *)
Definition push_component (result : Path) (c : Component) : Path :=
  match c with
  | ParentDir => pop result
  | CurDir => result
  | RootDir => join result "/"
  | Normal name => join result name
  end.

(* src: crates/racfs-core/src/filesystem.rs 248-264 normalize_path *)
Definition normalize_path (p : Path) : Path := fold_left push_component (components p) "".

(* src: crates/racfs-core/src/filesystem.rs 267-269 parent *)
Definition utils_parent (p : Path) : option Path := parent p.
(* src: crates/racfs-core/src/filesystem.rs 272-274 filename *)
Definition filename (p : Path) : option string := file_name p.
(* src: crates/racfs-core/src/filesystem.rs 277-279 is_absolute *)
Definition is_absolute (p : Path) : bool := has_root p.
(* src: crates/racfs-core/src/filesystem.rs 282-284 is_relative *)
Definition is_relative (p : Path) : bool := negb (has_root p).
(* src: crates/racfs-core/src/filesystem.rs 287-293 join *)
Definition utils_join (base : Path) (parts : list string) : Path := fold_left join parts base.

(** ** Listing a directory

    The closures that the in-memory backends filter their keys with: the text
    of the key has to start with the text of the directory, and what is left of
    the key behind it has to be one component. *)

(** The text that the keys are compared with. *)
Definition dir_prefix (p : Path) : string := if String.eqb p "/" then "" else p.

(** What is left of the key [k], when the directory lists it. *)
Definition direct_child (prefix : string) (k : Path) : option Path :=
  if starts_with k prefix && negb (String.eqb k prefix) then
    let relative := if String.eqb prefix "" then k else default k (path_strip_prefix k prefix) in
    if String.eqb relative "/" then None
    else match components relative with
         | [_] | [RootDir; _] => Some relative
         | _ => None
         end
  else None.

(** The path that the listing shows for it. *)
Definition listed_path (relative : Path) : Path :=
  if starts_with relative "/" then relative else join "/" relative.

(** ** Reading a range

    The range arithmetic that most backends repeat: [offset.max(0)] to
    [min(offset + size, len)], everything for a negative [size].  The second
    cast of the source turns a negative end into a huge index. *)
Definition range_bounds `{BuildProfile} (data : bytes) (offset size : Z) : Res (Z * Z) :=
  let start := i64_as_usize (Z.max offset 0) in
  e ← (if size <? 0 then Ok (len data)
       else s ← i64_add offset size; Ok (i64_as_usize (Z.min s (usize_as_i64 (len data)))));
  Ok (start, e).

Definition read_range `{BuildProfile} (data : bytes) (offset size : Z) : Res bytes :=
  '(start, e) ← range_bounds data offset size;
  if len data <=? start then Ok [] else slice start e data.

(** What such a read returns on well-formed arguments. *)
Definition range_spec (data : bytes) (offset size : Z) : bytes :=
  if size <? 0 then zdrop offset data else ztake size (zdrop offset data).

Section ReadRange.
Context `{BuildProfile}.

Lemma read_range_all data :
  len data <= i64_max -> read_range data 0 (-1) = Ok data.
Proof.
  intros Hlen. unfold read_range, range_bounds. simpl.
  pose proof (len_nonneg data).
  change (i64_as_usize (Z.max 0 0)) with 0.
  destruct (Z.leb_spec (len data) 0).
  - rewrite (len_zero_inv data); [reflexivity|lia].
  - apply slice_full.
Qed.

(** On a non-negative offset and a sum in range the read never panics and
    returns the bytes of the range that exist. *)
Lemma read_range_spec data offset size :
  len data <= i64_max -> 0 <= offset <= i64_max ->
  (0 <= size -> offset + size <= i64_max) ->
  read_range data offset size = Ok (range_spec data offset size).
Proof.
  intros Hlen Hoff Hsum. unfold read_range, range_bounds, range_spec.
  pose proof (len_nonneg data).
  rewrite Z.max_l, i64_as_usize_nonneg by lia.
  destruct (Z.ltb_spec size 0) as [Hs|Hs]; simpl.
  - destruct (Z.leb_spec (len data) offset).
    + by rewrite zdrop_ge by lia.
    + rewrite slice_ok by lia. rewrite ztake_ge; [done|]. rewrite len_zdrop; lia.
  - rewrite i64_add_ok by (unfold i64_min; lia). simpl.
    rewrite usize_as_i64_small by lia. rewrite i64_as_usize_nonneg by lia.
    destruct (Z.leb_spec (len data) offset).
    + rewrite zdrop_ge by lia. unfold ztake. by rewrite take_nil.
    + rewrite slice_ok by lia. f_equal.
      destruct (Z.min_spec (offset + size) (len data)) as [[? ->]|[? ->]].
      * f_equal. lia.
      * rewrite !ztake_ge; [done|rewrite len_zdrop; lia..].
Qed.

(** A negative offset whose range ends before the file makes the end of the
    slice wrap around, and the task panics. *)
Lemma read_range_negative_panics data offset size :
  0 < len data <= i64_max -> i64_min <= offset -> 0 <= size -> offset + size < 0 ->
  read_range data offset size = Panic.
Proof.
  intros Hlen Hoff Hs Hneg. unfold read_range, range_bounds.
  rewrite Z.max_r, i64_as_usize_nonneg by (unfold i64_max; lia).
  destruct (Z.ltb_spec size 0); [lia|]. simpl.
  rewrite i64_add_ok by (unfold i64_max in *; lia). simpl.
  rewrite usize_as_i64_small by lia. rewrite Z.min_l by lia.
  rewrite i64_as_usize_neg by lia.
  destruct (Z.leb_spec (len data) 0); [lia|].
  apply slice_panic. unfold i64_min, i64_max in *. lia.
Qed.
End ReadRange.

#[export] Hint Rewrite @read_range_all using lia : racfs.
