(* ===== verification/AbsPath.v ===== *)
(** * AbsPath: absolute paths as lists of names

    Lemmas on the raw text of paths: the path [abs_path l] with the names [l],
    its components, its parent, joins and prefixes, and the list of names that
    the normalisation of any absolute path has. *)

From S2P Require Import Prelude Text RPath FileSystem.
From Stdlib Require Import Strings.Ascii.
From Stdlib Require Strings.String.

(** ** Strings *)

Lemma prefix_app (p q : string) : starts_with (p +:+ q) p = true.
Proof.
  unfold starts_with. induction p as [|a p IH]; [by destruct q|].
  rewrite string_app_cons. simpl. destruct (ascii_dec a a); done.
Qed.

Lemma prefix_inv (s p : string) : starts_with s p = true -> exists q, s = p +:+ q.
Proof.
  unfold starts_with. revert s. induction p as [|a p IH]; intros s H; [by exists s|].
  destruct s as [|b s]; simpl in H; [done|]. destruct (ascii_dec a b) as [->|]; [|done].
  destruct (IH s H) as [q ->]. by exists q.
Qed.

Definition no_slash (s : string) : bool := negb (contains_char s slash).

Lemma no_slash_cons a s : no_slash (String a s) = negb (Ascii.eqb a slash) && no_slash s.
Proof. unfold no_slash, contains_char. simpl. by rewrite negb_orb, Ascii.eqb_sym. Qed.

Lemma split_no_slash s : Forall (fun x => no_slash x = true) (split_char slash s).
Proof.
  induction s as [|a s IH]; simpl; [by constructor|].
  destruct (Ascii.eqb a slash) eqn:E; [by constructor|].
  destruct (split_char slash s) as [|p ps]; constructor.
  - by rewrite no_slash_cons, E.
  - constructor.
  - inversion IH; subst. by rewrite no_slash_cons, E.
  - by inversion IH.
Qed.

Lemma split_one x : no_slash x = true -> split_char slash x = [x].
Proof.
  induction x as [|a x IH]; [done|]. rewrite no_slash_cons. intros [Ha Hx]%andb_true_iff. simpl.
  destruct (Ascii.eqb a slash); [done|]. by rewrite IH.
Qed.

Lemma split_app_slash x s :
  no_slash x = true -> split_char slash (x +:+ "/" +:+ s) = x :: split_char slash s.
Proof.
  induction x as [|a x IH]; [done|]. rewrite no_slash_cons. intros [Ha Hx]%andb_true_iff.
  rewrite string_app_cons. simpl split_char at 1. destruct (Ascii.eqb a slash); [done|]. by rewrite IH.
Qed.

Lemma split_join l :
  l <> [] -> Forall (fun x => no_slash x = true) l -> split_char slash (join_str "/" l) = l.
Proof.
  intros Hne Hl. induction l as [|x l IH]; [done|]. apply Forall_cons in Hl as [Hx Hl].
  destruct l as [|y l]; [by apply split_one|].
  change (join_str "/" (x :: y :: l)) with (x +:+ "/" +:+ join_str "/" (y :: l)).
  rewrite split_app_slash by done. by rewrite IH.
Qed.

(** ** Names *)

(** A name that the normalisation keeps. *)
Definition name_ok (s : string) : bool :=
  negb (trivial_seg s) && negb (String.eqb s "..") && no_slash s.

Abbreviation names_ok := (Forall (fun x => name_ok x = true)).

Definition abs_path (l : list string) : Path := "/" +:+ join_str "/" l.

Lemma name_ok_inv s :
  name_ok s = true -> trivial_seg s = false /\ String.eqb s ".." = false /\ no_slash s = true.
Proof. unfold name_ok. intros [[? ?]%andb_true_iff ?]%andb_true_iff. by rewrite !negb_true_iff in *. Qed.

Lemma names_ok_no_slash l : names_ok l -> Forall (fun x => no_slash x = true) l.
Proof. intros Hl. eapply Forall_impl; [exact Hl|]. by intros x (_ & _ & ?)%name_ok_inv. Qed.

#[export] Hint Resolve names_ok_no_slash : racfs.

Lemma segments_abs l : names_ok l -> segments (abs_path l) = "" :: match l with [] => [""] | _ => l end.
Proof.
  intros Hl. unfold segments, abs_path.
  change (split_char slash ("/" +:+ join_str "/" l)) with ("" :: split_char slash (join_str "/" l)).
  destruct l as [|x l]; [done|]. by rewrite split_join by auto with racfs.
Qed.

Lemma body_components_ok l : names_ok l -> body_components l = map Normal l.
Proof.
  unfold body_components. induction 1 as [|x l Hx Hl IH]; [done|].
  destruct (name_ok_inv x Hx) as (Ht & Hd & _). simpl. rewrite Ht. simpl.
  unfold seg_component at 1. rewrite Hd. by rewrite IH.
Qed.

Lemma components_abs l : names_ok l -> components (abs_path l) = RootDir :: map Normal l.
Proof.
  intros Hl. unfold components. rewrite segments_abs by done. simpl. f_equal.
  destruct l as [|x l]; [done|]. exact (body_components_ok _ Hl).
Qed.

Lemma map_normal_inj l k : map Normal l = map Normal k -> l = k.
Proof.
  revert k. induction l as [|x l IH]; intros [|y k]; simpl; try done.
  intros Heq. injection Heq as -> Heq. f_equal. auto.
Qed.

Lemma abs_path_inj l k : names_ok l -> names_ok k -> abs_path l = abs_path k -> l = k.
Proof.
  intros Hl Hk Heq. apply map_normal_inj.
  apply (f_equal components) in Heq. rewrite !components_abs in Heq by done. congruence.
Qed.

(** ** Parents and joins *)

Lemma drop_while_last_ok x l : trivial_seg x = false -> drop_while trivial_seg (x :: l) = x :: l.
Proof. simpl. by intros ->. Qed.

Lemma trim_right_ok l : names_ok l -> trim_right l = l.
Proof.
  intros Hl. unfold trim_right. induction l as [|x l _] using rev_ind; [done|].
  apply Forall_app in Hl as [_ Hx]. apply Forall_cons in Hx as [(Hx & _ & _)%name_ok_inv _].
  rewrite rev_app_distr. change (rev [x] ++ rev l) with (x :: rev l).
  rewrite drop_while_last_ok by done. simpl. by rewrite rev_involutive.
Qed.

Lemma trim_left_ok l : names_ok l -> trim_left l = l.
Proof.
  intros Hl. destruct l as [|x l]; [done|].
  apply Forall_cons in Hl as [(Hx & _ & _)%name_ok_inv _]. by apply drop_while_last_ok.
Qed.

Lemma parent_abs_snoc l x : names_ok (l ++ [x]) -> parent (abs_path (l ++ [x])) = Some (abs_path l).
Proof.
  intros Hl. pose proof Hl as [Hl0 _]%Forall_app. unfold parent, body_segments.
  assert (Hs : tail (segments (abs_path (l ++ [x]))) = l ++ [x]).
  { rewrite segments_abs by done. by destruct l. }
  cbn [has_root abs_path]. change (has_root (abs_path (l ++ [x]))) with true. cbn [orb].
  rewrite Hs, trim_right_ok by done.
  destruct (l ++ [x]) as [|y k] eqn:E; [by destruct l|]. rewrite <- E, removelast_last.
  unfold with_body. change (has_root (abs_path (l ++ [x]))) with true. cbn iota.
  by rewrite trim_right_ok.
Qed.

Lemma last_char_app s x : x <> "" -> last_char (s +:+ x) = last_char x.
Proof.
  unfold last_char. intros Hx. induction s as [|a s IH]; [done|]. rewrite string_app_cons.
  change (String.list_ascii_of_string (String a (s +:+ x)))
    with (a :: String.list_ascii_of_string (s +:+ x)).
  rewrite <- IH. destruct s as [|b s]; [|reflexivity]. destruct x; [done|reflexivity].
Qed.

Lemma last_char_no_slash x c : no_slash x = true -> last_char x = Some c -> Ascii.eqb c slash = false.
Proof.
  induction x as [|a x IH]; [by intros _ [=]|]. rewrite no_slash_cons. intros [Ha%negb_true_iff Hx]%andb_true_iff.
  destruct x as [|b x]; [intros [=]; by subst|]. intros Hl. apply IH; [done|exact Hl].
Qed.

Lemma join_str_snoc l x : l <> [] -> join_str "/" (l ++ [x]) = join_str "/" l +:+ "/" +:+ x.
Proof.
  induction l as [|y l IH]; [done|]. intros _. destruct l as [|z l]; [done|].
  change ((y :: z :: l) ++ [x]) with (y :: ((z :: l) ++ [x])).
  change (join_str "/" (y :: ((z :: l) ++ [x]))) with (y +:+ "/" +:+ join_str "/" ((z :: l) ++ [x])).
  rewrite IH by done. change (join_str "/" (y :: z :: l)) with (y +:+ "/" +:+ join_str "/" (z :: l)).
  by rewrite !string_app_assoc.
Qed.

Lemma join_str_app l k :
  l <> [] -> k <> [] -> join_str "/" (l ++ k) = join_str "/" l +:+ "/" +:+ join_str "/" k.
Proof.
  induction l as [|y l IH]; [done|]. intros _ Hk. destruct l as [|z l].
  - simpl. by destruct k.
  - change ((y :: z :: l) ++ k) with (y :: ((z :: l) ++ k)).
    change (join_str "/" (y :: ((z :: l) ++ k))) with (y +:+ "/" +:+ join_str "/" ((z :: l) ++ k)).
    rewrite IH by done. change (join_str "/" (y :: z :: l)) with (y +:+ "/" +:+ join_str "/" (z :: l)).
    by rewrite !string_app_assoc.
Qed.

Lemma name_ok_nonempty x : name_ok x = true -> x <> "".
Proof. intros H ->. by vm_compute in H. Qed.

Lemma has_root_name x : no_slash x = true -> has_root x = false.
Proof. destruct x as [|a x]; [done|]. rewrite no_slash_cons. by intros [?%negb_true_iff _]%andb_true_iff. Qed.

Lemma last_char_abs l : names_ok l -> l <> [] ->
  exists c, last_char (abs_path l) = Some c /\ Ascii.eqb c slash = false.
Proof.
  intros Hl Hne. destruct l as [|x l _] using rev_ind; [done|]. clear Hne.
  apply Forall_app in Hl as [_ Hx]. apply Forall_cons in Hx as [Hx _].
  pose proof (name_ok_nonempty x Hx) as Hx0. destruct (name_ok_inv x Hx) as (_ & _ & Hs).
  assert (Hlast : last_char (abs_path (l ++ [x])) = last_char x).
  { unfold abs_path. destruct l as [|y l]; [by apply last_char_app|].
    rewrite join_str_snoc by done. rewrite !string_app_assoc. by apply last_char_app. }
  rewrite Hlast. destruct (last_char x) as [c|] eqn:E.
  - exists c. split; [done|]. by eapply last_char_no_slash.
  - unfold last_char in E. destruct x as [|a x]; [done|]. by apply last_None in E.
Qed.

Lemma join_abs l x : names_ok l -> name_ok x = true -> join (abs_path l) x = abs_path (l ++ [x]).
Proof.
  intros Hl Hx. destruct (name_ok_inv x Hx) as (_ & _ & Hs). unfold join.
  rewrite has_root_name by done. destruct (decide (l = [])) as [->|Hne]; [done|].
  destruct (last_char_abs l Hl Hne) as (c & -> & ->). unfold abs_path.
  rewrite join_str_snoc by done. by rewrite !string_app_assoc.
Qed.

(** ** Normalisation *)

(** One segment of a path, on the names collected so far. *)
Definition norm_seg (acc : list string) (s : string) : list string :=
  if trivial_seg s then acc else if String.eqb s ".." then removelast acc else acc ++ [s].

Definition norm_names (p : Path) : list string := fold_left norm_seg (segments p) [].

Lemma names_ok_removelast l : names_ok l -> names_ok (removelast l).
Proof.
  intros Hl. destruct l as [|x l _] using rev_ind; [done|]. rewrite removelast_last.
  by apply Forall_app in Hl as [? _].
Qed.

Lemma norm_seg_ok acc s : names_ok acc -> no_slash s = true -> names_ok (norm_seg acc s).
Proof.
  intros Ha Hs. unfold norm_seg. destruct (trivial_seg s) eqn:E1; [done|].
  destruct (String.eqb s "..") eqn:E2; [by apply names_ok_removelast|].
  apply Forall_app. split; [done|]. constructor; [|constructor]. unfold name_ok. by rewrite E1, E2, Hs.
Qed.

Lemma pop_abs l : names_ok l -> pop (abs_path l) = abs_path (removelast l).
Proof.
  intros Hl. unfold pop. destruct l as [|x l _] using rev_ind; [done|].
  by rewrite parent_abs_snoc, removelast_last.
Qed.

Lemma fold_push_abs segs acc :
  Forall (fun x => no_slash x = true) segs -> names_ok acc ->
  fold_left push_component (body_components segs) (abs_path acc)
    = abs_path (fold_left norm_seg segs acc) /\
  names_ok (fold_left norm_seg segs acc).
Proof.
  intros Hs. revert acc. induction Hs as [|s segs Hns _ IH]; intros acc Ha; [done|].
  pose proof (norm_seg_ok acc s Ha Hns) as Ha'. unfold body_components in *. simpl.
  destruct (IH _ Ha') as [<- Hok]. split; [|done]. unfold norm_seg.
  destruct (trivial_seg s) eqn:E1; simpl; [done|].
  destruct (String.eqb s "..") eqn:E2; f_equal; unfold seg_component; rewrite E2; simpl.
  - by apply pop_abs.
  - apply join_abs; [done|]. unfold name_ok. by rewrite E1, E2, Hns.
Qed.

(** The normal form of any absolute path: its names, [..] resolved. *)
Lemma normalize_abs p :
  has_root p = true -> normalize_path p = abs_path (norm_names p) /\ names_ok (norm_names p).
Proof.
  intros Hr. unfold normalize_path, components, norm_names. rewrite Hr. simpl.
  change (join "" "/") with (abs_path []). apply fold_push_abs; [apply split_no_slash|constructor].
Qed.

Lemma norm_names_abs l : names_ok l -> norm_names (abs_path l) = l.
Proof.
  intros Hl. unfold norm_names. rewrite segments_abs by done.
  assert (Hgen : forall k acc, names_ok k -> fold_left norm_seg k acc = acc ++ k).
  { induction k as [|x k IH]; intros acc Hk; simpl; [by rewrite app_nil_r|].
    apply Forall_cons in Hk as [(H1 & H2 & _)%name_ok_inv Hk]. rewrite IH by done.
    unfold norm_seg. rewrite H1, H2. by rewrite <- app_assoc. }
  destruct l as [|x l]; [done|].
  change (fold_left norm_seg ("" :: x :: l) []) with (fold_left norm_seg (x :: l) []). by rewrite Hgen.
Qed.

(** ** A trailing separator *)

Lemma split_nonempty c s : split_char c s <> [].
Proof. destruct s as [|a s]; simpl; [done|]. destruct (Ascii.eqb a c); [done|]. by destruct (split_char c s). Qed.

Lemma split_snoc_slash s : split_char slash (s +:+ "/") = split_char slash s ++ [""].
Proof.
  induction s as [|a s IH]; [done|]. rewrite string_app_cons. simpl. rewrite IH.
  destruct (Ascii.eqb a slash); [done|]. pose proof (split_nonempty slash s).
  by destruct (split_char slash s).
Qed.

Lemma components_snoc_slash s : s <> "" -> components (s +:+ "/") = components s.
Proof.
  intros Hne. unfold components, has_cur_dir, segments. rewrite split_snoc_slash.
  assert (Hb : body_components (split_char slash s ++ [""]) = body_components (split_char slash s)).
  { unfold body_components. rewrite List.filter_app. simpl. by rewrite app_nil_r. }
  rewrite Hb. destruct s as [|a s]; [done|]. rewrite string_app_cons. simpl has_root.
  destruct (Ascii.eqb a slash) eqn:E; [done|]. cbn [negb andb].
  destruct (split_char slash (String a s)) eqn:Es; [|done]. simpl in Es. rewrite E in Es.
  by destruct (split_char slash s).
Qed.

Lemma join_empty s : s <> "" -> ends_with s "/" = false -> join s "" = s +:+ "/".
Proof.
  intros Hne He. unfold join. simpl has_root. cbn iota.
  destruct (last_char s) as [c|] eqn:E.
  - destruct (Ascii.eqb c slash) eqn:Ec; [|done]. exfalso. apply Ascii.eqb_eq in Ec as ->.
    clear Hne. revert He. apply not_false_iff_true.
    assert (Hs : exists t, s = t +:+ "/").
    { revert E. induction s as [|a s IH]; [by intros [=]|]. destruct s as [|b s].
      - intros [=]; subst. by exists "".
      - intros Hl. destruct (IH Hl) as [t ->]. by exists (String a t). }
    destruct Hs as [t ->]. unfold ends_with. rewrite string_length_app. simpl String.length.
    destruct (Nat.leb_spec 1 (String.length t + 1)); [|lia].
    replace (String.length t + 1 - 1)%nat with (String.length t) by lia.
    clear. induction t as [|a t IH]; [done|]. rewrite string_app_cons. simpl. exact IH.
  - destruct s as [|a s]; [done|]. unfold last_char in E. simpl in E.
    destruct (String.list_ascii_of_string s) eqn:E2; [done|]. by apply last_None in E.
Qed.

(** ** Prefixes *)

Lemma abs_path_app l k : l <> [] -> k <> [] -> abs_path (l ++ k) = abs_path l +:+ "/" +:+ join_str "/" k.
Proof. intros. unfold abs_path. rewrite join_str_app by done. by rewrite !string_app_assoc. Qed.

Lemma abs_prefix l k : l <> [] -> starts_with (abs_path (l ++ k)) (abs_path l) = true.
Proof.
  intros Hl. destruct k as [|x k].
  - rewrite app_nil_r. rewrite <- (string_app_nil_r (abs_path l)) at 1. apply prefix_app.
  - rewrite abs_path_app by done. apply prefix_app.
Qed.

Lemma list_strip_prefix_app {A} `{EqDecision A} (l k : list A) : list_strip_prefix l (l ++ k) = Some k.
Proof. induction l as [|x l IH]; simpl; [done|]. by rewrite decide_True. Qed.

Lemma list_strip_prefix_inv {A} `{EqDecision A} (l k r : list A) :
  list_strip_prefix l k = Some r -> k = l ++ r.
Proof.
  revert k. induction l as [|x l IH]; intros [|y k]; simpl; try (intros; by simplify_eq).
  case_decide; [|done]. subst. intros Hr. by rewrite (IH _ Hr).
Qed.

Lemma skip_components_ok m k : names_ok m -> skip_components (length m) (m ++ k) = k.
Proof.
  induction 1 as [|x m (Hx & _ & _)%name_ok_inv Hm IH]; [done|]. simpl.
  unfold trim_left. simpl. by rewrite Hx.
Qed.

(** [strip_prefix] of a path below a directory. *)
Lemma strip_prefix_abs m k :
  names_ok (m ++ k) -> m <> [] -> path_strip_prefix (abs_path (m ++ k)) (abs_path m +:+ "/") = Some (join_str "/" k).
Proof.
  intros Hok Hm. pose proof Hok as [Hom Hok']%Forall_app. unfold path_strip_prefix.
  rewrite components_snoc_slash by done. rewrite !components_abs by done.
  rewrite map_app. rewrite app_comm_cons, list_strip_prefix_app.
  unfold body_segments. change (has_root (abs_path (m ++ k))) with true. cbn [orb].
  rewrite segments_abs by done. cbn [length tail]. rewrite length_map.
  replace (S (length m) - 1)%nat with (length m) by lia.
  destruct (m ++ k) as [|y r] eqn:E; [by destruct m|]. rewrite <- E.
  rewrite skip_components_ok by done. by rewrite trim_left_ok, trim_right_ok.
Qed.

Lemma strip_prefix_abs_none m l :
  names_ok m -> names_ok l -> m <> [] -> (forall k, l <> m ++ k) ->
  path_strip_prefix (abs_path l) (abs_path m +:+ "/") = None.
Proof.
  intros Hm Hl Hne Hno. unfold path_strip_prefix. rewrite components_snoc_slash by done.
  rewrite !components_abs by done.
  destruct (list_strip_prefix _ _) as [r|] eqn:E; [|done]. exfalso.
  apply list_strip_prefix_inv in E. injection E as E. apply map_eq_app in E as (l1 & l2 & -> & E1 & E2).
  apply map_normal_inj in E1 as ->. by eapply Hno.
Qed.

#[global] Arguments abs_path : simpl never.
