(* ===== verification/Metrics.v ===== *)
(** * Metrics: what the server counts, and where it is registered
    ([crates/racfs-server/src/observability/metrics.rs],
     [crates/racfs-vfs/src/plugin_metrics.rs])

    A metric is a shared cell with a descriptor.  The cells are in the states
    that they count for; the registry of the Prometheus crate is the list of the
    descriptors that it has taken, each with how its cell is read.  What the
    crate accepts and how it writes the metrics are parameters. *)

From S2P Require Import Prelude Text.
From Stdlib Require Import Strings.Ascii.
From Stdlib Require Strings.String.

Record Desc := { fq_name : string; help : string; variable_labels : list string; buckets : list Z }.

#[global] Instance Desc_eq_dec : EqDecision Desc.
Proof. solve_decision. Defined.

(** The value of a metric, for each value of its label if it has one; a
    histogram keeps its observations, in nanoseconds. *)
Inductive Sample :=
| Value (n : Z)
| ByLabel (values : list (string * Z))
| Observations (values : list (string * Z)).

(** The crate: what the constructors check, what [Registry::register] answers
    after others were taken, and the text encoder. *)
Class Prometheus := {
  metric_new : Desc -> outcome string ();
  accepts : list Desc -> Desc -> outcome string ();
  text_encode : list (Desc * Sample) -> option string
}.

(** ** The metrics of the server *)

(* src: crates/racfs-server/src/observability/metrics.rs 11-42 VfsMetrics *)
Inductive ServerMetric := FileReads | FileWrites | FileDeletes | DirectoryLists | DirectoryCreates
| StatOperations | RenameOperations | ChmodOperations | ActiveConnections | HttpRequests | HttpErrors
| CacheHits | CacheMisses | CacheEvictions | RequestDuration.

#[global] Instance ServerMetric_eq_dec : EqDecision ServerMetric.
Proof. solve_decision. Defined.

(** The buckets of the histogram, in milliseconds. *)
(* src: crates/racfs-server/src/observability/metrics.rs 6-8 REQUEST_DURATION_BUCKETS *)
Definition REQUEST_DURATION_BUCKETS : list Z := [1; 5; 10; 25; 50; 100; 250; 500; 1000; 2500; 5000].

Definition metric_desc (name text : string) : Desc := {| fq_name := name; help := text; variable_labels := []; buckets := [] |}.

(* src: crates/racfs-server/src/observability/metrics.rs 47-110 VfsMetrics::new *)
Definition desc_of (m : ServerMetric) : Desc :=
  match m with
  | FileReads => metric_desc "racfs_file_reads_total" "Total number of file read operations"
  | FileWrites => metric_desc "racfs_file_writes_total" "Total number of file write operations"
  | FileDeletes => metric_desc "racfs_file_deletes_total" "Total number of file delete operations"
  | DirectoryLists => metric_desc "racfs_directory_lists_total" "Total number of directory list operations"
  | DirectoryCreates => metric_desc "racfs_directory_creates_total" "Total number of directory create operations"
  | StatOperations => metric_desc "racfs_stat_operations_total" "Total number of stat operations"
  | RenameOperations => metric_desc "racfs_rename_operations_total" "Total number of rename operations"
  | ChmodOperations => metric_desc "racfs_chmod_operations_total" "Total number of chmod operations"
  | ActiveConnections => metric_desc "racfs_active_connections" "Current number of active connections"
  | HttpRequests => metric_desc "racfs_http_requests_total" "Total number of HTTP requests"
  | HttpErrors => metric_desc "racfs_http_errors_total" "Total number of HTTP errors"
  | CacheHits => metric_desc "racfs_cache_hits_total" "Total number of cache hits"
  | CacheMisses => metric_desc "racfs_cache_misses_total" "Total number of cache misses"
  | CacheEvictions => metric_desc "racfs_cache_evictions_total" "Total number of cache evictions (capacity or TTL)"
  | RequestDuration =>
    {| fq_name := "racfs_request_duration_seconds";
       help := "Request duration in seconds by operation (for p50, p95, p99)"; variable_labels := ["operation"];
       buckets := REQUEST_DURATION_BUCKETS |}
  end%string.

(** The order of the fields, in which they are made and registered. *)
Definition server_metrics : list ServerMetric :=
  [FileReads; FileWrites; FileDeletes; DirectoryLists; DirectoryCreates; StatOperations; RenameOperations;
   ChmodOperations; ActiveConnections; HttpRequests; HttpErrors; CacheHits; CacheMisses; CacheEvictions; RequestDuration].

(** The cells, but for those of the stat cache, which are in the cache. *)
(* src: crates/racfs-server/src/observability/metrics.rs 11-42 VfsMetrics *)
Record VfsMetrics := { counts : ServerMetric -> Z; request_duration_seconds : list (string * Z) }.

Fixpoint check_each {E A} (f : A -> outcome E ()) (l : list A) : outcome E () :=
  match l with [] => Ok () | a :: l => f a ;; check_each f l end.

Definition zero_metrics : VfsMetrics := {| counts _ := 0; request_duration_seconds := [] |}.

(* src: crates/racfs-server/src/observability/metrics.rs 46-111 VfsMetrics::new *)
Definition new_metrics `{Prometheus} : outcome string VfsMetrics :=
  check_each (fun m => metric_new (desc_of m)) server_metrics ;;
  Ok zero_metrics.

(** [IntCounter::inc] *)
Definition inc (c : ServerMetric) (m : VfsMetrics) : VfsMetrics :=
  {| counts d := if decide (c = d) then counts m d + 1 else counts m d;
     request_duration_seconds := request_duration_seconds m |}.

(** [HistogramVec::observe] *)
Definition observe (operation : string) (elapsed : Z) (m : VfsMetrics) : VfsMetrics :=
  {| counts := counts m; request_duration_seconds := request_duration_seconds m ++ [(operation, elapsed)] |}.

(** ** The registry *)

(** Where the cell of a registered metric is: among those of the server, or in
    a plugin, in the state [V] of the filesystem. *)
Inductive Source (V : Type) := OfServer (m : ServerMetric) | OfPlugin (read : V -> Sample).
Arguments OfServer {V}.
Arguments OfPlugin {V}.

Abbreviation Registry V := (list (Desc * Source V)).

Section Registry_.
Context `{Prometheus} {V : Type}.

(** [Registry::register] *)
Definition registry_register (d : Desc) (src : Source V) : M (Registry V) string () := fun r =>
  match accepts (map fst r) d with
  | Ok _ => (Ok (), r ++ [(d, src)])
  | o => (o, r)
  end.

Fixpoint register_each (l : list ServerMetric) : M (Registry V) string () :=
  match l with
  | [] => mret ()
  | m :: l => registry_register (desc_of m) (OfServer m) ;; register_each l
  end.

(* src: crates/racfs-server/src/observability/metrics.rs 116-133 VfsMetrics::register *)
Definition register : M (Registry V) string () := register_each server_metrics.
End Registry_.

(** The metrics of the server, as they are registered. *)
Definition server_families {V} : Registry V := map (fun m => (desc_of m, OfServer m)) server_metrics.

(** A plugin with metrics: it registers them with the registry and keeps its
    cells in its own state. *)
(* src: crates/racfs-vfs/src/plugin_metrics.rs 15-21 PluginMetrics *)
Definition PluginMetrics (V : Type) : Type := M (Registry V * V) string ().

(** ** What the crate documents *)

Definition name_start (c : ascii) : bool :=
  let n := Z.of_nat (nat_of_ascii c) in
  ((97 <=? n) && (n <=? 122)) || ((65 <=? n) && (n <=? 90)) || Ascii.eqb c "_"%char || Ascii.eqb c ":"%char.
Definition name_char (c : ascii) : bool :=
  let n := Z.of_nat (nat_of_ascii c) in name_start c || ((48 <=? n) && (n <=? 57)).
Definition valid_name (s : string) : bool :=
  match s with String c s' => name_start c && forallb name_char (String.list_ascii_of_string s') | EmptyString => false end.

Definition valid_desc (d : Desc) : bool :=
  valid_name (fq_name d) && negb (String.eqb (help d) "") && forallb valid_name (variable_labels d).

(** A metric can be made when its names are valid and its help is not empty, is
    taken when its name is new, and is refused when it is there already. *)
Class PrometheusLaws `{Prometheus} := {
  metric_new_ok d : valid_desc d = true -> metric_new d = Ok ();
  accepts_new ds d : valid_desc d = true -> fq_name d ∉ map fq_name ds -> accepts ds d = Ok ();
  accepts_once ds d : d ∈ ds -> exists e, accepts ds d = Err e
}.

Definition small_prometheus : Prometheus := {|
  metric_new d := if valid_desc d then Ok () else Err "invalid metric"%string;
  accepts ds d := if decide (fq_name d ∈ map fq_name ds) then Err "Duplicate metrics collector registration attempted"%string else Ok ();
  text_encode l := Some (String.concat " " (map (fun x => fq_name (fst x)) l))
|}.

Lemma small_prometheus_laws : @PrometheusLaws small_prometheus.
Proof.
  split; cbn.
  - by intros d ->.
  - intros ds d _ Hd. by rewrite decide_False.
  - intros ds d Hd. rewrite decide_True; [by eexists|]. by apply list_elem_of_fmap_2.
Qed.

Section Laws.
Context `{PrometheusLaws} {V : Type}.

Lemma new_metrics_ok : new_metrics = Ok zero_metrics.
Proof.
  unfold new_metrics. assert (Hc : forall l, check_each (fun m => metric_new (desc_of m)) l = Ok ()).
  { induction l as [|m l IH]; [done|]. simpl. rewrite metric_new_ok by (by destruct m). done. }
  by rewrite Hc.
Qed.

Lemma registry_register_new d src (r : Registry V) :
  valid_desc d = true -> fq_name d ∉ map fq_name (map fst r) -> registry_register d src r = (Ok (), r ++ [(d, src)]).
Proof. intros Hd Hn. unfold registry_register. by rewrite accepts_new. Qed.

Lemma registry_register_again d src (r : Registry V) :
  d ∈ map fst r -> exists e, registry_register d src r = (Err e, r).
Proof. intros Hd. destruct (accepts_once _ _ Hd) as [e He]. exists e. unfold registry_register. by rewrite He. Qed.

Lemma register_run : register (V := V) [] = (Ok (), server_families).
Proof.
  assert (Hr : forall l (r : Registry V), NoDup (map fq_name (map fst r) ++ map (fun m => fq_name (desc_of m)) l) ->
    register_each l r = (Ok (), r ++ map (fun m => (desc_of m, OfServer m)) l)).
  { induction l as [|m l IH]; intros r Hnd; [by rewrite app_nil_r|]. cbn [register_each map].
    rewrite run_bind, registry_register_new; [|by destruct m|].
    - rewrite IH; [by rewrite <- app_assoc|]. rewrite !map_app, <- app_assoc. exact Hnd.
    - apply NoDup_app in Hnd as (_ & Hd & _). intros Hin. apply (Hd _ Hin). left. }
  unfold register. rewrite Hr; [done|]. simpl. apply (bool_decide_unpack _). vm_compute. exact I.
Qed.
End Laws.
