(* ===== verification/MemFS.v ===== *)
(** * MemFS: the in-memory backend ([crates/racfs-plugin-memfs])

    The state is the two maps behind the locks, [files] and [xattrs], and the
    metrics.  Every operation of the [FileSystem] trait is a definition of the
    same name; [memfs_filesystem] is the instance.  The calls to the Prometheus
    registry are recorded, most recent first, once [register] has run. *)

From S2P Require Import Prelude Text RPath FsError Metadata Flags FileSystem Metrics.
From Stdlib Require Import Strings.Ascii.
From Stdlib Require Strings.String.

(* src: crates/racfs-plugin-memfs/src/fs/mod.rs 39-45 FileEntry *)
Record FileEntry := {
  data : bytes;
  metadata : FileMetadata;
  is_symlink : bool;
  symlink_target : option Path
}.

(** What the program asks of [MemFSMetrics]. *)
(* src: crates/racfs-plugin-memfs/src/fs/mod.rs 33-37 MemFSMetrics *)
Inductive MetricCall :=
| EntriesSet (n : Z)
| EntriesAdd (delta : Z)
| OperationsInc (operation : string).

(* src: crates/racfs-plugin-memfs/src/fs/mod.rs 21-31 MemFS *)
Record MemFS := {
  files : PathMap FileEntry;
  xattrs : PathMap (gmap string bytes);
  metrics : option (list MetricCall)
}.

Definition set_files f (s : MemFS) : MemFS :=
  {| files := f; xattrs := xattrs s; metrics := metrics s |}.
Definition set_xattrs x (s : MemFS) : MemFS :=
  {| files := files s; xattrs := x; metrics := metrics s |}.
Definition set_metrics k (s : MemFS) : MemFS :=
  {| files := files s; xattrs := xattrs s; metrics := k |}.

(** The value the gauge shows after a sequence of calls, most recent first. *)
Fixpoint gauge (l : list MetricCall) : Z :=
  match l with
  | [] => 0
  | EntriesSet n :: _ => n
  | EntriesAdd d :: l' => gauge l' + d
  | OperationsInc _ :: l' => gauge l'
  end.

(** The counts of the operations, for each label. *)
Fixpoint operations (l : list MetricCall) : list (string * Z) :=
  match l with
  | [] => []
  | OperationsInc op :: l' =>
    let counts := operations l' in
    let n := from_option snd 0 (list_find (fun c : string * Z => fst c = op) counts ≫= fun r => Some (snd r)) in
    (op, n + 1) :: filter (fun c => fst c <> op) counts
  | _ :: l' => operations l'
  end.

(** An entry that is not a symlink, with no content. *)
Definition plain_entry (m : FileMetadata) : FileEntry :=
  {| data := []; metadata := m; is_symlink := false; symlink_target := None |}.

Definition set_data d (e : FileEntry) : FileEntry :=
  {| data := d; metadata := metadata e; is_symlink := is_symlink e;
     symlink_target := symlink_target e |}.
Definition set_metadata m (e : FileEntry) : FileEntry :=
  {| data := data e; metadata := m; is_symlink := is_symlink e;
     symlink_target := symlink_target e |}.

(** The directory entry that [mkdir] and [mkdir_sync] insert. *)
Definition dir_entry (now : Now) (p : Path) (perm : Z) : FileEntry :=
  plain_entry (set_permissions perm (directory now p)).

(* src: crates/racfs-plugin-memfs/src/fs/mod.rs 62-83 MemFS::mkdir_sync *)
Definition mkdir_sync (now : Now) (p : Path) (perm : Z) : FsOp MemFS () :=
  s ← get;
  fail_if (pm_contains p (files s)) (AlreadyExists p) ;;
  put (set_files (pm_insert p (dir_entry now p perm) (files s)) s).

(* src: crates/racfs-plugin-memfs/src/fs/mod.rs 49-59 MemFS::new *)
Definition new (now : Now) : MemFS :=
  exec (mkdir_sync now "/" (octal 755)) {| files := ∅; xattrs := ∅; metrics := None |}.

(** The clock is read once for every entry, in the order of [contents]. *)
(* src: crates/racfs-plugin-memfs/src/fs/mod.rs 86-119 MemFS::with_data *)
Definition with_data (now : nat -> Now) (contents : list (Path * bytes)) : MemFS :=
  let entries := fold_left
    (fun acc '(i, (p, content)) =>
       pm_insert p {| data := content; metadata := file (now i) p (len content);
                      is_symlink := false; symlink_target := None |} acc)
    (imap pair contents) ∅ in
  {| files := pm_insert "/" (plain_entry (directory (now (length contents)) "/")) entries;
     xattrs := ∅; metrics := None |}.

(* src: crates/racfs-plugin-memfs/src/fs/mod.rs 121-126 MemFS::get_entry *)
Definition get_entry (p : Path) : FsOp MemFS FileEntry :=
  s ← get; lift (ok_or (pm_get p (files s)) (NotFound p)).

(* src: crates/racfs-plugin-memfs/src/fs/mod.rs 136-152 MemFS::ensure_parent_exists *)
Definition ensure_parent_exists (p : Path) : FsOp MemFS () :=
  match parent p with
  | Some q =>
    if String.eqb q "/" then mret ()
    else
      s ← get;
      e ← lift (ok_or (pm_get q (files s)) (NotFound q));
      fail_if (negb (is_directory (metadata e))) (NotADirectory q)
  | None => mret ()
  end.

Definition metric (c : MetricCall) : FsOp MemFS () :=
  modify (fun s => set_metrics (cons c <$> metrics s) s).

(* src: crates/racfs-plugin-memfs/src/fs/mod.rs 154-158 MemFS::inc_op *)
Definition inc_op (operation : string) : FsOp MemFS () := metric (OperationsInc operation).
(* src: crates/racfs-plugin-memfs/src/fs/mod.rs 160-164 MemFS::inc_entries *)
Definition inc_entries (delta : Z) : FsOp MemFS () := metric (EntriesAdd delta).

Definition entries_desc : Desc :=
  {| fq_name := "racfs_plugin_memfs_entries_total";
     help := "Total number of entries (files and directories) in the memfs instance"; variable_labels := []; buckets := [] |}.
Definition operations_desc : Desc :=
  {| fq_name := "racfs_plugin_memfs_operations_total";
     help := "Total number of operations by type on this memfs instance"; variable_labels := ["operation"]; buckets := [] |}.

(** The registry gets the cells, which are those of the object that [cell] finds
    in the state [V]. *)
(* src: crates/racfs-plugin-memfs/src/fs/mod.rs 173-196 MemFS::register *)
Definition register `{Prometheus} {V} (cell : V -> MemFS) : M (Registry V * MemFS) string () := fun '(r, s) =>
  let '(registered, r) :=
    (lift (metric_new entries_desc) ;;
     lift (metric_new operations_desc) ;;
     registry_register entries_desc (OfPlugin (fun v => Value (gauge (default [] (metrics (cell v)))))) ;;
     registry_register operations_desc (OfPlugin (fun v => ByLabel (operations (default [] (metrics (cell v))))))) r in
  match registered with
  | Ok _ => (Ok (), (r, set_metrics (Some [EntriesSet (pm_len (files s))]) s))
  | o => (o, (r, s))
  end.

(** [files.get_mut(path)]: run [m] on the entry in place. *)
Definition with_entry {A} (p : Path) (m : M FileEntry FSError A) : FsOp MemFS A := fun s =>
  match pm_get p (files s) with
  | None => (Err (NotFound p), s)
  | Some e => let '(r, e') := m e in (r, set_files (pm_update p (fun _ => e') (files s)) s)
  end.

(** [entry.data = f(entry.data)] *)
Definition update_data (f : bytes -> Res bytes) : M FileEntry FSError () :=
  update_state (fun e => d ← f (data e); Ok (set_data d e)).
(** [entry.metadata = f(entry.metadata)] *)
Definition update_metadata (f : FileMetadata -> FileMetadata) : M FileEntry FSError () :=
  modify (fun e => set_metadata (f (metadata e)) e).
Definition data_len : M FileEntry FSError Z := gets (fun e => len (data e)).
(** The check of [truncate] and [write]. *)
Definition reject_directory (p : Path) : M FileEntry FSError () :=
  e ← get; fail_if (is_directory (metadata e)) (IsDirectory p).

Section Ops.
Context `{BuildProfile}.
Implicit Types (now : Now) (p : Path).

(** *** [fs/read.rs] *)

(** [read] calls itself on the target of a symlink.  The chain visits an
    entry of the map at every call, so it either ends within as many calls as
    there are entries or never does: [read] has that many calls of fuel, and
    [read_fuel_enough] shows that no more fuel changes its answer. *)
Fixpoint read_fuel (fuel : nat) p (offset size : Z) : FsOp MemFS bytes :=
  entry ← get_entry p;
  if is_directory (metadata entry) then fail (IsDirectory p)
  else
    match is_symlink entry, symlink_target entry with
    | true, Some target =>
      match fuel with
      | O => lift Diverge
      | S f => read_fuel f target offset size
      end
    | _, _ =>
      '(start, e) ← lift (range_bounds (data entry) offset size);
      if len (data entry) <=? start then mret []
      else inc_op "read" ;; lift (slice start e (data entry))
    end.

(* src: crates/racfs-plugin-memfs/src/fs/read.rs 10-39 MemFS::read *)
Definition read now p (offset size : Z) : FsOp MemFS bytes :=
  s ← get; read_fuel (base.size (files s)) p offset size.

(* src: crates/racfs-plugin-memfs/src/fs/read.rs 41-45 MemFS::stat *)
Definition stat now p : FsOp MemFS FileMetadata :=
  entry ← get_entry p; inc_op "stat" ;; mret (metadata entry).

(** *** [fs/write.rs] *)

(* src: crates/racfs-plugin-memfs/src/fs/write.rs 11-37 MemFS::create *)
Definition create now p : FsOp MemFS () :=
  ensure_parent_exists p ;;
  s ← get;
  fail_if (pm_contains p (files s)) (AlreadyExists p) ;;
  put (set_files (pm_insert p (plain_entry (file now p 0)) (files s)) s) ;;
  inc_op "create" ;;
  inc_entries 1.

(** The three branches of [write] on a content of length [n]; the value is
    [new_size]. *)
Definition write_branch (n : Z) (content : bytes) (offset flags : Z) : M FileEntry FSError Z :=
  if WriteFlags.contains_append flags || (n <=? i64_as_usize offset) then
    let e := i64_as_usize (Z.max offset 0) in
    (if n <? e then update_data (resize e Byte.x00) else mret ()) ;;
    update_data (extend_from_slice content) ;;
    data_len
  else if offset <=? 0 then
    update_data (fun _ => Ok content) ;;
    mret (len content)
  else
    let start := i64_as_usize offset in
    (if n <? start then update_data (resize start Byte.x00) else mret ()) ;;
    n' ← data_len;
    e ← lift (usize_add start (len content));
    (if n' <? e then update_data (resize e Byte.x00) else mret ()) ;;
    update_data (copy_from_slice start content) ;;
    data_len.

(* src: crates/racfs-plugin-memfs/src/fs/write.rs 58-82 MemFS::write *)
Definition write_content (content : bytes) (offset flags : Z) : M FileEntry FSError Z :=
  n ← data_len; write_branch n content offset flags.

(* src: crates/racfs-plugin-memfs/src/fs/write.rs 39-90 MemFS::write *)
Definition write now p (content : bytes) (offset flags : Z) : FsOp MemFS Z :=
  with_entry p
    (reject_directory p ;;
     new_size ← write_content content offset flags;
     update_metadata (set_size new_size) ;;
     update_metadata (set_modified (Some (now 0%nat)))) ;;
  inc_op "write" ;;
  mret (len content).

(** *** [fs/chmod.rs] *)

(* src: crates/racfs-plugin-memfs/src/fs/chmod.rs 11-24 MemFS::chmod *)
Definition chmod now p (mode : Z) : FsOp MemFS () :=
  with_entry p
    (update_metadata (set_permissions mode) ;;
     update_metadata (set_modified (Some (now 0%nat)))) ;;
  inc_op "chmod".

(** *** [fs/dir.rs] *)

(* src: crates/racfs-plugin-memfs/src/fs/dir.rs 10-41 MemFS::mkdir *)
Definition mkdir now p (perm : Z) : FsOp MemFS () :=
  (match parent p with
   | Some q => if String.eqb q "/" then mret () else ensure_parent_exists q
   | None => mret ()
   end) ;;
  s ← get;
  fail_if (pm_contains p (files s)) (AlreadyExists p) ;;
  put (set_files (pm_insert p (dir_entry now p perm) (files s)) s) ;;
  inc_op "mkdir" ;;
  inc_entries 1.

(** The closures of [filter] and [filter_map] on one entry. *)
Definition dir_item (prefix : string) (kv : Path * FileEntry) : option FileMetadata :=
  (fun relative => set_path (listed_path relative) (metadata (snd kv)))
    <$> direct_child prefix (fst kv).

(* src: crates/racfs-plugin-memfs/src/fs/dir.rs 43-92 MemFS::read_dir *)
Definition read_dir now p : FsOp MemFS (list FileMetadata) :=
  s ← get;
  inc_op "readdir" ;;
  mret (omap (dir_item (dir_prefix p)) (pm_entries (files s))).

(* src: crates/racfs-plugin-memfs/src/fs/dir.rs 94-114 MemFS::remove *)
Definition remove now p : FsOp MemFS () :=
  s ← get;
  entry ← lift (ok_or (pm_get p (files s)) (NotFound p));
  let files' := pm_remove p (files s) in
  put (set_files files' s) ;;
  fail_if (is_directory (metadata entry) &&
           existsb (fun k => negb (path_eqb k p) && path_starts_with k p) (pm_keys files'))
    DirectoryNotEmpty ;;
  modify (fun s => set_xattrs (pm_remove p (xattrs s)) s) ;;
  inc_op "remove" ;;
  inc_entries (-1).

(** [*p == path || p.starts_with(path)] *)
Definition in_subtree p (k : Path) : bool := path_eqb k p || path_starts_with k p.

(* src: crates/racfs-plugin-memfs/src/fs/dir.rs 116-138 MemFS::remove_all *)
Definition remove_all now p : FsOp MemFS () :=
  s ← get;
  fail_if (negb (pm_contains p (files s))) (NotFound p) ;;
  let removed := len (List.filter (in_subtree p) (pm_keys (files s))) in
  let keep k := negb (path_eqb k p) && negb (path_starts_with k p) in
  put (set_files (pm_retain keep (files s)) s) ;;
  modify (fun s => set_xattrs (pm_retain keep (xattrs s)) s) ;;
  inc_op "remove_all" ;;
  inc_entries (- removed).

(* src: crates/racfs-plugin-memfs/src/fs/dir.rs 140-169 MemFS::rename *)
Definition rename now (old new : Path) : FsOp MemFS () :=
  s ← get;
  entry ← lift (ok_or (pm_get old (files s)) (NotFound old));
  let files' := pm_remove old (files s) in
  if pm_contains new files' then
    put (set_files (pm_insert old entry files') s) ;;
    fail (AlreadyExists new)
  else
    let new_entry := set_metadata (set_path new (metadata entry)) entry in
    put (set_files (pm_insert new new_entry files') s) ;;
    modify (fun s =>
      match pm_get old (xattrs s) with
      | Some attrs => set_xattrs (pm_insert new attrs (pm_remove old (xattrs s))) s
      | None => s
      end) ;;
    inc_op "rename".

(** *** The rest of [FileSystem] ([fs/mod.rs]) *)

(* src: crates/racfs-plugin-memfs/src/fs/mod.rs 200-226 MemFS::truncate *)
Definition truncate now p (size : Z) : FsOp MemFS () :=
  with_entry p
    (reject_directory p ;;
     current_size ← data_len;
     (if size <? current_size then update_data (fun d => Ok (ztake size d))
      else if current_size <? size then update_data (resize size Byte.x00)
      else mret ()) ;;
     update_metadata (set_size size) ;;
     update_metadata (set_modified (Some (now 0%nat)))) ;;
  inc_op "truncate".

(* src: crates/racfs-plugin-memfs/src/fs/mod.rs 228-252 MemFS::touch *)
Definition touch now p : FsOp MemFS () :=
  s ← get;
  (if pm_contains p (files s) then
     with_entry p
       (update_metadata (set_accessed (Some (now 0%nat))) ;;
        update_metadata (set_modified (Some (now 1%nat))))
   else
     put (set_files (pm_insert p (plain_entry (file now p 0)) (files s)) s) ;;
     inc_entries 1) ;;
  inc_op "touch".

(* src: crates/racfs-plugin-memfs/src/fs/mod.rs 254-267 MemFS::readlink *)
Definition readlink now p : FsOp MemFS Path :=
  entry ← get_entry p;
  fail_if (negb (is_symlink entry)) (InvalidInput "not a symlink") ;;
  lift (ok_or (symlink_target entry) (InvalidInput "symlink has no target")).

(* src: crates/racfs-plugin-memfs/src/fs/mod.rs 269-295 MemFS::symlink *)
Definition symlink now (target link : Path) : FsOp MemFS () :=
  ensure_parent_exists link ;;
  s ← get;
  fail_if (pm_contains link (files s)) (AlreadyExists link) ;;
  put (set_files (pm_insert link
         {| data := []; metadata := Metadata.symlink now link target; is_symlink := true;
            symlink_target := Some target |} (files s)) s) ;;
  inc_op "symlink" ;;
  inc_entries 1.

Definition xattr_missing : FSError := InvalidInput "extended attribute not found".

(* src: crates/racfs-plugin-memfs/src/fs/mod.rs 297-309 MemFS::get_xattr *)
Definition get_xattr now p (name : string) : FsOp MemFS bytes :=
  get_entry p ;;
  s ← get;
  per_path ← lift (ok_or (pm_get p (xattrs s)) xattr_missing);
  lift (ok_or (per_path !! name) xattr_missing).

(* src: crates/racfs-plugin-memfs/src/fs/mod.rs 311-320 MemFS::set_xattr *)
Definition set_xattr now p (name : string) (value : bytes) : FsOp MemFS () :=
  get_entry p ;;
  modify (fun s => set_xattrs
    (pm_insert p (<[name := value]> (default ∅ (pm_get p (xattrs s)))) (xattrs s)) s) ;;
  inc_op "set_xattr".

(* src: crates/racfs-plugin-memfs/src/fs/mod.rs 322-333 MemFS::remove_xattr *)
Definition remove_xattr now p (name : string) : FsOp MemFS () :=
  get_entry p ;;
  s ← get;
  per_path ← lift (ok_or (pm_get p (xattrs s)) xattr_missing);
  lift (ok_or (per_path !! name) xattr_missing) ;;
  put (set_xattrs (pm_update p (fun _ => delete name per_path) (xattrs s)) s) ;;
  inc_op "remove_xattr".

(** The order of the names is that of the hash map, which is unspecified. *)
(* src: crates/racfs-plugin-memfs/src/fs/mod.rs 335-344 MemFS::list_xattr *)
Definition list_xattr now p : FsOp MemFS (list string) :=
  get_entry p ;;
  s ← get;
  inc_op "list_xattr" ;;
  mret (match pm_get p (xattrs s) with
        | Some m => (map_to_list m).*1
        | None => []
        end).

#[global] Instance memfs_filesystem : FileSystem MemFS := {
  fs_read := read; fs_stat := stat; fs_create := create; fs_write := write;
  fs_mkdir := mkdir; fs_read_dir := read_dir; fs_remove := remove;
  fs_remove_all := remove_all; fs_rename := rename; fs_chmod := chmod;
  fs_truncate := truncate; fs_touch := touch; fs_readlink := readlink;
  fs_symlink := symlink; fs_get_xattr := get_xattr; fs_set_xattr := set_xattr;
  fs_remove_xattr := remove_xattr; fs_list_xattr := list_xattr
}.
End Ops.

(** ** The invariant *)

(** An entry stored in the slot [c]: its metadata carries the path of the slot,
    the size in the metadata is the length of the content, a directory has no
    content, and exactly the symlinks have a target. *)
Record entry_ok (c : list Component) (e : FileEntry) : Prop := {
  eo_path : components (Metadata.path (metadata e)) = c;
  eo_size : is_symlink e = false -> Metadata.size (metadata e) = len (data e);
  eo_dir : is_directory (metadata e) = true -> data e = [] /\ is_symlink e = false;
  eo_link : is_symlink e = true <-> is_Some (symlink_target e);
  eo_max : len (data e) <= isize_max
}.

Record memfs_ok (s : MemFS) : Prop := {
  mo_keys : pm_wf (files s);
  mo_entries : pm_all entry_ok (files s);
  mo_xattrs : pm_wf (xattrs s)
}.
#[export] Hint Resolve mo_keys mo_entries mo_xattrs : racfs.

Lemma memfs_ok_files f s :
  pm_wf f -> pm_all entry_ok f -> memfs_ok s -> memfs_ok (set_files f s).
Proof. intros ? ? []. by constructor. Qed.

Lemma memfs_ok_xattrs x s : pm_wf x -> memfs_ok s -> memfs_ok (set_xattrs x s).
Proof. intros ? []. by constructor. Qed.

Lemma memfs_ok_metrics k s : memfs_ok s -> memfs_ok (set_metrics k s).
Proof. intros []. by constructor. Qed.
#[export] Hint Resolve memfs_ok_files memfs_ok_xattrs memfs_ok_metrics : racfs.

Lemma plain_entry_ok p m :
  Metadata.path m = p -> Metadata.size m = 0 -> entry_ok (components p) (plain_entry m).
Proof.
  intros <- Hs. constructor; simpl; done. Qed.

Lemma dir_entry_ok now p perm : entry_ok (components p) (dir_entry now p perm).
Proof. by apply plain_entry_ok. Qed.

Lemma file_entry_ok now p : entry_ok (components p) (plain_entry (file now p 0)).
Proof. by apply plain_entry_ok. Qed.

Lemma link_entry_ok now target link :
  entry_ok (components link)
    {| data := []; metadata := Metadata.symlink now link target; is_symlink := true;
       symlink_target := Some target |}.
Proof. constructor; simpl; try done. Qed.
#[export] Hint Resolve dir_entry_ok file_entry_ok link_entry_ok : racfs.

Lemma memfs_ok_new now : memfs_ok (new now).
Proof.
  change (memfs_ok (set_files (pm_insert "/" (dir_entry now "/" (octal 755)) ∅)
                      {| files := ∅; xattrs := ∅; metrics := None |})).
  constructor; simpl; auto with racfs.
Qed.

(** What a computation on one entry must keep, it keeps on the map. *)
Lemma keeps_with_entry {A} p (m : M FileEntry FSError A) :
  keeps (entry_ok (components p)) m -> keeps memfs_ok (with_entry p m).
Proof.
  intros Hm s Hs. unfold with_entry.
  destruct (pm_get p (files s)) as [e|] eqn:E; [|done].
  assert (He : entry_ok (components p) e) by (eapply pm_all_get, E; apply Hs).
  specialize (Hm e He). destruct (m e) as [r e']. simpl in *. intros Hr.
  eauto 8 with racfs.
Qed.

Lemma keeps_metric c : keeps memfs_ok (metric c).
Proof. intros s Hs _. unfold metric. munfold. auto with racfs. Qed.

Lemma keeps_inc_op o : keeps memfs_ok (inc_op o).
Proof. apply keeps_metric. Qed.

Lemma keeps_inc_entries d : keeps memfs_ok (inc_entries d).
Proof. apply keeps_metric. Qed.

Lemma keeps_get_entry p : keeps memfs_ok (get_entry p).
Proof. by intros s Hs _. Qed.
#[export] Hint Resolve keeps_with_entry keeps_metric keeps_inc_op keeps_inc_entries
  keeps_get_entry : racfs.

Lemma keeps_ensure_parent p : keeps memfs_ok (ensure_parent_exists p).
Proof.
  intros s Hs _. unfold ensure_parent_exists. munfold.
  destruct (parent p) as [q|]; [|done]. destruct (String.eqb q "/"); [done|].
  destruct (pm_get q (files s)); simpl; [|done].
  by destruct (is_directory (metadata _)).
Qed.
#[export] Hint Resolve keeps_ensure_parent : racfs.

Lemma entry_ok_metadata c f e :
  Metadata.path (f (metadata e)) = Metadata.path (metadata e) ->
  Metadata.size (f (metadata e)) = Metadata.size (metadata e) ->
  is_directory (f (metadata e)) = is_directory (metadata e) ->
  entry_ok c e -> entry_ok c (set_metadata (f (metadata e)) e).
Proof.
  intros Hp Hs Hd []. constructor; simpl; rewrite ?Hp, ?Hs, ?Hd; done.
Qed.

(** New content for an entry that is not a directory. *)
Lemma entry_ok_content c d m e :
  is_directory (metadata e) = false -> is_directory m = is_directory (metadata e) ->
  Metadata.path m = Metadata.path (metadata e) -> Metadata.size m = len d ->
  len d <= isize_max -> entry_ok c e -> entry_ok c (set_metadata m (set_data d e)).
Proof.
  intros Hdir Hd Hp Hs Hmax []. constructor; simpl; try done.
  - by rewrite Hp.
  - rewrite Hd, Hdir. done.
Qed.

(** *** What a write leaves *)

(** The content after a write that returns: appended, behind a padding of
    zeros, in append mode, at a negative offset and at an offset that is not
    inside the content; the new bytes alone at offset 0; overlaid otherwise. *)
Definition written (content : bytes) (offset flags : Z) (old : bytes) : bytes :=
  if WriteFlags.contains_append flags || (offset <? 0) || (len old <=? offset)
  then old ++ replicate (Z.to_nat (offset - len old)) Byte.x00 ++ content
  else if offset =? 0 then content
  else overlay Byte.x00 offset content old.

Lemma update_data_ok f e d :
  f (data e) = Ok d -> update_data f e = (Ok (), set_data d e).
Proof. intros Hf. unfold update_data, update_state. munfold. by rewrite Hf. Qed.

Lemma set_data_twice d d' e : set_data d (set_data d' e) = set_data d e.
Proof. reflexivity. Qed.

Lemma set_data_same e : set_data (data e) e = e.
Proof. by destruct e. Qed.

(** Padding to [n], for any [n]. *)
Lemma pad_ok n e :
  n <= isize_max ->
  (if len (data e) <? n then update_data (resize n Byte.x00) else mret ()) e
  = (Ok (), set_data (data e ++ replicate (Z.to_nat (n - len (data e))) Byte.x00) e).
Proof.
  intros Hn. destruct (Z.ltb_spec (len (data e)) n).
  - apply update_data_ok. by rewrite resize_grow.
  - replace (Z.to_nat (n - len (data e))) with 0%nat by lia. simpl.
    by rewrite app_nil_r, set_data_same.
Qed.

Section Write.
Context `{BuildProfile}.

Lemma i64_cases offset :
  in_i64 offset = true ->
  (offset < 0 /\ i64_max < i64_as_usize offset) \/ (0 <= offset /\ i64_as_usize offset = offset).
Proof.
  unfold in_i64. intros Hb. bool_lia.
  destruct (Z.ltb_spec offset 0); [left|right]; (split; [done|]).
  - rewrite i64_as_usize_neg by lia. unfold i64_min, i64_max in *. lia.
  - by rewrite i64_as_usize_nonneg by lia.
Qed.

Lemma len_written content offset flags old :
  len (written content offset flags old) =
  if WriteFlags.contains_append flags || (offset <? 0) || (len old <=? offset)
  then Z.max offset (len old) + len content
  else if offset =? 0 then len content
  else Z.max (len old) (offset + len content).
Proof.
  pose proof (len_nonneg old). pose proof (len_nonneg content). unfold written.
  case_match eqn:Hb; [|case_match].
  - rewrite !len_app. unfold len at 2. rewrite length_replicate. lia.
  - done.
  - bool_lia. by rewrite len_overlay by lia.
Qed.

(** The write pads with zeros up to the offset and appends. *)
Lemma append_run content n e :
  len (data e) <= isize_max -> 0 <= n <= isize_max ->
  (((if len (data e) <? n then update_data (resize n Byte.x00) else mret ()) ;;
    update_data (extend_from_slice content) ;; data_len) : M FileEntry FSError Z) e
  = let old := data e ++ replicate (Z.to_nat (n - len (data e))) Byte.x00 in
    if isize_max <? Z.max n (len (data e)) + len content then (Panic, set_data old e)
    else (Ok (Z.max n (len (data e)) + len content), set_data (old ++ content) e).
Proof.
  intros Hlen Hn. pose proof (pad_ok n e ltac:(lia)) as Hpad. munfold. rewrite Hpad.
  unfold update_data, update_state, data_len. munfold. unfold extend_from_slice.
  assert (Hl : len (data e ++ replicate (Z.to_nat (n - len (data e))) Byte.x00)
               = Z.max n (len (data e))).
  { rewrite len_app. unfold len at 2. rewrite length_replicate. lia. }
  rewrite Hl. destruct (isize_max <? n `max` len (data e) + len content); simpl; [done|].
  by rewrite (len_app (data e ++ _)), Hl.
Qed.

(** A write never fails: it leaves [written], or panics when that would
    outgrow the largest vector. *)
Lemma write_content_run content offset flags e :
  in_i64 offset = true -> len (data e) <= isize_max -> len content <= isize_max ->
  let d := written content offset flags (data e) in
  (len d <= isize_max -> write_content content offset flags e = (Ok (len d), set_data d e)) /\
  (isize_max < len d -> fst (write_content content offset flags e) = Panic).
Proof.
  intros Hoff Hlen Hc d. pose proof (len_nonneg (data e)). pose proof (len_nonneg content).
  subst d. rewrite len_written.
  change (write_content content offset flags e)
    with (write_branch (len (data e)) content offset flags e).
  unfold write_branch, written.
  destruct (i64_cases _ Hoff) as [[Hneg Hbig]|[Hpos Hsame]].
  - assert (Hle : (len (data e) <=? i64_as_usize offset) = true)
      by (apply Z.leb_le; unfold isize_max, i64_max in *; lia).
    rewrite Hle, orb_true_r. destruct (Z.ltb_spec offset 0); [|lia].
    rewrite orb_true_r. simpl orb. cbv iota.
    rewrite (Z.max_r offset 0) by lia. change (i64_as_usize 0) with 0.
    rewrite append_run by (unfold isize_max in *; lia). cbv zeta.
    replace (Z.to_nat (0 - _)) with 0%nat by lia. replace (Z.to_nat (offset - _)) with 0%nat by lia.
    rewrite (Z.max_r 0), (Z.max_r offset) by lia. simpl replicate. rewrite app_nil_r, app_nil_l.
    destruct (Z.ltb_spec isize_max (len (data e) + len content)); split; done || lia.
  - rewrite Hsame. destruct (Z.ltb_spec offset 0); [lia|]. rewrite orb_false_r.
    assert (offset <= isize_max) by (unfold in_i64 in Hoff; bool_lia; unfold i64_max, isize_max in *; lia).
    destruct (WriteFlags.contains_append flags || (len (data e) <=? offset)) eqn:Ha.
    + rewrite (Z.max_l offset 0), Hsame by lia. rewrite append_run by lia. cbv zeta.
      rewrite <- app_assoc.
      destruct (Z.ltb_spec isize_max (offset `max` len (data e) + len content)); split; done || lia.
    + apply orb_false_iff in Ha as [_ Hin]. bool_lia.
      destruct (Z.eqb_spec offset 0) as [->|Hnz]; [split; done || lia|].
      destruct (Z.leb_spec offset 0); [lia|].
      destruct (Z.ltb_spec (len (data e)) offset); [lia|].
      unfold data_len. munfold.
      rewrite usize_add_ok by (unfold isize_max, u64_max in *; lia).
      split; intros Hm.
      * pose proof (pad_ok (offset + len content) e ltac:(lia)) as Hpad. munfold. rewrite Hpad.
        set (n := Z.to_nat (offset + len content - len (data e))).
        assert (Hn : len (replicate n Byte.x00) = Z.max 0 (offset + len content - len (data e)))
          by (subst n; unfold len at 1; rewrite length_replicate; lia).
        erewrite update_data_ok by (apply copy_from_slice_ok; simpl; rewrite len_app, Hn; lia).
        simpl. rewrite set_data_twice.
        enough (Heq : ztake offset (data e ++ replicate n Byte.x00) ++ content ++
                zdrop (offset + len content) (data e ++ replicate n Byte.x00)
                = overlay Byte.x00 offset content (data e))
          by (rewrite Heq, len_overlay; [done|lia]).
        unfold overlay. replace (Z.to_nat (offset - len (data e))) with 0%nat by lia. simpl.
        unfold ztake, zdrop, len in *. rewrite take_app_le by lia. do 2 f_equal.
        rewrite drop_app, drop_replicate.
        match goal with |- _ ++ replicate ?k _ = _ => replace k with 0%nat by lia end.
        apply app_nil_r.
      * destruct (Z.ltb_spec (len (data e)) (offset + len content)); [|lia].
        unfold update_data at 1, update_state. munfold. unfold resize.
        destruct (Z.leb_spec (offset + len content) (len (data e))); [lia|].
        destruct (Z.ltb_spec isize_max (offset + len content)); [done|lia].
Qed.
End Write.

(** ** Every call keeps the invariant *)

(** Symbolic execution down to the updates of the state. *)
Ltac memrun :=
  unfold inc_op, inc_entries, metric, get_entry in *; munfold;
  repeat match goal with
  | |- context [ok_or ?o _] => destruct o eqn:?; simpl
  | |- context [if ?b then _ else _] => destruct b eqn:?; simpl
  end.

Section Keeps.
Context `{BuildProfile}.
Implicit Types (now : Now) (p : Path).

Lemma keeps_read_fuel fuel p o n : keeps memfs_ok (read_fuel fuel p o n).
Proof.
  revert p. induction fuel as [|f IH]; intros p; simpl; apply keeps_bind;
    auto with racfs; intros e; repeat case_match; auto with racfs;
    apply keeps_bind; auto with racfs; intros [a b]; repeat case_match; auto with racfs.
Qed.

Lemma keeps_read now p o n : keeps memfs_ok (read now p o n).
Proof. apply keeps_get. intros s Hs. by apply keeps_read_fuel. Qed.

Lemma keeps_stat now p : keeps memfs_ok (stat now p).
Proof. unfold stat. auto 7 with racfs. Qed.

(** Inserting a fresh entry, the common tail of [create], [mkdir],
    [symlink] and [touch]. *)
Lemma keeps_insert_entry {B} (g : MemFS -> M MemFS FSError B) p e err :
  entry_ok (components p) e -> (forall s, keeps memfs_ok (g s)) ->
  keeps memfs_ok
    (s ← get; fail_if (pm_contains p (files s)) err ;;
     put (set_files (pm_insert p e (files s)) s) ;; g s).
Proof.
  intros He Hg. apply keeps_get. intros s Hs. unfold fail_if.
  case_match; [done|]. apply (Hg s).
  apply memfs_ok_files; auto with racfs.
Qed.

Lemma keeps_create now p : keeps memfs_ok (create now p).
Proof. unfold create. apply keeps_bind; auto with racfs. intros _. apply keeps_insert_entry; auto with racfs. Qed.

Lemma keeps_mkdir now p perm : keeps memfs_ok (mkdir now p perm).
Proof.
  unfold mkdir. apply keeps_bind.
  - repeat case_match; auto with racfs.
  - intros _. apply keeps_insert_entry; auto with racfs.
Qed.

Lemma keeps_symlink now t l : keeps memfs_ok (symlink now t l).
Proof. unfold symlink. apply keeps_bind; auto with racfs. intros _. apply keeps_insert_entry; auto with racfs. Qed.

Lemma keeps_write now p content offset flags :
  in_i64 offset = true -> len content <= isize_max ->
  keeps memfs_ok (write now p content offset flags).
Proof.
  intros Ho Hc. unfold write. apply keeps_bind; [|auto with racfs].
  apply keeps_with_entry. intros e He. unfold reject_directory. munfold.
  destruct (is_directory (metadata e)) eqn:Hd; [done|].
  destruct (write_content_run content offset flags e Ho (eo_max _ _ He) Hc) as [Hok Hpanic].
  destruct (Z.le_gt_cases (len (written content offset flags (data e))) isize_max) as [Hle|Hgt].
  - rewrite Hok by done. intros _. unfold update_metadata. munfold.
    by apply (entry_ok_content _ _ (set_modified _ (set_size _ _)) e).
  - specialize (Hpanic ltac:(lia)). destruct (write_content content offset flags e).
    simpl in Hpanic. by subst.
Qed.

Lemma keeps_chmod now p mode : keeps memfs_ok (chmod now p mode).
Proof.
  unfold chmod. apply keeps_bind; [|auto with racfs]. apply keeps_with_entry.
  intros e He _. unfold update_metadata. munfold.
  apply (entry_ok_metadata _ (fun m => set_modified _ (set_permissions mode m)) e); try done.
  apply is_directory_set_permissions.
Qed.

Lemma keeps_truncate now p n :
  in_u64 n = true -> keeps memfs_ok (truncate now p n).
Proof.
  intros Hn. unfold truncate. apply keeps_bind; [|auto with racfs]. apply keeps_with_entry.
  intros e He. pose proof (eo_max _ _ He). unfold in_u64 in Hn. bool_lia.
  unfold reject_directory, data_len. munfold. destruct (is_directory (metadata e)) eqn:Hd; [done|].
  destruct (Z.ltb_spec n (len (data e))) as [Hlt|Hge].
  { rewrite (update_data_ok _ _ (ztake n (data e))) by done. unfold update_metadata. munfold. intros _.
    apply (entry_ok_content _ (ztake n (data e)) (set_modified _ (set_size n (metadata e))) e);
      try done; simpl; rewrite len_ztake by lia; lia. }
  destruct (Z.ltb_spec (len (data e)) n) as [Hgt|Heq].
  - unfold update_data, update_state. munfold. unfold resize.
    destruct (Z.leb_spec n (len (data e))); [lia|].
    destruct (Z.ltb_spec isize_max n); [done|]. unfold update_metadata. munfold. intros _.
    apply (entry_ok_content _ (data e ++ _) (set_modified _ (set_size n (metadata e))) e);
      try done; simpl; rewrite len_app, len_replicate by lia; lia.
  - assert (n = len (data e)) as -> by lia. unfold update_metadata. munfold. intros _.
    by apply (entry_ok_content _ (data e) (set_modified _ (set_size (len (data e)) (metadata e))) e).
Qed.

Lemma keeps_touch now p : keeps memfs_ok (touch now p).
Proof.
  unfold touch. apply keeps_get. intros s Hs. case_match.
  - apply (keeps_bind memfs_ok _ (fun _ => inc_op "touch")); auto with racfs.
    apply keeps_with_entry. intros e He _. unfold update_metadata. munfold.
    by apply (entry_ok_metadata _ (fun m => set_modified _ (set_accessed _ m)) e).
  - intros _. memrun. auto 9 with racfs.
Qed.

Lemma keeps_remove now p : keeps memfs_ok (remove now p).
Proof.
  unfold remove. apply keeps_get. intros s Hs. memrun; auto 9 with racfs.
Qed.

Lemma keeps_remove_all now p : keeps memfs_ok (remove_all now p).
Proof.
  unfold remove_all. apply keeps_get. intros s Hs. memrun; auto 11 with racfs.
Qed.

Lemma keeps_rename now old new : keeps memfs_ok (rename now old new).
Proof.
  unfold rename. apply keeps_get. intros s Hs. munfold.
  destruct (pm_get old (files s)) as [e|] eqn:E; simpl; [|done].
  assert (He : entry_ok (components old) e) by (eapply pm_all_get, E; apply Hs).
  case_match; munfold; [auto 8 with racfs|]. intros _.
  assert (Hn : entry_ok (components new) (set_metadata (set_path new (metadata e)) e))
    by (destruct He; by constructor).
  case_match; auto 12 with racfs.
Qed.

Lemma keeps_call now c : call_wf c = true -> keeps memfs_ok (run_call now c).
Proof.
  intros Hc. apply keeps_run_call. destruct c; simpl in *; bool_lia;
    auto using keeps_read, keeps_stat, keeps_create, keeps_mkdir, keeps_symlink, keeps_write,
      keeps_chmod, keeps_truncate, keeps_touch, keeps_remove, keeps_remove_all, keeps_rename.
  - intros s Hs _. unfold read_dir. munfold. auto with racfs.
  - intros s Hs _. unfold readlink, get_entry. munfold. repeat (case_match; simplify_eq; simpl); done.
  - intros s Hs _. unfold get_xattr, get_entry. munfold. repeat (case_match; simplify_eq; simpl); done.
  - intros s Hs _. unfold set_xattr, get_entry. munfold.
    destruct (pm_get p (files s)); simpl; auto with racfs.
  - intros s Hs _. unfold remove_xattr, get_entry. munfold.
    destruct (pm_get p (files s)), (pm_get p (xattrs s)) as [x|]; simpl; auto with racfs.
    destruct (x !! name); simpl; auto with racfs.
  - intros s Hs _. unfold list_xattr, get_entry. munfold.
    destruct (pm_get p (files s)); simpl; auto with racfs.
Qed.
End Keeps.

(** ** Symlinks *)

(** The target that [read] goes on to after the entry [e], if it goes on. *)
Definition entry_link (e : FileEntry) : option Path :=
  if is_directory (metadata e) then None
  else if is_symlink e then symlink_target e else None.

Definition link_target (s : MemFS) (p : Path) : option Path := pm_get p (files s) ≫= entry_link.

(** The same on the slots of the map. *)
Definition link_of (s : MemFS) (c : list Component) : option (list Component) :=
  components <$> ((files s : gmap _ _) !! c ≫= fun kv => entry_link (snd kv)).

Lemma link_of_target s p : link_of s (components p) = components <$> link_target s p.
Proof.
  unfold link_of, link_target, pm_get. by destruct ((files s : gmap _ _) !! components p) as [[]|].
Qed.

Lemma link_of_dom s c c' : link_of s c = Some c' -> c ∈ dom (files s : gmap _ _).
Proof.
  unfold link_of. intros Hl. apply elem_of_dom.
  destruct ((files s : gmap _ _) !! c); simpl in Hl; [eauto|done].
Qed.

Section Links.
Context `{BuildProfile}.

(** What [read] does with an entry whose content it returns. *)
Definition read_entry (entry : FileEntry) (o n : Z) : FsOp MemFS bytes :=
  '(start, e) ← lift (range_bounds (data entry) o n);
  if len (data entry) <=? start then mret []
  else inc_op "read" ;; lift (slice start e (data entry)).

Lemma read_entry_returns entry o n s : fst (read_entry entry o n s) <> Diverge.
Proof.
  unfold read_entry, inc_op, metric, range_bounds, i64_add, checked_arith, slice. munfold.
  repeat (case_match; simplify_eq; simpl in *); done.
Qed.

(** One call of [read]: it goes on along the link, or ends here. *)
Lemma read_fuel_step f p o n s :
  read_fuel f p o n s =
  match link_target s p with
  | Some t => match f with O => (Diverge, s) | S f' => read_fuel f' t o n s end
  | None => match pm_get p (files s) with
            | None => (Err (NotFound p), s)
            | Some e => if is_directory (metadata e) then (Err (IsDirectory p), s)
                        else read_entry e o n s
            end
  end.
Proof.
  unfold link_target, entry_link.
  destruct f; simpl; unfold get_entry, read_entry; munfold;
    destruct (pm_get p (files s)) as [e|]; simpl; try done;
    destruct (is_directory (metadata e)); simpl; try done;
    destruct (is_symlink e), (symlink_target e); done.
Qed.

Lemma read_fuel_diverges f p o n s :
  fst (read_fuel f p o n s) = Diverge <-> chain (link_of s) f (components p) = true.
Proof.
  revert p. induction f as [|f IH]; intros p; rewrite read_fuel_step;
    simpl chain; rewrite link_of_target; (destruct (link_target s p); simpl; [done|]);
    pose proof (read_entry_returns) as Hr; repeat case_match; simpl; try done;
    (split; [intros He; by apply Hr in He|done]).
Qed.

Lemma read_fuel_more k f p o n s :
  chain (link_of s) f (components p) = false ->
  read_fuel (k + f) p o n s = read_fuel f p o n s.
Proof.
  revert p. induction f as [|f IH]; intros p; simpl chain; rewrite link_of_target;
    rewrite !(read_fuel_step _ p); (destruct (link_target s p); simpl; [|done]).
  - done.
  - rewrite Nat.add_succ_r. auto.
Qed.
End Links.

(** ** Properties *)

Section Properties.
Context `{BuildProfile}.

(** C1: in every state that calls of the trait reach from a new [MemFS], the
    keys denote their slots, the metadata of every entry carries its path,
    the size in the metadata of a non-symlink is the length of the content,
    directories have no content and exactly the symlinks have a target. *)
Theorem memfs_reachable_ok now s : reachable (new now) s -> memfs_ok s.
Proof. apply reachable_invariant; [apply keeps_call|apply memfs_ok_new]. Qed.

(** C2: [write] on every branch.  A path without an entry is not found and a
    directory is refused, with nothing changed.  Any other entry has exactly
    [written] as its content: appended in append mode, at a negative offset and
    past the end, the new bytes alone at offset 0, overlaid in the middle; size
    and modification time follow, the write is counted, and the number of bytes
    given is the answer.  When the content would outgrow the largest vector it
    panics.  In no case does another path or an attribute change. *)
Theorem memfs_write_spec now s p content offset flags :
  memfs_ok s -> in_i64 offset = true -> len content <= isize_max ->
  let r := fst (write now p content offset flags s) in
  let s' := snd (write now p content offset flags s) in
  (forall q, components q <> components p -> pm_get q (files s') = pm_get q (files s)) /\
  xattrs s' = xattrs s /\
  match pm_get p (files s) with
  | None => r = Err (NotFound p) /\ s' = s
  | Some e =>
    let d := written content offset flags (data e) in
    if is_directory (metadata e) then
      r = Err (IsDirectory p) /\ pm_get p (files s') = Some e /\ metrics s' = metrics s
    else if len d <=? isize_max then
      r = Ok (len content) /\ metrics s' = cons (OperationsInc "write") <$> metrics s /\
      pm_get p (files s') =
        Some (set_metadata (set_modified (Some (now 0%nat)) (set_size (len d) (metadata e))) (set_data d e))
    else r = Panic /\ metrics s' = metrics s
  end.
Proof.
  intros Hs Ho Hc. cbv zeta. unfold write, with_entry, reject_directory, inc_op, metric. munfold.
  destruct (pm_get p (files s)) as [e|] eqn:Hp; [|done].
  assert (He : entry_ok (components p) e) by (eapply pm_all_get, Hp; apply Hs).
  destruct (write_content_run content offset flags e Ho (eo_max _ _ He) Hc) as [Hok Hpanic].
  assert (Hother : forall f q, components q <> components p -> pm_get q (pm_update p f (files s)) = pm_get q (files s))
    by (intros f q Hq; by apply pm_get_update_ne).
  destruct (is_directory (metadata e)); [simpl; split_and!; rewrite ?pm_get_update, ?Hp; auto|].
  destruct (Z.leb_spec (len (written content offset flags (data e))) isize_max).
  - rewrite Hok by done. unfold update_metadata. munfold. simpl. split_and!; rewrite ?pm_get_update, ?Hp; auto.
  - specialize (Hpanic ltac:(done)). destruct (write_content content offset flags e) as [r e'].
    simpl in Hpanic. subst r. simpl. split_and!; auto.
Qed.

(** C3: what was written is read back: after a [write] without the append
    flag at an offset [o >= 0] of a regular file, [read] at [o] of as many
    bytes returns them. *)
Theorem memfs_read_after_write now now' s p e content offset flags :
  memfs_ok s -> pm_get p (files s) = Some e -> is_directory (metadata e) = false ->
  is_symlink e = false -> WriteFlags.contains_append flags = false ->
  0 <= offset -> Z.max offset (len (data e)) + len content <= i64_max ->
  exists s', write now p content offset flags s = (Ok (len content), s') /\
             fst (read now' p offset (len content) s') = Ok content.
Proof.
  intros Hs Hp Hd Hl Hf Ho Hmax. pose proof (len_nonneg (data e)). pose proof (len_nonneg content).
  assert (He : entry_ok (components p) e) by (eapply pm_all_get, Hp; apply Hs).
  assert (Hi : in_i64 offset = true)
    by (unfold in_i64, i64_min; apply andb_true_iff; rewrite !Z.leb_le; lia).
  destruct (write_content_run content offset flags e Hi (eo_max _ _ He)) as [Hok _];
    [unfold isize_max, i64_max in *; lia|].
  set (d := written content offset flags (data e)) in *.
  assert (Hlen : len d <= isize_max).
  { subst d. rewrite len_written. unfold isize_max, i64_max in *. repeat case_match; lia. }
  set (e' := set_metadata (set_modified (Some (now 0%nat)) (set_size (len d) (metadata e)))
                          (set_data d e)).
  eexists. split.
  - unfold write, with_entry, reject_directory, inc_op, metric. munfold.
    rewrite Hp, Hd, Hok by done. unfold update_metadata. munfold. reflexivity.
  - fold e'. unfold read. munfold. rewrite read_fuel_step. unfold link_target. simpl.
    rewrite pm_get_update, Hp. simpl. unfold entry_link. simpl.
    change (is_directory (set_modified _ (set_size _ (metadata e)))) with (is_directory (metadata e)).
    rewrite Hd, Hl. simpl. unfold read_entry, inc_op, metric. munfold.
    assert (Hr : read_range d offset (len content) = Ok content).
    { rewrite read_range_spec by (unfold isize_max, i64_max in *; lia). f_equal.
      unfold range_spec. destruct (Z.ltb_spec (len content) 0); [lia|].
      subst d. unfold written. rewrite Hf. destruct (Z.ltb_spec offset 0); [lia|]. simpl.
      unfold ztake, zdrop, overlay, len in *.
      destruct (Z.leb_spec (Z.of_nat (length (data e))) offset).
      - rewrite app_assoc, drop_app_length' by (rewrite length_app, length_replicate; lia).
        apply take_ge. lia.
      - destruct (Z.eqb_spec offset 0) as [->|].
        + simpl. apply take_ge. lia.
        + unfold ztake, zdrop. rewrite drop_app_length' by (rewrite length_take; lia).
          replace (Z.to_nat (offset - _)) with 0%nat by lia. simpl.
          by rewrite take_app_length' by lia. }
    unfold read_range in Hr. unfold mbind, outcome_bind in Hr.
    destruct (range_bounds d offset (len content)) as [[a b]| | |]; simpl in *; try done.
    destruct (len d <=? a); simpl; done.
Qed.

(** C35: [read] makes at most as many calls of itself as there are entries:
    with any more fuel it does the same, and it never comes back exactly when
    the chain of symlinks is endless. *)
Theorem memfs_read_terminates now s p o n k :
  read_fuel (k + base.size (files s)) p o n s = read now p o n s /\
  (fst (read now p o n s) = Diverge <->
   forall j, chain (link_of s) j (components p) = true).
Proof.
  unfold read. unfold get, mbind, M_bind. simpl.
  assert (Hall : chain (link_of s) (base.size (files s)) (components p) = true ->
                 forall j, chain (link_of s) j (components p) = true).
  { intros Hc j. eapply (chain_forever _ (dom (files s : gmap _ _))); [apply link_of_dom| |exact Hc].
    by rewrite size_dom. }
  split.
  - destruct (chain (link_of s) (base.size (files s)) (components p)) eqn:Hc.
    + specialize (Hall eq_refl (k + base.size (files s))%nat).
      assert (Hsame : forall f q, snd (read_fuel f q o n s) = s \/ chain (link_of s) f (components q) = false).
      { intros f. induction f as [|f IH]; intros q; rewrite read_fuel_step; simpl chain;
          rewrite link_of_target; destruct (link_target s q); simpl; auto. }
      apply read_fuel_diverges with (o := o) (n := n) in Hall, Hc.
      destruct (Hsame (k + base.size (files s))%nat p) as [H1|H1];
        [|apply read_fuel_diverges with (o := o) (n := n) in Hall; congruence].
      destruct (Hsame (base.size (files s)) p) as [H2|H2];
        [|apply read_fuel_diverges with (o := o) (n := n) in Hc; congruence].
      destruct (read_fuel (k + base.size (files s)) p o n s), (read_fuel (base.size (files s)) p o n s).
      simpl in *. congruence.
    + by apply read_fuel_more.
  - rewrite read_fuel_diverges. split; auto.
Qed.

(** [remove] of a directory that is not empty answers
    [DirectoryNotEmpty], and all the same takes the directory out of the
    map: its children stay behind without it and it can no longer be
    found. *)
Theorem memfs_remove_nonempty now s p e c k v :
  pm_wf (files s) -> pm_get p (files s) = Some e -> is_directory (metadata e) = true ->
  (files s : gmap _ _) !! c = Some (k, v) -> c <> components p ->
  path_starts_with k p = true ->
  fst (remove now p s) = Err DirectoryNotEmpty /\
  let s' := snd (remove now p s) in
  fst (stat now p s') = Err (NotFound p) /\
  (files s' : gmap _ _) !! c = Some (k, v).
Proof.
  intros Hwf Hp Hd Hc Hne Hsub.
  pose proof (pm_has_below p c k v (files s) Hwf Hc Hne Hsub) as Hex.
  unfold remove, stat, get_entry. munfold. rewrite Hp. simpl. rewrite Hd, Hex. simpl.
  split; [done|]. split.
  - by rewrite pm_get_remove.
  - unfold pm_remove. by rewrite lookup_delete_ne.
Qed.

(** [remove_all] succeeds on every path that exists and takes exactly the
    entries and extended attributes at the path and below it. *)
Theorem memfs_remove_all_spec now s p :
  memfs_ok s -> pm_contains p (files s) = true ->
  fst (remove_all now p s) = Ok () /\
  let s' := snd (remove_all now p s) in
  forall q, pm_get q (files s') = (if path_starts_with q p then None else pm_get q (files s)) /\
            pm_get q (xattrs s') = (if path_starts_with q p then None else pm_get q (xattrs s)).
Proof.
  intros Hs Hp. unfold remove_all, inc_op, inc_entries, metric. munfold. rewrite Hp. simpl.
  split; [done|]. intros q.
  assert (Hrefl : forall (l : list Component), list_strip_prefix l l = Some []).
  { induction l as [|x l IH]; simpl; [done|]. by rewrite decide_True. }
  assert (Heq : forall k, negb (path_eqb k p) && negb (path_starts_with k p)
                          = negb (path_starts_with k p)).
  { intros k. unfold path_eqb, path_starts_with. case_bool_decide as Hk; [|done].
    by rewrite Hk, Hrefl. }
  rewrite !pm_get_retain; auto with racfs;
    try (intros k Hk; unfold path_eqb, path_starts_with; by rewrite Hk).
  rewrite Heq. by destruct (path_starts_with q p).
Qed.
End Properties.

(** ** Witnesses *)

Definition clock0 : Now := fun i => Z.of_nat i.

(** The tree of the examples: [/d], [/d/f] with three bytes, and two symlinks
    that point at each other. *)
Definition demo_calls `{BuildProfile} : FsOp MemFS () :=
  mkdir clock0 "/d" (octal 755) ;;
  create clock0 "/d/f" ;;
  write clock0 "/d/f" (as_bytes "abc") 0 0 ;;
  symlink clock0 "/y" "/x" ;;
  symlink clock0 "/x" "/y".

Definition demo : MemFS := exec (@demo_calls debug_profile) (new clock0).

Definition demo_file : FileEntry :=
  {| data := as_bytes "abc";
     metadata := set_modified (Some 0) (set_size 3 (file clock0 "/d/f" 0));
     is_symlink := false; symlink_target := None |}.

Lemma demo_ok : memfs_ok demo.
Proof.
  assert (Hk : keeps memfs_ok (@demo_calls debug_profile)).
  2: { apply (Hk _ (memfs_ok_new clock0)). vm_compute. reflexivity. }
  unfold demo_calls.
  apply keeps_bind; [apply keeps_mkdir|intros _].
  apply keeps_bind; [apply keeps_create|intros _].
  apply keeps_bind; [apply keeps_write; [reflexivity|discriminate]|intros _].
  apply keeps_bind; [apply keeps_symlink|intros _]. apply keeps_symlink.
Qed.

Lemma memfs_reachable_ok_witness :
  memfs_ok (exec (@mkdir clock0 "/d" (octal 755)) (new clock0)).
Proof.
  apply (@memfs_reachable_ok debug_profile clock0). apply rtc_once.
  eapply (step_call clock0 (CMkdir "/d" (octal 755))); reflexivity.
Defined.

Lemma memfs_write_spec_witness :
  let run p := @write debug_profile clock0 p (as_bytes "Z") 1 0 demo in
  (fst (run "/d/f") = Ok 1 /\ (data <$> pm_get "/d/f" (files (snd (run "/d/f")))) = Some (as_bytes "aZc")) /\
  fst (run "/d") = Err (IsDirectory "/d") /\ fst (run "/none") = Err (NotFound "/none").
Proof.
  pose proof (fun p => @memfs_write_spec debug_profile clock0 demo p (as_bytes "Z") 1 0
    demo_ok eq_refl ltac:(vm_compute; discriminate)) as H.
  destruct (H "/d/f") as (_ & _ & Hf), (H "/d") as (_ & _ & Hd), (H "/none") as (_ & _ & Hn).
  cbv zeta. split; [|exact (conj (proj1 Hd) (proj1 Hn))]. split; [exact (proj1 Hf)|].
  rewrite (proj2 (proj2 Hf)). reflexivity.
Defined.

Lemma memfs_read_after_write_witness :
  exists s', @write debug_profile clock0 "/d/f" (as_bytes "xyz") 5 0 demo = (Ok 3, s') /\
             fst (@read debug_profile clock0 "/d/f" 5 3 s') = Ok (as_bytes "xyz").
Proof.
  apply (@memfs_read_after_write debug_profile clock0 clock0 demo "/d/f" demo_file (as_bytes "xyz") 5 0
           demo_ok); (reflexivity || (vm_compute; discriminate)).
Defined.

Lemma memfs_remove_nonempty_witness :
  fst (remove clock0 "/d" demo) = Err DirectoryNotEmpty /\
  fst (stat clock0 "/d" (snd (remove clock0 "/d" demo))) = Err (NotFound "/d").
Proof.
  destruct (memfs_remove_nonempty clock0 demo "/d" (dir_entry clock0 "/d" (octal 755))
              (components "/d/f") "/d/f" demo_file) as (H1 & H2 & _).
  - apply demo_ok.
  - reflexivity.
  - reflexivity.
  - reflexivity.
  - discriminate.
  - reflexivity.
  - exact (conj H1 H2).
Defined.

Lemma memfs_remove_all_spec_witness :
  pm_get "/d/f" (files (snd (remove_all clock0 "/d" demo))) = None.
Proof.
  destruct (memfs_remove_all_spec clock0 demo "/d" demo_ok eq_refl) as [_ H].
  exact (proj1 (H "/d/f")).
Defined.

(** [read] of a symlink that points back at itself never comes back. *)
Lemma read_cycle_diverges : fst (@read debug_profile clock0 "/x" 0 (-1) demo) = Diverge.
Proof. vm_compute. reflexivity. Qed.
