(* ===== verification/QueueFS.v ===== *)
(** * QueueFS: the message queue backend ([crates/racfs-plugin-queuefs])

    A queue keeps its messages in a [BTreeMap] from the text of their number to
    the message.  The map of queues is the state; [queuefs_filesystem] is the
    instance of [FileSystem].  The abstract specification of a queue is the
    list of its pending messages, oldest first, and [run_refines_fifo] relates
    the two. *)

From S2P Require Import Prelude Text RPath BTree FsError Metadata Flags FileSystem.
From Stdlib Require Import Strings.Ascii.
From Stdlib Require Strings.String.

(* src: crates/racfs-plugin-queuefs/src/fs/mod.rs 47-53 Message *)
Record Message := {
  id : string;
  data : bytes;
  acknowledged : bool
}.

(* src: crates/racfs-plugin-queuefs/src/fs/mod.rs 39-45 Queue *)
Record Queue := {
  next_id : Z;
  head_id : Z;
  messages : BTreeMap string Message
}.

(* src: crates/racfs-plugin-queuefs/src/fs/mod.rs 35-37 QueueFS *)
Definition QueueFS : Type := gmap string Queue.

Definition set_next_id n (q : Queue) : Queue :=
  {| next_id := n; head_id := head_id q; messages := messages q |}.
Definition set_messages m (q : Queue) : Queue :=
  {| next_id := next_id q; head_id := head_id q; messages := m |}.

(** ** [impl Queue] *)

(* src: crates/racfs-plugin-queuefs/src/fs/mod.rs 56-62 Queue::new *)
Definition queue_new : Queue := {| next_id := 1; head_id := 1; messages := [] |}.

Section Queue.
Context `{BuildProfile}.

(* src: crates/racfs-plugin-queuefs/src/fs/mod.rs 64-68 Queue::next_message_id *)
Definition next_message_id : M Queue FSError string :=
  q ← get;
  n ← lift (u64_add (next_id q) 1);
  put (set_next_id n q) ;;
  mret (fmt_zero_pad 6 (next_id q)).

(* src: crates/racfs-plugin-queuefs/src/fs/mod.rs 70-81 Queue::enqueue *)
Definition enqueue (d : bytes) : M Queue FSError string :=
  i ← next_message_id;
  modify (fun q => set_messages
    (bt_insert i {| id := i; data := d; acknowledged := false |} (messages q)) q) ;;
  mret i.

(* src: crates/racfs-plugin-queuefs/src/fs/mod.rs 83-89 Queue::dequeue *)
Definition dequeue (i : string) : M Queue FSError () :=
  q ← get;
  lift (ok_or (bt_get i (messages q)) (NotFound i)) ;;
  put (set_messages
    (bt_update i (fun m => {| id := id m; data := data m; acknowledged := true |}) (messages q)) q).

(* src: crates/racfs-plugin-queuefs/src/fs/mod.rs 91-98 Queue::get_message *)
Definition get_message (q : Queue) (i : string) : Res Message :=
  ok_or (m ← bt_get i (messages q); if negb (acknowledged m) then Some m else None) (NotFound i).

(* src: crates/racfs-plugin-queuefs/src/fs/mod.rs 100-107 Queue::get_next_unacknowledged *)
Definition get_next_unacknowledged (q : Queue) : option string :=
  head (map fst (List.filter (fun km => negb (acknowledged (snd km))) (messages q))).

(* src: crates/racfs-plugin-queuefs/src/fs/mod.rs 109-111 Queue::get_count *)
Definition get_count (q : Queue) : Z :=
  len (List.filter (fun m => negb (acknowledged m)) (bt_values (messages q))).

(* src: crates/racfs-plugin-queuefs/src/fs/mod.rs 113-115 Queue::get_next_id *)
Definition get_next_id (q : Queue) : Z := next_id q.
End Queue.

(** ** [impl QueueFS] *)

(* src: crates/racfs-plugin-queuefs/src/fs/mod.rs 120-124 QueueFS::new *)
Definition new : QueueFS := ∅.

(* src: crates/racfs-plugin-queuefs/src/fs/mod.rs 129-151 QueueFS::parse_queue_path *)
Definition parse_queue_path (p : Path) : string * list string :=
  let comps := path_iter p in
  let rest := match comps with
              | c :: cs => if String.eqb c "/" || String.eqb c "" then cs else comps
              | [] => []
              end in
  match rest with
  | [] => (""%string, [])
  | name :: r => (name, r)
  end.

(* src: crates/racfs-plugin-queuefs/src/fs/mod.rs 154-156 QueueFS::format_message_id *)
Definition format_message_id (n : Z) : string := fmt_zero_pad 6 n.

Definition queue_missing (name : string) : FSError := NotFound ("/" +:+ name).

(* src: crates/racfs-plugin-queuefs/src/fs/mod.rs 159-164 QueueFS::get_queue *)
Definition get_queue (name : string) : FsOp QueueFS Queue :=
  s ← get; lift (ok_or (s !! name) (queue_missing name)).

(* src: crates/racfs-plugin-queuefs/src/fs/mod.rs 166-174 QueueFS::ensure_queue_exists *)
Definition ensure_queue_exists (name : string) : FsOp QueueFS () :=
  s ← get; fail_if (negb (bool_decide (is_Some ((s : gmap _ _) !! name)))) (queue_missing name).

(* src: crates/racfs-plugin-queuefs/src/fs/mod.rs 176-190 QueueFS::read_slice *)
Definition read_slice `{BuildProfile} (d : bytes) (offset size : Z) : Res bytes :=
  read_range d offset size.

(** [queues.get_mut(name)]: run [m] on the queue in place. *)
Definition with_queue {A} (name : string) (m : M Queue FSError A) : FsOp QueueFS A := fun s =>
  match (s : gmap _ _) !! name with
  | None => (Err (queue_missing name), s)
  | Some q => let '(r, q') := m q in (r, <[name := q']> (s : gmap _ _))
  end.

(** The text of [metadata/config]. *)
Definition config_text (name : string) (q : Queue) : string :=
  "{" +:+ quoted "name" +:+ ":" +:+ quoted name +:+ "," +:+ quoted "next_id" +:+ ":"
  +:+ to_string (get_next_id q) +:+ "," +:+ quoted "head_id" +:+ ":" +:+ to_string (head_id q)
  +:+ "}".

Section Ops.
Context `{BuildProfile}.
Implicit Types (now : Now) (p : Path).

(** What the parts of a path under the queue name denote. *)
Inductive QueueFile :=
| QHead | QTail | QMessage (i : string) | QCount | QConfig | QAck (i : string) | QOther.

Definition queue_file (rest : list string) : QueueFile :=
  match rest with
  | [a] => if String.eqb a "head" then QHead else if String.eqb a "tail" then QTail else QOther
  | [a; b] =>
    if String.eqb a "messages" then QMessage b
    else if String.eqb a "metadata" && String.eqb b "count" then QCount
    else if String.eqb a "metadata" && String.eqb b "config" then QConfig
    else if String.eqb a ".ack" then QAck b
    else QOther
  | _ => QOther
  end.

(* src: crates/racfs-plugin-queuefs/src/fs/read.rs 10-54 QueueFS::read *)
Definition read now p (offset size : Z) : FsOp QueueFS bytes :=
  let '(name, rest) := parse_queue_path p in
  fail_if (bool_decide (rest = [])) (IsDirectory p) ;;
  ensure_queue_exists name ;;
  q ← get_queue name;
  match queue_file rest with
  | QHead => lift (read_slice (as_bytes (default "empty" (get_next_unacknowledged q))) offset size)
  | QTail => lift (read_slice (as_bytes (format_message_id (get_next_id q))) offset size)
  | QMessage i => m ← lift (get_message q i); lift (read_slice (data m) offset size)
  | QCount => lift (read_slice (as_bytes (to_string (get_count q))) offset size)
  | QConfig => lift (read_slice (as_bytes (config_text name q)) offset size)
  | _ => fail (NotFound p)
  end.

(* src: crates/racfs-plugin-queuefs/src/fs/read.rs 56-96 QueueFS::stat *)
Definition stat now p : FsOp QueueFS FileMetadata :=
  let '(name, rest) := parse_queue_path p in
  ensure_queue_exists name ;;
  match rest with
  | [] => mret (directory now p)
  | _ =>
    q ← get_queue name;
    match queue_file rest with
    | QHead | QTail => mret (file now p 0)
    | QMessage i => m ← lift (get_message q i); mret (file now p (len (data m)))
    | QCount => mret (file now p (str_len (to_string (get_count q))))
    | QConfig => mret (file now p (str_len (config_text name q)))
    | _ => fail (NotFound p)
    end
  end.

(* src: crates/racfs-plugin-queuefs/src/fs/write.rs 10-14 QueueFS::create *)
Definition create now p : FsOp QueueFS () := fail (NotSupported "create not supported in queuefs").

(* src: crates/racfs-plugin-queuefs/src/fs/write.rs 16-73 QueueFS::write *)
Definition write now p (content : bytes) (offset flags : Z) : FsOp QueueFS Z :=
  let '(name, rest) := parse_queue_path p in
  fail_if (bool_decide (rest = [])) (IsDirectory p) ;;
  ensure_queue_exists name ;;
  match queue_file rest with
  | QTail => i ← with_queue name (enqueue content); mret (str_len i)
  | QAck i =>
    fail_if (negb (offset =? 0) || negb (is_empty flags))
      (InvalidInput "offset and flags not supported for ack") ;;
    data_str ← lift (ok_or (from_utf8 content) (InvalidUtf8 (utf8_error_text content)));
    fail_if (negb (String.eqb (trim data_str) "done"))
      (InvalidInput "must write 'done' to acknowledge") ;;
    with_queue name (dequeue i) ;;
    mret (len content)
  | _ => fail (NotSupported "write only supported on tail and .ack paths")
  end.

(* src: crates/racfs-plugin-queuefs/src/fs/chmod.rs 10-14 QueueFS::chmod *)
Definition chmod now p (mode : Z) : FsOp QueueFS () :=
  fail (NotSupported "chmod not supported in queuefs").

(* src: crates/racfs-plugin-queuefs/src/fs/dir.rs 10-36 QueueFS::mkdir *)
Definition mkdir now p (perm : Z) : FsOp QueueFS () :=
  let '(name, rest) := parse_queue_path p in
  fail_if (String.eqb name "") (InvalidInput "invalid queue name") ;;
  fail_if (negb (bool_decide (rest = []))) (NotSupported "nested directories not supported") ;;
  s ← get;
  fail_if (bool_decide (is_Some ((s : gmap _ _) !! name))) (AlreadyExists p) ;;
  put (<[name := queue_new]> (s : gmap _ _)).

(** The clock is read anew for every entry. *)
Definition queue_path (name rest : string) : Path := "/" +:+ name +:+ "/" +:+ rest.

(* src: crates/racfs-plugin-queuefs/src/fs/dir.rs 38-110 QueueFS::read_dir *)
Definition read_dir now p : FsOp QueueFS (list FileMetadata) :=
  let '(name, rest) := parse_queue_path p in
  let at_ k := now_from (3 * k) now in
  match rest with
  | [] =>
    if String.eqb name "" then
      s ← get;
      mret (imap (fun k n => directory (at_ k) ("/" +:+ n)) (map_to_list (s : gmap _ _)).*1)
    else
      ensure_queue_exists name ;;
      mret [file (at_ 0) (queue_path name "head") 0; file (at_ 1) (queue_path name "tail") 0;
            directory (at_ 2) (queue_path name "messages");
            directory (at_ 3) (queue_path name "metadata");
            directory (at_ 4) (queue_path name ".ack")]%nat
  | _ =>
    ensure_queue_exists name ;;
    if bool_decide (rest = ["messages"%string]) then
      q ← get_queue name;
      mret (imap (fun k m => file (at_ k) (queue_path name ("messages/" +:+ id m)) (len (data m)))
                 (List.filter (fun m => negb (acknowledged m)) (bt_values (messages q))))
    else if bool_decide (rest = ["metadata"%string]) then
      q ← get_queue name;
      mret [file (at_ 0) (queue_path name "metadata/count") (str_len (to_string (get_count q)));
            file (at_ 1) (queue_path name "metadata/config") (str_len (config_text name q))]%nat
    else if bool_decide (rest = [".ack"%string]) then mret []
    else fail (NotFound p)
  end.

(* src: crates/racfs-plugin-queuefs/src/fs/dir.rs 112-130 QueueFS::remove *)
Definition remove now p : FsOp QueueFS () :=
  let '(name, rest) := parse_queue_path p in
  match rest with
  | [] =>
    s ← get;
    if bool_decide (is_Some ((s : gmap _ _) !! name)) then put (delete name (s : gmap _ _))
    else fail (NotFound p)
  | _ => fail (NotSupported "cannot remove queue components")
  end.

(* src: crates/racfs-plugin-queuefs/src/fs/dir.rs 132-134 QueueFS::remove_all *)
Definition remove_all now p : FsOp QueueFS () := remove now p.

(* src: crates/racfs-plugin-queuefs/src/fs/dir.rs 136-140 QueueFS::rename *)
Definition rename now (old new : Path) : FsOp QueueFS () :=
  fail (NotSupported "rename not supported in queuefs").

(* src: crates/racfs-plugin-queuefs/src/fs/mod.rs 201-205 QueueFS::truncate *)
Definition truncate now p (n : Z) : FsOp QueueFS () :=
  fail (NotSupported "truncate not supported in queuefs").

(* src: crates/racfs-plugin-queuefs/src/fs/mod.rs 207-211 QueueFS::touch *)
Definition touch now p : FsOp QueueFS () := fail (NotSupported "touch not supported in queuefs").

#[global] Instance queuefs_filesystem : FileSystem QueueFS := {
  fs_read := read; fs_stat := stat; fs_create := create; fs_write := write;
  fs_mkdir := mkdir; fs_read_dir := read_dir; fs_remove := remove;
  fs_remove_all := remove_all; fs_rename := rename; fs_chmod := chmod;
  fs_truncate := truncate; fs_touch := touch; fs_readlink := default_readlink;
  fs_symlink := default_symlink; fs_get_xattr := default_get_xattr;
  fs_set_xattr := default_set_xattr; fs_remove_xattr := default_remove_xattr;
  fs_list_xattr := default_list_xattr
}.
End Ops.

(** ** The abstract queue *)

(** The pending messages, in the order the directory lists them. *)
Definition pending (q : Queue) : list (string * bytes) :=
  map (fun km => (fst km, data (snd km)))
      (List.filter (fun km => negb (acknowledged (snd km))) (messages q)).

(** A request to a queue. *)
Inductive request :=
| Enqueue (d : bytes)
| Acknowledge (i : string).

(** The real queue. *)
Definition run_request `{BuildProfile} (r : request) : M Queue FSError () :=
  match r with
  | Enqueue d => enqueue d ;; mret ()
  | Acknowledge i => dequeue i
  end.

Definition run `{BuildProfile} (l : list request) (q : Queue) : Queue :=
  fold_left (fun q r => exec (run_request r) q) l q.

(** The specification: a counter and a list that grows at its end. *)
Definition fifo_request (r : request) (a : Z * list (string * bytes)) : Z * list (string * bytes) :=
  match r with
  | Enqueue d => (fst a + 1, snd a ++ [(fixed 6 (fst a), d)])
  | Acknowledge i => (fst a, List.filter (fun m => negb (String.eqb (fst m) i)) (snd a))
  end.

Definition fifo (l : list request) (a : Z * list (string * bytes)) : Z * list (string * bytes) :=
  fold_left (fun a r => fifo_request r a) l a.

Definition enqueues (l : list request) : Z :=
  len (List.filter (fun r => match r with Enqueue _ => true | _ => false end) l).

(** Every message is stored under its own number, which was given out. *)
Definition message_ok (n : Z) (km : string * Message) : Prop :=
  exists i, 1 <= i < n /\ fst km = fmt_zero_pad 6 i /\ id (snd km) = fst km.

Record queue_ok (q : Queue) : Prop := {
  qo_sorted : bt_wf (messages q);
  qo_next : 1 <= next_id q <= u64_max;
  qo_messages : Forall (message_ok (next_id q)) (messages q)
}.

(** ** Refinement *)

Section Refinement.
Context `{BuildProfile}.
Implicit Types (q : Queue).

Lemma message_ok_more n m km : n <= m -> message_ok n km -> message_ok m km.
Proof. intros Hnm (i & Hi & Hk). exists i. split; [lia|done]. Qed.

Lemma message_key n km :
  n <= 1000000 -> message_ok n km -> exists i, 1 <= i < n /\ fst km = fixed 6 i.
Proof.
  intros Hn (i & Hi & -> & _). exists i. split; [done|]. apply fmt_zero_pad_fixed; (change (10 ^ Z.of_nat 6) with 1000000; lia).
Qed.

Lemma key_lt_fixed i j : 0 <= i < j -> j < 1000000 -> key_lt (fixed 6 i) (fixed 6 j).
Proof.
  intros. unfold key_lt. change (bytes_cmp (fixed 6 i) (fixed 6 j) = Lt).
  rewrite bytes_cmp_fixed by (change (10 ^ Z.of_nat 6) with 1000000; lia). apply Z.compare_lt_iff. lia.
Qed.

(** The number a queue gives out next, and the queue with it taken. *)
Lemma next_message_id_run q :
  next_id q < u64_max -> 1 <= next_id q ->
  next_message_id q = (Ok (fmt_zero_pad 6 (next_id q)), set_next_id (next_id q + 1) q).
Proof.
  intros. unfold next_message_id. munfold. rewrite unsigned_add_ok by (unfold u64_max in *; lia). done.
Qed.

Lemma enqueue_pending q d :
  queue_ok q -> next_id q < 1000000 ->
  exists q', enqueue d q = (Ok (fixed 6 (next_id q)), q') /\ queue_ok q' /\
    next_id q' = next_id q + 1 /\ pending q' = pending q ++ [(fixed 6 (next_id q), d)].
Proof.
  intros [Hs Hn Hm] Hlt. unfold enqueue.
  rewrite run_bind, next_message_id_run by (unfold u64_max; lia).
  rewrite fmt_zero_pad_fixed by (change (10 ^ Z.of_nat 6) with 1000000; lia). set (k := fixed 6 (next_id q)). munfold.
  assert (Hins : forall v, bt_insert k v (messages q) = messages q ++ [(k, v)]).
  { intros v. apply bt_insert_last. unfold bt_keys. apply Forall_forall. intros x (km & -> & Hin)%elem_of_map.
    rewrite Forall_forall in Hm. destruct (message_key (next_id q) km ltac:(lia) (Hm _ Hin)) as (i & Hi & ->).
    apply key_lt_fixed; lia. }
  eexists. split; [reflexivity|]. split; [|split; [done|]].
  - constructor; simpl.
    + by apply bt_wf_insert.
    + unfold u64_max. lia.
    + rewrite Hins. apply Forall_app. split.
      * eapply Forall_impl; [exact Hm|]. intros km. apply message_ok_more. lia.
      * repeat constructor. exists (next_id q). split; [lia|]. split; [|done]. simpl.
        rewrite fmt_zero_pad_fixed by (change (10 ^ Z.of_nat 6) with 1000000; lia). done.
  - unfold pending. simpl. rewrite Hins, List.filter_app, map_app. done.
Qed.

Lemma pending_absent i m :
  bt_get i m = None ->
  List.filter (fun x => negb (String.eqb (fst x) i))
    (map (fun km => (fst km, data (snd km))) (List.filter (fun km => negb (acknowledged (snd km))) m))
  = map (fun km => (fst km, data (snd km))) (List.filter (fun km => negb (acknowledged (snd km))) m).
Proof.
  induction m as [|[k v] m IH]; [done|]. simpl bt_get. destruct (bytes_cmp i k) eqn:E; [done|..];
    intros Hg; simpl List.filter; destruct (acknowledged v); simpl; auto;
    (destruct (String.eqb_spec k i) as [->|Hne];
      [by rewrite bytes_cmp_refl in E|
       simpl; by rewrite IH]).
Qed.

Lemma pending_update i f m :
  bt_wf m -> (forall v, acknowledged (f v) = true) ->
  map (fun km => (fst km, data (snd km)))
    (List.filter (fun km => negb (acknowledged (snd km))) (bt_update i f m))
  = List.filter (fun x => negb (String.eqb (fst x) i))
      (map (fun km => (fst km, data (snd km))) (List.filter (fun km => negb (acknowledged (snd km))) m)).
Proof.
  intros Hwf Hf. induction m as [|[k v] m IH]; [done|].
  pose proof (bt_wf_tail _ _ Hwf) as Hwf'. specialize (IH Hwf'). simpl bt_update.
  destruct (bytes_cmp i k) eqn:E.
  - apply bytes_cmp_eq in E as ->. simpl. rewrite Hf. simpl.
    assert (Hab : bt_get k m = None).
    { apply bt_wf_cons in Hwf as [_ Hk]. apply bt_get_above. exact Hk. }
    destruct (acknowledged v); simpl; [by rewrite pending_absent|].
    rewrite String.eqb_refl. simpl. by rewrite pending_absent.
  - simpl. destruct (acknowledged v); simpl; [done|].
    destruct (String.eqb_spec k i) as [->|Hne]; simpl; [|by rewrite IH].
    by rewrite bytes_cmp_refl in E.
  - simpl. destruct (acknowledged v); simpl; [done|].
    destruct (String.eqb_spec k i) as [->|Hne]; simpl; [|by rewrite IH].
    by rewrite bytes_cmp_refl in E.
Qed.
End Refinement.

Section Properties.
Context `{BuildProfile}.
Implicit Types (q : Queue).

Lemma dequeue_pending q i :
  queue_ok q ->
  let q' := exec (dequeue i) q in
  queue_ok q' /\ next_id q' = next_id q /\
  pending q' = List.filter (fun m => negb (String.eqb (fst m) i)) (pending q).
Proof.
  intros [Hs Hn Hm]. unfold dequeue. munfold. destruct (bt_get i (messages q)) as [v|] eqn:E; simpl.
  - split; [|split; [done|]].
    + constructor; simpl; [by apply bt_wf_update|done|].
      clear E v Hs. induction (messages q) as [|[k v] m IH]; [done|]. simpl.
      apply Forall_cons_1 in Hm as [Hk Hm]. destruct (bytes_cmp i k); constructor; auto.
    + by apply pending_update.
  - split; [done|]. split; [done|]. symmetry. by apply pending_absent.
Qed.

(** One request on a queue that has not given out number 1000000 does what the
    specification does. *)
Lemma run_request_fifo r q :
  queue_ok q -> (match r with Enqueue _ => next_id q < 1000000 | _ => True end) ->
  let q' := exec (run_request r) q in
  queue_ok q' /\ (next_id q', pending q') = fifo_request r (next_id q, pending q).
Proof.
  intros Hq Hr. destruct r as [d|i]; simpl.
  - destruct (enqueue_pending q d Hq Hr) as (q' & He & Hq' & Hn & Hp).
    unfold exec. simpl. rewrite run_bind, He. simpl. by rewrite Hn, Hp.
  - destruct (dequeue_pending q i Hq) as (Hq' & Hn & Hp). by rewrite Hn, Hp.
Qed.

Lemma run_fifo l q :
  queue_ok q -> next_id q + enqueues l <= 1000000 ->
  queue_ok (run l q) /\ (next_id (run l q), pending (run l q)) = fifo l (next_id q, pending q).
Proof.
  revert q. induction l as [|r l IH]; intros q Hq Hb; [done|]. simpl.
  pose proof (len_nonneg (List.filter (fun r => match r with Enqueue _ => true | _ => false end) l)).
  assert (He : enqueues (r :: l) = enqueues l + match r with Enqueue _ => 1 | _ => 0 end).
  { unfold enqueues, len. destruct r; simpl; lia. }
  change (0 <= enqueues l) in H0. rewrite He in Hb. clear He.
  destruct (run_request_fifo r q Hq) as [Hq' Hr]; [destruct r; simpl in Hb; [lia|done]|].
  rewrite <- Hr. apply IH; [done|].
  assert (Hn : next_id (exec (run_request r) q) = fst (fifo_request r (next_id q, pending q)))
    by by rewrite <- Hr.
  rewrite Hn. destruct r; cbn [fifo_request fst]; lia.
Qed.

Lemma queue_new_ok : queue_ok queue_new.
Proof. constructor; simpl; [apply bt_wf_nil|unfold u64_max; lia|constructor]. Qed.

(** C22: up to 999999 messages a queue is first in, first out: after any
    sequence of enqueues and acknowledgements from a new queue, the pending
    messages are exactly those of the list specification, in order, [head] is
    the oldest of them and [count] is their number. *)
Theorem run_refines_fifo l :
  enqueues l <= 999999 ->
  let q := run l queue_new in
  let spec := snd (fifo l (1, [])) in
  pending q = spec /\
  get_next_unacknowledged q = fst <$> head spec /\
  get_count q = len spec.
Proof.
  intros Hl q spec. destruct (run_fifo l queue_new queue_new_ok) as [_ Hr]; [simpl; lia|].
  assert (Hp : pending q = spec) by exact (f_equal snd Hr).
  split; [done|]. rewrite <- Hp. clear. unfold get_next_unacknowledged, get_count, pending, bt_values, len.
  split.
  - induction (messages q) as [|[k v] m IH]; [done|]. simpl. by destruct (acknowledged v).
  - f_equal. induction (messages q) as [|[k v] m IH]; [done|]. simpl.
    destruct (acknowledged v); simpl; congruence.
Qed.

(** The four leading digits of the numbers decide before the width does. *)
Lemma million_below i : 100001 <= i < 1000000 -> key_lt "1000000" (fmt_zero_pad 6 i).
Proof.
  intros. rewrite fmt_zero_pad_fixed by (change (10 ^ Z.of_nat 6) with 1000000; lia).
  unfold key_lt. rewrite <- (string_app_nil_r (fixed 6 i)).
  change (bytes_cmp (fixed 6 100000 +:+ "0") (fixed 6 i +:+ "") = Lt).
  rewrite bytes_cmp_app by by rewrite !length_fixed.
  rewrite bytes_cmp_fixed by (change (10 ^ Z.of_nat 6) with 1000000; lia).
  by destruct (Z.compare_spec 100000 i); [lia| |lia].
Qed.

(** A key below the key of every pending message goes in front of them. *)
Lemma insert_first_pending k0 v0 (m : BTreeMap string Message) :
  acknowledged v0 = false -> bt_wf m ->
  Forall (fun km => acknowledged (snd km) = true \/ key_lt k0 (fst km)) m ->
  List.filter (fun km => negb (acknowledged (snd km))) (bt_insert k0 v0 m)
  = (k0, v0) :: List.filter (fun km => negb (acknowledged (snd km))) m.
Proof.
  intros Hv0 Hs Hlow. induction m as [|[k v] m IH]; simpl; [by rewrite Hv0|].
  apply Forall_cons_1 in Hlow as [Hk Hlow]. apply bt_wf_tail in Hs as Hs'.
  destruct (bytes_cmp k0 k) eqn:E; simpl; rewrite ?Hv0; simpl; [|done|].
  - destruct Hk as [Hv|Hlt]; simpl in *; [by rewrite Hv; apply bytes_cmp_eq in E as ->|].
    unfold key_lt in Hlt. simpl in Hlt. congruence.
  - destruct Hk as [Hv|Hlt]; simpl in *; [rewrite Hv; simpl; auto|].
    unfold key_lt in Hlt. simpl in Hlt. congruence.
Qed.

(** Message number 1000000 jumps the queue: its key has seven digits and
    sorts, as text, before the six-digit keys, so when every message up to
    100000 has been acknowledged [head] names the newest message and not the
    oldest. *)
Theorem fifo_breaks_at_million q d :
  queue_ok q -> next_id q = 1000000 ->
  (forall i, 1 <= i <= 100000 -> forall v, bt_get (fmt_zero_pad 6 i) (messages q) = Some v ->
             acknowledged v = true) ->
  exists q', enqueue d q = (Ok "1000000"%string, q') /\
             pending q' = ("1000000"%string, d) :: pending q /\
             get_next_unacknowledged q' = Some "1000000"%string.
Proof.
  intros [Hs Hn Hm] Hnext Hack. unfold enqueue.
  rewrite run_bind, next_message_id_run by (rewrite ?Hnext; unfold u64_max; lia).
  rewrite Hnext. change (fmt_zero_pad 6 1000000) with "1000000"%string. munfold.
  set (v0 := {| id := "1000000"; data := d; acknowledged := false |}).
  enough (Hp : List.filter (fun km => negb (acknowledged (snd km)))
                 (bt_insert "1000000"%string v0 (messages q))
               = ("1000000"%string, v0)
                 :: List.filter (fun km => negb (acknowledged (snd km))) (messages q)).
  { eexists. split; [reflexivity|]. unfold pending, get_next_unacknowledged. simpl. rewrite Hp. done. }
  assert (Hlow : Forall (fun km => acknowledged (snd km) = true \/ key_lt "1000000"%string (fst km)) (messages q)).
  { apply Forall_forall. intros [k v] Hin. rewrite Forall_forall in Hm.
    destruct (Hm _ Hin) as (i & Hi & Hk & _). simpl in *. subst k. rewrite Hnext in Hi.
    destruct (Z.le_gt_cases i 100000).
    - left. apply (Hack i); [lia|]. by apply bt_elem_get.
    - right. apply million_below. lia. }
  by apply insert_first_pending.
Qed.

(** A [write] to the file [tail] of a queue appends its bytes as a message
    and answers the length of the number it was given, not of the bytes; a
    [write] of "done" to a file under [.ack] takes that message out of the
    pending ones and answers the length of the bytes, and any other text there
    is refused and changes nothing. *)
Theorem queuefs_write_spec now s p name q rest content offset flags :
  parse_queue_path p = (name, rest) -> (s : gmap _ _) !! name = Some q ->
  queue_ok q -> next_id q < 1000000 ->
  match queue_file rest with
  | QTail => exists q', write now p content offset flags s = (Ok 6, <[name := q']> (s : gmap _ _)) /\
      queue_ok q' /\ pending q' = pending q ++ [(fixed 6 (next_id q), content)]
  | QAck i =>
      if (offset =? 0) && is_empty flags &&
         bool_decide (trim <$> from_utf8 content = Some "done"%string) &&
         bt_contains i (messages q)
      then exists q', write now p content offset flags s = (Ok (len content), <[name := q']> (s : gmap _ _)) /\
           queue_ok q' /\ pending q' = List.filter (fun m => negb (String.eqb (fst m) i)) (pending q)
      else exists e, write now p content offset flags s = (Err e, s)
  | _ => exists e, write now p content offset flags s = (Err e, s)
  end.
Proof.
  intros Hp Hq Hok Hn. unfold write. rewrite Hp. unfold ensure_queue_exists, QueueFS in *. munfold.
  case_bool_decide as Hr; [subst rest; by eexists|]. rewrite Hq. simpl.
  destruct (queue_file rest) as [| | | | |i|]; try by eexists.
  - destruct (enqueue_pending q content Hok Hn) as (q' & He & Hok' & _ & Hp').
    unfold with_queue. rewrite Hq, He. exists q'. split; [|done].
    unfold str_len. by rewrite length_fixed.
  - destruct (offset =? 0), (is_empty flags); simpl; try by eexists.
    destruct (from_utf8 content) as [t|]; simpl; [|by eexists].
    destruct (String.eqb_spec (trim t) "done") as [->|Hne]; simpl.
    + unfold bt_contains, with_queue. rewrite Hq.
      unfold dequeue. munfold.
      destruct (bt_get i (messages q)) as [v|] eqn:E; simpl.
      * destruct (dequeue_pending q i Hok) as (Hok' & _ & Hp'). unfold dequeue in Hok', Hp'. munfold.
        rewrite E in Hok', Hp'. simpl in *. eexists. split; [done|]. split; [exact Hok'|exact Hp'].
      * eexists. f_equal. by apply insert_id.
    + rewrite bool_decide_eq_false_2 by congruence. simpl. by eexists.
Qed.
End Properties.

(** ** Witnesses *)

Lemma run_refines_fifo_witness :
  pending (@run release_profile
             [Enqueue (as_bytes "a"); Enqueue (as_bytes "b"); Acknowledge "000001"] queue_new)
  = [("000002"%string, as_bytes "b")].
Proof.
  destruct (@run_refines_fifo release_profile
              [Enqueue (as_bytes "a"); Enqueue (as_bytes "b"); Acknowledge "000001"]) as (H & _ & _);
    [vm_compute; discriminate|].
  rewrite H. vm_compute. reflexivity.
Defined.

(** A queue that has handed out 999999 numbers, with the last one pending. *)
Definition late_queue : Queue :=
  {| next_id := 1000000; head_id := 1;
     messages := [("999999"%string, {| id := "999999"; data := []; acknowledged := false |})] |}.

Lemma late_queue_ok : queue_ok late_queue.
Proof.
  constructor; simpl; [repeat constructor|unfold u64_max; lia|].
  repeat constructor. exists 999999. split; [lia|]. by vm_compute.
Qed.

Lemma late_queue_low i v :
  1 <= i <= 100000 -> bt_get (fmt_zero_pad 6 i) (messages late_queue) = Some v -> acknowledged v = true.
Proof.
  intros Hi Hg. rewrite fmt_zero_pad_fixed in Hg by (change (10 ^ Z.of_nat 6) with 1000000; lia).
  assert (Hc : bytes_cmp (fixed 6 i) (fixed 6 999999) = Lt).
  { rewrite bytes_cmp_fixed by (change (10 ^ Z.of_nat 6) with 1000000; lia).
    apply Z.compare_lt_iff. lia. }
  change (fixed 6 999999) with "999999"%string in Hc.
  cbn [bt_get messages late_queue kcmp string_key_order] in Hg. by rewrite Hc in Hg.
Qed.

Lemma fifo_breaks_at_million_witness :
  exists q', @enqueue debug_profile (as_bytes "new") late_queue = (Ok "1000000"%string, q') /\
             pending q' = [("1000000"%string, as_bytes "new"); ("999999"%string, [])] /\
             get_next_unacknowledged q' = Some "1000000"%string.
Proof.
  apply (@fifo_breaks_at_million debug_profile late_queue (as_bytes "new") late_queue_ok eq_refl).
  intros i Hi v. apply late_queue_low, Hi.
Defined.

Lemma queuefs_write_spec_witness :
  exists q', @write debug_profile (fun _ => 0) "/q/tail" (as_bytes "hi") 0 0 {["q"%string := queue_new]}
             = (Ok 6, <["q"%string := q']> {["q"%string := queue_new]}) /\
             queue_ok q' /\ pending q' = [("000001"%string, as_bytes "hi")].
Proof.
  apply (@queuefs_write_spec debug_profile (fun _ => 0) {["q"%string := queue_new]} "/q/tail" "q"
           queue_new ["tail"%string] (as_bytes "hi") 0 0).
  - reflexivity.
  - reflexivity.
  - apply queue_new_ok.
  - reflexivity.
Defined.
