(* ===== verification/KvFS.v ===== *)
(** * KvFS: the key-value backend, in memory ([crates/racfs-plugin-kvfs])

    The state of [KvBackend::Memory] is two maps, one for the contents and one
    for the metadata, which the operations do not always keep in step.  The
    SQLite backend is in [KvSqlite]. *)

From S2P Require Import Prelude Text RPath FsError Metadata Flags FileSystem.
From Stdlib Require Strings.String.

(* src: crates/racfs-plugin-kvfs/src/fs/mod.rs 23-30 KvBackend *)
Record KvFS := {
  store : PathMap bytes;
  metadata : PathMap FileMetadata
}.

Definition set_store st (s : KvFS) : KvFS := {| store := st; metadata := metadata s |}.
Definition set_meta m (s : KvFS) : KvFS := {| store := store s; metadata := m |}.

(* src: crates/racfs-plugin-kvfs/src/fs/mod.rs 39-46 KvFS::new *)
Definition new : KvFS := {| store := ∅; metadata := ∅ |}.

(** The clock is read once per key, in the order of the map. *)
(* src: crates/racfs-plugin-kvfs/src/fs/mod.rs 49-67 KvFS::with_data *)
Definition with_data (now : nat -> Now) (data : PathMap bytes) : KvFS :=
  {| store := data;
     metadata := fold_left
       (fun m '(i, p) =>
          pm_insert p (file (now i) p (match pm_get p data with Some d => len d | None => 0 end)) m)
       (imap pair (pm_keys data)) ∅ |}.

(** [data.splice(a..b, replacement)] with the result dropped. *)
Definition splice {E} (a b : Z) (replacement l : bytes) : outcome E bytes :=
  if (a <=? b) && (b <=? len l) then Ok (ztake a l ++ replacement ++ zdrop b l) else Panic.

Section Ops.
Context `{BuildProfile}.
Implicit Types (now : Now) (p : Path).

(* src: crates/racfs-plugin-kvfs/src/fs/read.rs 11-31 KvFS::read *)
Definition read now p (offset size : Z) : FsOp KvFS bytes :=
  s ← get;
  data ← lift (ok_or (pm_get p (store s)) (NotFound p));
  lift (read_range data offset size).

(* src: crates/racfs-plugin-kvfs/src/fs/read.rs 61-71 KvFS::stat *)
Definition stat now p : FsOp KvFS FileMetadata :=
  s ← get; lift (ok_or (pm_get p (metadata s)) (NotFound p)).

(* src: crates/racfs-plugin-kvfs/src/fs/write.rs 16-36 KvFS::create *)
Definition create now p : FsOp KvFS () :=
  s ← get;
  fail_if (pm_contains p (store s)) (AlreadyExists p) ;;
  put {| store := pm_insert p [] (store s); metadata := pm_insert p (file now p 0) (metadata s) |}.

(** The new content of a write; every branch runs on the entry in place. *)
Definition write_entry (content : bytes) (offset flags : Z) : M bytes FSError () :=
  entry ← get;
  if WriteFlags.contains_append flags then update_state (extend_from_slice content)
  else if len entry <=? i64_as_usize offset then
    update_state (resize (i64_as_usize offset) Byte.x00) ;;
    update_state (extend_from_slice content)
  else
    e ← lift (usize_add (i64_as_usize offset) (len content));
    update_state (splice (i64_as_usize offset) e content).

(* src: crates/racfs-plugin-kvfs/src/fs/write.rs 54-93 KvFS::write *)
Definition write now p (content : bytes) (offset flags : Z) : FsOp KvFS Z := fun s =>
  match pm_get p (store s) with
  | None => (Err (NotFound p), s)
  | Some entry =>
    let '(r, entry') := write_entry content offset flags entry in
    let s1 := set_store (pm_update p (fun _ => entry') (store s)) s in
    match r with
    | Ok _ => (Ok (len content), set_meta (pm_update p (set_size (len entry')) (metadata s1)) s1)
    | Err e => (Err e, s1)
    | Panic => (Panic, s1)
    | Diverge => (Diverge, s1)
    end
  end.

(* src: crates/racfs-plugin-kvfs/src/fs/dir.rs 15-33 KvFS::mkdir *)
Definition mkdir now p (perm : Z) : FsOp KvFS () :=
  s ← get;
  fail_if (pm_contains p (metadata s)) (AlreadyExists p) ;;
  put (set_meta (pm_insert p (directory now p) (metadata s)) s).

(** The closures of [filter] and [filter_map] on one entry. *)
Definition dir_item (prefix : string) (kv : Path * FileMetadata) : option FileMetadata :=
  let '(k, meta) := kv in
  if starts_with k prefix && negb (String.eqb k prefix) then
    let relative := if String.eqb prefix "" then k else default k (path_strip_prefix k prefix) in
    match components relative with
    | [_] => Some meta
    | _ => None
    end
  else None.

(* src: crates/racfs-plugin-kvfs/src/fs/dir.rs 51-81 KvFS::read_dir *)
Definition read_dir now p : FsOp KvFS (list FileMetadata) :=
  s ← get; mret (omap (dir_item p) (pm_entries (metadata s))).

(** [&&] does not run its second operand, a [remove], when the first one is
    false. *)
(* src: crates/racfs-plugin-kvfs/src/fs/dir.rs 150-164 KvFS::remove *)
Definition remove now p : FsOp KvFS () :=
  s ← get;
  match pm_get p (store s) with
  | Some _ => put (set_store (pm_remove p (store s)) s)
  | None =>
    match pm_get p (metadata s) with
    | Some _ => put (set_meta (pm_remove p (metadata s)) s)
    | None => fail (NotFound p)
    end
  end.

(* src: crates/racfs-plugin-kvfs/src/fs/dir.rs 184-203 KvFS::remove_all *)
Definition remove_all now p : FsOp KvFS () :=
  s ← get;
  let keys := List.filter (fun k => path_starts_with k p || path_eqb k p) (pm_keys (store s)) in
  put (fold_left (fun s k => {| store := pm_remove k (store s); metadata := pm_remove k (metadata s) |})
         keys s).

(* src: crates/racfs-plugin-kvfs/src/fs/dir.rs 222-249 KvFS::rename *)
Definition rename now (old new : Path) : FsOp KvFS () :=
  s ← get;
  data ← lift (ok_or (pm_get old (store s)) (NotFound old));
  let store' := pm_remove old (store s) in
  put (set_store store' s) ;;
  meta ← lift (ok_or (pm_get old (metadata s)) (NotFound old));
  let meta' := pm_remove old (metadata s) in
  if pm_contains new store' then
    put {| store := pm_insert old data store'; metadata := pm_insert old meta meta' |} ;;
    fail (AlreadyExists new)
  else
    put {| store := pm_insert new data store'; metadata := pm_insert new meta meta' |}.

(* src: crates/racfs-plugin-kvfs/src/fs/chmod.rs 11-23 KvFS::chmod *)
Definition chmod now p (mode : Z) : FsOp KvFS () :=
  s ← get;
  lift (ok_or (pm_get p (metadata s)) (NotFound p)) ;;
  put (set_meta (pm_update p (set_permissions mode) (metadata s)) s).

#[global] Instance kvfs_filesystem : FileSystem KvFS := {
  fs_read := read; fs_stat := stat; fs_create := create; fs_write := write;
  fs_mkdir := mkdir; fs_read_dir := read_dir; fs_remove := remove;
  fs_remove_all := remove_all; fs_rename := rename; fs_chmod := chmod;
  fs_truncate := default_truncate; fs_touch := default_touch; fs_readlink := default_readlink;
  fs_symlink := default_symlink; fs_get_xattr := default_get_xattr;
  fs_set_xattr := default_set_xattr; fs_remove_xattr := default_remove_xattr;
  fs_list_xattr := default_list_xattr
}.
End Ops.

(** ** Properties *)

(** The part of the content that [write] gives the reader back. *)
Definition write_outcome (content : bytes) (offset flags : Z) (old : bytes) : option bytes :=
  if WriteFlags.contains_append flags then
    if isize_max <? len old + len content then None else Some (old ++ content)
  else if (offset <? 0) || (isize_max <? offset + len content) then None
  else if len old <=? offset
  then Some (old ++ replicate (Z.to_nat (offset - len old)) Byte.x00 ++ content)
  else if offset + len content <=? len old then Some (overlay Byte.x00 offset content old)
  else None.

Section Properties.
Context `{BuildProfile}.
Implicit Types (now : Now) (p : Path).

Lemma write_entry_run content offset flags old :
  in_i64 offset = true -> len old <= isize_max -> len content <= isize_max ->
  match write_outcome content offset flags old with
  | Some d => write_entry content offset flags old = (Ok (), d)
  | None => fst (write_entry content offset flags old) = Panic
  end.
Proof.
  intros Hoff Hlen Hc. pose proof (len_nonneg old). pose proof (len_nonneg content).
  unfold in_i64 in Hoff. bool_lia. unfold write_outcome, write_entry, update_state. munfold.
  destruct (WriteFlags.contains_append flags).
  { munfold. unfold extend_from_slice. by destruct (isize_max <? len old + len content). }
  destruct (Z.ltb_spec offset 0) as [Hneg|Hpos]; simpl.
  { pose proof (i64_as_usize_neg offset ltac:(unfold i64_min in *; lia)) as Hu. rewrite Hu.
    unfold i64_min, isize_max in *. destruct (Z.leb_spec (len old) (2 ^ 64 + offset)); [|lia].
    munfold. unfold resize. destruct (Z.leb_spec (2 ^ 64 + offset) (len old)).
    - assert (len old = 2 ^ 64 + offset) by lia. lia.
    - unfold isize_max. destruct (Z.ltb_spec (2 ^ 63 - 1) (2 ^ 64 + offset)); [done|lia]. }
  rewrite i64_as_usize_nonneg by lia.
  assert (offset <= isize_max) by (unfold isize_max, i64_max in *; lia).
  destruct (Z.leb_spec (len old) offset) as [Hpast|Hin].
  - munfold. replace (resize offset Byte.x00 old)
      with (@Ok FSError bytes (old ++ replicate (Z.to_nat (offset - len old)) Byte.x00)).
    2: { unfold resize. destruct (Z.leb_spec offset (len old)).
         - assert (offset = len old) as -> by lia. rewrite Z.sub_diag, ztake_ge by lia.
           by rewrite app_nil_r.
         - by destruct (Z.ltb_spec isize_max offset); [lia|]. }
    unfold extend_from_slice. rewrite len_app, len_replicate by lia.
    replace (len old + (offset - len old) + len content) with (offset + len content) by lia.
    destruct (isize_max <? offset + len content); [done|]. by rewrite <- app_assoc.
  - munfold. rewrite usize_add_ok by (unfold isize_max, u64_max in *; lia). unfold splice.
    destruct (Z.leb_spec offset (offset + len content)); [|lia]. simpl.
    destruct (Z.leb_spec (offset + len content) (len old)).
    + destruct (Z.ltb_spec isize_max (offset + len content)); [lia|]. unfold overlay.
      by replace (Z.to_nat (offset - len old)) with 0%nat by lia.
    + by destruct (isize_max <? offset + len content).
Qed.

Lemma write_outcome_len content offset flags old d :
  len old <= isize_max -> write_outcome content offset flags old = Some d -> len d <= isize_max.
Proof.
  intros Hold. pose proof (len_nonneg content). unfold write_outcome.
  destruct (WriteFlags.contains_append flags).
  - destruct (Z.ltb_spec isize_max (len old + len content)); [done|]. intros [= <-]. rewrite len_app. lia.
  - destruct (Z.ltb_spec offset 0); [done|]. destruct (Z.ltb_spec isize_max (offset + len content)); [done|]. cbn.
    destruct (Z.leb_spec (len old) offset).
    + intros [= <-]. rewrite !len_app, len_replicate by lia. lia.
    + destruct (_ <=? _); [|done]. intros [= <-]. rewrite len_overlay by done. lia.
Qed.

(** A [write] to a stored key appends in append mode, pads and appends at
    or past the end, overwrites inside the content, and panics when it starts
    inside the content and reaches past its end, when the offset is negative
    and when the content would outgrow the largest vector.  The recorded size
    follows the content, and no other key changes. *)
Theorem kvfs_write_spec now s p old content offset flags :
  pm_get p (store s) = Some old -> len old <= isize_max ->
  in_i64 offset = true -> len content <= isize_max ->
  match write_outcome content offset flags old with
  | Some d =>
    fst (write now p content offset flags s) = Ok (len content) /\
    let s' := snd (write now p content offset flags s) in
    pm_get p (store s') = Some d /\
    pm_get p (metadata s') = set_size (len d) <$> pm_get p (metadata s) /\
    forall q, components q <> components p ->
      pm_get q (store s') = pm_get q (store s) /\ pm_get q (metadata s') = pm_get q (metadata s)
  | None => fst (write now p content offset flags s) = Panic
  end.
Proof.
  intros Hp Hlen Hoff Hc. pose proof (write_entry_run content offset flags old Hoff Hlen Hc) as Hw.
  unfold write. rewrite Hp. destruct (write_outcome content offset flags old) as [d|].
  - rewrite Hw. simpl. rewrite !pm_get_update, Hp. split; [done|]. split; [done|]. split; [done|].
    intros q Hq. by rewrite !pm_get_update_ne.
  - destruct (write_entry content offset flags old) as [r e']. simpl in Hw. by subst.
Qed.

(** [remove] of a stored file takes its content and leaves its metadata
    behind: the call succeeds, [read] then finds nothing, and [stat] still
    answers the old metadata.  A second [remove] clears it. *)
Theorem kvfs_remove_keeps_metadata now s p d m :
  pm_get p (store s) = Some d -> pm_get p (metadata s) = Some m ->
  fst (remove now p s) = Ok () /\
  let s' := snd (remove now p s) in
  fst (read now p 0 (-1) s') = Err (NotFound p) /\
  fst (stat now p s') = Ok m /\
  fst (remove now p s') = Ok () /\ fst (stat now p (snd (remove now p s'))) = Err (NotFound p).
Proof.
  intros Hd Hm. unfold remove, read, stat. munfold. rewrite Hd. simpl.
  rewrite pm_get_remove, Hm. simpl. by rewrite pm_get_remove.
Qed.

(** [rename] of a stored file with its metadata to a free path moves both;
    the same call on a file whose metadata is gone answers [NotFound] after it
    has already dropped the content, which is then at neither path. *)
Theorem kvfs_rename_spec now s old new d :
  pm_get old (store s) = Some d -> components old <> components new ->
  pm_get new (store s) = None ->
  let s' := snd (rename now old new s) in
  pm_get old (store s') = None /\
  match pm_get old (metadata s) with
  | Some m => fst (rename now old new s) = Ok () /\
              pm_get new (store s') = Some d /\ pm_get new (metadata s') = Some m
  | None => fst (rename now old new s) = Err (NotFound old) /\
            pm_get new (store s') = None
  end /\
  (forall q, components q <> components old -> components q <> components new ->
             pm_get q (store s') = pm_get q (store s)).
Proof.
  intros Hd Hne Hn. unfold rename. munfold. rewrite Hd. simpl.
  destruct (pm_get old (metadata s)) as [m|]; simpl.
  - replace (pm_contains new (pm_remove old (store s))) with false
      by (symmetry; apply pm_contains_false; by rewrite pm_get_remove_ne).
    simpl. rewrite !pm_get_insert. split; [by rewrite pm_get_insert_ne, pm_get_remove|].
    split; [done|]. intros q Hq Hq'. by rewrite pm_get_insert_ne, pm_get_remove_ne.
  - rewrite pm_get_remove, pm_get_remove_ne by done. split; [done|]. split; [done|].
    intros q Hq _. by rewrite pm_get_remove_ne.
Qed.
End Properties.

(** ** Witnesses *)

Definition demo : KvFS :=
  exec (@create (fun _ => 0) "/k" ;; @write debug_profile (fun _ => 0) "/k" (as_bytes "abcd") 0 0) new.

Lemma kvfs_write_spec_witness :
  fst (@write debug_profile (fun _ => 0) "/k" (as_bytes "XYZ") 2 0 demo) = Panic.
Proof.
  apply (@kvfs_write_spec debug_profile (fun _ => 0) demo "/k" (as_bytes "abcd") (as_bytes "XYZ") 2 0);
    (reflexivity || (vm_compute; discriminate)).
Defined.

Lemma kvfs_remove_keeps_metadata_witness :
  fst (stat (fun _ => 0) "/k" (snd (remove (fun _ => 0) "/k" demo)))
  = Ok (set_size 4 (file (fun _ => 0) "/k" 0)).
Proof.
  destruct (@kvfs_remove_keeps_metadata debug_profile (fun _ => 0) demo "/k" (as_bytes "abcd")
              (set_size 4 (file (fun _ => 0) "/k" 0)) eq_refl eq_refl) as (_ & _ & H & _).
  exact H.
Defined.

Lemma kvfs_rename_spec_witness :
  pm_get "/n" (store (snd (rename (fun _ => 0) "/k" "/n" demo))) = Some (as_bytes "abcd").
Proof.
  apply (kvfs_rename_spec (fun _ => 0) demo "/k" "/n" (as_bytes "abcd") eq_refl);
    [discriminate|reflexivity].
Defined.
