(* ===== verification/Compression.v ===== *)
(** * Compression: the trait for transparent compression
    ([crates/racfs-core/src/compression.rs])

    The algorithm (zstd) is a third-party library; a compressor is a record of
    its two functions, and the level that is asked of it is computed here. *)

From S2P Require Import Prelude FsError.

(* src: crates/racfs-core/src/compression.rs 10-23 CompressionLevel *)
Inductive CompressionLevel :=
| Default
| Fast
| Best
| Level (n : Z).

(* src: crates/racfs-core/src/compression.rs 25-35 Compression *)
Record Compression := {
  compress : bytes -> Res bytes;
  decompress : bytes -> Res bytes
}.

(* src: crates/racfs-core/src/compression.rs 37-53 ZstdCompression::new *)
Definition zstd_level (l : CompressionLevel) : Z :=
  match l with
  | Default => 3
  | Fast => 1
  | Best => 19
  | Level n => Z.max 1 (Z.min 22 n)
  end.

(** zstd accepts the levels from 1 to 22. *)
Lemma zstd_level_in_range l : 1 <= zstd_level l <= 22.
Proof. destruct l; simpl; lia. Qed.
