(* ===== verification/StreamFS.v ===== *)
(** * StreamFS: the streaming backend ([crates/racfs-plugin-streamfs])

    A stream is a bounded buffer of numbered messages.  A write numbers a
    message, stores it (compressed when the configuration has a compressor, a
    parameter here) and evicts the lowest numbers while there are more messages
    than [buffer_size].  [streamfs_filesystem] is the instance of
    [FileSystem] for one configuration. *)

From S2P Require Import Prelude Text RPath BTree FsError Metadata Flags FileSystem Compression.
From Stdlib Require Import Strings.Ascii.
From Stdlib Require Strings.String.

(* src: crates/racfs-plugin-streamfs/src/fs/mod.rs 22-30 MessageStorage *)
Inductive MessageStorage :=
| Raw (d : bytes)
| Compressed (decompressed_len : Z) (data : bytes).

(* src: crates/racfs-plugin-streamfs/src/fs/mod.rs 33-40 MessageStorage::len *)
Definition storage_len (m : MessageStorage) : Z :=
  match m with Raw d => len d | Compressed n _ => n end.

(* src: crates/racfs-plugin-streamfs/src/fs/mod.rs 43-55 StreamConfig *)
Record StreamConfig := {
  buffer_size : Z;
  history_size : Z;
  max_streams : Z;
  compression : option Compression
}.

(* src: crates/racfs-plugin-streamfs/src/fs/mod.rs 68-77 StreamConfig::default *)
Definition default_config : StreamConfig :=
  {| buffer_size := 1000; history_size := 100; max_streams := 100; compression := None |}.

(* src: crates/racfs-plugin-streamfs/src/fs/mod.rs 97-103 Stream *)
Record Stream := {
  name : string;
  messages : BTreeMap Z MessageStorage;
  head : Z;
  tail : Z
}.

(* src: crates/racfs-plugin-streamfs/src/fs/mod.rs 92-95 StreamState *)
Definition StreamState : Type := BTreeMap string Stream.

Definition set_messages m (s : Stream) : Stream :=
  {| name := name s; messages := m; head := head s; tail := tail s |}.
Definition set_head h (s : Stream) : Stream :=
  {| name := name s; messages := messages s; head := h; tail := tail s |}.
Definition set_tail t (s : Stream) : Stream :=
  {| name := name s; messages := messages s; head := head s; tail := t |}.

(* src: crates/racfs-plugin-streamfs/src/fs/mod.rs 106-113 Stream::new *)
Definition stream_new (n : string) : Stream := {| name := n; messages := []; head := 1; tail := 1 |}.

(* src: crates/racfs-plugin-streamfs/src/fs/mod.rs 116-126 PathComponent *)
Inductive PathComponent :=
| Root
| StreamsDir
| StreamDir (n : string)
| DataDir (n : string)
| Message (n : string) (id : Z)
| Head (n : string)
| Tail (n : string)
| Config (n : string).

(* src: crates/racfs-plugin-streamfs/src/fs/mod.rs 142-149 StreamFS::normalize_path *)
Definition normalize_path (p : Path) : Path := if starts_with p "/" then p else join "/" p.

(* src: crates/racfs-plugin-streamfs/src/fs/mod.rs 151-178 StreamFS::parse_path *)
Definition parse_path (p : Path) : option PathComponent :=
  let parts := List.filter (fun s => negb (String.eqb s "")) (split_char slash (trim_start_char slash p)) in
  match parts with
  | [] => Some Root
  | a :: rest =>
    if negb (String.eqb a "streams") then None
    else
      match rest with
      | [] => Some StreamsDir
      | [n] => Some (StreamDir n)
      | [n; f] =>
        if String.eqb f "data" then Some (DataDir n)
        else if String.eqb f "head" then Some (Head n)
        else if String.eqb f "tail" then Some (Tail n)
        else if String.eqb f "config" then Some (Config n)
        else None
      | [n; d; filename] =>
        if String.eqb d "data" && ends_with filename ".msg" then
          Message n <$> parse_u64 (trim_end_str ".msg" filename)
        else None
      | _ => None
      end
  end.

(* src: crates/racfs-plugin-streamfs/src/fs/mod.rs 130-140 StreamFS::new *)
Definition new : StreamState := [].

Section Ops.
Context `{BuildProfile} (config : StreamConfig).
Implicit Types (now : Now) (p : Path).

(** [state.streams.get(n)] and its error. *)
Definition get_stream (n : string) (normalized : Path) : FsOp StreamState Stream :=
  st ← get; lift (ok_or (bt_get n st) (NotFound normalized)).

(** [state.streams.get_mut(n)]: run [m] on the stream in place. *)
Definition with_stream {A} (n : string) (normalized : Path) (m : M Stream FSError A) : FsOp StreamState A :=
  fun st =>
    match bt_get n st with
    | None => (Err (NotFound normalized), st)
    | Some s => let '(r, s') := m s in (r, bt_update n (fun _ => s') st)
    end.

(* src: crates/racfs-plugin-streamfs/src/fs/mod.rs 180-194 StreamFS::create_stream *)
Definition create_stream (n : string) : FsOp StreamState () :=
  st ← get;
  fail_if (max_streams config <=? bt_len st) StorageFull ;;
  fail_if (bt_contains n st) (AlreadyExists ("/streams/" +:+ n)) ;;
  put (bt_insert n (stream_new n) st).

(* src: crates/racfs-plugin-streamfs/src/fs/mod.rs 197-212 StreamFS::message_storage_to_bytes *)
Definition message_storage_to_bytes (stored : MessageStorage) : Res bytes :=
  match stored with
  | Raw d => Ok d
  | Compressed _ d =>
    c ← ok_or (compression config) (InvalidInput "compression not configured");
    decompress c d
  end.

(* src: crates/racfs-plugin-streamfs/src/fs/mod.rs 215-228 StreamFS::bytes_to_message_storage *)
Definition bytes_to_message_storage (d : bytes) : Res MessageStorage :=
  match compression config with
  | Some c =>
    compressed ← compress c d;
    if len d <=? u32_max then Ok (Compressed (len d) compressed)
    else Err (InvalidInput "message too large for compression format")
  | None => Ok (Raw d)
  end.

Definition data_file (n : string) (id : Z) : Path :=
  "/streams/" +:+ n +:+ "/data/" +:+ fmt_zero_pad 6 id +:+ ".msg".
Definition stream_file (n f : string) : Path := "/streams/" +:+ n +:+ "/" +:+ f.

(** The range of a message that [read] returns. *)
Definition message_range (data : bytes) (offset size : Z) : Res bytes :=
  let start := i64_as_usize (Z.max offset 0) in
  e ← (if size <? 0 then Ok (len data)
       else x ← usize_add (i64_as_usize offset) (i64_as_usize size); Ok (Z.min x (len data)));
  if len data <=? start then Ok [] else slice start e data.

Definition config_text (s : Stream) : string :=
  let nl := String (ascii_of_nat 10) EmptyString in
  "name=" +:+ name s +:+ nl +:+ "buffer_size=" +:+ to_string (buffer_size config) +:+ nl
  +:+ "head=" +:+ to_string (head s) +:+ nl +:+ "tail=" +:+ to_string (tail s) +:+ nl.

(* src: crates/racfs-plugin-streamfs/src/fs/read.rs 10-74 StreamFS::read *)
Definition read now p (offset size : Z) : FsOp StreamState bytes :=
  let normalized := normalize_path p in
  match parse_path normalized with
  | Some (Message n id) =>
    stream ← get_stream n normalized;
    stored ← lift (ok_or (bt_get id (messages stream)) (NotFound normalized));
    data ← lift (message_storage_to_bytes stored);
    lift (message_range data offset size)
  | Some (Head n) => stream ← get_stream n normalized; mret (as_bytes (fmt_zero_pad 6 (head stream)))
  | Some (Tail n) => stream ← get_stream n normalized; mret (as_bytes (fmt_zero_pad 6 (tail stream)))
  | Some (Config n) => stream ← get_stream n normalized; mret (as_bytes (config_text stream))
  | _ => fail (NotFound normalized)
  end.

(* src: crates/racfs-plugin-streamfs/src/fs/read.rs 76-154 StreamFS::stat *)
Definition stat now p : FsOp StreamState FileMetadata :=
  let normalized := normalize_path p in
  st ← get;
  let if_stream n m := if bt_contains n st then mret m else fail (NotFound normalized) in
  match parse_path normalized with
  | Some Root => mret (directory now "/")
  | Some StreamsDir => mret (directory now "/streams")
  | Some (StreamDir n) => if_stream n (directory now ("/streams/" +:+ n))
  | Some (DataDir n) => if_stream n (directory now (stream_file n "data"))
  | Some (Message n id) =>
    stream ← get_stream n normalized;
    stored ← lift (ok_or (bt_get id (messages stream)) (NotFound normalized));
    mret (file now (data_file n id) (storage_len stored))
  | Some (Head n) => if_stream n (file now (stream_file n "head") 6)
  | Some (Tail n) => if_stream n (file now (stream_file n "tail") 6)
  | Some (Config n) => if_stream n (file now (stream_file n "config") 0)
  | None => fail (NotFound normalized)
  end.

(** [if id >= stream.tail { stream.tail = id + 1; }] *)
Definition bump_tail (id : Z) : M Stream FSError () :=
  s ← get;
  if tail s <=? id then t ← lift (u64_add id 1); modify (set_tail t) else mret ().

(* src: crates/racfs-plugin-streamfs/src/fs/write.rs 10-44 StreamFS::create *)
Definition create now p : FsOp StreamState () :=
  let normalized := normalize_path p in
  match parse_path normalized with
  | Some (Message n id) =>
    with_stream n normalized
      (modify (fun s => set_messages (bt_insert id (Raw []) (messages s)) s) ;; bump_tail id)
  | Some (Head n) => with_stream n normalized (modify (set_head 1))
  | _ => fail (PermissionDenied normalized)
  end.

(** The eviction loop.  Every turn removes a message, so as many turns as there
    are messages are enough; see [evict_terminates]. *)
Fixpoint evict_loop (fuel : nat) : M Stream FSError () :=
  s ← get;
  if buffer_size config <? bt_len (messages s) then
    match fuel with
    | O => lift Diverge
    | S f =>
      (match bt_first (messages s) with
       | Some (first_key, _) =>
         modify (fun s => set_messages (bt_remove first_key (messages s)) s) ;;
         h ← lift (u64_add first_key 1);
         modify (set_head h)
       | None => mret ()
       end) ;;
      evict_loop f
    end
  else mret ().

(* src: crates/racfs-plugin-streamfs/src/fs/write.rs 94-99 StreamFS::write *)
Definition evict : M Stream FSError () := s ← get; evict_loop (length (messages s)).

(** [stream.messages.insert(id, stored)] *)
Definition insert_message (id : Z) (stored : MessageStorage) : M Stream FSError () :=
  modify (fun s => set_messages (bt_insert id stored (messages s)) s).

(** The new content of a message that is written at an offset. *)
Definition patch (msg content : bytes) (offset : Z) : Res bytes :=
  let o := i64_as_usize offset in
  msg1 ← (if len msg <? o then resize o Byte.x00 msg else Ok msg);
  e ← usize_add o (len content);
  msg2 ← (if len msg1 <? e then resize e Byte.x00 msg1 else Ok msg1);
  copy_from_slice o content msg2.

(* src: crates/racfs-plugin-streamfs/src/fs/write.rs 57-102 StreamFS::write *)
Definition write_message (id : Z) (content : bytes) (offset : Z) : M Stream FSError Z :=
  s ← get;
  msg ← (match bt_get id (messages s) with
         | Some st => lift (message_storage_to_bytes st)
         | None => mret []
         end);
  msg' ← lift (patch msg content offset);
  stored ← lift (bytes_to_message_storage msg');
  insert_message id stored ;;
  bump_tail id ;;
  evict ;;
  mret (len content).

(* src: crates/racfs-plugin-streamfs/src/fs/write.rs 103-125 StreamFS::write *)
Definition write_tail (content : bytes) : M Stream FSError Z :=
  s ← get;
  let id := tail s in
  stored ← lift (bytes_to_message_storage content);
  insert_message id stored ;;
  t ← lift (u64_add id 1);
  modify (set_tail t) ;;
  evict ;;
  mret (len content).

(* src: crates/racfs-plugin-streamfs/src/fs/write.rs 126-140 StreamFS::write *)
Definition write_head (content : bytes) : M Stream FSError Z :=
  (match parse_u64 (trim (from_utf8_lossy content)) with
   | Some new_head => modify (set_head new_head)
   | None => mret ()
   end) ;;
  mret (len content).

(* src: crates/racfs-plugin-streamfs/src/fs/write.rs 46-143 StreamFS::write *)
Definition write now p (content : bytes) (offset flags : Z) : FsOp StreamState Z :=
  let normalized := normalize_path p in
  match parse_path normalized with
  | Some (Message n id) => with_stream n normalized (write_message id content offset)
  | Some (Tail n) => with_stream n normalized (write_tail content)
  | Some (Head n) => with_stream n normalized (write_head content)
  | _ => fail (PermissionDenied normalized)
  end.

(* src: crates/racfs-plugin-streamfs/src/fs/dir.rs 10-26 StreamFS::mkdir *)
Definition mkdir now p (perm : Z) : FsOp StreamState () :=
  let normalized := normalize_path p in
  match parse_path normalized with
  | Some StreamsDir => mret ()
  | Some (StreamDir n) => create_stream n
  | Some (DataDir n) => st ← get; fail_if (negb (bt_contains n st)) (NotFound normalized)
  | _ => fail (PermissionDenied normalized)
  end.

Definition by_path (a b : FileMetadata) : comparison := path_cmp (path a) (path b).

(** The clock is read anew for every entry. *)
(* src: crates/racfs-plugin-streamfs/src/fs/dir.rs 28-90 StreamFS::read_dir *)
Definition read_dir now p : FsOp StreamState (list FileMetadata) :=
  let normalized := normalize_path p in
  let at_ k := now_from (3 * k) now in
  st ← get;
  match parse_path normalized with
  | Some Root => mret [directory now "/streams"]
  | Some StreamsDir =>
    mret (sort_by by_path (imap (fun k n => directory (at_ k) ("/streams/" +:+ n)) (bt_keys st)))
  | Some (StreamDir n) =>
    get_stream n normalized ;;
    mret [directory (at_ 0) (stream_file n "data"); file (at_ 1) (stream_file n "head") 6;
          file (at_ 2) (stream_file n "tail") 6; file (at_ 3) (stream_file n "config") 0]%nat
  | Some (DataDir n) =>
    stream ← get_stream n normalized;
    mret (sort_by by_path
      (imap (fun k kv => file (at_ k) (data_file n (fst kv)) (storage_len (snd kv))) (messages stream)))
  | _ => fail (NotADirectory normalized)
  end.

(* src: crates/racfs-plugin-streamfs/src/fs/dir.rs 92-122 StreamFS::remove *)
Definition remove now p : FsOp StreamState () :=
  let normalized := normalize_path p in
  match parse_path normalized with
  | Some (Message n id) =>
    with_stream n normalized
      (s ← get;
       fail_if (negb (bt_contains id (messages s))) (NotFound normalized) ;;
       put (set_messages (bt_remove id (messages s)) s))
  | Some (StreamDir n) =>
    st ← get;
    fail_if (negb (bt_contains n st)) (NotFound normalized) ;;
    put (bt_remove n st)
  | _ => fail (PermissionDenied normalized)
  end.

(* src: crates/racfs-plugin-streamfs/src/fs/dir.rs 124-126 StreamFS::remove_all *)
Definition remove_all now p : FsOp StreamState () := remove now p.

(* src: crates/racfs-plugin-streamfs/src/fs/dir.rs 128-132 StreamFS::rename *)
Definition rename now (old new : Path) : FsOp StreamState () := fail (PermissionDenied "/").

(* src: crates/racfs-plugin-streamfs/src/fs/chmod.rs 10-13 StreamFS::chmod *)
Definition chmod now p (mode : Z) : FsOp StreamState () := fail (PermissionDenied (normalize_path p)).

(* src: crates/racfs-plugin-streamfs/src/fs/mod.rs 233-236 StreamFS::truncate *)
Definition truncate now p (n : Z) : FsOp StreamState () := fail (PermissionDenied (normalize_path p)).

(* src: crates/racfs-plugin-streamfs/src/fs/mod.rs 238-242 StreamFS::touch *)
Definition touch now p : FsOp StreamState () := stat now (normalize_path p) ;; mret ().

Definition streamfs_filesystem : FileSystem StreamState := {|
  fs_read := read; fs_stat := stat; fs_create := create; fs_write := write;
  fs_mkdir := mkdir; fs_read_dir := read_dir; fs_remove := remove;
  fs_remove_all := remove_all; fs_rename := rename; fs_chmod := chmod;
  fs_truncate := truncate; fs_touch := touch; fs_readlink := default_readlink;
  fs_symlink := default_symlink; fs_get_xattr := default_get_xattr;
  fs_set_xattr := default_set_xattr; fs_remove_xattr := default_remove_xattr;
  fs_list_xattr := default_list_xattr
|}.
End Ops.

(** ** Properties *)

Section Properties.
Context `{BuildProfile} (config : StreamConfig).
Hypothesis buffer_nonneg : 0 <= buffer_size config.
Implicit Types (s : Stream).

(** The numbers of the messages leave room for the next one. *)
Definition keys_ok (m : BTreeMap Z MessageStorage) : Prop :=
  Forall (fun kv => 0 <= fst kv < u64_max) m.

(** How many messages a stream has too many. *)
Definition excess s : nat := (length (messages s) - Z.to_nat (buffer_size config))%nat.

(** What eviction leaves: the highest numbers, and the head behind the last
    message that went. *)
Definition evicted s : Stream :=
  set_messages (drop (excess s) (messages s))
    (match last (take (excess s) (messages s)) with
     | Some (k, _) => set_head (k + 1) s
     | None => s
     end).

Lemma evict_loop_run f s :
  keys_ok (messages s) -> (excess s <= f)%nat -> evict_loop config f s = (Ok (), evicted s).
Proof.
  revert s. induction f as [|f IH]; intros s Hk Hf; simpl; munfold.
  - unfold excess, bt_len, len in *.
    destruct (Z.ltb_spec (buffer_size config) (Z.of_nat (length (messages s)))); [lia|].
    unfold evicted, excess. replace (_ - _)%nat with 0%nat by lia. by destruct s.
  - unfold bt_len, len. destruct (Z.ltb_spec (buffer_size config) (Z.of_nat (length (messages s)))) as [Hgt|Hle].
    2: { unfold evicted, excess. replace (_ - _)%nat with 0%nat by lia. by destruct s. }
    destruct (messages s) as [|[k v] m] eqn:Em; [simpl in Hgt; lia|]. simpl.
    apply Forall_cons_1 in Hk as [Hk Hm]. simpl in Hk.
    rewrite unsigned_add_ok by lia. rewrite Em, bt_remove_head. rewrite IH; cycle 1.
    { done. }
    { unfold excess in *. rewrite Em in Hf. simpl in *. lia. }
    f_equal. unfold evicted. unfold excess. simpl messages. rewrite Em.
    simpl length. simpl in Hgt.
    replace (S (length m) - Z.to_nat (buffer_size config))%nat
      with (S (length m - Z.to_nat (buffer_size config))) by lia.
    simpl drop. simpl take. rewrite last_cons.
    destruct (last (take (length m - Z.to_nat (buffer_size config)) m)) as [[k' v']|]; done.
Qed.

Lemma evict_run s : keys_ok (messages s) -> evict config s = (Ok (), evicted s).
Proof. intros Hk. unfold evict. munfold. apply evict_loop_run; [done|]. unfold excess. lia. Qed.

(** Eviction always ends: it drops the lowest numbers until [buffer_size]
    messages are left, and moves the head behind the last one dropped. *)
Theorem streamfs_evict_spec s :
  keys_ok (messages s) ->
  evict config s = (Ok (), evicted s) /\
  bt_len (messages (evicted s)) = Z.min (bt_len (messages s)) (buffer_size config).
Proof.
  intros Hk. split.
  - by apply evict_run.
  - unfold evicted, excess, bt_len, len. simpl. rewrite length_drop. lia.
Qed.

(** The state of a stream after the tail writes [l]. *)
Definition numbered (l : list bytes) : list (Z * MessageStorage) :=
  imap (fun i d => (Z.of_nat i + 1, Raw d)) l.

Definition ring n (l : list bytes) : Stream :=
  let k := (length l - Z.to_nat (buffer_size config))%nat in
  {| name := n; messages := drop k (numbered l); head := Z.of_nat k + 1;
     tail := Z.of_nat (length l) + 1 |}.

Lemma length_numbered l : length (numbered l) = length l.
Proof. apply length_imap. Qed.

Lemma numbered_snoc l d : numbered (l ++ [d]) = numbered l ++ [(Z.of_nat (length l) + 1, Raw d)].
Proof. unfold numbered. rewrite imap_app. simpl. by rewrite Nat.add_0_r. Qed.

Lemma numbered_lookup l i : numbered l !! i = (fun d => (Z.of_nat i + 1, Raw d)) <$> l !! i.
Proof. unfold numbered. by rewrite list_lookup_imap. Qed.

Lemma ring_write_tail n l d :
  compression config = None -> Z.of_nat (length l) + 2 < u64_max ->
  write_tail config d (ring n l) = (Ok (len d), ring n (l ++ [d])).
Proof.
  intros Hc Hl. unfold write_tail, bytes_to_message_storage, insert_message. munfold. rewrite Hc. simpl.
  rewrite unsigned_add_ok by lia. munfold.
  set (k := (length l - Z.to_nat (buffer_size config))%nat).
  assert (Hins : bt_insert (Z.of_nat (length l) + 1) (Raw d) (drop k (numbered l))
                 = drop k (numbered l) ++ [(Z.of_nat (length l) + 1, Raw d)]).
  { apply bt_insert_last. unfold bt_keys. apply Forall_forall. intros x (km & -> & Hin)%elem_of_map.
    apply list_elem_of_lookup in Hin as [i Hi]. rewrite lookup_drop, numbered_lookup in Hi.
    destruct (l !! (k + i)%nat) eqn:E; [|done]. simpl in Hi. simplify_eq.
    apply lookup_lt_Some in E. unfold key_lt. simpl. apply Z.compare_lt_iff. lia. }
  rewrite Hins, evict_run; cycle 1.
  { simpl. apply Forall_app. split.
    - apply Forall_forall. intros km Hin. apply list_elem_of_lookup in Hin as [i Hi].
      rewrite lookup_drop, numbered_lookup in Hi. destruct (l !! (k + i)%nat) eqn:E; [|done].
      simpl in Hi. simplify_eq. apply lookup_lt_Some in E. simpl. lia.
    - apply Forall_singleton; simpl; lia. }
  simpl. f_equal. unfold evicted, excess, ring. simpl messages.
  rewrite length_app, length_drop, length_numbered. simpl length.
  rewrite numbered_snoc, length_app. simpl length.
  destruct (Nat.le_gt_cases (Z.to_nat (buffer_size config)) (length l)) as [Hge|Hlt].
  - replace (length l - k + 1 - Z.to_nat (buffer_size config))%nat with 1%nat by (subst k; lia).
    replace (length l + 1 - Z.to_nat (buffer_size config))%nat with (k + 1)%nat by (subst k; lia).
    rewrite <- drop_drop.
    assert (Hd : drop k (numbered l ++ [(Z.of_nat (length l) + 1, Raw d)])
                 = drop k (numbered l) ++ [(Z.of_nat (length l) + 1, Raw d)])
      by (apply drop_app_le; rewrite length_numbered; subst k; lia).
    rewrite Hd.
    assert (Hhd : exists v, (drop k (numbered l) ++ [(Z.of_nat (length l) + 1, Raw d)]) !! 0%nat
                  = Some (Z.of_nat k + 1, v)).
    { destruct (decide (k < length l)%nat).
      - rewrite lookup_app_l by (rewrite length_drop, length_numbered; lia).
        rewrite lookup_drop, numbered_lookup, Nat.add_0_r.
        destruct (lookup_lt_is_Some_2 l k) as [x ->]; [lia|]. simpl. by eexists.
      - assert (k = length l) as Hkl by (subst k; lia).
        rewrite drop_ge by (rewrite length_numbered; lia). simpl. rewrite Hkl. by eexists. }
    destruct Hhd as [v Hv].
    destruct (drop k (numbered l) ++ [(Z.of_nat (length l) + 1, Raw d)]) as [|y ys]; [done|].
    simpl in Hv. simplify_eq. simpl. unfold set_messages, set_head. simpl. f_equal; lia.
  - replace k with 0%nat by (subst k; lia). simpl.
    replace (length l - 0 + 1 - Z.to_nat (buffer_size config))%nat with 0%nat by lia.
    replace (length l + 1 - Z.to_nat (buffer_size config))%nat with 0%nat by lia.
    simpl. unfold set_messages. simpl. f_equal; lia.
Qed.

Fixpoint write_tails (l : list bytes) : M Stream FSError () :=
  match l with
  | [] => mret ()
  | d :: l' => write_tail config d ;; write_tails l'
  end.

Lemma ring_write_tails n done_ l :
  compression config = None -> Z.of_nat (length (done_ ++ l)) + 2 < u64_max ->
  write_tails l (ring n done_) = (Ok (), ring n (done_ ++ l)).
Proof.
  intros Hc. revert done_. induction l as [|d l IH]; intros done_ Hl; simpl.
  - by rewrite app_nil_r.
  - rewrite length_app in Hl. simpl in Hl. rewrite run_bind, ring_write_tail by (done || lia).
    rewrite IH by (rewrite !length_app; simpl; lia). by rewrite <- app_assoc.
Qed.

(** C23: the messages written to the [tail] of a new stream are numbered from 1
    on; the stream holds the last [buffer_size] of them, whole and in order,
    its head is the first number it still holds, and its tail is the next one
    to be given out. *)
Theorem streamfs_ring_buffer n l :
  compression config = None -> Z.of_nat (length l) + 2 < u64_max ->
  write_tails l (stream_new n) = (Ok (), ring n l).
Proof. intros. by apply (ring_write_tails n [] l). Qed.

(** What [patch] makes of a message. *)
Lemma patch_overlay msg content offset :
  0 <= offset -> len msg <= isize_max -> offset + len content <= isize_max ->
  patch msg content offset = Ok (overlay Byte.x00 offset content msg).
Proof.
  intros Ho Hm Hmax. pose proof (len_nonneg msg). pose proof (len_nonneg content). unfold patch.
  rewrite i64_as_usize_nonneg by (unfold i64_max, isize_max in *; lia).
  destruct (Z.ltb_spec (len msg) offset) as [Hlt|Hge].
  - rewrite resize_grow by lia. simpl. rewrite usize_add_ok by (unfold isize_max, u64_max in *; lia). simpl.
    set (msg1 := msg ++ replicate (Z.to_nat (offset - len msg)) Byte.x00).
    assert (Hl1 : len msg1 = offset) by (subst msg1; rewrite len_app, len_replicate; lia).
    pose proof (@resize_copy_overlay FSError _ Byte.x00 offset content msg1 ltac:(lia) ltac:(lia) ltac:(lia)) as Hr.
    unfold mbind, outcome_bind in *. rewrite Hr. f_equal. unfold overlay.
    rewrite !zdrop_ge by lia. rewrite (ztake_ge offset msg1) by lia. rewrite (ztake_ge offset msg) by lia.
    replace (Z.to_nat (offset - len msg1)) with 0%nat by lia. subst msg1. simpl. by rewrite <- app_assoc.
  - simpl. rewrite usize_add_ok by (unfold isize_max, u64_max in *; lia). simpl.
    destruct (Z.leb_spec (len msg) (offset + len content)).
    + apply resize_copy_overlay; lia.
    + destruct (Z.ltb_spec (len msg) (offset + len content)); [lia|]. simpl.
      rewrite copy_from_slice_ok by lia. unfold overlay.
      by replace (Z.to_nat (offset - len msg)) with 0%nat by lia.
Qed.

(** A compressor that restores what it compressed is invisible: what is
    stored for some bytes reads back as the same bytes, and reports their
    length. *)
Theorem streamfs_storage_roundtrip d stored :
  (forall c x y, compression config = Some c -> compress c x = Ok y -> decompress c y = Ok x) ->
  bytes_to_message_storage config d = Ok stored ->
  message_storage_to_bytes config stored = Ok d /\ storage_len stored = len d.
Proof.
  intros Hlaw. unfold bytes_to_message_storage, message_storage_to_bytes.
  destruct (compression config) as [c|] eqn:Hc.
  - simpl. unfold mbind, outcome_bind. destruct (compress c d) as [y| | |] eqn:Hy; try done.
    destruct (len d <=? u32_max); [|done]. intros; simplify_eq. simpl. eauto.
  - intros; simplify_eq. done.
Qed.

(** A write to a message number below every number of a full stream is
    answered as if it had been stored, but eviction takes it out again at once:
    the messages are what they were, and the head moves back behind the number
    that was lost. *)
Theorem streamfs_low_write_lost s id content :
  compression config = None -> len content <= isize_max ->
  bt_len (messages s) = buffer_size config ->
  keys_ok (messages s) -> Forall (fun kv => id < fst kv) (messages s) ->
  0 <= id -> id < tail s -> id < u64_max ->
  write_message config id content 0 s = (Ok (len content), set_head (id + 1) s).
Proof.
  intros Hc Hlen Hfull Hk Hlow Hid Htail Hmax. unfold write_message. munfold.
  assert (Habove : Forall (key_lt id) (bt_keys (messages s))).
  { unfold bt_keys. apply Forall_map. eapply Forall_impl; [exact Hlow|]. intros kv Hkv.
    unfold key_lt. simpl. by apply Z.compare_lt_iff. }
  rewrite (bt_get_above _ _ Habove). simpl. munfold.
  rewrite (patch_overlay [] content 0) by (change (len (@nil u8)) with 0; unfold isize_max in *; lia).
  change (overlay Byte.x00 0 content []) with (content ++ zdrop (0 + len content) []).
  unfold zdrop. rewrite drop_nil, app_nil_r. munfold.
  unfold bytes_to_message_storage. rewrite Hc. unfold insert_message, bump_tail. munfold.
  destruct (Z.leb_spec (tail s) id); [lia|]. munfold.
  assert (Hins : forall v, bt_insert id v (messages s) = (id, v) :: messages s).
  { intros v. clear -Habove. destruct (messages s) as [|[k w] m]; [done|].
    apply Forall_cons_1 in Habove as [Hk _]. unfold key_lt in Hk. simpl in *. by rewrite Hk. }
  rewrite Hins, evict_run by (simpl; apply Forall_cons; simpl; split; [lia|done]).
  unfold evicted, excess. simpl. unfold bt_len, len in Hfull.
  replace (S (length (messages s)) - Z.to_nat (buffer_size config))%nat with 1%nat by lia.
  simpl. by destruct s.
Qed.
End Properties.

(** ** Witnesses *)

Definition small_config : StreamConfig :=
  {| buffer_size := 2; history_size := 10; max_streams := 3; compression := None |}.

(** A compressor that reverses, and one that is off. *)
Definition rev_compression : Compression :=
  {| compress := fun d => Ok (rev d); decompress := fun d => Ok (rev d) |}.
Definition rev_config : StreamConfig :=
  {| buffer_size := 2; history_size := 10; max_streams := 3; compression := Some rev_compression |}.

Definition demo : Stream := @ring small_config "s" [as_bytes "a"; as_bytes "b"; as_bytes "c"].

Lemma streamfs_evict_spec_witness :
  @evict debug_profile small_config (set_messages (numbered [as_bytes "a"; as_bytes "b"; as_bytes "c"]) demo)
  = (Ok (), demo).
Proof.
  refine (proj1 (@streamfs_evict_spec debug_profile small_config _
    (set_messages (numbered [as_bytes "a"; as_bytes "b"; as_bytes "c"]) demo) _)).
  - vm_compute. discriminate.
  - repeat constructor; vm_compute; (done || discriminate).
Defined.

Lemma streamfs_ring_buffer_witness :
  @write_tails debug_profile small_config [as_bytes "a"; as_bytes "b"; as_bytes "c"] (stream_new "s")
  = (Ok (), {| name := "s"; messages := [(2, Raw (as_bytes "b")); (3, Raw (as_bytes "c"))];
               head := 2; tail := 4 |}).
Proof.
  exact (@streamfs_ring_buffer debug_profile small_config ltac:(vm_compute; discriminate) "s"
           [as_bytes "a"; as_bytes "b"; as_bytes "c"] eq_refl eq_refl).
Defined.

Lemma streamfs_storage_roundtrip_witness :
  message_storage_to_bytes rev_config (Compressed 3 (as_bytes "cba")) = Ok (as_bytes "abc") /\ 3 = 3.
Proof.
  apply (streamfs_storage_roundtrip rev_config (as_bytes "abc")).
  - intros c x y [= <-] [= <-]. simpl. by rewrite rev_involutive.
  - reflexivity.
Defined.

Lemma streamfs_low_write_lost_witness :
  @write_message debug_profile small_config 1 (as_bytes "lost") 0 demo = (Ok 4, set_head 2 demo).
Proof.
  assert (Hk : keys_ok (messages demo)) by (repeat constructor; vm_compute; (done || discriminate)).
  assert (Hl : Forall (fun kv => 1 < fst kv) (messages demo)) by repeat constructor.
  exact (@streamfs_low_write_lost debug_profile small_config ltac:(vm_compute; discriminate)
           demo 1 (as_bytes "lost") eq_refl ltac:(vm_compute; discriminate) eq_refl Hk Hl
           ltac:(vm_compute; discriminate) ltac:(vm_compute; reflexivity) ltac:(vm_compute; reflexivity)).
Defined.
