(* ===== verification/HelloFS.v ===== *)
(** * HelloFS: a static, read-only backend ([crates/racfs-plugin-hellofs]) *)

From S2P Require Import Prelude Text RPath FsError Metadata Flags FileSystem.
From Stdlib Require Import Strings.Ascii.
From Stdlib Require Strings.String.

(* src: crates/racfs-plugin-hellofs/src/fs/mod.rs 31-35 FileEntry *)
Record FileEntry := { data : bytes; metadata : FileMetadata }.

(* src: crates/racfs-plugin-hellofs/src/fs/mod.rs 27-29 HelloFS *)
Definition HelloFS : Type := PathMap FileEntry.

Definition nl : string := String (ascii_of_nat 10) EmptyString.

Definition readme : string :=
  "HelloFS - A simple static read-only demo filesystem for RACFS." +:+ nl +:+ nl
  +:+ "This plugin demonstrates a minimal filesystem implementation with fixed content." +:+ nl
  +:+ "All write operations will fail with a ReadOnly error." +:+ nl.

Definition file_entry (now : Now) (p : Path) (content : string) : FileEntry :=
  {| data := as_bytes content; metadata := file now p (str_len content) |}.

(* src: crates/racfs-plugin-hellofs/src/fs/mod.rs 39-94 HelloFS::new *)
Definition new (now : Now) : HelloFS :=
  pm_insert "/readme.txt" (file_entry (now_from 9 now) "/readme.txt" readme)
    (pm_insert "/version" (file_entry (now_from 6 now) "/version" "1.0.0")
      (pm_insert "/hello" (file_entry (now_from 3 now) "/hello" "Hello, World!")
        (pm_insert "/" {| data := []; metadata := directory now "/" |} ∅))).

(* src: crates/racfs-plugin-hellofs/src/fs/mod.rs 96-101 HelloFS::get_entry *)
Definition get_entry (p : Path) : FsOp HelloFS FileEntry :=
  s ← get; lift (ok_or (pm_get p s) (NotFound p)).

Section Ops.
Context `{BuildProfile}.
Implicit Types (now : Now) (p : Path).

(* src: crates/racfs-plugin-hellofs/src/fs/read.rs 10-32 HelloFS::read *)
Definition read now p (offset size : Z) : FsOp HelloFS bytes :=
  entry ← get_entry p;
  if is_directory (metadata entry) then fail (IsDirectory p)
  else lift (read_range (data entry) offset size).

(* src: crates/racfs-plugin-hellofs/src/fs/read.rs 34-37 HelloFS::stat *)
Definition stat now p : FsOp HelloFS FileMetadata := entry ← get_entry p; mret (metadata entry).

(* src: crates/racfs-plugin-hellofs/src/fs/write.rs 10-12 HelloFS::create *)
Definition create now p : FsOp HelloFS () := fail ReadOnly.
(* src: crates/racfs-plugin-hellofs/src/fs/write.rs 14-22 HelloFS::write *)
Definition write now p (content : bytes) (offset flags : Z) : FsOp HelloFS Z := fail ReadOnly.
(* src: crates/racfs-plugin-hellofs/src/fs/chmod.rs 10-12 HelloFS::chmod *)
Definition chmod now p (mode : Z) : FsOp HelloFS () := fail ReadOnly.
(* src: crates/racfs-plugin-hellofs/src/fs/dir.rs 10-12 HelloFS::mkdir *)
Definition mkdir now p (perm : Z) : FsOp HelloFS () := fail ReadOnly.

Definition dir_item (prefix : string) (kv : Path * FileEntry) : option FileMetadata :=
  (fun relative => set_path (listed_path relative) (metadata (snd kv)))
    <$> direct_child prefix (fst kv).

(* src: crates/racfs-plugin-hellofs/src/fs/dir.rs 14-61 HelloFS::read_dir *)
Definition read_dir now p : FsOp HelloFS (list FileMetadata) :=
  s ← get; mret (omap (dir_item (dir_prefix p)) (pm_entries s)).

(* src: crates/racfs-plugin-hellofs/src/fs/dir.rs 63-65 HelloFS::remove *)
Definition remove now p : FsOp HelloFS () := fail ReadOnly.
(* src: crates/racfs-plugin-hellofs/src/fs/dir.rs 67-69 HelloFS::remove_all *)
Definition remove_all now p : FsOp HelloFS () := fail ReadOnly.
(* src: crates/racfs-plugin-hellofs/src/fs/dir.rs 71-73 HelloFS::rename *)
Definition rename now (old new : Path) : FsOp HelloFS () := fail ReadOnly.
(* src: crates/racfs-plugin-hellofs/src/fs/mod.rs 113-115 HelloFS::touch *)
Definition touch now p : FsOp HelloFS () := fail ReadOnly.

#[global] Instance hellofs_filesystem : FileSystem HelloFS := {
  fs_read := read; fs_stat := stat; fs_create := create; fs_write := write;
  fs_mkdir := mkdir; fs_read_dir := read_dir; fs_remove := remove;
  fs_remove_all := remove_all; fs_rename := rename; fs_chmod := chmod;
  fs_truncate := default_truncate; fs_touch := touch; fs_readlink := default_readlink;
  fs_symlink := default_symlink; fs_get_xattr := default_get_xattr;
  fs_set_xattr := default_set_xattr; fs_remove_xattr := default_remove_xattr;
  fs_list_xattr := default_list_xattr
}.
End Ops.

(** Nothing a client calls changes the filesystem: every call of the trait,
    whatever it answers, leaves the state as it was, and every call that is
    meant to change something is refused. *)
Theorem hellofs_read_only `{BuildProfile} now c (s : HelloFS) :
  snd (run_call now c s) = s /\
  match c with
  | CRead _ _ _ | CStat _ | CReadDir _ => True
  | _ => exists e, fst (run_call now c s) = Err e
  end.
Proof.
  destruct c; simpl; unfold fmap, M_fmap, read, stat, get_entry; munfold; try (split; [done|by eexists]);
    repeat case_match; simplify_eq; done.
Qed.
