(* ===== verification/HeartbeatFS.v ===== *)
(** * HeartbeatFS: the health backend ([crates/racfs-plugin-heartbeatfs])

    The readings of the wall clock and of the monotonic clock are both taken
    from the readings of the call; the text of a timestamp is chrono's and is a
    parameter. *)

From S2P Require Import Prelude Text RPath FsError Metadata Flags FileSystem.
From Stdlib Require Strings.String.

(* src: crates/racfs-plugin-heartbeatfs/src/fs/mod.rs 46-52 HealthStatus *)
Inductive HealthStatus := HealthOk | HealthError.

(* src: crates/racfs-plugin-heartbeatfs/src/fs/mod.rs 32-44 HeartbeatState *)
Record HeartbeatState := {
  start_time : Z;
  beats : Z;
  last_beat : DateTime;
  status : HealthStatus;
  files : list (Path * bytes)
}.

(** [elapsed().as_secs()], from nanoseconds. *)
Definition elapsed_secs (start t : Z) : Z := Z.max 0 (t - start) / 10 ^ 9.

Section Ops.
Context `{BuildProfile} (to_rfc3339 : DateTime -> string).
Implicit Types (now : Now) (p : Path).

(* src: crates/racfs-plugin-heartbeatfs/src/fs/mod.rs 56-65 HeartbeatState::new *)
Definition state_new now : HeartbeatState :=
  {| start_time := now 1%nat; beats := 0; last_beat := now 0%nat; status := HealthOk; files := [] |}.

(* src: crates/racfs-plugin-heartbeatfs/src/fs/mod.rs 68-91 HeartbeatState::refresh_files *)
Definition refresh_files now (s : HeartbeatState) : HeartbeatState :=
  {| start_time := start_time s; beats := beats s; last_beat := last_beat s; status := status s;
     files :=
       [("/status"%string, as_bytes (match status s with HealthOk => "ok" | HealthError => "error" end));
        ("/uptime"%string, as_bytes (to_string (elapsed_secs (start_time s) (now 0%nat))));
        ("/beats"%string, as_bytes (to_string (beats s)));
        ("/last_beat"%string, as_bytes (to_rfc3339 (last_beat s)))] |}.

(* src: crates/racfs-plugin-heartbeatfs/src/fs/mod.rs 94-99 HeartbeatState::heartbeat *)
Definition heartbeat now : M HeartbeatState FSError () :=
  s ← get;
  n ← lift (u64_add (beats s) 1);
  put (refresh_files (now_from 1 now)
         {| start_time := start_time s; beats := n; last_beat := now 0%nat; status := HealthOk;
            files := files s |}).

(* src: crates/racfs-plugin-heartbeatfs/src/fs/mod.rs 104-110 HeartbeatFS::new *)
Definition new now : HeartbeatState := refresh_files (now_from 2 now) (state_new now).

(* src: crates/racfs-plugin-heartbeatfs/src/fs/mod.rs 113-123 HeartbeatFS::get_entry *)
Definition get_entry p : FsOp HeartbeatState bytes :=
  s ← get; lift (ok_or (snd <$> List.find (fun e => path_eqb (fst e) p) (files s)) (NotFound p)).

(* src: crates/racfs-plugin-heartbeatfs/src/fs/mod.rs 127-136 HeartbeatFS::is_valid_path *)
Definition is_valid_path p : bool :=
  (String.eqb p "/status" || String.eqb p "/uptime" || String.eqb p "/beats"
   || String.eqb p "/last_beat" || String.eqb p "/pulse")%bool.

(* src: crates/racfs-plugin-heartbeatfs/src/fs/read.rs 10-31 HeartbeatFS::read *)
Definition read now p (offset size : Z) : FsOp HeartbeatState bytes :=
  fail_if (negb (is_valid_path p)) (NotFound p) ;;
  data ← get_entry p;
  lift (read_range data offset size).

(* src: crates/racfs-plugin-heartbeatfs/src/fs/read.rs 33-46 HeartbeatFS::stat *)
Definition stat now p : FsOp HeartbeatState FileMetadata :=
  if path_eqb p "/" then mret (directory now "/")
  else
    fail_if (negb (is_valid_path p)) (NotFound p) ;;
    data ← get_entry p;
    mret (file now p (len data)).

(* src: crates/racfs-plugin-heartbeatfs/src/fs/write.rs 10-12 HeartbeatFS::create *)
Definition create now p : FsOp HeartbeatState () := fail ReadOnly.

(* src: crates/racfs-plugin-heartbeatfs/src/fs/write.rs 14-45 HeartbeatFS::write *)
Definition write now p (content : bytes) (offset flags : Z) : FsOp HeartbeatState Z :=
  fail_if (negb (path_eqb p "/pulse")) ReadOnly ;;
  fail_if (negb (offset =? 0)) (InvalidInput "offset must be 0") ;;
  text ← lift (ok_or (from_utf8 content) (InvalidInput "invalid UTF-8"));
  fail_if (negb (String.eqb (trim text) "beat")) (InvalidInput "must write 'beat' to /pulse") ;;
  heartbeat now ;;
  mret (len content).

(* src: crates/racfs-plugin-heartbeatfs/src/fs/chmod.rs 10-12 HeartbeatFS::chmod *)
Definition chmod now p (mode : Z) : FsOp HeartbeatState () := fail ReadOnly.
(* src: crates/racfs-plugin-heartbeatfs/src/fs/dir.rs 10-12 HeartbeatFS::mkdir *)
Definition mkdir now p (perm : Z) : FsOp HeartbeatState () := fail ReadOnly.

(* src: crates/racfs-plugin-heartbeatfs/src/fs/dir.rs 14-28 HeartbeatFS::read_dir *)
Definition read_dir now p : FsOp HeartbeatState (list FileMetadata) :=
  fail_if (negb (path_eqb p "/")) (NotFound p) ;;
  mret [file now "/status" 2; file (now_from 3 now) "/uptime" 8; file (now_from 6 now) "/beats" 8;
        file (now_from 9 now) "/last_beat" 32; file (now_from 12 now) "/pulse" 0].

(* src: crates/racfs-plugin-heartbeatfs/src/fs/dir.rs 30-32 HeartbeatFS::remove *)
Definition remove now p : FsOp HeartbeatState () := fail ReadOnly.
(* src: crates/racfs-plugin-heartbeatfs/src/fs/dir.rs 34-36 HeartbeatFS::remove_all *)
Definition remove_all now p : FsOp HeartbeatState () := fail ReadOnly.
(* src: crates/racfs-plugin-heartbeatfs/src/fs/dir.rs 38-40 HeartbeatFS::rename *)
Definition rename now (old new : Path) : FsOp HeartbeatState () := fail ReadOnly.
(* src: crates/racfs-plugin-heartbeatfs/src/fs/mod.rs 147-149 HeartbeatFS::truncate *)
Definition truncate now p (n : Z) : FsOp HeartbeatState () := fail ReadOnly.
(* src: crates/racfs-plugin-heartbeatfs/src/fs/mod.rs 151-153 HeartbeatFS::touch *)
Definition touch now p : FsOp HeartbeatState () := fail ReadOnly.

Definition heartbeatfs_filesystem : FileSystem HeartbeatState := {|
  fs_read := read; fs_stat := stat; fs_create := create; fs_write := write;
  fs_mkdir := mkdir; fs_read_dir := read_dir; fs_remove := remove;
  fs_remove_all := remove_all; fs_rename := rename; fs_chmod := chmod;
  fs_truncate := truncate; fs_touch := touch; fs_readlink := default_readlink;
  fs_symlink := default_symlink; fs_get_xattr := default_get_xattr;
  fs_set_xattr := default_set_xattr; fs_remove_xattr := default_remove_xattr;
  fs_list_xattr := default_list_xattr
|}.
End Ops.

Section Properties.
Context `{BuildProfile} (to_rfc3339 : DateTime -> string).

(** The files are those of the last refresh, at some reading of the clock. *)
Definition refreshed (s : HeartbeatState) : Prop :=
  exists now, s = refresh_files to_rfc3339 now s.

(** Between two heartbeats every file is frozen, [/uptime] too: whatever
    the clock says when it is read, [read] returns the text of the last
    refresh; a heartbeat is what advances the count and the files. *)
Theorem heartbeatfs_frozen now now' s n :
  refreshed s -> 0 <= beats s < u64_max -> as_bytes "beat" = n ->
  (forall p o k, read now p o k s = read now' p o k s) /\
  fst (read now "/beats" 0 (-1) s) = Ok (as_bytes (to_string (beats s))) /\
  let s' := snd (write to_rfc3339 now' "/pulse" n 0 0 s) in
  fst (write to_rfc3339 now' "/pulse" n 0 0 s) = Ok 4 /\
  fst (read now "/beats" 0 (-1) s') = Ok (as_bytes (to_string (beats s + 1))) /\
  fst (read now "/uptime" 0 (-1) s') = Ok (as_bytes (to_string (elapsed_secs (start_time s) (now' 1%nat)))) /\
  refreshed s'.
Proof.
  intros [now0 Hs] Hb <-. split; [done|].
  assert (Hlen : forall z, len (as_bytes (to_string z)) <= i64_max).
  { intros z. rewrite len_as_bytes. unfold str_len, to_string.
    assert (Hf : forall f m acc, (String.length (fmt_radix f 10 m acc) <= f + String.length acc)%nat).
    { induction f as [|f IH]; intros m acc; simpl; [lia|]. destruct (m <? 10); simpl; [lia|].
      specialize (IH (m / 10) (String (digit (m mod 10)) acc)). simpl in IH. lia. }
    specialize (Hf 20%nat z ""%string). simpl String.length in Hf at 2. unfold i64_max. lia. }
  assert (Hget : forall t now1, fst (read now1 "/beats" 0 (-1) (refresh_files to_rfc3339 now0 t))
                              = Ok (as_bytes (to_string (beats t)))).
  { intros t now1. unfold read, get_entry. munfold. by apply read_range_all. }
  split; [specialize (Hget s now); by rewrite <- Hs in Hget|].
  unfold write. munfold. unfold heartbeat. munfold.
  rewrite unsigned_add_ok by lia. munfold. split; [done|].
  split; [unfold read, get_entry; munfold; by apply read_range_all|].
  split; [unfold read, get_entry; munfold; by apply read_range_all|].
  by eexists.
Qed.

(** The listing of the root names a file that cannot be looked up:
    [/pulse] is listed, and [stat] of it is always [NotFound]. *)
Theorem heartbeatfs_pulse_not_found now s :
  refreshed s ->
  (exists l, fst (read_dir now "/" s) = Ok l /\ "/pulse"%string ∈ path <$> l) /\
  fst (stat now "/pulse" s) = Err (NotFound "/pulse").
Proof.
  intros [now0 ->]. split; [|done]. eexists. split; [reflexivity|]. simpl. set_solver.
Qed.
End Properties.

Definition demo : HeartbeatState := new (fun _ => ""%string) (fun _ => 0).

Lemma demo_refreshed : refreshed (fun _ => ""%string) demo.
Proof. exists (fun _ => 0). reflexivity. Qed.

Lemma heartbeatfs_frozen_witness :
  fst (@write debug_profile (fun _ => ""%string) (fun _ => 0) "/pulse" (as_bytes "beat") 0 0 demo) = Ok 4.
Proof.
  apply (@heartbeatfs_frozen debug_profile (fun _ => ""%string) (fun _ => 0) (fun _ => 0) demo
           (as_bytes "beat") demo_refreshed ltac:(vm_compute; split; congruence) eq_refl).
Defined.

Lemma heartbeatfs_pulse_not_found_witness :
  fst (stat (fun _ => 0) "/pulse" demo) = Err (NotFound "/pulse").
Proof. apply (heartbeatfs_pulse_not_found _ (fun _ => 0) demo demo_refreshed). Defined.
