(* ===== verification/ServerInfoFS.v ===== *)
(** * ServerInfoFS: the server information backend
    ([crates/racfs-plugin-serverinfofs])

    The host name and the number of cores come from third-party libraries and
    are parameters. *)

From S2P Require Import Prelude Text RPath FsError Metadata Flags FileSystem.
From Stdlib Require Strings.String.

(* src: crates/racfs-plugin-serverinfofs/src/fs/mod.rs 38-47 ServerInfoEntry *)
Record ServerInfoEntry := { epath : Path; content : bytes; metadata : FileMetadata }.

(* src: crates/racfs-plugin-serverinfofs/src/fs/mod.rs 31-36 ServerInfoFS *)
Record ServerInfoFS := { entries : list ServerInfoEntry; start_time : Z }.

(* src: crates/racfs-plugin-serverinfofs/src/fs/mod.rs 51-58 ServerInfoEntry::file *)
Definition entry_file (now : Now) (p : Path) (c : bytes) : ServerInfoEntry :=
  {| epath := p; content := c; metadata := file now p (len c) |}.

Definition entry_dir (now : Now) (p : Path) : ServerInfoEntry :=
  {| epath := p; content := []; metadata := directory now p |}.

(* src: crates/racfs-plugin-serverinfofs/src/fs/mod.rs 139-141 ServerInfoFS::get_uptime *)
Definition get_uptime (start t : Z) : string := to_string (Z.max 0 (t - start) / 10 ^ 9).

(** The clocks are read in the order of the entries: [now 0] at the creation,
    then three readings per entry, with the reading for the uptime first. *)
(* src: crates/racfs-plugin-serverinfofs/src/fs/mod.rs 73-136 ServerInfoFS::initialize_entries *)
Definition initialize_entries (hostname : string) (num_cpus : Z) (start : Z) (now : Now)
  : list ServerInfoEntry :=
  let at_ k := now_from k now in
  [entry_dir (at_ 0) "/"; entry_file (at_ 3) "/version" (as_bytes "0.1.0");
   entry_file (at_ 7) "/uptime" (as_bytes (get_uptime start (now 6)));
   entry_file (at_ 10) "/hostname" (as_bytes hostname);
   entry_dir (at_ 13) "/memory";
   entry_file (at_ 16) "/memory/total" (as_bytes "8589934592");
   entry_file (at_ 19) "/memory/used" (as_bytes "4294967296");
   entry_file (at_ 22) "/memory/available" (as_bytes "4294967296");
   entry_dir (at_ 25) "/cpu";
   entry_file (at_ 28) "/cpu/count" (as_bytes (to_string num_cpus));
   entry_file (at_ 31) "/cpu/load_avg" (as_bytes "0.50 0.40 0.30");
   entry_dir (at_ 34) "/plugins";
   entry_file (at_ 37) "/plugins/list" (as_bytes "hellofs,heartbeatfs,serverinfofs")]%nat.

(** [hostname] is the name of the host, or the text "unknown". *)
(* src: crates/racfs-plugin-serverinfofs/src/fs/mod.rs 63-70 ServerInfoFS::new *)
Definition new (hostname : string) (num_cpus : Z) (now : Now) : ServerInfoFS :=
  {| entries := initialize_entries hostname num_cpus (now 0%nat) (now_from 1 now);
     start_time := now 0%nat |}.

(** Change the first entry that satisfies [f]. *)
Fixpoint update_first {A} (f : A -> bool) (g : A -> A) (l : list A) : list A :=
  match l with
  | [] => []
  | x :: l' => if f x then g x :: l' else x :: update_first f g l'
  end.

(* src: crates/racfs-plugin-serverinfofs/src/fs/mod.rs 151-158 ServerInfoFS::update *)
Definition update (now : Now) (s : ServerInfoFS) : ServerInfoFS :=
  {| entries := update_first (fun e => path_eqb (epath e) "/uptime")
       (fun e => let c := as_bytes (get_uptime (start_time s) (now 0%nat)) in
                 {| epath := epath e; content := c;
                    metadata := set_modified (Some (now 1%nat)) (set_size (len c) (metadata e)) |})
       (entries s);
     start_time := start_time s |}.

(* src: crates/racfs-plugin-serverinfofs/src/fs/mod.rs 161-170 ServerInfoFS::get_entry *)
Definition get_entry (p : Path) : FsOp ServerInfoFS ServerInfoEntry :=
  s ← get; lift (ok_or (List.find (fun e => path_eqb (epath e) p) (entries s)) (NotFound p)).

Section Ops.
Context `{BuildProfile}.
Implicit Types (now : Now) (p : Path).

(* src: crates/racfs-plugin-serverinfofs/src/fs/read.rs 10-32 ServerInfoFS::read *)
Definition read now p (offset size : Z) : FsOp ServerInfoFS bytes :=
  entry ← get_entry p;
  if is_directory (metadata entry) then fail (IsDirectory p)
  else lift (read_range (content entry) offset size).

(* src: crates/racfs-plugin-serverinfofs/src/fs/read.rs 34-37 ServerInfoFS::stat *)
Definition stat now p : FsOp ServerInfoFS FileMetadata := entry ← get_entry p; mret (metadata entry).

(* src: crates/racfs-plugin-serverinfofs/src/fs/write.rs 10-14 ServerInfoFS::create *)
Definition create now p : FsOp ServerInfoFS () := fail (PermissionDenied p).
(* src: crates/racfs-plugin-serverinfofs/src/fs/write.rs 16-26 ServerInfoFS::write *)
Definition write now p (c : bytes) (offset flags : Z) : FsOp ServerInfoFS Z := fail (PermissionDenied p).
(* src: crates/racfs-plugin-serverinfofs/src/fs/chmod.rs 10-14 ServerInfoFS::chmod *)
Definition chmod now p (mode : Z) : FsOp ServerInfoFS () := fail (PermissionDenied p).
(* src: crates/racfs-plugin-serverinfofs/src/fs/dir.rs 10-14 ServerInfoFS::mkdir *)
Definition mkdir now p (perm : Z) : FsOp ServerInfoFS () := fail (PermissionDenied p).

(** Unlike the other listings, the entries keep their own paths. *)
Definition dir_item (prefix : string) (e : ServerInfoEntry) : option FileMetadata :=
  (fun _ => set_path (epath e) (metadata e)) <$> direct_child prefix (epath e).

(* src: crates/racfs-plugin-serverinfofs/src/fs/dir.rs 16-59 ServerInfoFS::read_dir *)
Definition read_dir now p : FsOp ServerInfoFS (list FileMetadata) :=
  s ← get; mret (omap (dir_item (dir_prefix p)) (entries s)).

(* src: crates/racfs-plugin-serverinfofs/src/fs/dir.rs 61-65 ServerInfoFS::remove *)
Definition remove now p : FsOp ServerInfoFS () := fail (PermissionDenied p).
(* src: crates/racfs-plugin-serverinfofs/src/fs/dir.rs 67-71 ServerInfoFS::remove_all *)
Definition remove_all now p : FsOp ServerInfoFS () := fail (PermissionDenied p).
(* src: crates/racfs-plugin-serverinfofs/src/fs/dir.rs 73-77 ServerInfoFS::rename *)
Definition rename now (old new : Path) : FsOp ServerInfoFS () := fail (PermissionDenied old).
(* src: crates/racfs-plugin-serverinfofs/src/fs/mod.rs 186-190 ServerInfoFS::truncate *)
Definition truncate now p (n : Z) : FsOp ServerInfoFS () := fail (PermissionDenied p).
(* src: crates/racfs-plugin-serverinfofs/src/fs/mod.rs 192-196 ServerInfoFS::touch *)
Definition touch now p : FsOp ServerInfoFS () := fail (PermissionDenied p).

#[global] Instance serverinfofs_filesystem : FileSystem ServerInfoFS := {
  fs_read := read; fs_stat := stat; fs_create := create; fs_write := write;
  fs_mkdir := mkdir; fs_read_dir := read_dir; fs_remove := remove;
  fs_remove_all := remove_all; fs_rename := rename; fs_chmod := chmod;
  fs_truncate := truncate; fs_touch := touch; fs_readlink := default_readlink;
  fs_symlink := default_symlink; fs_get_xattr := default_get_xattr;
  fs_set_xattr := default_set_xattr; fs_remove_xattr := default_remove_xattr;
  fs_list_xattr := default_list_xattr
}.
End Ops.

(** The paths of a listing. *)
Definition listed (r : Res (list FileMetadata)) : list Path :=
  match r with Ok l => map path l | _ => [] end.

(** What the root and [/memory] list. *)
Example serverinfofs_listing :
  listed (fst (read_dir (fun _ => 0) "/" (new "h" 4 (fun _ => 0))))
  = ["/version"; "/uptime"; "/hostname"; "/memory"; "/cpu"; "/plugins"]%string
  /\ listed (fst (read_dir (fun _ => 0) "/memory" (new "h" 4 (fun _ => 0))))
  = ["/memory/total"; "/memory/used"; "/memory/available"]%string.
Proof. split; vm_compute; reflexivity. Qed.
