(* ===== verification/DevFS.v ===== *)
(** * DevFS: the device backend ([crates/racfs-plugin-devfs]) *)

From S2P Require Import Prelude Text RPath FsError Metadata Flags FileSystem.
From Stdlib Require Import Strings.Byte.
From Stdlib Require Strings.String.

(* src: crates/racfs-plugin-devfs/src/fs/mod.rs 21-32 DeviceType *)
Inductive DeviceType := Null | Zero | Random | URandom.

#[global] Instance DeviceType_eq_dec : EqDecision DeviceType.
Proof. solve_decision. Defined.

(* src: crates/racfs-plugin-devfs/src/fs/mod.rs 34-37 DevFS *)
Definition DevFS : Type := PathMap DeviceType.

(* src: crates/racfs-plugin-devfs/src/fs/mod.rs 60-64 DevFS::register_device *)
Definition register_device (p : Path) (t : DeviceType) : FsOp DevFS () :=
  modify (fun s => pm_insert p t s).

(* src: crates/racfs-plugin-devfs/src/fs/mod.rs 41-57 DevFS::new *)
Definition new : DevFS :=
  exec (register_device "/dev/null" Null ;; register_device "/dev/zero" Zero ;;
        register_device "/dev/random" Random ;; register_device "/dev/urandom" URandom) ∅.

(* src: crates/racfs-plugin-devfs/src/fs/mod.rs 66-69 DevFS::get_device *)
Definition get_device (p : Path) (s : DevFS) : option DeviceType := pm_get p s.

(* src: crates/racfs-plugin-devfs/src/fs/mod.rs 71-75 DevFS::create_device_metadata *)
Definition create_device_metadata (p : Path) (t : DeviceType) : FileMetadata :=
  set_size 0 (Metadata.new p (Z.lor S_IFCHR (octal 666))).

(** The generator of the random devices: a linear congruential step on [u64],
    and the byte taken from it. *)
Definition lcg_step (seed : Z) : Z := u64_wrap (u64_wrap (seed * 1103515245) + 12345).

Definition byte_of_Z (z : Z) : u8 := default Byte.x00 (Byte.of_N (Z.to_N (z mod 256))).

Definition lcg_byte (seed : Z) : u8 := byte_of_Z (Z.shiftr seed 16).

Fixpoint lcg_bytes (n : nat) (seed : Z) : bytes :=
  match n with
  | O => []
  | S k => let seed' := lcg_step seed in lcg_byte seed' :: lcg_bytes k seed'
  end.

Section Ops.
Implicit Types (now : Now) (p : Path).

(** [duration_since(UNIX_EPOCH)] fails before the epoch, and the default is 0. *)
(* src: crates/racfs-plugin-devfs/src/fs/read.rs 10-43 DevFS::read *)
Definition read now p (offset size : Z) : FsOp DevFS bytes :=
  s ← get;
  device_type ← lift (ok_or (get_device p s) (NotFound p));
  let n := Z.to_nat (if size <? 0 then 4096 else i64_as_usize size) in
  mret (match device_type with
        | Null => []
        | Zero => replicate n Byte.x00
        | Random | URandom => lcg_bytes n (u64_wrap (Z.max 0 (now 0%nat)))
        end).

(* src: crates/racfs-plugin-devfs/src/fs/read.rs 45-51 DevFS::stat *)
Definition stat now p : FsOp DevFS FileMetadata :=
  s ← get;
  device_type ← lift (ok_or (get_device p s) (NotFound p));
  mret (create_device_metadata p device_type).

(* src: crates/racfs-plugin-devfs/src/fs/write.rs 10-15 DevFS::create *)
Definition create now p : FsOp DevFS () := fail (NotSupported "cannot create device files manually").

(* src: crates/racfs-plugin-devfs/src/fs/write.rs 17-37 DevFS::write *)
Definition write now p (content : bytes) (offset flags : Z) : FsOp DevFS Z :=
  s ← get;
  device_type ← lift (ok_or (get_device p s) (NotFound p));
  mret (match device_type with
        | Null => len content
        | Zero | Random | URandom => len content
        end).

(* src: crates/racfs-plugin-devfs/src/fs/chmod.rs 10-18 DevFS::chmod *)
Definition chmod now p (mode : Z) : FsOp DevFS () :=
  s ← get; lift (ok_or (get_device p s) (NotFound p)) ;; mret ().

(* src: crates/racfs-plugin-devfs/src/fs/dir.rs 10-14 DevFS::mkdir *)
Definition mkdir now p (perm : Z) : FsOp DevFS () :=
  fail (NotSupported "cannot create directories in devfs").

(* src: crates/racfs-plugin-devfs/src/fs/dir.rs 16-30 DevFS::read_dir *)
Definition read_dir now p : FsOp DevFS (list FileMetadata) :=
  fail_if (negb (path_eqb p "/") && negb (path_eqb p "")) (NotADirectory p) ;;
  s ← get;
  mret (map (fun '(k, t) => create_device_metadata k t) (pm_entries s)).

(* src: crates/racfs-plugin-devfs/src/fs/dir.rs 32-40 DevFS::remove *)
Definition remove now p : FsOp DevFS () :=
  s ← get;
  put (pm_remove p s) ;;
  lift (ok_or (pm_get p s) (NotFound p)) ;;
  mret ().

(* src: crates/racfs-plugin-devfs/src/fs/dir.rs 42-44 DevFS::remove_all *)
Definition remove_all now p : FsOp DevFS () := remove now p.

(* src: crates/racfs-plugin-devfs/src/fs/dir.rs 46-50 DevFS::rename *)
Definition rename now (old new : Path) : FsOp DevFS () := fail (NotSupported "cannot rename device files").

#[global] Instance devfs_filesystem : FileSystem DevFS := {
  fs_read := read; fs_stat := stat; fs_create := create; fs_write := write;
  fs_mkdir := mkdir; fs_read_dir := read_dir; fs_remove := remove;
  fs_remove_all := remove_all; fs_rename := rename; fs_chmod := chmod;
  fs_truncate := default_truncate; fs_touch := default_touch; fs_readlink := default_readlink;
  fs_symlink := default_symlink; fs_get_xattr := default_get_xattr;
  fs_set_xattr := default_set_xattr; fs_remove_xattr := default_remove_xattr;
  fs_list_xattr := default_list_xattr
}.
End Ops.

(** ** The period of the generator

    A step is the affine map [x -> 1103515245 x + 12345]; only the low 24 bits
    of the seed decide the byte and the low 24 bits of the next seed.  The maps
    compose, so the map of [2 ^ k] steps is found by squaring [k] times. *)

(** Doubling an affine map on 24 bits. *)
Definition affine_double (ac : Z * Z) : Z * Z :=
  let '(a, c) := ac in ((a * a) mod 2 ^ 24, (a * c + c) mod 2 ^ 24).

Definition affine_pow (k : nat) : Z * Z := Nat.iter k affine_double (1103515245 mod 2 ^ 24, 12345).

Lemma lcg_step_low x : lcg_step x mod 2 ^ 24 = (1103515245 * (x mod 2 ^ 24) + 12345) mod 2 ^ 24.
Proof.
  unfold lcg_step, u64_wrap.
  assert (Hd : forall z, z mod 2 ^ 64 mod 2 ^ 24 = z mod 2 ^ 24).
  { intros z. change (2 ^ 64) with (2 ^ 24 * 2 ^ 40). rewrite Z.rem_mul_r by lia.
    rewrite (Z.mul_comm (2 ^ 24)), Z.mod_add by lia. apply Z.mod_mod. lia. }
  rewrite Hd, Z.add_mod, Hd by lia.
  rewrite (Z.mul_comm x), (Z.mul_mod 1103515245 x) by lia.
  symmetry. rewrite Z.add_mod, (Z.mul_mod 1103515245 (x mod 2 ^ 24)), Z.mod_mod by lia.
  done.
Qed.

Lemma lcg_iter_low k x :
  Nat.iter (2 ^ k) lcg_step x mod 2 ^ 24
  = (fst (affine_pow k) * (x mod 2 ^ 24) + snd (affine_pow k)) mod 2 ^ 24.
Proof.
  revert x. induction k as [|k IH]; intros x.
  - change (Nat.iter (2 ^ 0) lcg_step x) with (lcg_step x). rewrite lcg_step_low.
    change (fst (affine_pow 0)) with (1103515245 mod 2 ^ 24). change (snd (affine_pow 0)) with 12345.
    rewrite Z.add_mod by lia. rewrite Z.mul_mod by lia. rewrite Z.mod_mod by lia.
    symmetry. rewrite Z.add_mod, (Z.mul_mod (1103515245 mod 2 ^ 24)), !Z.mod_mod by lia. done.
  - replace (2 ^ S k)%nat with (2 ^ k + 2 ^ k)%nat by (simpl; lia).
    rewrite Nat.iter_add, IH, IH.
    change (affine_pow (S k)) with (affine_double (affine_pow k)).
    destruct (affine_pow k) as [a c]. simpl fst. simpl snd.
    set (y := x mod 2 ^ 24). set (m := 2 ^ 24).
    assert (m <> 0) by (subst m; lia).
    rewrite (Z.add_mod (a * _) c), (Z.mul_mod a ((a * y + c) mod m)), Z.mod_mod by done.
    rewrite <- Z.mul_mod, <- Z.add_mod by done.
    rewrite (Z.add_mod (_ * y)), (Z.mul_mod ((a * a) mod m) y), !Z.mod_mod by done.
    rewrite <- Z.mul_mod, <- Z.add_mod by done. f_equal. ring.
Qed.

Lemma lcg_byte_low x y : x mod 2 ^ 24 = y mod 2 ^ 24 -> lcg_byte x = lcg_byte y.
Proof.
  intros Hxy. unfold lcg_byte, byte_of_Z. rewrite !Z.shiftr_div_pow2 by lia.
  assert (Hm : forall z, (z / 2 ^ 16) mod 256 = (z mod 2 ^ 24) / 2 ^ 16).
  { intros z. change (2 ^ 24) with (2 ^ 16 * 256). rewrite Z.rem_mul_r by lia.
    rewrite (Z.add_comm (z mod 2 ^ 16)), (Z.mul_comm (2 ^ 16)), Z.div_add_l by lia.
    rewrite (Z.div_small (z mod 2 ^ 16)) by (apply Z.mod_pos_bound; lia). lia. }
  by rewrite !Hm, Hxy.
Qed.

Lemma lcg_bytes_lookup n x i :
  lcg_bytes n x !! i = if decide (i < n)%nat then Some (lcg_byte (Nat.iter (S i) lcg_step x)) else None.
Proof.
  revert x i. induction n as [|n IH]; intros x i; [by destruct i|]. destruct i as [|i].
  - done.
  - cbn [lcg_bytes lookup list_lookup]. change (list_lookup i ?l) with (l !! i). rewrite IH.
    rewrite <- Nat.iter_succ_r. case_decide; case_decide; done || lia.
Qed.

(** [2 ^ 24], and as many steps are the identity on the low bits. *)
Definition period : nat := Z.to_nat (2 ^ 24).

Lemma lcg_iter_period x : Nat.iter period lcg_step x mod 2 ^ 24 = x mod 2 ^ 24.
Proof.
  assert (Hp : exists k, affine_pow k = (1, 0) /\ period = (2 ^ k)%nat).
  { exists 24%nat. split; [vm_compute; reflexivity|]. unfold period. apply Nat2Z.inj.
    rewrite Nat2Z.inj_pow, Z2Nat.id by lia. reflexivity. }
  destruct Hp as (k & Hk & ->). rewrite lcg_iter_low, Hk. cbn [fst snd].
  rewrite Z.mul_1_l, Z.add_0_r. apply Z.mod_mod. lia.
Qed.

(** What [/dev/random] and [/dev/urandom] return is decided by the clock
    reading of the call, has the length that was asked for, and repeats after
    [2 ^ 24] bytes. *)
Theorem devfs_random_period now p offset size s t :
  pm_get p s = Some t -> (t = Random \/ t = URandom) -> 0 <= size <= i64_max ->
  exists out, read now p offset size s = (Ok out, s) /\
    len out = size /\
    forall i, Z.of_nat (i + period) < size -> out !! (i + period)%nat = out !! i.
Proof.
  intros Hp Ht Hs. exists (lcg_bytes (Z.to_nat size) (u64_wrap (Z.max 0 (now 0%nat)))).
  unfold read, get_device. munfold. rewrite Hp. simpl.
  destruct (Z.ltb_spec size 0); [lia|]. rewrite i64_as_usize_nonneg by lia.
  split; [by destruct Ht as [-> | ->]|]. split.
  - unfold len. assert (Hl : forall n x, length (lcg_bytes n x) = n)
      by (induction n as [|n IH]; intros x; simpl; [done|by rewrite IH]).
    rewrite Hl. lia.
  - intros i Hi. rewrite !lcg_bytes_lookup, !decide_True by lia. f_equal. apply lcg_byte_low.
    replace (S (i + period))%nat with (period + S i)%nat by lia.
    rewrite Nat.iter_add. apply lcg_iter_period.
Qed.

Lemma devfs_random_period_witness :
  exists out, read (fun _ => 12345) "/dev/random" 7 4 new = (Ok out, new) /\ len out = 4.
Proof.
  destruct (devfs_random_period (fun _ => 12345) "/dev/random" 7 4 new Random) as (out & H1 & H2 & _).
  - reflexivity.
  - by left.
  - vm_compute. split; congruence.
  - exists out. split; [exact H1|exact H2].
Defined.
