(* ===== verification/LocalFS.v ===== *)
(** * LocalFS: a directory of the disk ([crates/racfs-plugin-localfs])

    A call resolves its path below the root and asks [std::fs], which is a class
    over the state [W] of the disk; a panic of the closure that runs on the
    thread pool comes back as an error, whose text is a parameter.  The platform
    is a Unix. *)

From S2P Require Import Prelude Text RPath FsError Metadata Flags FileSystem AbsPath.
From Stdlib Require Strings.String.

(** ** The disk *)

(** [std::io::Error]: whether its kind is [NotFound], and its text. *)
Record IoError := { is_not_found : bool; io_text : string }.

(** [std::fs::Metadata]; a time may not be available. *)
Record Attr := {
  attr_is_dir : bool;
  attr_is_symlink : bool;
  attr_len : Z;
  attr_created : option DateTime;
  attr_modified : option DateTime;
  attr_accessed : option DateTime
}.

(** [FD] is the type of open files.  The entries of a directory are those of the
    iterator, where an entry or its metadata may fail; [open_write create append]
    are options of [OpenOptions] besides [write]. *)
Class StdFs (FD W : Type) := {
  std_metadata : Path -> M W IoError Attr;
  std_read_dir : Path -> M W IoError (list (option (Path * option Attr)));
  create_dir_all : Path -> M W IoError ();
  remove_dir : Path -> M W IoError ();
  remove_file : Path -> M W IoError ();
  remove_dir_all : Path -> M W IoError ();
  std_rename : Path -> Path -> M W IoError ();
  set_permissions : Path -> Z -> M W IoError ();
  open_read : Path -> M W IoError FD;
  open_write : bool -> bool -> Path -> M W IoError FD;
  file_create : Path -> M W IoError FD;
  file_seek : FD -> Z -> M W IoError ();
  file_read : FD -> Z -> M W IoError bytes;
  file_write : FD -> bytes -> M W IoError Z;
  file_set_len : FD -> Z -> M W IoError ()
}.

(* src: crates/racfs-plugin-localfs/src/fs/mod.rs 14-16 LocalFS *)
Record LocalFS (W : Type) := { root : Path; disk : W }.
Arguments root {W}.
Arguments disk {W}.

(* src: crates/racfs-plugin-localfs/src/fs/mod.rs 20-22 LocalFS::new *)
Definition new {W} (r : Path) (w : W) : LocalFS W := {| root := r; disk := w |}.

(** ** Resolving *)

Definition under (r p : Path) : bool := path_starts_with p r.

(** The loop over the components: [normalized] is what was pushed so far. *)
Fixpoint normalize (r p : Path) (cs : list Component) (normalized : Path) : Res Path :=
  match cs with
  | [] => Ok normalized
  | ParentDir :: cs =>
    if negb (under r normalized) then Err (PermissionDenied p)
    else normalize r p cs (match parent normalized with Some q => q | None => join normalized (component_str ParentDir) end)
  | c :: cs => normalize r p cs (join normalized (component_str c))
  end.

(* src: crates/racfs-plugin-localfs/src/fs/mod.rs 30-68 LocalFS::resolve *)
Definition resolve (r p : Path) : Res Path :=
  let relative := default p (path_strip_prefix p "/") in
  normalized ← normalize r p (components (join r relative)) "";
  if negb (under r normalized) then Err (PermissionDenied p) else Ok normalized.

(** ** The calls *)

Section Ops.
Context {FD W : Type} `{StdFs FD W} (join_error : string).
Implicit Types (now : Now) (p : Path) (s : LocalFS W).
Abbreviation Op := (FsOp (LocalFS W)).
Abbreviation Io_op := (M W FSError).

(** [.map_err(|e| FSError::Io { message: e.to_string() })?] *)
Definition io {A} (m : M W IoError A) : Io_op A := fun w => (map_err (fun e => Io (io_text e)) (fst (m w)), snd (m w)).

(** The same, with an answer of its own when nothing is there. *)
Definition io_or_not_found {A} p (m : M W IoError A) : Io_op A := fun w =>
  (map_err (fun e => if is_not_found e then NotFound p else Io (io_text e)) (fst (m w)), snd (m w)).

(** [Path::exists]: the metadata can be read. *)
Definition path_exists p : Io_op bool := fun w =>
  (Ok (is_ok (fst (std_metadata p w))), snd (std_metadata p w)).

(** [spawn_blocking(closure).await.map_err(..)?] *)
Definition blocking {A} (m : Io_op A) : Op A := fun s =>
  (match fst (m (disk s)) with
   | Panic => Err (Io ("spawn_blocking join error: " +:+ join_error))
   | r => r
   end, {| root := root s; disk := snd (m (disk s)) |}).

Definition resolved p : Op Path := s ← get; lift (resolve (root s) p).

Definition make_parent (resolved : Path) : Io_op () :=
  match parent resolved with Some q => io (create_dir_all q) | None => mret () end.

Definition attr_mode (a : Attr) : Z :=
  if attr_is_dir a then Z.lor (octal 40000) (octal 755)
  else if attr_is_symlink a then Z.lor (octal 120000) (octal 755)
  else Z.lor (octal 100000) (octal 644).

(* src: crates/racfs-plugin-localfs/src/fs/read.rs 11-40 LocalFS::read *)
Definition read now p (offset size : Z) : Op bytes :=
  r ← resolved p;
  blocking (
    file ← io (open_read r);
    (if 0 <? offset then io (file_seek file offset) else mret ()) ;;
    let size := if size <? 0 then 64 * 1024 else size in
    io (file_read file size)).

(* src: crates/racfs-plugin-localfs/src/fs/read.rs 42-82 LocalFS::stat *)
Definition stat now p : Op FileMetadata :=
  r ← resolved p;
  blocking (
    a ← io_or_not_found p (std_metadata r);
    mret {| path := p; size := attr_len a; mode := attr_mode a;
            created := attr_created a; modified := attr_modified a; accessed := attr_accessed a;
            is_symlink_flag := attr_is_symlink a; symlink_target := None |}).

(* src: crates/racfs-plugin-localfs/src/fs/write.rs 11-32 LocalFS::create *)
Definition create now p : Op () :=
  r ← resolved p;
  blocking (make_parent r ;; io (file_create r) ;; mret ()).

(* src: crates/racfs-plugin-localfs/src/fs/write.rs 34-83 LocalFS::write *)
Definition write now p (data : bytes) (offset flags : Z) : Op Z :=
  r ← resolved p;
  let append := WriteFlags.contains_append flags in
  blocking (
    make_parent r ;;
    file ← (if append || (0 <? offset) then
              f ← io (open_write true append r);
              (if (0 <? offset) && negb append then io (file_seek f offset) else mret ()) ;;
              mret f
            else io (file_create r));
    io (file_write file data)).

(* src: crates/racfs-plugin-localfs/src/fs/dir.rs 10-23 LocalFS::mkdir *)
Definition mkdir now p (_perm : Z) : Op () :=
  r ← resolved p;
  blocking (io (create_dir_all r)).

(** An entry of the directory, under its path on the disk. *)
Definition dir_entry (e : option (Path * option Attr)) : option FileMetadata :=
  '(q, attr) ← e;
  a ← attr;
  Some {| path := q; size := attr_len a; mode := attr_mode a;
          created := None; modified := attr_modified a; accessed := attr_accessed a;
          is_symlink_flag := attr_is_symlink a; symlink_target := None |}.

(* src: crates/racfs-plugin-localfs/src/fs/dir.rs 25-64 LocalFS::read_dir *)
Definition read_dir now p : Op (list FileMetadata) :=
  r ← resolved p;
  blocking (entries ← io (std_read_dir r); mret (omap dir_entry entries)).

(* src: crates/racfs-plugin-localfs/src/fs/dir.rs 66-96 LocalFS::remove *)
Definition remove now p : Op () :=
  r ← resolved p;
  blocking (
    a ← io_or_not_found p (std_metadata r);
    if attr_is_dir a then io (remove_dir r) else io (remove_file r)).

(* src: crates/racfs-plugin-localfs/src/fs/dir.rs 98-115 LocalFS::remove_all *)
Definition remove_all now p : Op () :=
  r ← resolved p;
  blocking (
    there ← path_exists r;
    if negb there then fail (NotFound p) else io (remove_dir_all r)).

(* src: crates/racfs-plugin-localfs/src/fs/dir.rs 117-131 LocalFS::rename *)
Definition rename now (old_path new_path : Path) : Op () :=
  a ← resolved old_path;
  b ← resolved new_path;
  blocking (io (std_rename a b)).

(* src: crates/racfs-plugin-localfs/src/fs/chmod.rs 10-35 LocalFS::chmod *)
Definition chmod now p (md : Z) : Op () :=
  r ← resolved p;
  blocking (io (set_permissions r md)).

(* src: crates/racfs-plugin-localfs/src/fs/mod.rs 73-93 LocalFS::truncate *)
Definition truncate now p (n : Z) : Op () :=
  r ← resolved p;
  blocking (file ← io (open_write false false r); io (file_set_len file n)).

(* src: crates/racfs-plugin-localfs/src/fs/mod.rs 95-110 LocalFS::touch *)
Definition touch now p : Op () :=
  r ← resolved p;
  blocking (
    there ← path_exists r;
    if negb there then io (file_create r) ;; mret () else mret ()).

Definition localfs_filesystem : FileSystem (LocalFS W) := {|
  fs_read := read; fs_stat := stat; fs_create := create; fs_write := write;
  fs_mkdir := mkdir; fs_read_dir := read_dir; fs_remove := remove;
  fs_remove_all := remove_all; fs_rename := rename; fs_chmod := chmod;
  fs_truncate := truncate; fs_touch := touch; fs_readlink := default_readlink;
  fs_symlink := default_symlink; fs_get_xattr := default_get_xattr; fs_set_xattr := default_set_xattr;
  fs_remove_xattr := default_remove_xattr; fs_list_xattr := default_list_xattr
|}.
End Ops.

(** ** Nothing outside the root *)

Lemma under_abs r l : names_ok r -> names_ok l -> under (abs_path r) (abs_path l) = true -> exists k, l = r ++ k.
Proof.
  unfold under, path_starts_with. intros Hr Hl. rewrite !components_abs by done. cbn [list_strip_prefix].
  rewrite decide_True by done. destruct (list_strip_prefix _ _) as [k|] eqn:E; [|done]. intros _.
  apply list_strip_prefix_inv in E. exists (drop (length r) l). apply map_normal_inj.
  rewrite map_app, E. f_equal. change (map Normal (drop (length r) l)) with (Normal <$> drop (length r) l).
  rewrite fmap_drop. change (Normal <$> l) with (map Normal l).
  rewrite E, drop_app_length'; [done|]. by rewrite length_map.
Qed.

Lemma under_abs_app r k : names_ok (r ++ k) -> under (abs_path r) (abs_path (r ++ k)) = true.
Proof.
  intros Hk. pose proof Hk as [Hr _]%Forall_app. unfold under, path_starts_with. rewrite !components_abs by done.
  cbn [list_strip_prefix]. rewrite decide_True by done. by rewrite map_app, list_strip_prefix_app.
Qed.

(** What the loop pushes is a list of names, as long as it does not have to go
    up from a root that is [/]. *)
Lemma normalize_names r p segs acc q :
  names_ok r -> r <> [] -> names_ok acc -> Forall (fun x => no_slash x = true) segs ->
  normalize (abs_path r) p (body_components segs) (abs_path acc) = Ok q ->
  exists l, q = abs_path l /\ names_ok l.
Proof.
  intros Hr Hne. revert acc. induction segs as [|x segs IH]; intros acc Hacc Hsegs.
  - intros [= <-]. by exists acc.
  - apply Forall_cons in Hsegs as [Hx Hsegs]. unfold body_components. cbn [List.filter].
    destruct (trivial_seg x) eqn:Et; cbn [negb]; [by apply IH|].
    cbn [map]. unfold seg_component at 1. destruct (String.eqb x "..") eqn:Ed.
    + cbn [normalize]. destruct (under (abs_path r) (abs_path acc)) eqn:Eu; [|done]. cbn [negb].
      destruct (under_abs r acc Hr Hacc Eu) as [k ->].
      destruct (r ++ k) as [|y l _] eqn:El using rev_ind; [by destruct r|].
      rewrite parent_abs_snoc by done. apply IH; [|done]. by apply Forall_app in Hacc as [? _].
    + cbn [normalize component_str]. assert (Hn : name_ok x = true) by (unfold name_ok; by rewrite Et, Ed, Hx).
      rewrite join_abs by done. apply IH; [|done]. apply Forall_app. split; [done|]. by constructor.
Qed.

Lemma has_root_join r q : has_root (join (abs_path r) q) = true.
Proof.
  unfold join. destruct (has_root q) eqn:Hq; [done|].
  destruct (last_char (abs_path r)) as [c|] eqn:Hc; [by destruct (Ascii.eqb c slash)|].
  exfalso. unfold last_char in Hc. apply last_None in Hc. done.
Qed.

Lemma components_rooted p : has_root p = true -> components p = RootDir :: body_components (segments p).
Proof. intros Hp. unfold components. rewrite Hp. reflexivity. Qed.

(** A path that is resolved is the root followed by names: it has no [..] left,
    and no other way out by its text. *)
Lemma resolve_confined r p q :
  names_ok r -> r <> [] -> resolve (abs_path r) p = Ok q -> exists l, q = abs_path (r ++ l) /\ names_ok (r ++ l).
Proof.
  intros Hr Hne. unfold resolve. set (full := join (abs_path r) _).
  rewrite components_rooted by apply has_root_join. cbn [normalize component_str].
  change (join "" "/") with (abs_path []).
  destruct (normalize _ _ _ _) as [n| | |] eqn:En; try done. cbn.
  destruct (normalize_names r p (segments full) [] n Hr Hne) as (l & -> & Hl); [constructor| |exact En|].
  { apply split_no_slash. }
  destruct (under (abs_path r) (abs_path l)) eqn:Eu; [|done]. intros [= <-].
  destruct (under_abs r l Hr Hl Eu) as [k ->]. by exists k.
Qed.

Lemma normalize_no_dotdot r p l acc :
  names_ok (acc ++ l) -> normalize r p (map Normal l) (abs_path acc) = Ok (abs_path (acc ++ l)).
Proof.
  revert acc. induction l as [|x l IH]; intros acc Hl; [by rewrite app_nil_r|].
  cbn [map normalize component_str]. rewrite (app_assoc acc [x] l : acc ++ x :: l = _) in *.
  pose proof Hl as [[Hacc Hx]%Forall_app _]%Forall_app. rewrite join_abs; [by apply IH|done|].
  by apply Forall_cons in Hx as [? _].
Qed.

Lemma strip_root l : names_ok l -> path_strip_prefix (abs_path l) "/" = Some (join_str "/" l).
Proof.
  intros Hl. unfold path_strip_prefix. rewrite components_abs by done.
  change (components "/") with [RootDir]. cbn [list_strip_prefix]. rewrite decide_True by done.
  unfold body_segments. change (has_root (abs_path l)) with true. cbn [orb].
  rewrite segments_abs by done. cbn [length tail Nat.sub].
  destruct l as [|x l]; [done|]. cbn [skip_components]. by rewrite trim_left_ok, trim_right_ok.
Qed.

Lemma join_names r l : names_ok r -> r <> [] -> names_ok l -> l <> [] ->
  join (abs_path r) (join_str "/" l) = abs_path (r ++ l).
Proof.
  intros Hr Hne Hl Hl0. unfold join. destruct (last_char_abs r Hr Hne) as (c & -> & ->).
  assert (Hroot : has_root (join_str "/" l) = false).
  { destruct l as [|x l]; [done|]. apply Forall_cons in Hl as [Hx _].
    pose proof (name_ok_nonempty x Hx). destruct (name_ok_inv x Hx) as (_ & _ & Hs).
    destruct x as [|a x]; [done|]. destruct l; [by apply has_root_name|].
    rewrite no_slash_cons in Hs. apply andb_true_iff in Hs as [Ha%negb_true_iff _]. cbn. exact Ha. }
  by rewrite Hroot, abs_path_app.
Qed.

(** A path without [..] and [.] is put behind the root. *)
Lemma resolve_names r l :
  names_ok r -> r <> [] -> names_ok l -> resolve (abs_path r) (abs_path l) = Ok (abs_path (r ++ l)).
Proof.
  intros Hr Hne Hl. unfold resolve.
  assert (Hfull : components (join (abs_path r) (default (abs_path l) (path_strip_prefix (abs_path l) "/")))
    = RootDir :: map Normal (r ++ l)).
  { rewrite strip_root by done. cbn [from_option id]. destruct (decide (l = [])) as [->|Hl0].
    - cbn [join_str]. unfold join. destruct (last_char_abs r Hr Hne) as (c & -> & ->). cbn [has_root].
      change (if has_root "" then "" else abs_path r +:+ "/" +:+ "")%string with (abs_path r +:+ "/")%string. rewrite components_snoc_slash, app_nil_r by done. by apply components_abs.
    - rewrite join_names by done. apply components_abs. by apply Forall_app. }
  rewrite Hfull. cbn [normalize component_str]. change (join "" "/") with (abs_path []).
  assert (Hrl : names_ok (r ++ l)) by (by apply Forall_app).
  rewrite (normalize_no_dotdot (abs_path r) (abs_path l) (r ++ l) [] Hrl).
  cbn [mbind outcome_bind app]. rewrite under_abs_app by exact Hrl. done.
Qed.

(** *** What the disk is asked *)

(** A computation keeps [I] however it ends, and its value has [P]. *)
Definition yields {S E A} (I : S -> Prop) (P : A -> Prop) (m : M S E A) : Prop :=
  forall s, I s -> I (snd (m s)) /\ (forall a, fst (m s) = Ok a -> P a).

Section Yields.
Context {S E : Type} (I : S -> Prop).

Lemma yields_bind {A B} (P : A -> Prop) (Q : B -> Prop) (m : M S E A) (f : A -> M S E B) :
  yields I P m -> (forall a, P a -> yields I Q (f a)) -> yields I Q (m ≫= f).
Proof.
  intros Hm Hf s Hs. destruct (Hm s Hs) as [Hs' Hp]. rewrite run_bind.
  destruct (m s) as [[a|e| |] s']; cbn in *; try (split; [done|by intros]). by apply Hf, Hs'; apply Hp.
Qed.

Lemma yields_ret {A} (P : A -> Prop) (a : A) : P a -> yields I P (mret a : M S E A).
Proof. intros Ha s Hs. split; [done|]. by intros b [= <-]. Qed.

Lemma yields_fail {A} (P : A -> Prop) (e : E) : yields I P (fail e : M S E A).
Proof. intros s Hs. by split. Qed.

Lemma yields_weaken {A} (P Q : A -> Prop) (m : M S E A) : yields I P m -> (forall a, P a -> Q a) -> yields I Q m.
Proof. intros Hm Hq s Hs. destruct (Hm s Hs) as [Hi Hp]. split; [done|]. eauto. Qed.

Lemma yields_fmap {A B} (P : A -> Prop) (g : A -> B) (m : M S E A) :
  yields I P m -> yields I (fun _ => True) (g <$> m).
Proof. intros Hm s Hs. destruct (Hm s Hs) as [Hi _]. by split. Qed.
End Yields.

Abbreviation anything := (fun _ => True).
Abbreviation stays I m := (yields I anything m).

Section Confined.
Context {FD W : Type} `{StdFs FD W} (join_error : string) (r : list string) (I : W -> Prop) (opened : FD -> Prop).

(** The root followed by names; to make a file in the root itself, the directory
    above it is asked for too. *)
Definition below (p : Path) : Prop := exists l, p = abs_path (r ++ l) /\ names_ok (r ++ l).
Definition makeable (p : Path) : Prop := below p \/ p = abs_path (removelast r).

(** The disk keeps [I] when it is asked about such paths, and about files that
    were opened there. *)
Class Confined : Prop := {
  c_metadata p : below p -> stays I (std_metadata p);
  c_read_dir p : below p -> stays I (std_read_dir p);
  c_create_dir_all p : makeable p -> stays I (create_dir_all p);
  c_remove_dir p : below p -> stays I (remove_dir p);
  c_remove_file p : below p -> stays I (remove_file p);
  c_remove_dir_all p : below p -> stays I (remove_dir_all p);
  c_rename p q : below p -> below q -> stays I (std_rename p q);
  c_permissions p md : below p -> stays I (set_permissions p md);
  c_open_read p : below p -> yields I opened (open_read p);
  c_open_write c a p : below p -> yields I opened (open_write c a p);
  c_create p : below p -> yields I opened (file_create p);
  c_seek f n : opened f -> stays I (file_seek f n);
  c_read f n : opened f -> stays I (file_read f n);
  c_write f d : opened f -> stays I (file_write f d);
  c_set_len f n : opened f -> stays I (file_set_len f n)
}.

Context `{Confined} (Hr : names_ok r) (Hne : r <> []).

Definition at_root (s : LocalFS W) : Prop := root s = abs_path r /\ I (disk s).

Lemma yields_io {A} (P : A -> Prop) (m : M W IoError A) : yields I P m -> yields I P (io m).
Proof.
  intros Hm w Hw. destruct (Hm w Hw) as [Hi Hp]. unfold io. split; [done|]. cbn.
  intros a Ha. apply Hp. destruct (fst (m w)); try done. by injection Ha as ->.
Qed.

Lemma yields_io_or {A} p (P : A -> Prop) (m : M W IoError A) : yields I P m -> yields I P (io_or_not_found p m).
Proof.
  intros Hm w Hw. destruct (Hm w Hw) as [Hi Hp]. unfold io_or_not_found. split; [done|]. cbn.
  intros a Ha. apply Hp. destruct (fst (m w)); try done. by injection Ha as ->.
Qed.

Lemma yields_blocking {A} (P : A -> Prop) (m : M W FSError A) :
  yields I P m -> yields at_root P (blocking join_error m).
Proof.
  intros Hm s [Hs Hi]. destruct (Hm (disk s) Hi) as [Hi' Hp]. unfold blocking. split; [done|].
  cbn. intros a Ha. apply Hp. by destruct (fst (m (disk s))).
Qed.

Lemma yields_resolved p : yields at_root below (resolved p).
Proof.
  intros s [Hs Hi]. unfold resolved. rewrite run_bind. cbn. rewrite Hs. split; [done|].
  intros q Hq. exact (resolve_confined r p q Hr Hne Hq).
Qed.

Lemma yields_exists p : below p -> stays I (path_exists p).
Proof. intros Hp w Hw. split; [|done]. exact (proj1 (c_metadata p Hp w Hw)). Qed.

Lemma yields_make_parent p : below p -> stays I (make_parent p).
Proof.
  intros (l & -> & Hl). unfold make_parent.
  destruct (r ++ l) as [|x k _] eqn:E using rev_ind; [by destruct r|]. rewrite parent_abs_snoc by done.
  apply yields_io, c_create_dir_all. destruct l as [|y l _] using rev_ind.
  - right. rewrite app_nil_r in E. by rewrite E, removelast_last.
  - left. rewrite app_assoc in E. apply app_inj_tail in E as [<- <-]. exists l. split; [done|].
    by apply Forall_app in Hl as [? _].
Qed.

(** One question to the disk, and a path that is resolved first. *)
Ltac ask := first [apply yields_io | apply yields_io_or];
  first [apply c_metadata | apply c_read_dir | apply c_create_dir_all; left | apply c_remove_dir | apply c_remove_file
        | apply c_remove_dir_all | apply c_rename | apply c_permissions | apply c_open_read | apply c_open_write
        | apply c_create | apply c_seek | apply c_read | apply c_write | apply c_set_len]; assumption.
Ltac resolve_as q Hq := eapply yields_bind; [apply yields_resolved|intros q Hq]; try apply yields_blocking.
Ltac next m := eapply yields_bind; [m|intros ? ?].

Lemma read_confined now p offset size : stays at_root (read join_error now p offset size).
Proof.
  resolve_as q Hq. next ask. eapply yields_bind; [|intros _ _; ask].
  destruct (0 <? offset); [ask|by apply yields_ret].
Qed.

Lemma stat_confined now p : stays at_root (stat join_error now p).
Proof. resolve_as q Hq. next ask. by apply yields_ret. Qed.

Lemma create_confined now p : stays at_root (create join_error now p).
Proof. resolve_as q Hq. next ltac:(by apply yields_make_parent). next ask. by apply yields_ret. Qed.

Lemma write_confined now p data offset flags : stays at_root (write join_error now p data offset flags).
Proof.
  resolve_as q Hq. next ltac:(by apply yields_make_parent).
  eapply (yields_bind _ opened); [|intros f Hf; ask].
  destruct (WriteFlags.contains_append flags || (0 <? offset)); [|ask].
  next ask. eapply yields_bind; [|intros _ _; by apply yields_ret].
  destruct (_ && _); [ask|by apply yields_ret].
Qed.

Lemma mkdir_confined now p perm : stays at_root (mkdir join_error now p perm).
Proof. resolve_as q Hq. ask. Qed.

Lemma read_dir_confined now p : stays at_root (read_dir join_error now p).
Proof. resolve_as q Hq. next ask. by apply yields_ret. Qed.

Lemma remove_confined now p : stays at_root (remove join_error now p).
Proof. resolve_as q Hq. next ask. destruct (attr_is_dir _); ask. Qed.

Lemma remove_all_confined now p : stays at_root (remove_all join_error now p).
Proof.
  resolve_as q Hq. next ltac:(by apply yields_exists). destruct (negb _); [apply yields_fail|ask].
Qed.

Lemma rename_confined now p q : stays at_root (rename join_error now p q).
Proof. resolve_as a Ha. resolve_as b Hb. ask. Qed.

Lemma chmod_confined now p md : stays at_root (chmod join_error now p md).
Proof. resolve_as q Hq. ask. Qed.

Lemma truncate_confined now p n : stays at_root (truncate join_error now p n).
Proof. resolve_as q Hq. next ask. ask. Qed.

Lemma touch_confined now p : stays at_root (touch join_error now p).
Proof.
  resolve_as q Hq. next ltac:(by apply yields_exists). destruct (negb _); [|by apply yields_ret].
  next ask. by apply yields_ret.
Qed.
End Confined.

#[export] Hint Resolve read_confined stat_confined create_confined write_confined mkdir_confined read_dir_confined
  remove_confined remove_all_confined rename_confined chmod_confined truncate_confined touch_confined
  yields_ret yields_fail : racfs.

Lemma then_unit {S E} (I : S -> Prop) (m : M S E ()) (b : FsReply) : stays I m -> stays I (m ;; mret b).
Proof. intros Hm. eapply yields_bind; [exact Hm|]. intros _ _. by apply yields_ret. Qed.
Lemma stays_fmap {S E A B} (I : S -> Prop) (g : A -> B) (m : M S E A) : stays I m -> stays I (g <$> m).
Proof. apply yields_fmap. Qed.
#[export] Hint Resolve then_unit stays_fmap : racfs.

(** C16: LocalFS asks the disk only about paths made of its root and names below
    it, whatever path a call is given: what holds of a disk that is asked about
    such paths, and about the files opened there, still holds after any call.
    The directory above the root is at most asked to exist. *)
Theorem localfs_confined {FD W} `{StdFs FD W} (join_error : string) (r : list string) (I : W -> Prop)
    (opened : FD -> Prop) now c (s : LocalFS W) :
  names_ok r -> r <> [] -> Confined r I opened -> root s = abs_path r -> I (disk s) ->
  let s' := snd (run_call (H := localfs_filesystem join_error) now c s) in
  root s' = root s /\ I (disk s').
Proof.
  intros Hr Hne HC Hs Hi s'.
  assert (Hc : stays (at_root r I) (run_call (H := localfs_filesystem join_error) now c)).
  { destruct c; cbn [run_call fs_read fs_stat fs_create fs_write fs_mkdir fs_read_dir fs_remove fs_remove_all
      fs_rename fs_chmod fs_truncate fs_touch fs_readlink fs_symlink fs_get_xattr fs_set_xattr fs_remove_xattr
      fs_list_xattr localfs_filesystem]; eauto with racfs. }
  destruct (Hc s (conj Hs Hi)) as [[Hs' Hi'] _]. subst s'. by rewrite Hs', Hs.
Qed.

(** ** How much is read *)

Lemma blocking_ok {W A} (join_error : string) (m : M W FSError A) (s : LocalFS W) a :
  fst (blocking join_error m s) = Ok a -> fst (m (disk s)) = Ok a.
Proof. unfold blocking. cbn. by destruct (fst (m (disk s))). Qed.

Lemma bind_ok_inv {S E A B} (m : M S E A) (f : A -> M S E B) (s : S) b :
  fst ((m ≫= f) s) = Ok b -> exists a s', m s = (Ok a, s') /\ fst (f a s') = Ok b.
Proof. rewrite run_bind. destruct (m s) as [[a|e| |] s']; try done. eauto. Qed.

(** One call of [File::read] is made: what is behind the first 64 KiB is never
    seen by a caller who asks for everything. *)
Lemma localfs_read_at_most {FD W} `{StdFs FD W} (join_error : string) now p offset size (s : LocalFS W) data :
  (forall f n w d, fst (file_read f n w) = Ok d -> len d <= n) ->
  fst (read join_error now p offset size s) = Ok data ->
  len data <= if size <? 0 then 65536 else size.
Proof.
  intros Hread Hok. unfold read in Hok.
  apply bind_ok_inv in Hok as (q & s1 & _ & Hok). apply blocking_ok in Hok.
  apply bind_ok_inv in Hok as (f & w1 & _ & Hok). apply bind_ok_inv in Hok as ([] & w2 & _ & Hok).
  unfold io in Hok. cbn [fst] in Hok.
  destruct (fst (file_read f (if size <? 0 then 64 * 1024 else size) w2)) as [d| | |] eqn:E; try done.
  injection Hok as ->. pose proof (Hread _ _ _ _ E) as Hl. by destruct (size <? 0).
Qed.

(** ** A disk that writes down what it is asked *)

Section Log.
Definition noted {A} (p : Path) (a : A) : M (list Path) IoError A := fun w => (Ok a, w ++ [p]).
Definition some_attr : Attr :=
  {| attr_is_dir := false; attr_is_symlink := false; attr_len := 3; attr_created := None;
     attr_modified := None; attr_accessed := None |}.

#[local] Instance log_fs : StdFs () (list Path) := {|
  std_metadata p := noted p some_attr;
  std_read_dir p := noted p [Some (join p "a", Some some_attr)];
  create_dir_all p := noted p (); remove_dir p := noted p (); remove_file p := noted p ();
  remove_dir_all p := noted p (); set_permissions p _ := noted p ();
  std_rename p q w := (Ok (), w ++ [p; q]);
  open_read p := noted p (); open_write _ _ p := noted p (); file_create p := noted p ();
  file_seek _ _ := mret (); file_read _ _ := mret []; file_write _ d := mret (len d); file_set_len _ _ := mret ()
|}.

Definition logged (r : list string) : list Path -> Prop := Forall (makeable r).

Lemma noted_yields {A} r p (a : A) (P : A -> Prop) : makeable r p -> P a -> yields (logged r) P (noted p a).
Proof.
  intros Hp Ha w Hw. split; [|by intros b [= <-]]. apply Forall_app. split; [done|]. by constructor.
Qed.

Lemma log_confined r : Confined r (logged r) anything.
Proof.
  assert (Hb : forall p, below r p -> makeable r p) by (by left).
  constructor; intros; try (by apply noted_yields; auto); try (by apply yields_ret).
  intros w Hw. split; [|done]. apply Forall_app. split; [done|]. repeat constructor; auto.
Qed.

Abbreviation log_call c := (snd (run_call (H := localfs_filesystem "panic") (fun _ => 0) c (new "/data" []))).

Lemma localfs_confined_witness :
  let s := log_call (CWrite "/a/../../data/b" [] 0 0) in
  disk s = ["/data"; "/data/b"]%string /\ logged ["data"%string] (disk s).
Proof.
  split; [vm_compute; reflexivity|].
  apply (localfs_confined "panic" ["data"%string] (logged ["data"%string]) anything (fun _ => 0)
    (CWrite "/a/../../data/b" [] 0 0) (new "/data" [])).
  - repeat constructor.
  - intros [=].
  - apply log_confined.
  - vm_compute. reflexivity.
  - constructor.
Defined.

(** Leaving the root is refused, and nothing is asked. *)
Lemma localfs_traversal_refused :
  run_call (H := localfs_filesystem "panic") (fun _ => 0) (CRemoveAll "/../etc") (new "/data" []) =
    (Err (PermissionDenied "/../etc"), new "/data" []).
Proof. vm_compute. reflexivity. Qed.

(** The entries of a listing have their paths on the disk, with the root. *)
Lemma localfs_lists_disk_paths :
  match fst (read_dir "panic" (fun _ => 0) "/" (new "/data" [])) with
  | Ok l => map path l
  | _ => []
  end = ["/data/a"%string].
Proof. vm_compute. reflexivity. Qed.

(** The root itself can be removed, and a file made in it asks for the directory
    above. *)
Lemma localfs_root_removed :
  disk (log_call (CRemoveAll "/")) = ["/data"; "/data"]%string /\
  disk (log_call (CCreate "/")) = ["/"; "/data"]%string.
Proof. vm_compute. split; reflexivity. Qed.
End Log.

(** With a root that begins with [..] every path is refused. *)
Lemma localfs_parent_root : resolve "../data" "/a" = Err (PermissionDenied "/a").
Proof. vm_compute. reflexivity. Qed.

(** With an empty root a path can leave it. *)
Lemma localfs_empty_root : resolve "" "/../etc/passwd" = Ok "../etc/passwd"%string.
Proof. vm_compute. reflexivity. Qed.
