(* ===== verification/StreamRotateFS.v ===== *)
(** * StreamRotateFS: the rotating log backend ([crates/racfs-plugin-streamrotatefs])

    The state is the current file and the archive, a [BTreeMap] from sequence
    numbers.  [rotate] moves the current content to the archive and prunes the
    oldest entries; [write] appends and then, under a lock of its own, checks
    whether to rotate.  The abstract specification is a log: the list of the
    chunks closed so far and the open one. *)

From S2P Require Import Prelude Text RPath BTree FsError Metadata Flags FileSystem.
From Stdlib Require Import Strings.Ascii.
From Stdlib Require Strings.String.

(* src: crates/racfs-plugin-streamrotatefs/src/fs/mod.rs 19-30 RotateConfig *)
Record RotateConfig := {
  max_size : Z;
  max_files : Z;
  compress : bool;
  base_path : Path
}.

(* src: crates/racfs-plugin-streamrotatefs/src/fs/mod.rs 32-41 RotateConfig::default *)
Definition default_config : RotateConfig :=
  {| max_size := 1024 * 1024; max_files := 10; compress := false; base_path := "" |}.

(* src: crates/racfs-plugin-streamrotatefs/src/fs/mod.rs 55-59 FileEntry *)
Record FileEntry := { data : bytes; metadata : FileMetadata }.

(* src: crates/racfs-plugin-streamrotatefs/src/fs/mod.rs 61-66 RotateState *)
Record RotateState := {
  current : FileEntry;
  archive : BTreeMap Z FileEntry;
  next_seq : Z
}.

Definition set_current c (s : RotateState) : RotateState :=
  {| current := c; archive := archive s; next_seq := next_seq s |}.
Definition set_archive a (s : RotateState) : RotateState :=
  {| current := current s; archive := a; next_seq := next_seq s |}.
Definition set_next_seq n (s : RotateState) : RotateState :=
  {| current := current s; archive := archive s; next_seq := n |}.

(* src: crates/racfs-plugin-streamrotatefs/src/fs/mod.rs 69-75 FileEntry::file *)
Definition entry_file (now : Now) (p : Path) (content : bytes) : FileEntry :=
  {| data := content; metadata := file now p (len content) |}.

(* src: crates/racfs-plugin-streamrotatefs/src/fs/mod.rs 77-82 FileEntry::dir *)
Definition entry_dir (now : Now) (p : Path) : FileEntry :=
  {| data := []; metadata := directory now p |}.

(* src: crates/racfs-plugin-streamrotatefs/src/fs/mod.rs 84-86 FileEntry::is_file *)
Definition entry_is_file (e : FileEntry) : bool := is_file (metadata e).

(* src: crates/racfs-plugin-streamrotatefs/src/fs/mod.rs 96-108 StreamRotateFS::with_config *)
Definition with_config (now : Now) : RotateState :=
  {| current := entry_file now "/current" []; archive := []; next_seq := 1 |}.

(* src: crates/racfs-plugin-streamrotatefs/src/fs/mod.rs 170-182 StreamRotateFS::normalize_path *)
Definition normalize_path (p : Path) : Path :=
  if String.eqb p "/" then "/"
  else
    let normalized := trim_start_char slash p in
    if String.eqb normalized "" then "/" else join "/" normalized.

(* src: crates/racfs-plugin-streamrotatefs/src/fs/mod.rs 184-200 StreamRotateFS::validate_path *)
Definition validate_path (p : Path) : Res () :=
  let path_str := normalize_path p in
  if (String.eqb path_str "/" || String.eqb path_str "/current" || String.eqb path_str "/rotate"
      || String.eqb path_str "/config" || String.eqb path_str "/archive"
      || starts_with path_str "/archive/")%bool
  then Ok () else Err (NotFound path_str).

(** The sequence number that a path under [/archive/] names. *)
Definition archive_seq (p : Path) : option Z :=
  let name := default ""%string (strip_prefix_str p "/archive/") in
  parse_u64 (default name (strip_suffix_str name ".log")).

Section Ops.
Context `{BuildProfile} (config : RotateConfig).
Implicit Types (now : Now) (p : Path).

(* src: crates/racfs-plugin-streamrotatefs/src/fs/mod.rs 110-118 StreamRotateFS::config_string *)
Definition config_string : string :=
  let nl := String (ascii_of_nat 10) EmptyString in
  "max_size=" +:+ to_string (max_size config) +:+ nl +:+ "max_files=" +:+ to_string (max_files config)
  +:+ nl +:+ "compress=" +:+ (if compress config then "true" else "false") +:+ nl
  +:+ "base_path=" +:+ base_path config +:+ nl.

(** The pruning loop.  Every turn removes an entry, so it makes at most as many
    turns as there are entries. *)
Fixpoint prune (fuel : nat) : M RotateState FSError () :=
  s ← get;
  if max_files config <? bt_len (archive s) then
    match fuel with
    | O => lift Diverge
    | S f =>
      match bt_first (archive s) with
      | Some (seq, _) => modify (fun s => set_archive (bt_remove seq (archive s)) s) ;; prune f
      | None => mret ()
      end
    end
  else mret ().

(* src: crates/racfs-plugin-streamrotatefs/src/fs/mod.rs 120-156 StreamRotateFS::rotate *)
Definition rotate now : M RotateState FSError () :=
  s ← get;
  let current_data := data (current s) in
  let archive_entry := entry_file now "/archive/001.log" current_data in
  let rotated_seq := next_seq s in
  put (set_archive (bt_insert rotated_seq archive_entry (archive s))
         (set_current {| data := []; metadata := metadata (current s) |} s)) ;;
  n ← lift (usize_add (next_seq s) 1);
  modify (set_next_seq n) ;;
  s ← get;
  prune (length (archive s)) ;;
  let fresh := entry_file (now_from 3 now) "/current" [] in
  modify (set_current {| data := data fresh;
                         metadata := set_modified (Some (now 6%nat)) (metadata fresh) |}).

(* src: crates/racfs-plugin-streamrotatefs/src/fs/mod.rs 158-168 StreamRotateFS::check_rotate *)
Definition check_rotate now : M RotateState FSError () :=
  s ← get;
  if max_size config <=? len (data (current s)) then rotate now else mret ().

(* src: crates/racfs-plugin-streamrotatefs/src/fs/mod.rs 202-231 StreamRotateFS::get_entry *)
Definition get_entry now p : FsOp RotateState FileEntry :=
  let normalized := normalize_path p in
  lift (validate_path normalized) ;;
  s ← get;
  if String.eqb normalized "/" then mret (entry_dir now "/")
  else if String.eqb normalized "/current" then mret (current s)
  else if String.eqb normalized "/rotate" then mret (entry_file now "/rotate" [])
  else if String.eqb normalized "/config" then mret (entry_file now "/config" (as_bytes config_string))
  else if String.eqb normalized "/archive" then mret (entry_dir now "/archive")
  else if starts_with normalized "/archive/" then
    lift (ok_or (seq ← archive_seq normalized; bt_get seq (archive s)) (NotFound normalized))
  else fail (NotFound normalized).

(* src: crates/racfs-plugin-streamrotatefs/src/fs/read.rs 10-32 StreamRotateFS::read *)
Definition read now p (offset size : Z) : FsOp RotateState bytes :=
  entry ← get_entry now p;
  if negb (entry_is_file entry) then fail (IsDirectory p)
  else lift (read_range (data entry) offset size).

(* src: crates/racfs-plugin-streamrotatefs/src/fs/read.rs 34-37 StreamRotateFS::stat *)
Definition stat now p : FsOp RotateState FileMetadata :=
  entry ← get_entry now p; mret (metadata entry).

(* src: crates/racfs-plugin-streamrotatefs/src/fs/write.rs 11-21 StreamRotateFS::create *)
Definition create now p : FsOp RotateState () :=
  let normalized := normalize_path p in
  lift (validate_path normalized) ;;
  if String.eqb normalized "/current" || String.eqb normalized "/rotate"
     || String.eqb normalized "/config"
  then mret () else fail (AlreadyExists normalized).

(** The append under the first lock of [write]. *)
Definition append_current now (content : bytes) : M RotateState FSError () :=
  s ← get;
  d ← lift (extend_from_slice content (data (current s)));
  put (set_current {| data := d;
         metadata := set_modified (Some (now 0%nat)) (set_size (len d) (metadata (current s))) |} s).

(* src: crates/racfs-plugin-streamrotatefs/src/fs/write.rs 23-67 StreamRotateFS::write *)
Definition write now p (content : bytes) (offset flags : Z) : FsOp RotateState Z :=
  let normalized := normalize_path p in
  lift (validate_path normalized) ;;
  if String.eqb normalized "/current" then
    append_current now content ;;
    check_rotate (now_from 1 now) ;;
    mret (len content)
  else if String.eqb normalized "/rotate" then
    if String.eqb (trim (from_utf8_lossy content)) "rotate"
    then rotate now ;; mret (len content)
    else mret (len content)
  else if String.eqb normalized "/config" then fail (PermissionDenied normalized)
  else fail (IsDirectory normalized).

(* src: crates/racfs-plugin-streamrotatefs/src/fs/chmod.rs 10-14 StreamRotateFS::chmod *)
Definition chmod now p (mode : Z) : FsOp RotateState () := lift (validate_path (normalize_path p)).

(* src: crates/racfs-plugin-streamrotatefs/src/fs/dir.rs 10-20 StreamRotateFS::mkdir *)
Definition mkdir now p (perm : Z) : FsOp RotateState () :=
  let normalized := normalize_path p in
  lift (validate_path normalized) ;;
  if String.eqb normalized "/" || String.eqb normalized "/archive"
  then mret () else fail (AlreadyExists normalized).

(* src: crates/racfs-plugin-streamrotatefs/src/fs/dir.rs 22-55 StreamRotateFS::read_dir *)
Definition read_dir now p : FsOp RotateState (list FileMetadata) :=
  let normalized := normalize_path p in
  lift (validate_path normalized) ;;
  s ← get;
  if String.eqb normalized "/" then
    mret [file now "/current" (len (data (current s))); directory (now_from 3 now) "/archive";
          file (now_from 6 now) "/rotate" 0; file (now_from 9 now) "/config" (str_len config_string)]
  else if String.eqb normalized "/archive" then
    mret (map (fun '(seq, entry) =>
                 set_path (join "/archive" (fmt_zero_pad 3 seq +:+ ".log")) (metadata entry))
              (archive s))
  else fail (NotADirectory normalized).

(* src: crates/racfs-plugin-streamrotatefs/src/fs/dir.rs 57-82 StreamRotateFS::remove *)
Definition remove now p : FsOp RotateState () :=
  let normalized := normalize_path p in
  lift (validate_path normalized) ;;
  if (String.eqb normalized "/" || String.eqb normalized "/current" || String.eqb normalized "/rotate"
      || String.eqb normalized "/config" || String.eqb normalized "/archive")%bool
  then fail (PermissionDenied normalized)
  else if starts_with normalized "/archive/" then
    s ← get;
    match archive_seq normalized with
    | Some seq => if bt_contains seq (archive s)
                  then put (set_archive (bt_remove seq (archive s)) s)
                  else fail (NotFound normalized)
    | None => fail (NotFound normalized)
    end
  else fail (NotFound normalized).

(* src: crates/racfs-plugin-streamrotatefs/src/fs/dir.rs 84-103 StreamRotateFS::remove_all *)
Definition remove_all now p : FsOp RotateState () :=
  let normalized := normalize_path p in
  lift (validate_path normalized) ;;
  if String.eqb normalized "/archive" then modify (set_archive [])
  else if (String.eqb normalized "/" || String.eqb normalized "/current"
           || String.eqb normalized "/rotate" || String.eqb normalized "/config")%bool
  then fail (PermissionDenied normalized)
  else if starts_with normalized "/archive/" then remove now p
  else fail (NotFound normalized).

(* src: crates/racfs-plugin-streamrotatefs/src/fs/dir.rs 105-109 StreamRotateFS::rename *)
Definition rename now (old new : Path) : FsOp RotateState () := fail (NotSupported "rename not supported").

(* src: crates/racfs-plugin-streamrotatefs/src/fs/mod.rs 242-259 StreamRotateFS::truncate *)
Definition truncate now p (size : Z) : FsOp RotateState () :=
  let normalized := normalize_path p in
  lift (validate_path normalized) ;;
  if String.eqb normalized "/current" then
    modify (fun s => set_current
      {| data := ztake size (data (current s));
         metadata := set_modified (Some (now 0%nat)) (set_size size (metadata (current s))) |} s)
  else fail (NotSupported "truncate only supported for /current").

(* src: crates/racfs-plugin-streamrotatefs/src/fs/mod.rs 261-290 StreamRotateFS::touch *)
Definition touch now p : FsOp RotateState () :=
  let normalized := normalize_path p in
  lift (validate_path normalized) ;;
  if String.eqb normalized "/current" then
    modify (fun s => set_current
      {| data := data (current s);
         metadata := set_modified (Some (now 1%nat))
                       (set_accessed (Some (now 0%nat)) (metadata (current s))) |} s)
  else if (String.eqb normalized "/rotate" || String.eqb normalized "/config"
           || String.eqb normalized "/" || String.eqb normalized "/archive")%bool
  then mret ()
  else if starts_with normalized "/archive/" then
    s ← get;
    match archive_seq normalized with
    | Some seq => fail_if (negb (bt_contains seq (archive s))) (NotFound normalized)
    | None => fail (NotFound normalized)
    end
  else fail (NotFound normalized).

Definition streamrotatefs_filesystem : FileSystem RotateState := {|
  fs_read := read; fs_stat := stat; fs_create := create; fs_write := write;
  fs_mkdir := mkdir; fs_read_dir := read_dir; fs_remove := remove;
  fs_remove_all := remove_all; fs_rename := rename; fs_chmod := chmod;
  fs_truncate := truncate; fs_touch := touch; fs_readlink := default_readlink;
  fs_symlink := default_symlink; fs_get_xattr := default_get_xattr;
  fs_set_xattr := default_set_xattr; fs_remove_xattr := default_remove_xattr;
  fs_list_xattr := default_list_xattr
|}.
End Ops.

(** ** The log *)

(** The chunks that were closed, and the open one. *)
Definition Log : Type := list bytes * bytes.

(** What a write appends, and when it closes the chunk. *)
Definition log_append (max : Z) (l : Log) (content : bytes) : Log :=
  let d := snd l ++ content in
  if max <=? len d then (fst l ++ [d], []) else (fst l, d).

(** The archive entries of the last [n] of the closed chunks. *)
Definition retained (n : nat) (chunks : list bytes) : list (Z * bytes) :=
  drop (length chunks - n) (imap (fun i d => (Z.of_nat i + 1, d)) chunks).

(** A state holds a log: all of the open chunk and the last closed ones. *)
Record holds (config : RotateConfig) (s : RotateState) (l : Log) : Prop := {
  h_current : data (current s) = snd l;
  h_archive : map (fun kv => (fst kv, data (snd kv))) (archive s)
              = retained (Z.to_nat (max_files config)) (fst l);
  h_next : next_seq s = Z.of_nat (length (fst l)) + 1
}.

Section Properties.
Context `{BuildProfile} (config : RotateConfig).
Hypothesis files_nonneg : 0 <= max_files config.
Implicit Types (s : RotateState).

Lemma prune_run f s :
  (length (archive s) - Z.to_nat (max_files config) <= f)%nat ->
  prune config f s
  = (Ok (), set_archive (drop (length (archive s) - Z.to_nat (max_files config)) (archive s)) s).
Proof.
  revert s. induction f as [|f IH]; intros s Hf; simpl; munfold; unfold bt_len, len in *;
    destruct (Z.ltb_spec (max_files config) (Z.of_nat (length (archive s)))) as [Hgt|Hle]; try lia;
    try (replace (_ - _)%nat with 0%nat by lia; by destruct s).
  destruct (archive s) as [|[k v] m] eqn:Em; [simpl in Hgt; lia|]. simpl.
  rewrite Em, bt_remove_head, IH by (simpl in *; lia). simpl in *.
  replace (S (length m) - Z.to_nat (max_files config))%nat
    with (S (length m - Z.to_nat (max_files config))) by lia.
  done.
Qed.

Lemma length_retained n chunks : length (retained n chunks) = Nat.min n (length chunks).
Proof. unfold retained. rewrite length_drop, length_imap. lia. Qed.

Lemma retained_keys n chunks k :
  k ∈ (retained n chunks).*1 -> k < Z.of_nat (length chunks) + 1.
Proof.
  intros (kv & -> & Hin)%list_elem_of_fmap. unfold retained in Hin.
  apply list_elem_of_lookup in Hin as [i Hi]. rewrite lookup_drop, list_lookup_imap in Hi.
  destruct (chunks !! (length chunks - n + i)%nat) eqn:E; [|done]. simpl in Hi. simplify_eq.
  apply lookup_lt_Some in E. simpl. lia.
Qed.

Lemma retained_snoc n chunks d :
  retained n (chunks ++ [d])
  = drop (length (retained n chunks) + 1 - n) (retained n chunks ++ [(Z.of_nat (length chunks) + 1, d)]).
Proof.
  rewrite length_retained. unfold retained. rewrite length_app, imap_app. simpl.
  rewrite Nat.add_0_r.
  rewrite <- (drop_app_le (imap _ chunks)) by (rewrite length_imap; lia).
  rewrite drop_drop. f_equal. lia.
Qed.

(** [rotate] closes the open chunk. *)
Lemma rotate_holds now s chunks d :
  holds config s (chunks, d) -> Z.of_nat (length chunks) + 1 < u64_max ->
  exists s', rotate config now s = (Ok (), s') /\ holds config s' (chunks ++ [d], []).
Proof.
  intros [Hc Ha Hn] Hmax. simpl in *. unfold rotate. munfold.
  rewrite usize_add_ok by (rewrite Hn; lia). munfold.
  set (e := entry_file now "/archive/001.log" (data (current s))).
  assert (Hins : bt_insert (next_seq s) e (archive s) = archive s ++ [(next_seq s, e)]).
  { apply bt_insert_last. apply Forall_forall. intros k Hk. unfold key_lt. simpl.
    apply Z.compare_lt_iff. rewrite Hn. apply (retained_keys (Z.to_nat (max_files config))).
    rewrite <- Ha. unfold bt_keys in Hk. apply elem_of_map in Hk as (kv & -> & Hkv).
    apply list_elem_of_fmap. exists (fst kv, data (snd kv)). split; [done|].
    apply elem_of_map. by exists kv. }
  rewrite prune_run; cycle 1. { simpl. lia. }
  simpl. rewrite Hins. eexists. split; [reflexivity|]. constructor; simpl.
  - done.
  - rewrite retained_snoc, <- Ha, <- Hc, <- Hn. rewrite length_app, !length_map. simpl length.
    change (map (fun kv => (fst kv, data (snd kv)))) with (fmap (M := list) (fun kv : Z * FileEntry => (fst kv, data (snd kv)))).
    rewrite fmap_drop, fmap_app. done.
  - rewrite length_app. simpl. lia.
Qed.

(** C24: the rotating log loses nothing but what it prunes: a [write] to
    [/current] appends to the open chunk, closes it exactly when it has reached
    [max_size], and the archive holds the last [max_files] closed chunks under
    their numbers. *)
Theorem streamrotate_write_refines now p s l content offset flags :
  holds config s l -> normalize_path p = "/current"%string ->
  len (snd l) + len content <= isize_max -> Z.of_nat (length (fst l)) + 1 < u64_max ->
  exists s', write config now p content offset flags s = (Ok (len content), s') /\
             holds config s' (log_append (max_size config) l content).
Proof.
  intros Hh Hp Hlen Hmax. destruct l as [chunks d]. pose proof Hh as [Hc Ha Hn]. simpl in *.
  unfold write. rewrite Hp. change (validate_path "/current") with (@Ok FSError () ()).
  cbn [String.eqb Ascii.eqb Bool.eqb]. unfold append_current. munfold.
  rewrite Hc, extend_from_slice_ok by done. unfold check_rotate. munfold. unfold log_append. simpl.
  set (s1 := set_current _ s).
  assert (Hh1 : holds config s1 (chunks, d ++ content)) by by constructor.
  destruct (Z.leb_spec (max_size config) (len (d ++ content))).
  - destruct (rotate_holds (now_from 1 now) s1 chunks (d ++ content) Hh1 Hmax) as (s' & Hr & Hh').
    rewrite Hr. by exists s'.
  - by exists s1.
Qed.

(** [truncate] of [/current] to a size past its end answers success and
    records the larger size, but the content stays as short as it was: what
    [stat] then reports is not what [read] returns. *)
Theorem streamrotate_truncate_grow now now' s n :
  len (data (current s)) < n -> len (data (current s)) <= i64_max ->
  is_file (metadata (current s)) = true ->
  fst (truncate now "/current" n s) = Ok () /\
  let s' := snd (truncate now "/current" n s) in
  (exists m, fst (stat config now' "/current" s') = Ok m /\ size m = n) /\
  fst (read config now' "/current" 0 (-1) s') = Ok (data (current s)).
Proof.
  intros Hn Hmax Hf. unfold truncate, stat, read, get_entry. munfold.
  split; [done|]. split; [by eexists|].
  rewrite ztake_ge by lia. unfold entry_is_file. simpl.
  change (is_file (set_modified _ (set_size n (metadata (current s))))) with (is_file (metadata (current s))).
  rewrite Hf. simpl. by apply read_range_all.
Qed.
End Properties.

(** ** Witnesses *)

Definition small_config : RotateConfig :=
  {| max_size := 4; max_files := 1; compress := false; base_path := "" |}.

Lemma with_config_holds now : holds small_config (with_config now) ([], []).
Proof. by constructor. Qed.

Lemma streamrotate_write_refines_witness :
  exists s', @write debug_profile small_config (fun _ => 0) "current" (as_bytes "abcd") 0 0
               (with_config (fun _ => 0)) = (Ok 4, s') /\
             holds small_config s' ([as_bytes "abcd"], []).
Proof.
  apply (@streamrotate_write_refines debug_profile small_config ltac:(vm_compute; discriminate)
           (fun _ => 0) "current" (with_config (fun _ => 0)) ([], []) (as_bytes "abcd") 0 0).
  - apply with_config_holds.
  - reflexivity.
  - vm_compute. discriminate.
  - vm_compute. reflexivity.
Defined.

Lemma streamrotate_truncate_grow_witness :
  fst (@read debug_profile small_config (fun _ => 0) "/current" 0 (-1)
         (snd (truncate (fun _ => 0) "/current" 5 (with_config (fun _ => 0))))) = Ok [].
Proof.
  apply (@streamrotate_truncate_grow debug_profile small_config
           (fun _ => 0) (fun _ => 0) (with_config (fun _ => 0)) 5).
  - reflexivity.
  - vm_compute. discriminate.
  - reflexivity.
Defined.
