(* ===== verification/HandleManager.v ===== *)
(** * HandleManager: open handles with leases
    ([crates/racfs-vfs/src/handle_manager.rs])

    [open_handle] takes and releases its locks three times; the three critical
    sections are definitions of their own, so that the calls of several tasks
    can interleave between them.  The clock readings are those of the monotonic
    clock, and the identifier of a new handle is drawn by the caller. *)

From S2P Require Import Prelude Text RPath FsError Metadata Flags Handle FileSystem.
From Stdlib Require Strings.String.

(* src: crates/racfs-vfs/src/handle_manager.rs 38-43 HandleEntry *)
Record HandleEntry := {
  handle : FileHandle;
  created : Z;
  last_accessed : Z
}.

(** [HandleKey]: equal paths are equal component lists. *)
Abbreviation HandleKey := (list Component * Z)%type.

Definition handle_key (h : FileHandle) : HandleKey := (components (Handle.path h), Handle.flags h).

(* src: crates/racfs-vfs/src/handle_manager.rs 30-36 HandleManager *)
Record HandleManager := {
  handles : gmap HandleId HandleEntry;
  path_index : gmap HandleKey HandleId;
  lease_timeout : Z;
  max_handles : Z
}.

Definition set_handles h (s : HandleManager) : HandleManager :=
  {| handles := h; path_index := path_index s; lease_timeout := lease_timeout s;
     max_handles := max_handles s |}.
Definition set_index i (s : HandleManager) : HandleManager :=
  {| handles := handles s; path_index := i; lease_timeout := lease_timeout s;
     max_handles := max_handles s |}.

(* src: crates/racfs-vfs/src/handle_manager.rs 17-21 DEFAULT_LEASE_TIMEOUT_SECS *)
Definition DEFAULT_LEASE_TIMEOUT_SECS : Z := 30.
Definition MAX_HANDLES : Z := 1024.

(** Durations are in nanoseconds. *)
Definition nanos (secs : Z) : Z := secs * 10 ^ 9.

(* src: crates/racfs-vfs/src/handle_manager.rs 57-64 HandleManager::with_config *)
Definition with_config (lease_timeout_secs max : Z) : HandleManager :=
  {| handles := ∅; path_index := ∅; lease_timeout := nanos lease_timeout_secs; max_handles := max |}.

(* src: crates/racfs-vfs/src/handle_manager.rs 47-54 HandleManager::new *)
Definition new : HandleManager := with_config DEFAULT_LEASE_TIMEOUT_SECS MAX_HANDLES.

(** The text of an identifier is the UUID library's and does not matter here. *)
Section Ops.
Context (id_text : HandleId -> string).
Implicit Types (now : Now) (i : HandleId).

(** The first critical section of [open_handle]. *)
(* src: crates/racfs-vfs/src/handle_manager.rs 68-71 HandleManager::open_handle *)
Definition check_limit : FsOp HandleManager () :=
  s ← get;
  fail_if (max_handles s <=? Z.of_nat (base.size (handles s))) TooManyOpenFiles.

(** The second one: the handle that is already open for the key. *)
(* src: crates/racfs-vfs/src/handle_manager.rs 73-80 HandleManager::open_handle *)
Definition find_open (key : HandleKey) : FsOp HandleManager (option FileHandle) :=
  gets (fun s => existing_id ← path_index s !! key; handle <$> handles s !! existing_id).

(** The third one, under both write locks. *)
(* src: crates/racfs-vfs/src/handle_manager.rs 82-108 HandleManager::open_handle *)
Definition insert_open now (fresh : HandleId) (p : Path) (fl : Z) : FsOp HandleManager FileHandle :=
  let key := (components p, fl) in
  existing ← find_open key;
  match existing with
  | Some h => mret h
  | None =>
    let h := Handle.new fresh p fl in
    modify (fun s => set_handles
      (<[Handle.id h := {| handle := h; created := now 0%nat; last_accessed := now 1%nat |}]> (handles s)) s) ;;
    modify (fun s => set_index (<[key := Handle.id h]> (path_index s)) s) ;;
    mret h
  end.

(* src: crates/racfs-vfs/src/handle_manager.rs 67-109 HandleManager::open_handle *)
Definition open_handle now (fresh : HandleId) (p : Path) (fl : Z) : FsOp HandleManager FileHandle :=
  check_limit ;;
  existing ← find_open (components p, fl);
  match existing with
  | Some h => mret h
  | None => insert_open now fresh p fl
  end.

(* src: crates/racfs-vfs/src/handle_manager.rs 112-131 HandleManager::close_handle *)
Definition close_handle i : FsOp HandleManager () :=
  s ← get;
  entry ← lift (ok_or (handles s !! i) (InvalidHandle (id_text i)));
  put (set_index (delete (handle_key (handle entry)) (path_index s))
         (set_handles (delete i (handles s)) s)).

(** [handles.get_mut(handle_id)]: change the entry in place. *)
Definition with_entry {A} i (f : HandleEntry -> A * HandleEntry) : FsOp HandleManager A :=
  s ← get;
  entry ← lift (ok_or (handles s !! i) (InvalidHandle (id_text i)));
  put (set_handles (<[i := snd (f entry)]> (handles s)) s) ;;
  mret (fst (f entry)).

Definition touch_entry (t : Z) (h : FileHandle) (e : HandleEntry) : HandleEntry :=
  {| handle := h; created := created e; last_accessed := t |}.

(* src: crates/racfs-vfs/src/handle_manager.rs 134-147 HandleManager::get_handle *)
Definition get_handle now i : FsOp HandleManager FileHandle :=
  with_entry i (fun e => (handle e, touch_entry (now 0%nat) (handle e) e)).

(* src: crates/racfs-vfs/src/handle_manager.rs 150-161 HandleManager::renew_lease *)
Definition renew_lease now i : FsOp HandleManager () :=
  with_entry i (fun e => ((), touch_entry (now 0%nat) (handle e) e)).

(* src: crates/racfs-vfs/src/handle_manager.rs 164-176 HandleManager::update_offset *)
Definition update_offset now i (offset : Z) : FsOp HandleManager () :=
  with_entry i (fun e => ((), touch_entry (now 0%nat) (Handle.seek offset (handle e)) e)).

Definition is_expired (s : HandleManager) (t : Z) (e : HandleEntry) : bool :=
  lease_timeout s <=? Z.max 0 (t - last_accessed e).

(* src: crates/racfs-vfs/src/handle_manager.rs 181-210 HandleManager::cleanup_expired *)
Definition cleanup_expired now : FsOp HandleManager Z :=
  s ← get;
  let expired := List.filter (fun ie => is_expired s (now 0%nat) (snd ie)) (map_to_list (handles s)) in
  put (set_handles (fold_left (fun m ie => delete (fst ie) m) expired (handles s))
        (set_index (fold_left (fun m ie => delete (handle_key (handle (snd ie))) m) expired
                      (path_index s)) s)) ;;
  mret (len expired).

(* src: crates/racfs-vfs/src/handle_manager.rs 213-215 HandleManager::len *)
Definition open_count (s : HandleManager) : Z := Z.of_nat (base.size (handles s)).
(* src: crates/racfs-vfs/src/handle_manager.rs 218-220 HandleManager::is_empty *)
Definition no_handles (s : HandleManager) : bool := bool_decide (handles s = ∅).
(* src: crates/racfs-vfs/src/handle_manager.rs 223-225 HandleManager::list_handles *)
Definition list_handles (s : HandleManager) : list HandleId := (map_to_list (handles s)).*1.
End Ops.

#[global] Instance HandleEntry_eq_dec : EqDecision HandleEntry.
Proof. solve_decision. Defined.

(** ** The two indexes agree *)

Record indexed (s : HandleManager) : Prop := {
  ix_index : forall k i, path_index s !! k = Some i ->
             exists e, handles s !! i = Some e /\ handle_key (handle e) = k;
  ix_handles : forall i e, handles s !! i = Some e ->
               path_index s !! handle_key (handle e) = Some i /\ Handle.id (handle e) = i
}.

Section Index.
Context (id_text : HandleId -> string).
Implicit Types (s : HandleManager) (i : HandleId).

Lemma indexed_new t n : indexed (with_config t n).
Proof. split; simpl; intros; by rewrite lookup_empty in *. Qed.

Lemma find_open_run s k :
  indexed s ->
  find_open k s = (Ok (match path_index s !! k with
                       | Some i => handle <$> handles s !! i
                       | None => None
                       end), s).
Proof. intros _. unfold find_open. munfold. by destruct (path_index s !! k). Qed.

(** What the last critical section does. *)
Lemma insert_open_run now fresh p fl s :
  indexed s -> handles s !! fresh = None ->
  exists h s', insert_open now fresh p fl s = (Ok h, s') /\ indexed s' /\
    lease_timeout s' = lease_timeout s /\ max_handles s' = max_handles s /\
    handle_key h = (components p, fl) /\
    match path_index s !! (components p, fl) with
    | Some i => s' = s /\ Handle.id h = i
    | None => h = Handle.new fresh p fl /\
              base.size (handles s') = S (base.size (handles s))
    end.
Proof.
  intros Hix Hf. unfold insert_open. munfold. unfold find_open. munfold.
  destruct (path_index s !! (components p, fl)) as [i|] eqn:E; simpl.
  - destruct (ix_index _ Hix _ _ E) as (e & He & Hk). rewrite He. simpl.
    exists (handle e), s. destruct (ix_handles _ Hix _ _ He) as [_ Hid].
    repeat (split; [done|]). done.
  - eexists _, _. split; [reflexivity|]. split.
    2: { repeat (split; [done|]). simpl. by rewrite map_size_insert_None. }
    destruct Hix as [H1 H2]. split; simpl.
    + intros k i. rewrite lookup_insert. case_decide as Hk.
      * intros; simplify_eq. rewrite lookup_insert_eq. by eexists.
      * intros Hi. destruct (H1 _ _ Hi) as (e & He & Hke). exists e. split; [|done].
        rewrite lookup_insert_ne; [done|]. intros ->. by rewrite Hf in He.
    + intros i e. rewrite lookup_insert. case_decide as Hi.
      * intros; simplify_eq. simpl. by rewrite lookup_insert_eq.
      * intros He. destruct (H2 _ _ He) as [Hidx Hid]. split; [|done].
        rewrite lookup_insert_ne; [done|]. intros Hk. rewrite <- Hk in Hidx. congruence.
Qed.

Lemma indexed_delete s i e :
  indexed s -> handles s !! i = Some e ->
  indexed (set_index (delete (handle_key (handle e)) (path_index s)) (set_handles (delete i (handles s)) s)).
Proof.
  intros [H1 H2] He. split; simpl.
  - intros k j. rewrite lookup_delete. case_decide as Hk; [done|]. intros Hj.
    destruct (H1 _ _ Hj) as (e' & He' & Hk'). exists e'. split; [|done].
    rewrite lookup_delete_ne; [done|]. intros ->. congruence.
  - intros j e'. rewrite lookup_delete. case_decide as Hj; [done|]. intros He'.
    destruct (H2 _ _ He') as [Hi' Hid]. split; [|done].
    rewrite lookup_delete_ne; [done|]. intros Hk. destruct (H2 _ _ He) as [Hi _]. congruence.
Qed.

Lemma keeps_close i : keeps indexed (close_handle id_text i).
Proof.
  intros s Hix. unfold close_handle. munfold.
  destruct (handles s !! i) as [e|] eqn:E; simpl; [|done]. intros _. by apply indexed_delete.
Qed.

Lemma keeps_entry_update {A} i (f : HandleEntry -> A * HandleEntry) :
  (forall e, handle_key (handle (snd (f e))) = handle_key (handle e) /\
             Handle.id (handle (snd (f e))) = Handle.id (handle e)) ->
  keeps indexed (with_entry id_text i f).
Proof.
  intros Hf s [H1 H2]. unfold with_entry. munfold.
  destruct (handles s !! i) as [e|] eqn:E; simpl; [|done]. intros _.
  destruct (Hf e) as [Hk Hid]. split; simpl.
  - intros k j Hj. destruct (H1 _ _ Hj) as (e' & He' & Hk'). rewrite lookup_insert.
    case_decide as Hij; [|eauto]. simplify_eq. eexists. split; [done|apply Hf].
  - intros j e'. rewrite lookup_insert. case_decide as Hij; [|apply H2].
    intros; simplify_eq. destruct (H2 _ _ E) as [Hi Hd].
    rewrite (proj1 (Hf e)), (proj2 (Hf e)). done.
Qed.

Lemma cleanup_fold (l : list (HandleId * HandleEntry)) s :
  indexed s -> (forall ie, ie ∈ l -> handles s !! fst ie = Some (snd ie)) -> NoDup l.*1 ->
  let s' := set_handles (fold_left (fun m ie => delete (fst ie) m) l (handles s))
        (set_index (fold_left (fun m ie => delete (handle_key (handle (snd ie))) m) l (path_index s)) s) in
  indexed s' /\
  (forall i, handles s' !! i = if decide (i ∈ l.*1) then None else handles s !! i).
Proof.
  revert s. induction l as [|[i e] l IH]; intros s Hix Hl Hnd; simpl.
  - split; [by destruct s, Hix|]. done.
  - apply NoDup_cons in Hnd as [Hni Hnd].
    assert (He : handles s !! i = Some e) by apply (Hl (i, e)), elem_of_cons, or_introl, eq_refl.
    destruct (IH _ (indexed_delete s i e Hix He)) as [Hi Hd]; [|done|].
    { intros ie Hin. simpl. rewrite lookup_delete_ne.
      - apply Hl. by apply elem_of_cons; right.
      - intros ->. apply Hni. apply list_elem_of_fmap. by exists ie. }
    split; [exact Hi|]. intros j. etransitivity; [apply Hd|].
    destruct (decide (j ∈ l.*1)) as [Hin|Hin].
    + rewrite decide_True; [done|]. by apply elem_of_cons; right.
    + cbn [handles set_handles set_index]. rewrite lookup_delete. destruct (decide (i = j)) as [->|Hne].
      * rewrite decide_True; [done|]. apply elem_of_cons. by left.
      * rewrite decide_False; [done|]. intros [Heq|Hm]%elem_of_cons; [simpl in Heq; congruence|by apply Hin].
Qed.

Lemma cleanup_run now s :
  indexed s ->
  indexed (snd (cleanup_expired now s)) /\
  forall i, handles (snd (cleanup_expired now s)) !! i
            = (e ← handles s !! i; if is_expired s (now 0%nat) e then None else Some e).
Proof.
  intros Hix. unfold cleanup_expired. munfold.
  set (l := List.filter _ _).
  assert (Hin : forall ie, ie ∈ l <-> handles s !! fst ie = Some (snd ie) /\ is_expired s (now 0%nat) (snd ie) = true).
  { intros [i e]. subst l. rewrite list_elem_of_In, filter_In, <- list_elem_of_In. simpl.
    by rewrite elem_of_map_to_list. }
  destruct (cleanup_fold l s Hix) as [Hi Hd].
  - intros ie Hie. by apply Hin in Hie as [? _].
  - subst l. clear Hin. generalize (NoDup_fst_map_to_list (handles s)).
    induction (map_to_list (handles s)) as [|ie m IH]; simpl; [done|].
    intros [Hni Hnd]%NoDup_cons. destruct (is_expired s (now 0%nat) (snd ie)); [|auto].
    simpl. apply NoDup_cons. split; [|auto]. intros (x & Hx & Hxm)%list_elem_of_fmap.
    apply Hni. apply list_elem_of_fmap. exists x. split; [done|].
    rewrite list_elem_of_In, filter_In in Hxm. apply list_elem_of_In. tauto.
  - split; [exact Hi|]. intros i. etransitivity; [apply Hd|].
    destruct (handles s !! i) as [e|] eqn:E; simpl; [|by case_decide].
    destruct (is_expired s (now 0%nat) e) eqn:Ex.
    + rewrite decide_True; [done|]. apply list_elem_of_fmap. exists (i, e). split; [done|]. by apply Hin.
    + rewrite decide_False; [done|]. intros (ie & -> & Hie)%list_elem_of_fmap.
      apply Hin in Hie as [? ?]. congruence.
Qed.
End Index.

(** ** Tasks that open handles at the same time *)

(** Where a task is in [open_handle]: not in it, before, between or behind the
    first two critical sections. *)
Inductive task :=
| Idle
| Started (p : Path) (fl : Z)
| Checked (p : Path) (fl : Z)
| Missed (p : Path) (fl : Z).

Record system := { manager : HandleManager; tasks : list task }.

Definition goes_on (t : task) : bool :=
  match t with Checked _ _ | Missed _ _ => true | _ => false end.

(** Any task makes its next step; the other operations are one critical section
    each.  A new identifier is one that is not in use. *)
Inductive sys_step (id_text : HandleId -> string) : system -> system -> Prop :=
| ss_start m ts i p fl :
    ts !! i = Some Idle -> sys_step id_text (Build_system m ts) (Build_system m (<[i := Started p fl]> ts))
| ss_check m ts i p fl :
    ts !! i = Some (Started p fl) ->
    sys_step id_text (Build_system m ts)
      (match check_limit m with
       | (Ok _, m') => Build_system m' (<[i := Checked p fl]> ts)
       | (_, m') => Build_system m' (<[i := Idle]> ts)
       end)
| ss_find m ts i p fl :
    ts !! i = Some (Checked p fl) ->
    sys_step id_text (Build_system m ts)
      (match find_open (components p, fl) m with
       | (Ok None, m') => Build_system m' (<[i := Missed p fl]> ts)
       | (_, m') => Build_system m' (<[i := Idle]> ts)
       end)
| ss_insert m ts i p fl now fresh :
    ts !! i = Some (Missed p fl) -> handles m !! fresh = None ->
    sys_step id_text (Build_system m ts)
      (Build_system (exec (insert_open now fresh p fl) m) (<[i := Idle]> ts))
| ss_close m ts i : sys_step id_text (Build_system m ts) (Build_system (exec (close_handle id_text i) m) ts)
| ss_get m ts i now : sys_step id_text (Build_system m ts) (Build_system (exec (get_handle id_text now i) m) ts)
| ss_renew m ts i now : sys_step id_text (Build_system m ts) (Build_system (exec (renew_lease id_text now i) m) ts)
| ss_offset m ts i now o :
    sys_step id_text (Build_system m ts) (Build_system (exec (update_offset id_text now i o) m) ts)
| ss_cleanup m ts now : sys_step id_text (Build_system m ts) (Build_system (exec (cleanup_expired now) m) ts).

(** The tasks that have passed the limit check and may still insert. *)
Definition pending_inserts (ts : list task) : nat := length (List.filter goes_on ts).

Record sys_ok (max : Z) (n : nat) (s : system) : Prop := {
  so_indexed : indexed (manager s);
  so_max : max_handles (manager s) = max;
  so_tasks : length (tasks s) = n;
  so_bound : Z.of_nat (base.size (handles (manager s))) + Z.of_nat (pending_inserts (tasks s))
             <= max - 1 + Z.of_nat n
}.

Section Concurrent.
Context (id_text : HandleId -> string).

Lemma pending_insert ts i t t' :
  ts !! i = Some t ->
  Z.of_nat (pending_inserts (<[i := t']> ts))
  = Z.of_nat (pending_inserts ts) + (if goes_on t' then 1 else 0) - (if goes_on t then 1 else 0).
Proof. apply filter_insert_length. Qed.

Lemma pending_le ts : (pending_inserts ts <= length ts)%nat.
Proof. unfold pending_inserts. induction ts as [|x ts IH]; simpl; [lia|]. destruct (goes_on x); simpl; lia. Qed.

(** A task that has not passed the check leaves room for itself. *)
Lemma pending_lt ts i t : ts !! i = Some t -> goes_on t = false -> (pending_inserts ts < length ts)%nat.
Proof.
  revert i. induction ts as [|x ts IH]; intros [|i]; simpl; try done; unfold pending_inserts; simpl.
  - intros; simplify_eq. destruct (goes_on t); [done|]. pose proof (pending_le ts). unfold pending_inserts in *. lia.
  - intros Hi Ht. specialize (IH i Hi Ht). unfold pending_inserts in IH. destruct (goes_on x); simpl; lia.
Qed.

(** The number of open handles does not grow but by an insertion. *)
Lemma sys_ok_manager max n m ts m' :
  sys_ok max n (Build_system m ts) -> indexed m' -> max_handles m' = max_handles m ->
  (base.size (handles m') <= base.size (handles m))%nat -> sys_ok max n (Build_system m' ts).
Proof. intros [H1 H2 H3 H4] Hi Hmax Hs. simpl in *. constructor; simpl; [done|congruence|done|lia]. Qed.

Lemma with_entry_size {A} i (f : HandleEntry -> A * HandleEntry) m :
  max_handles (exec (with_entry id_text i f) m) = max_handles m /\
  base.size (handles (exec (with_entry id_text i f) m)) = base.size (handles m).
Proof.
  unfold with_entry. munfold. destruct (handles m !! i) eqn:E; simpl; [|done]. split; [done|].
  by apply map_size_insert_Some.
Qed.

Lemma delete_all_size (l : list (HandleId * HandleEntry)) (m : gmap HandleId HandleEntry) :
  (base.size (fold_left (fun m ie => delete (fst ie) m) l m) <= base.size m)%nat.
Proof.
  revert m. induction l as [|ie l IH]; intros m; simpl; [lia|].
  etransitivity; [apply IH|]. apply map_subseteq_size, delete_subseteq.
Qed.

Lemma exec_keeps {A} (f : FsOp HandleManager A) m :
  keeps indexed f -> returned (fst (f m)) = true -> indexed m -> indexed (exec f m).
Proof. intros Hk Hr Hm. by apply Hk. Qed.

Lemma sys_ok_with_entry {A} max n i (f : HandleEntry -> A * HandleEntry) m ts :
  (forall e, handle_key (handle (snd (f e))) = handle_key (handle e) /\
             Handle.id (handle (snd (f e))) = Handle.id (handle e)) ->
  sys_ok max n (Build_system m ts) ->
  sys_ok max n (Build_system (exec (with_entry id_text i f) m) ts).
Proof.
  intros Hf Hs. destruct (with_entry_size i f m) as [Hm Hz].
  apply (sys_ok_manager _ _ m); [done| |done|lia].
  apply exec_keeps; [by apply keeps_entry_update| |apply Hs].
  unfold with_entry. munfold. by destruct (handles m !! i).
Qed.

Lemma sys_step_ok max n s s' : sys_step id_text s s' -> sys_ok max n s -> sys_ok max n s'.
Proof.
  intros Hstep Hs.
  destruct Hstep as [m ts i p fl Hi|m ts i p fl Hi|m ts i p fl Hi|m ts i p fl now fresh Hi Hf
                    |m ts i|m ts i now|m ts i now|m ts i now o|m ts now];
    pose proof Hs as [H1 H2 H3 H4]; cbn [manager tasks] in *.
  - pose proof (pending_insert ts i Idle (Started p fl) Hi) as Hp. simpl in Hp.
    constructor; simpl; [done|done|by rewrite length_insert|lia].
  - unfold check_limit. munfold. pose proof (pending_lt ts i _ Hi eq_refl).
    destruct (Z.leb_spec (max_handles m) (Z.of_nat (base.size (handles m)))).
    + pose proof (pending_insert ts i _ Idle Hi) as Hp. simpl in Hp.
      constructor; simpl; [done|done|by rewrite length_insert|lia].
    + pose proof (pending_insert ts i _ (Checked p fl) Hi) as Hp. simpl in Hp.
      constructor; simpl; [done|done|by rewrite length_insert|lia].
  - rewrite find_open_run by done.
    destruct (path_index m !! (components p, fl)) as [j|] eqn:E;
      [destruct (ix_index _ H1 _ _ E) as (e & He & _); rewrite He; simpl|];
      [pose proof (pending_insert ts i _ Idle Hi) as Hp|pose proof (pending_insert ts i _ (Missed p fl) Hi) as Hp];
      simpl in Hp; constructor; simpl; try done; try (by rewrite length_insert); lia.
  - destruct (insert_open_run now fresh p fl m H1 Hf) as (h & m' & Hr & Hix & _ & Hmax & _ & Hsz).
    unfold exec. rewrite Hr. simpl.
    pose proof (pending_insert ts i _ Idle Hi) as Hp. simpl in Hp.
    constructor; simpl; [done|congruence|by rewrite length_insert|].
    destruct (path_index m !! (components p, fl)); [destruct Hsz as [-> _]|]; lia.
  - apply (sys_ok_manager _ _ m); [done| | |].
    + apply exec_keeps; [apply keeps_close| |done]. unfold close_handle. munfold. by destruct (handles m !! i).
    + unfold close_handle. munfold. by destruct (handles m !! i).
    + unfold close_handle. munfold. destruct (handles m !! i); simpl; [|done].
      apply map_subseteq_size, delete_subseteq.
  - by apply sys_ok_with_entry.
  - by apply sys_ok_with_entry.
  - by apply sys_ok_with_entry.
  - apply (sys_ok_manager _ _ m); [done|by apply cleanup_run|done|].
    unfold cleanup_expired. munfold. apply delete_all_size.
Qed.

(** C13: whatever [n] concurrent callers do, one critical section at a time, the
    two indexes agree (a path and flags have at most one handle, found under
    its own identifier), and there are at most [max_handles - 1 + n] open
    handles; one caller alone stays within [max_handles]. *)
Theorem handle_manager_concurrent_ok timeout max n s :
  1 <= max ->
  rtc (sys_step id_text) (Build_system (with_config timeout max) (replicate n Idle)) s ->
  indexed (manager s) /\ open_count (manager s) <= max - 1 + Z.of_nat n.
Proof.
  intros Hmax Hr.
  assert (Hok : sys_ok max n s).
  { remember (Build_system (with_config timeout max) (replicate n Idle)) as s0 eqn:Es.
    assert (H0 : sys_ok max n s0).
    { subst. constructor; simpl; [apply indexed_new|done|by rewrite length_replicate|].
      replace (pending_inserts (replicate n Idle)) with 0%nat; [rewrite map_size_empty; lia|].
      clear Hr. induction n as [|n IH]; [done|exact IH]. }
    clear Es. induction Hr as [|x y z Hxy Hyz IH]; [done|]. apply IH. by eapply sys_step_ok. }
  destruct Hok as [H1 H2 H3 H4]. split; [done|]. unfold open_count. lia.
Qed.

(** The limit is not one: two callers that both check before either has
    inserted leave two handles open with [max_handles] 1. *)
Theorem handle_limit_exceeded timeout :
  exists s, rtc (sys_step id_text) (Build_system (with_config timeout 1) [Idle; Idle]) s /\
            open_count (manager s) = 2 /\ max_handles (manager s) = 1.
Proof.
  set (now := fun _ : nat => 0).
  eexists. split.
  - eapply rtc_l; [apply (ss_start _ _ _ 0 "/a" 1); reflexivity|].
    eapply rtc_l; [apply (ss_start _ _ _ 1 "/b" 1); reflexivity|].
    eapply rtc_l; [apply (ss_check _ _ _ 0 "/a" 1); reflexivity|].
    eapply rtc_l; [apply (ss_check _ _ _ 1 "/b" 1); reflexivity|].
    eapply rtc_l; [apply (ss_find _ _ _ 0 "/a" 1); reflexivity|].
    eapply rtc_l; [apply (ss_find _ _ _ 1 "/b" 1); reflexivity|].
    eapply rtc_l; [apply (ss_insert _ _ _ 0 "/a" 1 now 10); reflexivity|].
    eapply rtc_l; [apply (ss_insert _ _ _ 1 "/b" 1 now 11); reflexivity|].
    apply rtc_refl.
  - vm_compute. done.
Qed.

(** [open_handle] alone: at the limit it is refused, for a key that is open
    too; below it, a key that is open gets the handle it has, and any other key
    a new handle, which is then found by its identifier. *)
Theorem open_handle_spec now now' fresh p fl s :
  indexed s -> handles s !! fresh = None ->
  if max_handles s <=? open_count s then
    open_handle now fresh p fl s = (Err TooManyOpenFiles, s)
  else
    exists h s', open_handle now fresh p fl s = (Ok h, s') /\ indexed s' /\
      Handle.flags h = fl /\ components (Handle.path h) = components p /\
      open_count s' <= max_handles s /\
      fst (get_handle id_text now' (Handle.id h) s') = Ok h /\
      match path_index s !! (components p, fl) with
      | Some i => s' = s /\ Handle.id h = i
      | None => h = Handle.new fresh p fl
      end.
Proof.
  intros Hix Hf. unfold open_handle, check_limit, open_count. rewrite !run_bind. simpl.
  destruct (Z.leb_spec (max_handles s) (Z.of_nat (base.size (handles s)))); [done|]. simpl.
  rewrite run_bind, find_open_run by done.
  assert (Hget : forall s' h, indexed s' -> path_index s' !! handle_key h = Some (Handle.id h) ->
            (exists e, handles s' !! Handle.id h = Some e /\ handle e = h) ->
            fst (get_handle id_text now' (Handle.id h) s') = Ok h).
  { intros s' h _ _ (e & He & <-). unfold get_handle, with_entry. munfold. by rewrite He. }
  destruct (path_index s !! (components p, fl)) as [i|] eqn:E.
  - destruct (ix_index _ Hix _ _ E) as (e & He & Hk). rewrite He. simpl.
    destruct (ix_handles _ Hix _ _ He) as [Hi Hid].
    exists (handle e), s. unfold handle_key in Hk. simplify_eq.
    repeat (split; [done|]). split; [lia|]. split; [|done].
    apply Hget; [done|done|]. by exists e.
  - destruct (insert_open_run now fresh p fl s Hix Hf) as (h & s' & Hr & Hix' & _ & Hmax & Hk & Hcase).
    rewrite Hr. exists h, s'. rewrite E in Hcase. destruct Hcase as [-> Hsz].
    split; [done|]. split; [done|]. split; [done|]. split; [done|]. split; [lia|]. split; [|done].
    simpl. unfold insert_open in Hr. rewrite run_bind, find_open_run, E in Hr by done.
    munfold. simplify_eq. unfold get_handle, with_entry. munfold. by rewrite lookup_insert_eq.
Qed.

(** [cleanup_expired] takes exactly the handles whose lease has run out,
    keeps the indexes in step, and the key of a handle it took can be opened
    again. *)
Theorem cleanup_expired_spec now s :
  indexed s ->
  let s' := snd (cleanup_expired now s) in
  indexed s' /\
  (forall i e, handles s' !! i = Some e <->
     handles s !! i = Some e /\ Z.max 0 (now 0%nat - last_accessed e) < lease_timeout s) /\
  (forall i e, handles s !! i = Some e -> lease_timeout s <= Z.max 0 (now 0%nat - last_accessed e) ->
     path_index s' !! handle_key (handle e) = None).
Proof.
  intros Hix s'. destruct (cleanup_run now s Hix) as [Hi Hl]. split; [exact Hi|].
  assert (Hiff : forall i e, handles s' !! i = Some e <->
     handles s !! i = Some e /\ Z.max 0 (now 0%nat - last_accessed e) < lease_timeout s).
  { intros i e. subst s'. rewrite Hl. unfold is_expired. destruct (handles s !! i) as [e'|]; simpl.
    - destruct (Z.leb_spec (lease_timeout s) (Z.max 0 (now 0%nat - last_accessed e')));
        split; intros; destruct_and?; simplify_eq; done || lia.
    - split; [done|by intros [? _]]. }
  split; [exact Hiff|]. intros i e He Hexp.
  destruct (path_index s' !! handle_key (handle e)) as [j|] eqn:E; [|done]. exfalso.
  destruct (ix_index _ Hi _ _ E) as (e' & He' & Hk). apply Hiff in He' as [He' Hlive].
  destruct (ix_handles _ Hix _ _ He) as [Hidx _]. destruct (ix_handles _ Hix _ _ He') as [Hidx' _].
  rewrite Hk in Hidx'. assert (i = j) as -> by congruence. simplify_eq. lia.
Qed.
End Concurrent.

(** ** Witnesses *)

Definition text0 (i : HandleId) : string := to_string i.

Definition one_open : HandleManager :=
  exec (open_handle (fun _ => 0) 7 "/a" 1) (with_config 1 2).

Lemma one_open_indexed : indexed one_open.
Proof.
  pose proof (insert_open_run (fun _ => 0) 7 "/a" 1 (with_config 1 2) (indexed_new 1 2) eq_refl)
    as (h & s' & Hr & Hi & _).
  replace one_open with s'; [done|]. change one_open with (snd (insert_open (fun _ => 0) 7 "/a" 1 (with_config 1 2))).
  by rewrite Hr.
Qed.

Lemma handle_manager_concurrent_ok_witness :
  indexed (manager (Build_system (with_config 5 3) [Started "/a" 1; Idle])) /\
  open_count (with_config 5 3) <= 4.
Proof.
  apply (handle_manager_concurrent_ok text0 5 3 2 (Build_system (with_config 5 3) [Started "/a" 1; Idle])).
  - lia.
  - eapply rtc_l; [apply (ss_start _ _ _ 0 "/a" 1); reflexivity|apply rtc_refl].
Defined.

Lemma open_handle_spec_witness :
  exists h s', open_handle (fun _ => 0) 8 "/a/" 1 one_open = (Ok h, s') /\ s' = one_open /\ Handle.id h = 7.
Proof.
  destruct (open_handle_spec text0 (fun _ => 0) (fun _ => 0) 8 "/a/" 1 one_open one_open_indexed eq_refl)
    as (h & s' & H1 & _ & _ & _ & _ & _ & H2).
  exists h, s'. split; [exact H1|exact H2].
Defined.

Lemma cleanup_expired_spec_witness :
  path_index (snd (cleanup_expired (fun _ => 10 ^ 9) one_open)) !! (components "/a", 1) = None.
Proof.
  destruct (cleanup_expired_spec (fun _ => 10 ^ 9) one_open one_open_indexed) as (_ & _ & H).
  apply (H 7 {| handle := Handle.new 7 "/a" 1; created := 0; last_accessed := 0 |});
    vm_compute; congruence.
Defined.
