(* ===== verification/MountableFS.v ===== *)
(** * MountableFS: several backends behind one tree
    ([crates/racfs-vfs/src/mountable_fs.rs])

    The backends are shared objects ([Arc<dyn FileSystem>]): an [ArcId] is the
    identity that [Arc::ptr_eq] compares, and [arcs] the state each of them is
    in.  The [radix_trie] crate is a parameter: a map from strings, with the
    laws of its documented [get], [insert] and [remove]. *)

From S2P Require Import Prelude Text RPath FsError Metadata Flags Handle FileSystem AbsPath HelloFS HandleManager.
From Stdlib Require Import Strings.Ascii.
From Stdlib Require Strings.String.

(** The identity of a backend. *)
Abbreviation ArcId := nat.

(** [radix_trie::Trie<String, Arc<dyn FileSystem>>] *)
Class Trie (T : Type) := {
  trie_new : T;
  trie_get : string -> T -> option ArcId;
  trie_insert : string -> ArcId -> T -> T;
  trie_remove : string -> T -> T
}.

Class TrieLaws (T : Type) `{Trie T} : Prop := {
  trie_get_new k : trie_get k trie_new = None;
  trie_get_insert k a t k' :
    trie_get k' (trie_insert k a t) = if String.eqb k' k then Some a else trie_get k' t;
  trie_get_remove k t k' :
    trie_get k' (trie_remove k t) = if String.eqb k' k then None else trie_get k' t
}.

(* src: crates/racfs-vfs/src/mountable_fs.rs 29-33 MountableFS *)
Record MountableFS (T B : Type) := {
  mounts : PathMap ArcId;
  trie : T;
  handle_manager : HandleManager;
  arcs : ArcId -> B
}.
Arguments mounts {T B}.
Arguments trie {T B}.
Arguments handle_manager {T B}.
Arguments arcs {T B}.

(** ** Paths *)

(* src: crates/racfs-vfs/src/mountable_fs.rs 198-205 MountableFS::normalize_mount_point *)
Definition normalize_mount_point (p : Path) : Path :=
  if negb (ends_with p "/") && negb (String.eqb p "/") then join p "" else p.

(* src: crates/racfs-vfs/src/mountable_fs.rs 208-227 MountableFS::normalize_path *)
Definition normalize_path (p : Path) : Path :=
  let result := FileSystem.normalize_path p in
  if String.eqb result "" then join result "/" else result.

(* src: crates/racfs-vfs/src/mountable_fs.rs 230-237 MountableFS::path_to_key *)
Definition path_to_key (p : Path) : string := default p (strip_suffix_str p "/").

Section Ops.
Context {T B : Type} `{Trie T} `{FileSystem B}.
Implicit Types (s : MountableFS T B) (p : Path) (now : Now).
Abbreviation Op := (FsOp (MountableFS T B)).

Definition set_mounts m s : MountableFS T B :=
  {| mounts := m; trie := trie s; handle_manager := handle_manager s; arcs := arcs s |}.
Definition set_trie t s : MountableFS T B :=
  {| mounts := mounts s; trie := t; handle_manager := handle_manager s; arcs := arcs s |}.
Definition set_arc (a : ArcId) (b : B) s : MountableFS T B :=
  {| mounts := mounts s; trie := trie s; handle_manager := handle_manager s;
     arcs := fun i => if decide (i = a) then b else arcs s i |}.

(** The backends exist before they are mounted. *)
(* src: crates/racfs-vfs/src/mountable_fs.rs 37-43 MountableFS::new *)
Definition new (backends : ArcId -> B) : MountableFS T B :=
  {| mounts := ∅; trie := trie_new; handle_manager := HandleManager.new; arcs := backends |}.

(* src: crates/racfs-vfs/src/mountable_fs.rs 53-93 MountableFS::mount *)
Definition mount (mount_point : Path) (fs : ArcId) : Op () :=
  fail_if (String.eqb mount_point "/") (InvalidInput "cannot mount at root") ;;
  fail_if (existsb (fun c => String.eqb (component_str c) "") (components mount_point))
    (InvalidInput "invalid mount point") ;;
  s ← get;
  fail_if (pm_contains mount_point (mounts s)) (AlreadyExists mount_point) ;;
  let normalized := normalize_mount_point mount_point in
  modify (fun s => set_mounts (pm_insert normalized fs (mounts s)) s) ;;
  modify (fun s => set_trie (trie_insert (path_to_key normalized) fs (trie s)) s).

(* src: crates/racfs-vfs/src/mountable_fs.rs 96-118 MountableFS::unmount *)
Definition unmount (mount_point : Path) : Op () :=
  let normalized := normalize_mount_point mount_point in
  s ← get;
  fail_if (negb (pm_contains normalized (mounts s))) (NotFound normalized) ;;
  modify (fun s => set_mounts (pm_remove normalized (mounts s)) s) ;;
  modify (fun s => set_trie (trie_remove (path_to_key normalized) (trie s)) s).

(** [&key[..i]] *)
Definition str_prefix (key : string) (i : nat) : outcome FSError string :=
  if is_char_boundary key i then Ok (String.substring 0 i key) else Panic.

(** The loop over the prefixes of the key, from the longest to the empty one. *)
(* src: crates/racfs-vfs/src/mountable_fs.rs 127-142 MountableFS::resolve_fs *)
Definition best_prefix (key : string) (t : T) : outcome FSError (option ArcId * nat) :=
  fold_left
    (fun acc i =>
       best ← acc;
       prefix ← str_prefix key i;
       match trie_get prefix t with
       | Some fs_ptr =>
         let l := String.length prefix in
         if (snd best <=? l)%nat then Ok (Some fs_ptr, l) else Ok best
       | None => Ok best
       end)
    (rev (seq 0 (S (String.length key)))) (Ok (None, 0%nat)).

(** The search for the mount point's own text. *)
(* src: crates/racfs-vfs/src/mountable_fs.rs 151-166 MountableFS::resolve_fs *)
Definition best_mount (key : string) (entries : list (Path * ArcId)) : option Path * nat :=
  fold_left
    (fun best (e : Path * ArcId) =>
       let mount_key := path_to_key (fst e) in
       if starts_with key mount_key || String.eqb mount_key "" then
         let l := String.length mount_key in
         if (snd best <? l)%nat then (Some (fst e), l) else best
       else best)
    entries (None, 0%nat).

(** The path below the mount point. *)
(* src: crates/racfs-vfs/src/mountable_fs.rs 169-186 MountableFS::resolve_fs *)
Definition relative_to (mount_point normalized : Path) : Path :=
  let relative := if String.eqb mount_point "/" then normalized
                  else default normalized (path_strip_prefix normalized mount_point) in
  if String.eqb relative "" then "/"
  else if negb (path_starts_with relative "/") then join "/" relative
  else relative.

(* src: crates/racfs-vfs/src/mountable_fs.rs 121-189 MountableFS::resolve_fs *)
Definition resolve_fs p : Op (ArcId * Path) :=
  let normalized := normalize_path p in
  let key := path_to_key normalized in
  s ← get;
  best ← lift (best_prefix key (trie s));
  fs ← lift (ok_or (fst best) (NotFound normalized));
  let mount_point := default "/" (fst (best_mount key (pm_entries (mounts s)))) in
  mret (fs, relative_to mount_point normalized).

(** The iteration order of the map is unspecified. *)
(* src: crates/racfs-vfs/src/mountable_fs.rs 192-195 MountableFS::list_mounts *)
Definition list_mounts s : list Path := pm_keys (mounts s).

(** ** The calls *)

(** Run an operation of a backend on its object. *)
Definition on_arc {A} (a : ArcId) (m : FsOp B A) : Op A := fun s =>
  (fst (m (arcs s a)), set_arc a (snd (m (arcs s a))) s).

(** [let (fs, relative) = self.resolve_fs(path)?; fs.method(&relative, ..)] *)
Definition delegate {A} p (f : Path -> FsOp B A) : Op A :=
  fr ← resolve_fs p; on_arc (fst fr) (f (snd fr)).

(* src: crates/racfs-vfs/src/mountable_fs.rs 248-251 MountableFS::read *)
Definition read now p offset size : Op bytes := delegate p (fun r => fs_read now r offset size).
(* src: crates/racfs-vfs/src/mountable_fs.rs 253-256 MountableFS::stat *)
Definition stat now p : Op FileMetadata := delegate p (fun r => fs_stat now r).
(* src: crates/racfs-vfs/src/mountable_fs.rs 261-264 MountableFS::create *)
Definition create now p : Op () := delegate p (fun r => fs_create now r).
(* src: crates/racfs-vfs/src/mountable_fs.rs 266-275 MountableFS::write *)
Definition write now p data offset flags : Op Z :=
  delegate p (fun r => fs_write now r data offset flags).
(* src: crates/racfs-vfs/src/mountable_fs.rs 280-283 MountableFS::mkdir *)
Definition mkdir now p perm : Op () := delegate p (fun r => fs_mkdir now r perm).
(* src: crates/racfs-vfs/src/mountable_fs.rs 285-288 MountableFS::read_dir *)
Definition read_dir now p : Op (list FileMetadata) := delegate p (fun r => fs_read_dir now r).
(* src: crates/racfs-vfs/src/mountable_fs.rs 290-293 MountableFS::remove *)
Definition remove now p : Op () := delegate p (fun r => fs_remove now r).
(* src: crates/racfs-vfs/src/mountable_fs.rs 295-298 MountableFS::remove_all *)
Definition remove_all now p : Op () := delegate p (fun r => fs_remove_all now r).
(* src: crates/racfs-vfs/src/mountable_fs.rs 300-310 MountableFS::rename *)
Definition rename now old_path new_path : Op () :=
  fo ← resolve_fs old_path;
  fn ← resolve_fs new_path;
  fail_if (negb (Nat.eqb (fst fo) (fst fn))) CrossDeviceLink ;;
  on_arc (fst fo) (fs_rename now (snd fo) (snd fn)).
(* src: crates/racfs-vfs/src/mountable_fs.rs 315-318 MountableFS::chmod *)
Definition chmod now p mode : Op () := delegate p (fun r => fs_chmod now r mode).
(* src: crates/racfs-vfs/src/mountable_fs.rs 323-326 MountableFS::truncate *)
Definition truncate now p size : Op () := delegate p (fun r => fs_truncate now r size).
(* src: crates/racfs-vfs/src/mountable_fs.rs 328-331 MountableFS::touch *)
Definition touch now p : Op () := delegate p (fun r => fs_touch now r).
(* src: crates/racfs-vfs/src/mountable_fs.rs 333-336 MountableFS::readlink *)
Definition readlink now p : Op Path := delegate p (fun r => fs_readlink now r).
(* src: crates/racfs-vfs/src/mountable_fs.rs 338-342 MountableFS::symlink *)
Definition symlink now target link : Op () := delegate link (fun r => fs_symlink now target r).
(* src: crates/racfs-vfs/src/mountable_fs.rs 344-347 MountableFS::get_xattr *)
Definition get_xattr now p name : Op bytes := delegate p (fun r => fs_get_xattr now r name).
(* src: crates/racfs-vfs/src/mountable_fs.rs 349-352 MountableFS::set_xattr *)
Definition set_xattr now p name value : Op () := delegate p (fun r => fs_set_xattr now r name value).
(* src: crates/racfs-vfs/src/mountable_fs.rs 354-357 MountableFS::remove_xattr *)
Definition remove_xattr now p name : Op () := delegate p (fun r => fs_remove_xattr now r name).
(* src: crates/racfs-vfs/src/mountable_fs.rs 359-362 MountableFS::list_xattr *)
Definition list_xattr now p : Op (list string) := delegate p (fun r => fs_list_xattr now r).

#[export] Instance mountable_filesystem : FileSystem (MountableFS T B) := {|
  fs_read := read; fs_stat := stat; fs_create := create; fs_write := write; fs_mkdir := mkdir;
  fs_read_dir := read_dir; fs_remove := remove; fs_remove_all := remove_all; fs_rename := rename;
  fs_chmod := chmod; fs_truncate := truncate; fs_touch := touch; fs_readlink := readlink;
  fs_symlink := symlink; fs_get_xattr := get_xattr; fs_set_xattr := set_xattr;
  fs_remove_xattr := remove_xattr; fs_list_xattr := list_xattr
|}.
End Ops.

(** A trie for the witnesses. *)
#[global] Instance gmap_trie : Trie (gmap string ArcId) := {|
  trie_new := ∅;
  trie_get k t := t !! k;
  trie_insert k a t := <[k := a]> t;
  trie_remove k t := delete k t
|}.

#[global] Instance gmap_trie_laws : TrieLaws (gmap string ArcId).
Proof.
  split; intros; simpl.
  - apply lookup_empty.
  - rewrite lookup_insert. destruct (String.eqb_spec k' k); case_decide; congruence.
  - rewrite lookup_delete. destruct (String.eqb_spec k' k); case_decide; congruence.
Qed.

(** ** Strings of the keys *)

Lemma substring_prefix s p : starts_with s p = true -> String.substring 0 (String.length p) s = p.
Proof.
  intros [q ->]%prefix_inv. induction p as [|a p IH]; [by destruct q|].
  rewrite string_app_cons. simpl. by rewrite IH.
Qed.

Lemma prefix_substring s n : starts_with s (String.substring 0 n s) = true.
Proof.
  revert n. induction s as [|a s IH]; intros [|n]; simpl; try done.
  unfold starts_with in *. simpl. destruct (ascii_dec a a); [apply IH|done].
Qed.

Lemma length_substring s n : (n <= String.length s)%nat -> String.length (String.substring 0 n s) = n.
Proof.
  revert n. induction s as [|a s IH]; intros [|n]; simpl; try done; [lia|].
  intros. by rewrite IH by lia.
Qed.

Lemma prefix_length s p : starts_with s p = true -> (String.length p <= String.length s)%nat.
Proof. intros [q ->]%prefix_inv. rewrite string_length_app. lia. Qed.

Lemma prefix_same_length s p q :
  starts_with s p = true -> starts_with s q = true -> String.length p = String.length q -> p = q.
Proof.
  intros Hp Hq Hl. rewrite <- (substring_prefix s p Hp), <- (substring_prefix s q Hq). by rewrite Hl.
Qed.

Lemma strip_suffix_app s : strip_suffix_str (s +:+ "/") "/" = Some s.
Proof.
  assert (Hsub : forall (t u : string), String.substring (String.length t) (String.length u) (t +:+ u) = u /\
            String.substring 0 (String.length t) (t +:+ u) = t).
  { intros t u. induction t as [|a t [IH1 IH2]].
    - split; [|by destruct u]. change ("" +:+ u) with u. simpl. induction u as [|a u IH]; simpl; [done|]. by rewrite IH.
    - rewrite string_app_cons. split; simpl; [exact IH1|]. by rewrite IH2. }
  unfold strip_suffix_str, ends_with. rewrite string_length_app. simpl String.length.
  destruct (Nat.leb_spec 1 (String.length s + 1)); [|lia].
  replace (String.length s + 1 - 1)%nat with (String.length s) by lia.
  destruct (Hsub s "/") as [H1 H2]. simpl String.length in H1. rewrite H1, H2. done.
Qed.

Lemma ends_with_slash s : ends_with s "/" = true <-> exists t, s = t +:+ "/".
Proof.
  split.
  - unfold ends_with. simpl String.length. destruct (Nat.leb_spec 1 (String.length s)) as [Hl|]; [|done].
    intros He%String.eqb_eq. exists (String.substring 0 (String.length s - 1) s).
    rewrite <- He. clear He. revert Hl. induction s as [|a s IH]; simpl; [lia|]. intros _.
    rewrite Nat.sub_0_r. destruct s as [|b s]; [done|]. specialize (IH ltac:(simpl; lia)).
    simpl in *. rewrite string_app_cons. rewrite Nat.sub_0_r in IH. congruence.
  - intros [t ->]. pose proof (strip_suffix_app t) as H. unfold strip_suffix_str in H.
    by destruct (ends_with (t +:+ "/") "/").
Qed.

Lemma last_char_snoc t : last_char (t +:+ "/") = Some slash.
Proof. by rewrite last_char_app. Qed.

Lemma abs_not_slash_end l : names_ok l -> l <> [] -> ends_with (abs_path l) "/" = false.
Proof.
  intros Hl Hne. apply not_true_iff_false. intros [t Ht]%ends_with_slash.
  destruct (last_char_abs l Hl Hne) as (c & Hc & Hs). rewrite Ht, last_char_snoc in Hc. by simplify_eq.
Qed.

Lemma path_to_key_abs l : names_ok l -> l <> [] -> path_to_key (abs_path l) = abs_path l.
Proof.
  intros Hl Hne. unfold path_to_key, strip_suffix_str. by rewrite abs_not_slash_end.
Qed.

Lemma path_to_key_slash s : path_to_key (s +:+ "/") = s.
Proof. unfold path_to_key. by rewrite strip_suffix_app. Qed.

(** ** The two searches *)

Section Search.
Context {T : Type} `{TrieLaws T}.
Implicit Types (key : string) (t : T).

Definition boundaries key : Prop :=
  forall i, (i <= String.length key)%nat -> is_char_boundary key i = true.

Lemma ascii_boundaries key : is_ascii key = true -> boundaries key.
Proof.
  intros Ha i Hi. unfold is_char_boundary. destruct (Nat.eqb_spec i 0); [done|].
  destruct (as_bytes key !! i) as [b|] eqn:E.
  - unfold is_ascii in Ha. rewrite forallb_forall in Ha.
    specialize (Ha b). rewrite <- list_elem_of_In in Ha.
    assert (Hb : byte_val b < 128) by (apply Z.ltb_lt, Ha; by eapply list_elem_of_lookup_2).
    unfold is_cont. destruct (Z.leb_spec 128 (byte_val b)); [lia|done].
  - apply lookup_ge_None in E. pose proof (len_as_bytes key). unfold len, str_len in *.
    apply Nat.eqb_eq. lia.
Qed.

(** The longest prefix of at most [n] bytes that is a key of the trie. *)
Fixpoint longest key t (n : nat) : option (ArcId * nat) :=
  match trie_get (String.substring 0 n key) t with
  | Some a => Some (a, n)
  | None => match n with O => None | S m => longest key t m end
  end.

Definition prefix_step key t (acc : outcome FSError (option ArcId * nat)) (i : nat) :=
  best ← acc;
  prefix ← str_prefix key i;
  match trie_get prefix t with
  | Some fs_ptr =>
    let l := String.length prefix in
    if (snd best <=? l)%nat then Ok (Some fs_ptr, l) else Ok best
  | None => Ok best
  end.

Lemma best_prefix_fold key t :
  best_prefix key t = fold_left (prefix_step key t) (rev (seq 0 (S (String.length key)))) (Ok (None, 0%nat)).
Proof. reflexivity. Qed.

Lemma prefix_step_run key t best i :
  boundaries key -> (i <= String.length key)%nat ->
  prefix_step key t (Ok best) i =
    Ok (match trie_get (String.substring 0 i key) t with
        | Some a => if (snd best <=? i)%nat then (Some a, i) else best
        | None => best
        end).
Proof.
  intros Hb Hi. unfold prefix_step, str_prefix. simpl. rewrite (Hb i Hi). simpl.
  destruct (trie_get _ t); [|done]. rewrite length_substring by done. by destruct (_ <=? _)%nat.
Qed.

Lemma rev_seq_S n : rev (seq 0 (S n)) = n :: rev (seq 0 n).
Proof. by rewrite seq_S, rev_app_distr. Qed.

(** A match is kept: what follows is shorter. *)
Lemma fold_found key t a l n :
  boundaries key -> (n <= l)%nat -> (n <= S (String.length key))%nat ->
  fold_left (prefix_step key t) (rev (seq 0 n)) (Ok (Some a, l)) = Ok (Some a, l).
Proof.
  intros Hb. revert l. induction n as [|n IH]; intros l Hl Hn; [done|].
  rewrite rev_seq_S. cbn [fold_left]. rewrite prefix_step_run by (done || lia). simpl snd.
  replace (l <=? n)%nat with false by (symmetry; apply Nat.leb_gt; lia).
  destruct (trie_get _ t); apply IH; lia.
Qed.

Lemma best_prefix_run key t :
  boundaries key ->
  best_prefix key t = Ok (match longest key t (String.length key) with
                          | Some (a, n) => (Some a, n)
                          | None => (None, 0%nat)
                          end).
Proof.
  intros Hb. rewrite best_prefix_fold.
  enough (Hgen : forall n, (n <= String.length key)%nat ->
    fold_left (prefix_step key t) (rev (seq 0 (S n))) (Ok (None, 0%nat)) =
    Ok (match longest key t n with Some (a, m) => (Some a, m) | None => (None, 0%nat) end)) by by apply Hgen.
  induction n as [|n IH]; intros Hn; rewrite rev_seq_S; cbn [fold_left];
    rewrite prefix_step_run by done; cbn [snd Nat.leb]; simpl longest;
    destruct (trie_get _ t) as [a|] eqn:E.
  - done.
  - done.
  - apply fold_found; [done|lia|lia].
  - apply IH. lia.
Qed.

Lemma longest_found key t k a n :
  starts_with key k = true -> trie_get k t = Some a ->
  (forall k' a', starts_with key k' = true -> trie_get k' t = Some a' ->
                 (String.length k' <= String.length k)%nat) ->
  (String.length k <= n <= String.length key)%nat ->
  longest key t n = Some (a, String.length k).
Proof.
  intros Hk Ha Hmax. induction n as [|n IH]; intros Hn; simpl.
  - rewrite <- (substring_prefix key k Hk) in Ha at 1.
    replace (String.length k) with 0%nat in * by lia. by rewrite Ha.
  - destruct (decide (String.length k = S n)) as [He|Hne].
    + rewrite <- He, substring_prefix by done. by rewrite Ha.
    + destruct (trie_get (String.substring 0 (S n) key) t) as [a'|] eqn:E; [|apply IH; lia].
      specialize (Hmax _ _ (prefix_substring key (S n)) E).
      rewrite length_substring in Hmax by lia. lia.
Qed.


(** The mount that the second search stops at. *)
Lemma best_mount_found key (entries : list (Path * ArcId)) k :
  k ∈ entries.*1 -> starts_with key (path_to_key k) = true -> path_to_key k <> "" ->
  (forall k', k' ∈ entries.*1 -> starts_with key (path_to_key k') = true -> k' <> k ->
              (String.length (path_to_key k') < String.length (path_to_key k))%nat) ->
  fst (best_mount key entries) = Some k.
Proof.
  intros Hin Hk Hne Hmax.
  set (n := String.length (path_to_key k)) in *.
  assert (Hn : (0 < n)%nat) by (unfold n; destruct (path_to_key k); simpl; [done|lia]).
  unfold best_mount. set (step := fun best e => _).
  assert (Hlater : forall es, (forall k', k' ∈ es.*1 -> k' ∈ entries.*1) ->
            fst (fold_left step es (Some k, n)) = Some k).
  { induction es as [|[k' a'] es IH]; intros Hes; [done|]. cbn [fold_left].
    replace (step (Some k, n) (k', a')) with (Some k, n).
    { apply IH. intros k'' ?. apply Hes. by apply elem_of_cons; right. }
    unfold step. simpl. destruct (_ || _) eqn:E; [|done]. destruct (Nat.ltb_spec n (String.length (path_to_key k'))); [|done].
    exfalso. apply orb_true_iff in E as [E|E%String.eqb_eq]; [|rewrite E in *; simpl in *; lia].
    assert (Hk' : k' ∈ entries.*1) by (apply Hes; by apply elem_of_cons; left).
    destruct (decide (k' = k)) as [->|Hd]; [unfold n in *; lia|]. specialize (Hmax k' Hk' E Hd). lia. }
  assert (Hgen : forall es best, (forall k', k' ∈ es.*1 -> k' ∈ entries.*1) -> k ∈ es.*1 ->
            (snd best < n)%nat -> fst (fold_left step es best) = Some k); [|by apply Hgen].
  induction es as [|[k' a'] es IH]; intros best Hes Hkin Hb; [by apply elem_of_nil in Hkin|].
  cbn [fold_left]. destruct (decide (k' = k)) as [->|Hd].
  - replace (step best (k, a')) with (Some k, n).
    { apply Hlater. intros k'' ?. apply Hes. by apply elem_of_cons; right. }
    unfold step. simpl. rewrite Hk. simpl. fold n.
    destruct (Nat.ltb_spec (snd best) n); [done|lia].
  - apply IH.
    + intros k'' ?. apply Hes. by apply elem_of_cons; right.
    + apply elem_of_cons in Hkin as [Hkin|]; [simpl in Hkin; congruence|done].
    + unfold step. simpl. destruct (_ || _) eqn:E; [|done].
      destruct (Nat.ltb_spec (snd best) (String.length (path_to_key k'))); [|done]. simpl.
      apply orb_true_iff in E as [E|E%String.eqb_eq]; [|rewrite E; simpl; lia].
      apply Hmax; [|done|done]. apply Hes. by apply elem_of_cons; left.
Qed.

(** Every byte of the key that continues a character stops the first search. *)
Lemma best_prefix_panic key t i :
  (i <= String.length key)%nat -> is_char_boundary key i = false -> best_prefix key t = Panic.
Proof.
  intros Hi Hb. rewrite best_prefix_fold.
  assert (Hp : forall l, fold_left (prefix_step key t) l Panic = Panic) by (by induction l).
  assert (Hin : i ∈ rev (seq 0 (S (String.length key)))).
  { rewrite list_elem_of_In, <- in_rev, in_seq. lia. }
  generalize (None : option ArcId, 0%nat).
  induction (rev (seq 0 (S (String.length key)))) as [|j l IH]; intros best; [by apply elem_of_nil in Hin|].
  cbn [fold_left]. apply elem_of_cons in Hin as [<-|Hin].
  - replace (prefix_step key t (Ok best) i) with (@Panic FSError (option ArcId * nat)); [apply Hp|].
    unfold prefix_step, str_prefix. simpl. by rewrite Hb.
  - destruct (prefix_step key t (Ok best) j) as [best'|e| |] eqn:E; [by apply IH| |apply Hp|].
    + unfold prefix_step, str_prefix in E. simpl in E.
      destruct (is_char_boundary key j); simpl in E; [|done]. destruct (trie_get _ t); [|done].
      by destruct (_ <=? _)%nat.
    + unfold prefix_step, str_prefix in E. simpl in E.
      destruct (is_char_boundary key j); simpl in E; [|done]. destruct (trie_get _ t); [|done].
      by destruct (_ <=? _)%nat.
Qed.
End Search.

(** ** The mount table as a map from lists of names *)

Abbreviation Table := (gmap (list string) ArcId).

(** The two spellings of a mount point. *)
Definition mount_text (l : list string) (trailing : bool) : Path :=
  if trailing then abs_path l +:+ "/" else abs_path l.

Section Routes.
Context {T B : Type} `{TrieLaws T} `{FileSystem B}.
Implicit Types (s : MountableFS T B) (p : Path) (tbl : Table) (l m : list string).

Record routes tbl s : Prop := {
  ro_names : forall l a, tbl !! l = Some a -> names_ok l /\ l <> [];
  ro_trie : forall k a, trie_get k (trie s) = Some a <-> exists l, tbl !! l = Some a /\ k = abs_path l;
  ro_mounts : forall c k a, (mounts s : gmap _ _) !! c = Some (k, a) <->
              exists l, tbl !! l = Some a /\ c = RootDir :: map Normal l /\ k = abs_path l +:+ "/"
}.

Lemma mount_text_facts l b :
  names_ok l -> l <> [] ->
  components (mount_text l b) = RootDir :: map Normal l /\
  normalize_mount_point (mount_text l b) = abs_path l +:+ "/".
Proof.
  intros Hl Hne. pose proof (abs_not_slash_end l Hl Hne) as He.
  assert (Hnr : forall q, components q = RootDir :: map Normal l -> String.eqb q "/" = false).
  { intros q Hq. apply String.eqb_neq. intros ->. by destruct l. }
  assert (Hc : components (mount_text l b) = RootDir :: map Normal l).
  { unfold mount_text. destruct b; [rewrite components_snoc_slash by done|]; by apply components_abs. }
  split; [done|]. unfold normalize_mount_point. rewrite (Hnr _ Hc).
  unfold mount_text. destruct b.
  - replace (ends_with (abs_path l +:+ "/") "/") with true; [done|].
    symmetry. apply ends_with_slash. by eexists.
  - rewrite He. simpl. by apply join_empty.
Qed.

Lemma routes_lookup tbl s l :
  routes tbl s -> (mounts s : gmap _ _) !! (RootDir :: map Normal l)
                  = (fun a => (abs_path l +:+ "/", a)) <$> tbl !! l.
Proof.
  intros Hr. apply option_eq. intros [k a]. rewrite (ro_mounts _ _ Hr). split.
  - intros (l' & Ha & Hc & ->). injection Hc as Hc. apply map_normal_inj in Hc as ->. by rewrite Ha.
  - destruct (tbl !! l) as [a'|] eqn:E; simpl; [|done]. intros; simplify_eq. eauto.
Qed.

Lemma routes_new (b : ArcId -> B) : routes ∅ (new b).
Proof.
  split.
  - intros l a Hl. by rewrite lookup_empty in Hl.
  - intros k a. simpl. rewrite trie_get_new. split; [done|]. intros (l & Hl & _). by rewrite lookup_empty in Hl.
  - intros c k a. simpl. unfold PathMap. rewrite lookup_empty. split; [done|].
    intros (l & Hl & _). by rewrite lookup_empty in Hl.
Qed.

Lemma mount_run tbl s l b a :
  routes tbl s -> names_ok l -> l <> [] ->
  match tbl !! l with
  | Some _ => mount (mount_text l b) a s = (Err (AlreadyExists (mount_text l b)), s)
  | None => exists s', mount (mount_text l b) a s = (Ok (), s') /\ routes (<[l := a]> tbl) s' /\
                       arcs s' = arcs s /\ handle_manager s' = handle_manager s
  end.
Proof.
  intros Hr Hl Hne. destruct (mount_text_facts l b Hl Hne) as [Hc Hn].
  pose proof (routes_lookup tbl s l Hr) as Hlk.
  unfold mount. rewrite Hn, Hc.
  replace (String.eqb (mount_text l b) "/") with false.
  2: { symmetry. apply String.eqb_neq. intros Heq. rewrite Heq in Hc. by destruct l. }
  replace (existsb _ _) with false.
  2: { symmetry. simpl. clear -Hl. induction Hl as [|x l Hx _ IH]; [done|]. simpl.
       rewrite IH, orb_false_r. apply String.eqb_neq. by apply name_ok_nonempty. }
  munfold. unfold pm_contains. rewrite Hc, Hlk. destruct (tbl !! l) as [a'|] eqn:E; simpl.
  - done.
  - eexists. split; [reflexivity|]. split; [|done]. split; simpl.
    + intros l' a'. rewrite lookup_insert. case_decide; [intros; by subst|]. apply (ro_names _ _ Hr).
    + intros k a'. rewrite trie_get_insert, path_to_key_slash.
      destruct (String.eqb_spec k (abs_path l)) as [->|Hk].
      * split.
        -- intros; simplify_eq. exists l. by rewrite lookup_insert_eq.
        -- intros (l' & Hl' & Heq). rewrite lookup_insert in Hl'. case_decide as Hd; [by simplify_eq|].
           exfalso. apply Hd. apply abs_path_inj; [done| |done]. by apply (ro_names _ _ Hr l' a').
      * rewrite (ro_trie _ _ Hr). split; intros (l' & Hl' & ->); exists l'; (split; [|done]).
        -- rewrite lookup_insert_ne; [done|]. intros ->. congruence.
        -- rewrite lookup_insert_ne in Hl'; [done|]. intros ->. congruence.
    + intros c k a'. unfold pm_insert. rewrite components_snoc_slash, components_abs by done.
      rewrite Hlk. simpl. rewrite lookup_insert. case_decide as Hd.
      * subst c. split.
        -- intros; simplify_eq. exists l. by rewrite lookup_insert_eq.
        -- intros (l' & Hl' & Heq & ->). injection Heq as Heq. apply map_normal_inj in Heq as <-.
           rewrite lookup_insert_eq in Hl'. by simplify_eq.
      * rewrite (ro_mounts _ _ Hr). split; intros (l' & Hl' & -> & ->); exists l'; (split; [|done]).
        -- rewrite lookup_insert_ne; [done|]. intros ->. congruence.
        -- rewrite lookup_insert_ne in Hl'; [done|]. intros ->. congruence.
Qed.

End Routes.

(** ** Resolving a path *)



Section Resolve.
Context {T B : Type} `{TrieLaws T} `{FileSystem B}.
Implicit Types (s : MountableFS T B) (p : Path) (tbl : Table) (l m : list string).



Lemma normalize_path_abs p :
  has_root p = true -> normalize_path p = abs_path (norm_names p) /\ names_ok (norm_names p).
Proof.
  intros Hp. unfold normalize_path. destruct (normalize_abs p Hp) as [-> Hl]. done.
Qed.

(** The text that the trie is searched with. *)
Lemma key_cases l : names_ok l -> path_to_key (abs_path l) = if decide (l = []) then "" else abs_path l.
Proof. intros Hl. case_decide as Hd; [by subst|]. by apply path_to_key_abs. Qed.

Lemma routes_best_mount tbl s l m a :
  routes tbl s -> names_ok l -> tbl !! m = Some a -> starts_with (abs_path l) (abs_path m) = true ->
  (forall m' a', tbl !! m' = Some a' -> starts_with (abs_path l) (abs_path m') = true ->
                 (String.length (abs_path m') <= String.length (abs_path m))%nat) ->
  fst (best_mount (abs_path l) (pm_entries (mounts s))) = Some (abs_path m +:+ "/").
Proof.
  intros Hr Hl Ha Hp Hmax.
  assert (Hent : forall k, k ∈ (pm_entries (mounts s)).*1 -> exists m' a', tbl !! m' = Some a' /\ k = abs_path m' +:+ "/").
  { intros k ([k' a'] & -> & Hin)%list_elem_of_fmap. unfold pm_entries in Hin.
    apply list_elem_of_fmap in Hin as ([c [k'' a'']] & Heq & Hin). simpl in Heq. simplify_eq.
    apply elem_of_map_to_list in Hin. apply (ro_mounts _ _ Hr) in Hin as (m' & Hm' & _ & ->). eauto. }
  apply best_mount_found.
  - apply list_elem_of_fmap. exists (abs_path m +:+ "/", a). split; [done|].
    unfold pm_entries. apply list_elem_of_fmap. exists (RootDir :: map Normal m, (abs_path m +:+ "/", a)).
    split; [done|]. apply elem_of_map_to_list. rewrite (routes_lookup tbl s m Hr). by rewrite Ha.
  - by rewrite path_to_key_slash.
  - by rewrite path_to_key_slash.
  - intros k' (m' & a' & Hm' & ->)%Hent. rewrite !path_to_key_slash. intros Hp' Hne.
    specialize (Hmax m' a' Hm' Hp').
    destruct (decide (String.length (abs_path m') = String.length (abs_path m))) as [He|]; [|lia].
    exfalso. apply Hne. f_equal. by apply (prefix_same_length (abs_path l)).
Qed.

Lemma relative_to_root l : names_ok l -> relative_to "/" (abs_path l) = abs_path l.
Proof.
  intros Hl. unfold relative_to. rewrite String.eqb_refl.
  replace (String.eqb (abs_path l) "") with false by done.
  replace (path_starts_with (abs_path l) "/") with true; [done|].
  unfold path_starts_with. by rewrite components_abs.
Qed.

(** What a mount whose text is the longest prefix does with the path. *)
Lemma resolve_text tbl s p m a :
  routes tbl s -> has_root p = true -> is_ascii (abs_path (norm_names p)) = true ->
  tbl !! m = Some a -> starts_with (abs_path (norm_names p)) (abs_path m) = true ->
  (forall m' a', tbl !! m' = Some a' -> starts_with (abs_path (norm_names p)) (abs_path m') = true ->
                 (String.length (abs_path m') <= String.length (abs_path m))%nat) ->
  resolve_fs p s =
    (Ok (a, match list_strip_prefix m (norm_names p) with
            | Some k => abs_path k
            | None => abs_path (norm_names p)
            end), s).
Proof.
  intros Hr Hp Hasc Ha Hpre Hmax. destruct (normalize_path_abs p Hp) as [Hn Hl].
  destruct (ro_names _ _ Hr m a Ha) as [Hm Hne].
  set (l := norm_names p) in *.
  assert (Hlne : l <> []).
  { intros Hl0. rewrite Hl0 in Hpre. apply prefix_length in Hpre.
    destruct (last_char_abs m Hm Hne) as (c & Hc & Hs). destruct m as [|x m]; [done|].
    unfold abs_path in Hpre. rewrite !string_length_app in Hpre. simpl in Hpre.
    apply Forall_cons in Hm as [Hx _]. apply name_ok_nonempty in Hx.
    destruct x as [|c' x]; [done|]. destruct m; simpl in Hpre; lia. }
  unfold resolve_fs. rewrite Hn, path_to_key_abs by done. munfold.
  rewrite best_prefix_run by (by apply ascii_boundaries).
  rewrite (longest_found _ _ (abs_path m) a); [|done| | |].
  2: { apply (ro_trie _ _ Hr). eauto. }
  2: { intros k' a' Hk' Hg. apply (ro_trie _ _ Hr) in Hg as (m' & Hm' & ->). by eapply Hmax. }
  2: { split; [|done]. by apply prefix_length. }
  simpl. rewrite (routes_best_mount tbl s l m a) by done. simpl. f_equal. f_equal. f_equal.
  unfold relative_to. replace (String.eqb (abs_path m +:+ "/") "/") with false.
  2: { symmetry. apply String.eqb_neq. intros Heq. apply (f_equal String.length) in Heq.
       unfold abs_path in Heq. rewrite !string_length_app in Heq. simpl in Heq. lia. }
  destruct (list_strip_prefix m l) as [k|] eqn:E.
  - apply list_strip_prefix_inv in E. rewrite E in *. rewrite strip_prefix_abs by done. simpl.
    apply Forall_app in Hl as [_ Hk]. destruct k as [|x k]; [done|].
    apply Forall_cons in Hk as [Hx Hk]. pose proof (name_ok_nonempty x Hx).
    destruct (name_ok_inv x Hx) as (_ & _ & Hs).
    assert (Hroot : has_root (join_str "/" (x :: k)) = false).
    { destruct x as [|c x]; [done|]. rewrite no_slash_cons in Hs. apply andb_true_iff in Hs as [Hs%negb_true_iff _].
      by destruct k. }
    replace (String.eqb (join_str "/" (x :: k)) "") with false.
    2: { symmetry. apply String.eqb_neq. destruct x; [done|]. by destruct k. }
    replace (path_starts_with (join_str "/" (x :: k)) "/") with false.
    2: { symmetry. unfold path_starts_with, components at 2. rewrite Hroot.
         destruct (list_strip_prefix _ _) as [r|] eqn:Es; [|done]. exfalso.
         apply list_strip_prefix_inv in Es. change (components "/") with [RootDir] in Es.
         destruct (has_cur_dir _); simpl in Es; [done|].
         unfold body_components in Es. clear -Es. induction (List.filter _ _) as [|y ys IH]; simpl in Es; [done|].
         unfold seg_component in Es at 1. by destruct (String.eqb y ".."). }
    cbn [negb]. unfold join. by rewrite Hroot.
  - rewrite strip_prefix_abs_none; [|done|done|done|].
    + change (default (abs_path l) None) with (abs_path l).
      unfold path_starts_with. by rewrite (components_abs l).
    + intros k ->. by rewrite list_strip_prefix_app in E.
Qed.

End Resolve.

(** ** Sequences of mounts and unmounts *)





Section Routing.
Context {T B : Type} `{TrieLaws T} `{FileSystem B}.
Implicit Types (s : MountableFS T B) (p : Path) (tbl : Table) (l m : list string).






(** The beginning of the text is enough: with a backend mounted at [m], a
    path whose name there goes on differently is sent to that backend too, as
    the whole path. *)
Theorem mountable_sibling_misrouted (backends : ArcId -> B) m x suffix rest a :
  names_ok (m ++ [x]) -> names_ok (m ++ (x +:+ suffix) :: rest) -> suffix <> "" ->
  is_ascii (abs_path (m ++ (x +:+ suffix) :: rest)) = true ->
  fst (resolve_fs (abs_path (m ++ (x +:+ suffix) :: rest))
         (snd (mount (abs_path (m ++ [x])) a (new backends))))
  = Ok (a, abs_path (m ++ (x +:+ suffix) :: rest)).
Proof.
  intros Hm Hl Hsuf Hasc. set (l := m ++ (x +:+ suffix) :: rest) in *.
  assert (Hne : m ++ [x] <> []) by (by destruct m).
  pose proof (mount_run ∅ (new backends) (m ++ [x]) false a (routes_new backends) Hm Hne) as Hrun.
  rewrite lookup_empty in Hrun. destruct Hrun as (s' & Hrun & Hr & _).
  unfold mount_text in Hrun. rewrite Hrun. cbn [snd].
  rewrite (resolve_text (<[m ++ [x] := a]> ∅) s' _ (m ++ [x]) a); rewrite ?norm_names_abs by done; try done.
  - cbn [fst]. destruct (list_strip_prefix (m ++ [x]) l) as [k|] eqn:E; [|done]. exfalso.
    apply list_strip_prefix_inv in E. unfold l in E. rewrite <- app_assoc in E.
    apply app_inv_head in E. injection E as E _. apply Hsuf.
    apply (f_equal String.length) in E. rewrite string_length_app in E.
    destruct suffix; [done|simpl in E; lia].
  - by rewrite lookup_insert_eq.
  - unfold l, abs_path. destruct m as [|y m].
    + simpl app. destruct rest as [|z rest].
      * change (join_str "/" [x +:+ suffix]) with (x +:+ suffix). rewrite string_app_assoc. apply prefix_app.
      * change (join_str "/" ((x +:+ suffix) :: z :: rest))
          with ((x +:+ suffix) +:+ "/" +:+ join_str "/" (z :: rest)).
        change (join_str "/" [x]) with x. rewrite !string_app_assoc. rewrite <- !(string_app_assoc ("/" +:+ x)).
        apply prefix_app.
    + rewrite !join_str_app by done. change (join_str "/" [x]) with x. destruct rest as [|z rest].
      * change (join_str "/" [x +:+ suffix]) with (x +:+ suffix). rewrite !string_app_assoc. apply prefix_app.
      * change (join_str "/" ((x +:+ suffix) :: z :: rest))
          with ((x +:+ suffix) +:+ "/" +:+ join_str "/" (z :: rest)).
        rewrite !string_app_assoc. rewrite <- !(string_app_assoc _ _ (join_str "/" (z :: rest))).
        rewrite <- !(string_app_assoc _ suffix). apply prefix_app.
  - intros m' a' Hm' _. rewrite lookup_insert in Hm'. case_decide; [by subst|done].
Qed.

(** Mounting at [/] is refused, mounting at the empty path is not, and then
    every absolute path goes to that backend unchanged. *)
Theorem mountable_root_guard_bypassed (backends : ArcId -> B) a p :
  has_root p = true -> is_ascii (abs_path (norm_names p)) = true ->
  fst (mount "/" a (new backends)) = Err (InvalidInput "cannot mount at root") /\
  fst (mount "" a (new backends)) = Ok () /\
  fst (resolve_fs p (snd (mount "" a (new backends)))) = Ok (a, abs_path (norm_names p)).
Proof.
  intros Hp Hasc. split; [done|]. split; [done|].
  destruct (normalize_path_abs p Hp) as [Hn Hl]. unfold resolve_fs. rewrite Hn.
  set (s := snd (mount "" a (new backends))).
  assert (Ht : trie s = trie_insert "" a trie_new) by done.
  assert (Hm : mounts s = pm_insert "" a ∅) by done. clearbody s.
  set (key := path_to_key _).
  assert (Hb : boundaries key).
  { unfold key. rewrite key_cases by done. case_decide as Hd; [|by apply ascii_boundaries].
    intros i Hi. simpl in Hi. by replace i with 0%nat by lia. }
  rewrite !run_bind. unfold get. rewrite run_bind. unfold lift. rewrite best_prefix_run by done.
  rewrite (longest_found key _ "" a); [|by destruct key| | |].
  - simpl. rewrite Hm. f_equal. f_equal.
    unfold pm_entries, pm_insert, PathMap. rewrite lookup_empty. simpl.
    change (components "") with (@nil Component). rewrite insert_empty, map_to_list_singleton. simpl.
    replace (best_mount key [("", a)]) with (@None Path, 0%nat)
      by (unfold best_mount; simpl; by rewrite orb_true_r).
    by apply relative_to_root.
  - by rewrite Ht, trie_get_insert.
  - intros k' a' _. rewrite Ht, trie_get_insert, trie_get_new. by destruct (String.eqb_spec k' ""); subst.
  - simpl. lia.
Qed.

(** The tables with one mount in them. *)
Lemma routes_single s l a :
  names_ok l -> l <> [] -> routes (<[l := a]> ∅) s ->
  (mounts s : gmap _ _) = <[RootDir :: map Normal l := (abs_path l +:+ "/", a)]> ∅ /\
  forall k, trie_get k (trie s) = if String.eqb k (abs_path l) then Some a else None.
Proof.
  intros Hl Hne Hr.
  assert (Hone : forall l' a', (<[l := a]> ∅ : Table) !! l' = Some a' <-> l' = l /\ a' = a).
  { intros l' a'. rewrite lookup_insert. case_decide; [|rewrite lookup_empty];
      split; intros; destruct_and?; by simplify_eq. }
  split.
  - apply map_eq. intros c. apply option_eq. intros [k a'].
    etransitivity; [apply (ro_mounts _ _ Hr)|]. rewrite lookup_insert. split.
    + intros (l' & Hl' & -> & ->). apply Hone in Hl' as [-> ->]. by rewrite decide_True.
    + case_decide; [|by rewrite lookup_empty]. intros; simplify_eq. exists l. by rewrite Hone.
  - intros k. apply option_eq. intros a'. rewrite (ro_trie _ _ Hr). split.
    + intros (l' & Hl' & ->). apply Hone in Hl' as [-> ->]. by rewrite String.eqb_refl.
    + destruct (String.eqb_spec k (abs_path l)) as [->|]; [|done]. intros; simplify_eq.
      exists l. by rewrite Hone.
Qed.

(** A doubled separator in front changes the text and not the components. *)
Lemma alias_facts l :
  names_ok l -> l <> [] ->
  components ("/" +:+ abs_path l) = RootDir :: map Normal l /\
  normalize_mount_point ("/" +:+ abs_path l) = ("/" +:+ abs_path l) +:+ "/".
Proof.
  intros Hl Hne. split; [by rewrite <- (components_abs l Hl)|].
  assert (He : ends_with ("/" +:+ abs_path l) "/" = false).
  { apply not_true_iff_false. intros [t Ht]%ends_with_slash.
    destruct (last_char_abs l Hl Hne) as (c & Hlc & Hsl).
    assert (Hla : last_char ("/" +:+ abs_path l) = Some c) by (by rewrite last_char_app).
    rewrite Ht, last_char_snoc in Hla. by simplify_eq. }
  unfold normalize_mount_point. rewrite He.
  replace (String.eqb ("/" +:+ abs_path l) "/") with false by done. by apply join_empty.
Qed.

Lemma unmount_alias_run s l a :
  names_ok l -> l <> [] -> routes (<[l := a]> ∅) s ->
  unmount ("/" +:+ abs_path l) s =
    (Ok (), set_trie (trie_remove ("/" +:+ abs_path l) (trie s)) (set_mounts ∅ s)).
Proof.
  intros Hl Hne Hr. destruct (alias_facts l Hl Hne) as [Hc Hn].
  destruct (routes_single s l a Hl Hne Hr) as [Hm _].
  unfold unmount. rewrite Hn, path_to_key_slash. munfold. unfold pm_contains, pm_remove.
  rewrite components_snoc_slash, Hc by done. unfold PathMap in *. rewrite Hm.
  rewrite bool_decide_eq_true_2 by (rewrite lookup_insert_eq; by eexists). simpl.
  assert (Hd : delete (RootDir :: map Normal l) (mounts s : gmap _ _) = ∅)
    by (rewrite Hm; by apply delete_insert_id).
  do 3 f_equal. exact Hd.
Qed.

(** A mount point that is unmounted under another spelling leaves the list
    of mounts and stays routed. *)
Theorem mountable_unmount_alias (backends : ArcId -> B) l a :
  names_ok l -> l <> [] -> is_ascii (abs_path l) = true ->
  let s := snd (mount (abs_path l) a (new backends)) in
  let s' := snd (unmount ("/" +:+ abs_path l) s) in
  fst (unmount ("/" +:+ abs_path l) s) = Ok () /\ list_mounts s' = [] /\
  fst (resolve_fs (abs_path l) s') = Ok (a, abs_path l).
Proof.
  intros Hl Hne Hasc.
  pose proof (mount_run ∅ (new backends) l false a (routes_new backends) Hl Hne) as Hrun.
  rewrite lookup_empty in Hrun. destruct Hrun as (s & Hrun & Hr & _). unfold mount_text in Hrun.
  rewrite Hrun. cbn [snd]. rewrite (unmount_alias_run s l a) by done. split; [done|]. split; [done|].
  destruct (routes_single s l a Hl Hne Hr) as [_ Ht].
  destruct (normalize_path_abs (abs_path l) eq_refl) as [Hn _].
  unfold resolve_fs. rewrite Hn, norm_names_abs, path_to_key_abs by done. munfold.
  rewrite best_prefix_run by (by apply ascii_boundaries).
  assert (Hg : forall k, trie_get k (trie_remove ("/" +:+ abs_path l) (trie s))
                         = if String.eqb k (abs_path l) then Some a else None).
  { intros k. rewrite trie_get_remove, Ht. destruct (String.eqb_spec k ("/" +:+ abs_path l)) as [->|]; [|done].
    destruct (String.eqb_spec ("/" +:+ abs_path l) (abs_path l)) as [Heq|]; [|done].
    exfalso. apply (f_equal String.length) in Heq. rewrite string_length_app in Heq. simpl in Heq. lia. }
  rewrite (longest_found (abs_path l) _ (abs_path l) a).
  - reflexivity.
  - rewrite <- (string_app_nil_r (abs_path l)) at 1. apply prefix_app.
  - by rewrite Hg, String.eqb_refl.
  - intros k' a' _. rewrite Hg. by destruct (String.eqb_spec k' (abs_path l)) as [->|].
  - done.
Qed.

(** A character outside ASCII anywhere in the normalised path: the search
    slices the key inside it and panics, whatever is mounted. *)
Theorem mountable_non_ascii_panics s p i b :
  has_root p = true -> as_bytes (abs_path (norm_names p)) !! i = Some b -> is_cont b = true ->
  resolve_fs p s = (Panic, s).
Proof.
  intros Hp Hi Hb. destruct (normalize_path_abs p Hp) as [Hn Hl].
  assert (Hne : norm_names p <> []).
  { intros He. rewrite He in Hi. destruct i as [|i]; simpl in Hi; by simplify_eq. }
  unfold resolve_fs. rewrite Hn, path_to_key_abs by done. rewrite run_bind. unfold get. rewrite run_bind.
  unfold lift. rewrite (best_prefix_panic _ _ i); [done| |].
  - apply lookup_lt_Some in Hi. pose proof (len_as_bytes (abs_path (norm_names p))). unfold len, str_len in *. lia.
  - unfold is_char_boundary. rewrite Hi, Hb. destruct i as [|i]; [|done].
    simpl in Hi. by simplify_eq.
Qed.
End Routing.

(** ** The calls *)

(** The paths a call is routed by: the second one is that of [rename]. *)
Definition call_paths (c : FsCall) : Path * option Path :=
  match c with
  | CRead p _ _ | CStat p | CCreate p | CWrite p _ _ _ | CMkdir p _ | CReadDir p | CRemove p
  | CRemoveAll p | CChmod p _ | CTruncate p _ | CTouch p | CReadlink p | CSymlink _ p
  | CGetXattr p _ | CSetXattr p _ _ | CRemoveXattr p _ | CListXattr p => (p, None)
  | CRename o n => (o, Some n)
  end.

(** The same call on other paths. *)
Definition retarget (r r' : Path) (c : FsCall) : FsCall :=
  match c with
  | CRead _ o n => CRead r o n
  | CStat _ => CStat r
  | CCreate _ => CCreate r
  | CWrite _ d o f => CWrite r d o f
  | CMkdir _ perm => CMkdir r perm
  | CReadDir _ => CReadDir r
  | CRemove _ => CRemove r
  | CRemoveAll _ => CRemoveAll r
  | CRename _ _ => CRename r r'
  | CChmod _ m => CChmod r m
  | CTruncate _ n => CTruncate r n
  | CTouch _ => CTouch r
  | CReadlink _ => CReadlink r
  | CSymlink t _ => CSymlink t r
  | CGetXattr _ x => CGetXattr r x
  | CSetXattr _ x v => CSetXattr r x v
  | CRemoveXattr _ x => CRemoveXattr r x
  | CListXattr _ => CListXattr r
  end.

Section Delegation.
Context {T B : Type} `{Trie T} `{FileSystem B}.
Implicit Types (s : MountableFS T B) (p : Path).

Lemma resolve_fs_state p s : snd (resolve_fs p s) = s.
Proof.
  unfold resolve_fs. munfold. destruct (best_prefix _ _) as [[[a|] n]|e| |]; done.
Qed.

(** Go on with the backend and the path there. *)
Definition routed {A} s p (k : ArcId -> Path -> outcome FSError A * MountableFS T B) :=
  match fst (resolve_fs p s) with
  | Ok (a, r) => k a r
  | Err e => (Err e, s)
  | Panic => (Panic, s)
  | Diverge => (Diverge, s)
  end.

Lemma delegate_run {A} p (f : Path -> FsOp B A) s :
  delegate p f s = routed s p (fun a r => (fst (f r (arcs s a)), set_arc a (snd (f r (arcs s a))) s)).
Proof.
  unfold delegate, routed. rewrite run_bind. pose proof (resolve_fs_state p s) as Hs.
  destruct (resolve_fs p s) as [[[a r]|e| |] s']; simpl in *; by subst.
Qed.

Lemma delegate_fmap {A R} (g : A -> R) p (f : Path -> FsOp B A) s :
  (g <$> delegate p f) s = delegate p (fun r => g <$> f r) s.
Proof.
  unfold fmap, M_fmap. rewrite !delegate_run. unfold routed.
  by destruct (fst (resolve_fs p s)) as [[a r]|e| |].
Qed.

Lemma delegate_then {A R} (x : R) p (f : Path -> FsOp B A) s :
  (delegate p f ;; mret x) s = delegate p (fun r => f r ;; mret x) s.
Proof.
  rewrite run_bind, !delegate_run. unfold routed.
  destruct (fst (resolve_fs p s)) as [[a r]|e| |]; simpl; [|done..]. rewrite run_bind.
  by destruct (f r (arcs s a)) as [[y|e| |] b].
Qed.

(** C36: a call on the mounted tree is the same call on the backend that the
    path resolves to, with the path there: it answers what the backend answers
    and changes no other backend and no mount.  A rename whose paths belong to
    two backends is refused, and a path that does not resolve changes nothing. *)
Theorem mountable_calls_routed now c s :
  run_call now c s =
  match call_paths c with
  | (p, None) =>
    routed s p (fun a r =>
      let o := run_call now (retarget r r c) (arcs s a) in (fst o, set_arc a (snd o) s))
  | (p, Some q) =>
    routed s p (fun a r => routed s q (fun a' r' =>
      if decide (a = a') then
        let o := run_call now (retarget r r' c) (arcs s a) in (fst o, set_arc a (snd o) s)
      else (Err CrossDeviceLink, s)))
  end.
Proof.
  destruct c; cbn [call_paths retarget run_call];
    try (etransitivity; [apply delegate_fmap|apply delegate_run]);
    try (etransitivity; [apply delegate_then|apply delegate_run]).
  match goal with |- context [fs_rename now ?x ?y] => rename x into p, y into q end.
  change (fs_rename now p q) with (rename now p q). unfold rename.
  rewrite !run_bind. unfold routed.
  pose proof (resolve_fs_state p s) as Ho. pose proof (resolve_fs_state q s) as Hn.
  destruct (resolve_fs p s) as [[[a r]|e| |] s1]; simpl in *; subst; [|done..].
  rewrite run_bind. destruct (resolve_fs q s) as [[[a' r']|e| |] s2]; simpl in *; subst; [|done..].
  destruct (decide (a = a')) as [->|Hd]; [|by rewrite (proj2 (Nat.eqb_neq _ _) Hd)].
  rewrite Nat.eqb_refl. simpl. unfold on_arc. rewrite !run_bind.
  by destruct (fs_rename now r r' (arcs s a')) as [[x|e| |] b].
Qed.
End Delegation.

(** ** Witnesses *)

Section Witnesses.

Definition hello_backends : ArcId -> HelloFS := fun _ => HelloFS.new (fun _ => 0).




Lemma mountable_sibling_misrouted_witness :
  fst (resolve_fs "/memfs2/x"
         (snd (mount "/memfs" 0%nat (new (T := gmap string ArcId) hello_backends))))
  = Ok (0%nat, "/memfs2/x").
Proof.
  refine (mountable_sibling_misrouted (T := gmap string ArcId) hello_backends [] "memfs" "2" ["x"] 0%nat
            _ _ _ _).
  - repeat constructor.
  - repeat constructor.
  - discriminate.
  - reflexivity.
Defined.

Lemma mountable_root_guard_bypassed_witness :
  fst (mount "" 0%nat (new (T := gmap string ArcId) hello_backends)) = Ok () /\
  fst (resolve_fs "/x/../y" (snd (mount "" 0%nat (new (T := gmap string ArcId) hello_backends))))
  = Ok (0%nat, "/y").
Proof.
  destruct (mountable_root_guard_bypassed (T := gmap string ArcId) hello_backends 0%nat "/x/../y" eq_refl eq_refl)
    as (_ & H1 & H2).
  split; [exact H1|exact H2].
Defined.

Lemma mountable_unmount_alias_witness :
  let s := snd (mount "/a" 0%nat (new (T := gmap string ArcId) hello_backends)) in
  fst (resolve_fs "/a" (snd (unmount "//a" s))) = Ok (0%nat, "/a").
Proof.
  refine (proj2 (proj2 (mountable_unmount_alias (T := gmap string ArcId) hello_backends ["a"] 0%nat _ _ _))).
  - repeat constructor.
  - discriminate.
  - reflexivity.
Defined.

(** [é] is the bytes [c3 a9]. *)
Definition cafe : Path := "/memfs/caf" +:+ from_bytes [Byte.xc3; Byte.xa9].

Lemma mountable_non_ascii_panics_witness :
  resolve_fs cafe (new (T := gmap string ArcId) hello_backends)
  = (Panic, new (T := gmap string ArcId) hello_backends).
Proof.
  apply (mountable_non_ascii_panics (T := gmap string ArcId) _ cafe 11%nat Byte.xa9); reflexivity.
Defined.

End Witnesses.
