(* ===== verification/Json.v ===== *)
(** * Json: the values and the text that the server and its client exchange

    [serde_json] is a crate: its text format is a class with the laws the
    program relies on.  What [#[derive(Serialize, Deserialize)]] makes of a
    struct is stated once here, as the functions that build and take apart an
    object; the structs themselves are in the files of their components. *)

From S2P Require Import Prelude Text.
From stdpp Require Import countable.
From Stdlib Require Import Strings.Ascii.
From Stdlib Require Strings.String.

Inductive Json :=
| JNull
| JBool (b : bool)
| JNum (n : Z)
| JStr (s : string)
| JArr (l : list Json)
| JObj (fields : list (string * Json)).

(** ** Text *)

Class JsonText := {
  json_to_string : Json -> string;
  json_from_str : string -> option Json
}.

(** A text reads back as its value, and that of a string stands in quotes, with
    nothing left out in between. *)
Class JsonTextLaws `{JsonText} : Prop := {
  json_text_roundtrip v : json_from_str (json_to_string v) = Some v;
  json_string_quoted s :
    exists e, json_to_string (JStr s) = quoted e /\ (String.length s <= String.length e)%nat
}.

(** The text of a string is never the string itself. *)
Lemma json_string_longer `{JsonTextLaws} s :
  (String.length s + 2 <= String.length (json_to_string (JStr s)))%nat.
Proof.
  destruct (json_string_quoted s) as (e & -> & He).
  unfold quoted, dquote. rewrite !string_length_app. simpl. lia.
Qed.

(** ** Derived conversions *)

(** [Serialize] and [Deserialize] of a type. *)
Class Serialize (A : Type) := to_json : A -> Json.
Class Deserialize (A : Type) := from_json : Json -> option A.

#[global] Instance string_Serialize : Serialize string := JStr.
#[global] Instance string_Deserialize : Deserialize string :=
  fun v => match v with JStr s => Some s | _ => None end.

#[global] Instance option_Serialize `{Serialize A} : Serialize (option A) :=
  fun o => match o with Some a => to_json a | None => JNull end.
#[global] Instance option_Deserialize `{Deserialize A} : Deserialize (option A) :=
  fun v => match v with JNull => Some None | _ => Some <$> from_json v end.

#[global] Instance list_Serialize `{Serialize A} : Serialize (list A) := fun l => JArr (map to_json l).
#[global] Instance list_Deserialize `{Deserialize A} : Deserialize (list A) :=
  fun v => match v with JArr l => mapM from_json l | _ => None end.

(** An integer of the type that [in_range] accepts. *)
Definition int_from (in_range : Z -> bool) (v : Json) : option Z :=
  match v with JNum n => if in_range n then Some n else None | _ => None end.

(** The fields of a name; a field that comes twice is an error. *)
Definition field_values (k : string) (v : Json) : option (list Json) :=
  match v with
  | JObj fields => Some (map snd (List.filter (fun kv => String.eqb (fst kv) k) fields))
  | _ => None
  end.

(** A field that has to be there. *)
Definition get_field {A} (k : string) (decode : Json -> option A) (v : Json) : option A :=
  vs ← field_values k v; match vs with [x] => decode x | _ => None end.

(** A field of type [Option<T>], which may be missing. *)
Definition opt_field {A} (k : string) (decode : Json -> option A) (v : Json) : option (option A) :=
  vs ← field_values k v;
  match vs with
  | [] => Some None
  | [x] => match x with JNull => Some None | _ => Some <$> decode x end
  | _ => None
  end.

(** A field that is replaced by [d] when it is missing. *)
Definition default_field {A} (k : string) (d : A) (decode : Json -> option A) (v : Json) : option A :=
  vs ← field_values k v;
  match vs with
  | [] => Some d
  | [x] => decode x
  | _ => None
  end.

(** A [HashMap<String, T>]. *)
Definition map_from {A} (decode : Json -> option A) (v : Json) : option (gmap string A) :=
  match v with
  | JObj fields =>
    l ← mapM (fun kv => a ← decode (snd kv); Some (fst kv, a)) fields;
    Some (fold_left (fun m ka => <[fst ka := snd ka]> m) l ∅)
  | _ => None
  end.

Definition bool_from (v : Json) : option bool := match v with JBool b => Some b | _ => None end.

(** An optional integer. *)
Definition opt_num (o : option Z) : Json := match o with Some n => JNum n | None => JNull end.

(** ** What is sent is what is read *)

Section RoundTrips.

Lemma from_to_string (s : string) : from_json (to_json s) = Some s.
Proof. done. Qed.

Lemma from_to_option_string (o : option string) : from_json (to_json o) = Some o.
Proof. by destruct o. Qed.

Lemma from_to_list `{Serialize A, Deserialize B} (f : A -> B) (l : list A) :
  (forall a, from_json (to_json a) = Some (f a)) -> from_json (to_json l) = Some (map f l).
Proof.
  intros Hf. unfold from_json, to_json, list_Deserialize, list_Serialize.
  induction l as [|a l IH]; [done|]. simpl. rewrite Hf. simpl. by rewrite IH.
Qed.

Lemma int_from_ok in_range n : in_range n = true -> int_from in_range (JNum n) = Some n.
Proof. intros Hn. simpl. by rewrite Hn. Qed.
End RoundTrips.

(** ** A text format that obeys the laws *)

Section Codec.

Abbreviation leaf := (bool + Z + string)%type.

Fixpoint json_tree (v : Json) : gen_tree leaf :=
  match v with
  | JNull => GenNode 0 []
  | JBool b => GenLeaf (inl (inl b))
  | JNum n => GenLeaf (inl (inr n))
  | JStr s => GenLeaf (inr s)
  | JArr l => GenNode 1 (map json_tree l)
  | JObj fs => GenNode 2 (map (fun kv => GenNode 3 [GenLeaf (inr (fst kv)); json_tree (snd kv)]) fs)
  end.

Fixpoint tree_json (t : gen_tree leaf) : Json :=
  match t with
  | GenLeaf (inl (inl b)) => JBool b
  | GenLeaf (inl (inr n)) => JNum n
  | GenLeaf (inr s) => JStr s
  | GenNode 1 l => JArr (map tree_json l)
  | GenNode 2 fs =>
    JObj (map (fun t => match t with
                        | GenNode _ [GenLeaf (inr k); x] => (k, tree_json x)
                        | _ => (""%string, JNull)
                        end) fs)
  | GenNode _ _ => JNull
  end.

Lemma tree_json_tree : forall v, tree_json (json_tree v) = v.
Proof.
  fix IH 1. intros [|b|n|s|l|fs]; simpl; try done; f_equal.
  - induction l as [|v l IHl]; [done|]. simpl. by rewrite IH, IHl.
  - induction fs as [|[k v] fs IHl]; [done|]. simpl. by rewrite IH, IHl.
Qed.

(** Binary digits. *)
Fixpoint pos_text (p : positive) : string :=
  match p with
  | xH => ""
  | xO p => String "0"%char (pos_text p)
  | xI p => String "1"%char (pos_text p)
  end.

Fixpoint text_pos (s : string) : positive :=
  match s with
  | EmptyString => xH
  | String c s => if Ascii.eqb c "0"%char then xO (text_pos s) else xI (text_pos s)
  end.

Lemma text_pos_text p : text_pos (pos_text p) = p.
Proof. induction p as [p IH|p IH|]; simpl; congruence. Qed.

Definition binary_json : JsonText := {|
  json_to_string v := match v with JStr s => quoted s | _ => pos_text (encode (json_tree v)) end;
  json_from_str t :=
    match t with
    | String c s =>
      if Ascii.eqb c (ascii_of_nat 34) then Some (JStr (from_bytes (removelast (as_bytes s))))
      else tree_json <$> decode (text_pos t)
    | EmptyString => tree_json <$> decode (text_pos t)
    end
|}.

Lemma binary_json_laws : @JsonTextLaws binary_json.
Proof.
  split.
  - assert (Hbin : forall v, @json_from_str binary_json (pos_text (encode (json_tree v))) = Some v).
    { intros v. transitivity (tree_json <$> decode (text_pos (pos_text (encode (json_tree v))))).
      - simpl. by destruct (encode (json_tree v)).
      - by rewrite text_pos_text, decode_encode; simpl; rewrite tree_json_tree. }
    intros [|b|n|s|l|fs]; try apply Hbin.
    transitivity (Some (JStr (from_bytes (removelast (as_bytes (s +:+ dquote)))))); [done|].
    rewrite as_bytes_app. change (as_bytes dquote) with [Byte.x22].
    by rewrite removelast_last, from_bytes_as_bytes.
  - intros s. by exists s.
Qed.
End Codec.
