(* ===== verification/Cache.v ===== *)
(** * Cache: the interface of the caches and its two implementations
    ([crates/racfs-core/src/cache.rs])

    [Cache] is the trait, [CacheLaws] what its users may rely on: a lookup
    answers what the cache holds, and no operation makes it hold anything but
    what was stored last under a key.  An implementation may forget entries at
    any time.  [HashMapCache] forgets nothing; [FoyerCache] is built on the
    crate [foyer], which is a class here, and ignores [invalidate_prefix]. *)

From S2P Require Import Prelude Text.
From Stdlib Require Strings.String.

(** ** Statistics *)

(* src: crates/racfs-core/src/cache.rs 15-22 CacheStats *)
Record CacheStats := {
  hits : Z;
  misses : Z;
  evictions : Z
}.

(* src: crates/racfs-core/src/cache.rs 26-28 CacheStats::total_requests *)
Definition total_requests `{BuildProfile} {E} (s : CacheStats) : outcome E Z :=
  checked_arith in_u64 u64_wrap (hits s + misses s).

(** ** The trait *)

(* src: crates/racfs-core/src/cache.rs 46-68 Cache *)
Class Cache (C : Type) := {
  cache_get : string -> C -> option bytes * C;
  cache_put : string -> bytes -> C -> C;
  cache_remove : string -> C -> C;
  cache_invalidate_prefix : string -> C -> C;
  cache_stats : C -> option CacheStats
}.

(* src: crates/racfs-core/src/cache.rs 59-61 Cache::invalidate_prefix *)
Definition default_invalidate_prefix {C} (prefix : string) (c : C) : C := c.

(* src: crates/racfs-core/src/cache.rs 65-67 Cache::stats *)
Definition default_stats {C} (c : C) : option CacheStats := None.

(** What a cache holds, and how it may change. *)
Class CacheLaws (C : Type) `{Cache C} := {
  held : C -> gmap string bytes;
  (** Does [invalidate_prefix] do what it is documented to do? *)
  prefix_aware : bool;
  cache_get_held k c : fst (cache_get k c) = held c !! k;
  cache_get_keeps k c : held (snd (cache_get k c)) ⊆ held c;
  cache_put_held k v c : held (cache_put k v c) ⊆ <[k := v]> (held c);
  cache_remove_held k c : held (cache_remove k c) ⊆ delete k (held c);
  cache_invalidate_keeps p c : held (cache_invalidate_prefix p c) ⊆ held c;
  cache_invalidate_held p c k :
    prefix_aware = true -> starts_with k p = true -> held (cache_invalidate_prefix p c) !! k = None
}.

(** ** HashMapCache *)

Module HashMapCache.

(* src: crates/racfs-core/src/cache.rs 76-78 HashMapCache *)
Record HashMapCache := { inner : gmap string bytes }.

(* src: crates/racfs-core/src/cache.rs 82-84 HashMapCache::new *)
Definition new : HashMapCache := {| inner := ∅ |}.

(* src: crates/racfs-core/src/cache.rs 88-90 HashMapCache::get *)
Definition get (k : string) (c : HashMapCache) : option bytes * HashMapCache := (inner c !! k, c).

(* src: crates/racfs-core/src/cache.rs 92-97 HashMapCache::put *)
Definition put (k : string) (v : bytes) (c : HashMapCache) : HashMapCache :=
  {| inner := <[k := v]> (inner c) |}.

(* src: crates/racfs-core/src/cache.rs 99-101 HashMapCache::remove *)
Definition remove (k : string) (c : HashMapCache) : HashMapCache := {| inner := delete k (inner c) |}.

(* src: crates/racfs-core/src/cache.rs 103-113 HashMapCache::invalidate_prefix *)
Definition invalidate_prefix (p : string) (c : HashMapCache) : HashMapCache :=
  let keys := List.filter (fun k => starts_with k p) (map fst (map_to_list (inner c))) in
  {| inner := fold_left (fun m k => delete k m) keys (inner c) |}.

(* src: crates/racfs-core/src/cache.rs 87-114 Cache for HashMapCache *)
#[global] Instance hashmap_cache : Cache HashMapCache := {
  cache_get := get; cache_put := put; cache_remove := remove;
  cache_invalidate_prefix := invalidate_prefix; cache_stats := default_stats
}.

Lemma delete_all_lookup (keys : list string) (m : gmap string bytes) k :
  fold_left (fun m k => delete k m) keys m !! k = if bool_decide (k ∈ keys) then None else m !! k.
Proof.
  revert m. induction keys as [|x keys IH]; intros m; simpl; [done|]. rewrite IH.
  destruct (decide (k = x)) as [->|Hne].
  - rewrite lookup_delete_eq, (bool_decide_eq_true_2 (x ∈ x :: keys)) by left.
    by destruct (bool_decide _).
  - rewrite lookup_delete_ne by done. repeat case_bool_decide; rewrite ?elem_of_cons in *; tauto.
Qed.

Lemma invalidate_lookup p c k :
  inner (invalidate_prefix p c) !! k = if starts_with k p then None else inner c !! k.
Proof.
  unfold invalidate_prefix. simpl. rewrite delete_all_lookup. case_bool_decide as Hin.
  - rewrite list_elem_of_In, filter_In in Hin. by destruct Hin as [_ ->].
  - destruct (starts_with k p) eqn:Ep; [|done]. apply eq_None_not_Some. intros [v Hv]. apply Hin.
    rewrite list_elem_of_In, filter_In. split; [|done]. rewrite <- list_elem_of_In.
    apply elem_of_map. exists (k, v). split; [done|]. by apply elem_of_map_to_list.
Qed.

#[global] Instance hashmap_cache_laws : CacheLaws HashMapCache.
Proof.
  refine {| held := inner; prefix_aware := true |}; [done..| |].
  - intros p c. apply map_subseteq_spec. intros k v.
    change (inner (invalidate_prefix p c) !! k = Some v -> inner c !! k = Some v). rewrite invalidate_lookup.
    by destruct (starts_with k p).
  - intros p c k _ Hk. change (inner (invalidate_prefix p c) !! k = None). by rewrite invalidate_lookup, Hk.
Defined.
End HashMapCache.

(** ** FoyerCache *)

(** [foyer::Cache<String, Vec<u8>>]: a bounded map that evicts entries when it
    likes.  [foyer_contents] is what it holds. *)
Class Foyer (T : Type) := {
  foyer_build : Z -> T;
  foyer_get : string -> T -> option bytes * T;
  foyer_insert : string -> bytes -> T -> T;
  foyer_remove : string -> T -> T;
  foyer_contents : T -> gmap string bytes;
  foyer_build_empty n : foyer_contents (foyer_build n) = ∅;
  foyer_get_contents k t : fst (foyer_get k t) = foyer_contents t !! k;
  foyer_get_keeps k t : foyer_contents (snd (foyer_get k t)) ⊆ foyer_contents t;
  foyer_insert_contents k v t : foyer_contents (foyer_insert k v t) ⊆ <[k := v]> (foyer_contents t);
  foyer_remove_contents k t : foyer_contents (foyer_remove k t) ⊆ delete k (foyer_contents t)
}.

Module FoyerCache.
Section Foyer.
Context {T : Type} `{Foyer T}.

(* src: crates/racfs-core/src/cache.rs 123-125 FoyerCache *)
Record FoyerCache := { inner : T }.

(* src: crates/racfs-core/src/cache.rs 129-134 FoyerCache::new *)
Definition new (capacity : Z) : FoyerCache := {| inner := foyer_build capacity |}.

(* src: crates/racfs-core/src/cache.rs 138-140 FoyerCache::get *)
Definition get (k : string) (c : FoyerCache) : option bytes * FoyerCache :=
  let '(v, t) := foyer_get k (inner c) in (v, {| inner := t |}).

(* src: crates/racfs-core/src/cache.rs 142-144 FoyerCache::put *)
Definition put (k : string) (v : bytes) (c : FoyerCache) : FoyerCache :=
  {| inner := foyer_insert k v (inner c) |}.

(* src: crates/racfs-core/src/cache.rs 146-148 FoyerCache::remove *)
Definition remove (k : string) (c : FoyerCache) : FoyerCache := {| inner := foyer_remove k (inner c) |}.

(* src: crates/racfs-core/src/cache.rs 150-152 FoyerCache::invalidate_prefix *)
Definition invalidate_prefix (p : string) (c : FoyerCache) : FoyerCache := c.

(* src: crates/racfs-core/src/cache.rs 137-153 Cache for FoyerCache *)
#[global] Instance foyer_cache : Cache FoyerCache := {
  cache_get := get; cache_put := put; cache_remove := remove;
  cache_invalidate_prefix := invalidate_prefix; cache_stats := default_stats
}.

#[global] Instance foyer_cache_laws : CacheLaws FoyerCache.
Proof.
  refine {| held := fun c => foyer_contents (inner c); prefix_aware := false |}.
  - intros k c. simpl. unfold get. rewrite <- foyer_get_contents. by destruct (foyer_get k (inner c)).
  - intros k c. simpl. unfold get. pose proof (foyer_get_keeps k (inner c)).
    by destruct (foyer_get k (inner c)).
  - intros k v c. apply foyer_insert_contents.
  - intros k c. apply foyer_remove_contents.
  - done.
  - done.
Defined.
End Foyer.
Arguments FoyerCache T : clear implicits.
End FoyerCache.

(** A cache of a given capacity that empties itself when it is full. *)
Module SmallFoyer.

Record SmallFoyer := { capacity : Z; items : gmap string bytes }.

Definition insert_small (k : string) (v : bytes) (t : SmallFoyer) : SmallFoyer :=
  {| capacity := capacity t;
     items := if Z.of_nat (size (items t)) <? capacity t then <[k := v]> (items t) else ∅ |}.

#[global] Instance small_foyer : Foyer SmallFoyer.
Proof.
  refine {| foyer_build := fun n => {| capacity := n; items := ∅ |};
            foyer_get := fun k t => (items t !! k, t);
            foyer_insert := insert_small;
            foyer_remove := fun k t => {| capacity := capacity t; items := delete k (items t) |};
            foyer_contents := items |}; [done..| |done].
  intros k v t. unfold insert_small. simpl. destruct (_ <? _); [done|apply map_empty_subseteq].
Defined.
End SmallFoyer.
