(* ===== verification/CachedFs.v ===== *)
(** * CachedFs: a cache in front of a filesystem ([crates/racfs-vfs/src/cached_fs.rs])

    Contents, stat answers and listings of the inner filesystem are kept in a
    [Cache] under keys made of the raw text of the path; a change drops the
    keys of its path and the listing of its parent.  The metadata are stored as
    JSON, with times in milliseconds.  The theorems say when the wrapper
    answers as the inner filesystem would, and where it does not. *)

From S2P Require Import Prelude Text RPath FsError Metadata Flags FileSystem Json Cache.
From S2P Require KvFS.
From Stdlib Require Strings.String.

(** ** Metadata as JSON *)

(** The module [chrono::serde::ts_milliseconds_option] of the crate [chrono]. *)
Class TsMilliseconds := {
  ts_serialize : option DateTime -> Json;
  ts_deserialize : Json -> option (option DateTime)
}.

(** A time in whole milliseconds. *)
Definition round_ms (d : DateTime) : DateTime := d / 10 ^ 6 * 10 ^ 6.

Class TsMillisecondsLaws `{TsMilliseconds} : Prop :=
  ts_roundtrip o : ts_deserialize (ts_serialize o) = Some (round_ms <$> o).

(** A [PathBuf] is written as a string; one that is not UTF-8 would be an
    error, and the paths of the program are UTF-8. *)
(* src: crates/racfs-core/src/metadata.rs 44-65 Serialize for FileMetadata *)
#[global] Instance FileMetadata_Serialize `{TsMilliseconds} : Serialize FileMetadata := fun m =>
  JObj ([("path"%string, JStr (path m));
         ("size"%string, JNum (size m));
         ("mode"%string, JNum (mode m));
         ("created"%string, ts_serialize (created m));
         ("modified"%string, ts_serialize (modified m));
         ("accessed"%string, ts_serialize (accessed m));
         ("is_symlink"%string, JBool (is_symlink_flag m))] ++
        match symlink_target m with Some t => [("symlink_target"%string, JStr t)] | None => [] end).

(* src: crates/racfs-core/src/metadata.rs 44-65 Deserialize for FileMetadata *)
#[global] Instance FileMetadata_Deserialize `{TsMilliseconds} : Deserialize FileMetadata := fun v =>
  p ← get_field "path" string_Deserialize v;
  n ← get_field "size" (int_from in_u64) v;
  perm ← get_field "mode" (int_from in_u32) v;
  c ← get_field "created" ts_deserialize v;
  m ← get_field "modified" ts_deserialize v;
  a ← get_field "accessed" ts_deserialize v;
  l ← get_field "is_symlink" bool_from v;
  t ← opt_field "symlink_target" string_Deserialize v;
  Some {| path := p; size := n; mode := perm; created := c; modified := m; accessed := a;
          is_symlink_flag := l; symlink_target := t |}.

(** [serde_json::to_vec] and [serde_json::from_slice]. *)
Definition to_vec `{JsonText} {A} `{Serialize A} (a : A) : bytes := as_bytes (json_to_string (to_json a)).
Definition from_slice `{JsonText} {A} `{Deserialize A} (b : bytes) : option A :=
  v ← json_from_str (from_bytes b); from_json v.

(** ** The wrapper *)

(* src: crates/racfs-vfs/src/cached_fs.rs 22-27 CachedFs *)
Record CachedFs (S C : Type) := mkCachedFs {
  inner : S;
  cache : C;
  key_prefix : string
}.
Arguments mkCachedFs {S C}.
Arguments inner {S C}.
Arguments cache {S C}.
Arguments key_prefix {S C}.

Section Ops.
Context `{BuildProfile} `{JsonText} `{TsMilliseconds}.
Context {S C : Type} `{FileSystem S} `{Cache C}.
Implicit Types (now : Now) (p : Path) (c : C).

(* src: crates/racfs-vfs/src/cached_fs.rs 31-37 CachedFs::new *)
Definition new (s : S) c : CachedFs S C := mkCachedFs s c "".

(* src: crates/racfs-vfs/src/cached_fs.rs 41-44 CachedFs::with_key_prefix *)
Definition with_key_prefix (prefix : string) (f : CachedFs S C) : CachedFs S C :=
  mkCachedFs (inner f) (cache f) prefix.

(* src: crates/racfs-vfs/src/cached_fs.rs 46-49 CachedFs::key *)
Definition key (prefix kind : string) p : string := prefix +:+ kind +:+ ":" +:+ p.

(** [path.parent()], unless it is the empty path. *)
Definition listed_parent p : option Path :=
  match parent p with
  | Some q => if path_eqb q "" then None else Some q
  | None => None
  end.

Definition drop_parent (prefix : string) p c : C :=
  match listed_parent p with Some q => cache_remove (key prefix "readdir" q) c | None => c end.

(* src: crates/racfs-vfs/src/cached_fs.rs 51-64 CachedFs::invalidate_path *)
Definition invalidate_path (prefix : string) p c : C :=
  let c := cache_remove (key prefix "read" p) c in
  let c := cache_remove (key prefix "stat" p) c in
  let c := cache_remove (key prefix "readdir" p) c in
  drop_parent prefix p c.

(* src: crates/racfs-vfs/src/cached_fs.rs 66-80 CachedFs::invalidate_prefix *)
Definition invalidate_prefix (prefix : string) p c : C :=
  let c := cache_invalidate_prefix (key prefix "read" p) c in
  let c := cache_invalidate_prefix (key prefix "stat" p) c in
  let c := cache_invalidate_prefix (key prefix "readdir" p) c in
  drop_parent prefix p c.

(** A call of the inner filesystem, and the calls of the cache. *)
Definition on_inner {A} (m : FsOp S A) : FsOp (CachedFs S C) A := fun f =>
  let '(r, s) := m (inner f) in (r, mkCachedFs s (cache f) (key_prefix f)).

Definition lookup_cache (kind : string) p : FsOp (CachedFs S C) (option bytes) := fun f =>
  let '(v, c) := cache_get (key (key_prefix f) kind p) (cache f) in
  (Ok v, mkCachedFs (inner f) c (key_prefix f)).

Definition store_cache (kind : string) p (v : bytes) : FsOp (CachedFs S C) () :=
  modify (fun f => mkCachedFs (inner f) (cache_put (key (key_prefix f) kind p) v (cache f)) (key_prefix f)).

Definition drop_path p : FsOp (CachedFs S C) () :=
  modify (fun f => mkCachedFs (inner f) (invalidate_path (key_prefix f) p (cache f)) (key_prefix f)).

Definition drop_below p : FsOp (CachedFs S C) () :=
  modify (fun f => mkCachedFs (inner f) (invalidate_prefix (key_prefix f) p (cache f)) (key_prefix f)).

(** The part of the content that is returned. *)
(* src: crates/racfs-vfs/src/cached_fs.rs 101-110 CachedFs::read *)
Definition read_part (data : bytes) (offset size : Z) : Res bytes :=
  let start := i64_as_usize (Z.max offset 0) in
  e ← (if size <? 0 then Ok (len data)
       else n ← i64_add offset size;
            Ok (i64_as_usize (Z.max (Z.min n (usize_as_i64 (len data))) 0)));
  if len data <=? start then Ok [] else slice start (Z.min e (len data)) data.

(* src: crates/racfs-vfs/src/cached_fs.rs 85-111 CachedFs::read *)
Definition read now p (offset size : Z) : FsOp (CachedFs S C) bytes :=
  hit ← lookup_cache "read" p;
  match hit with
  | Some data => lift (read_part data offset size)
  | None =>
    data ← on_inner (fs_read now p 0 (-1));
    store_cache "read" p data ;;
    lift (read_part data offset size)
  end.

(** An answer that is kept as JSON: an entry that does not read back is
    ignored and replaced. *)
Definition cached_json {A} `{Serialize A, Deserialize A} (kind : string) p (fetch : FsOp S A)
  : FsOp (CachedFs S C) A :=
  hit ← lookup_cache kind p;
  match b ← hit; from_slice b with
  | Some a => mret a
  | None => a ← on_inner fetch; store_cache kind p (to_vec a) ;; mret a
  end.

(* src: crates/racfs-vfs/src/cached_fs.rs 113-125 CachedFs::stat *)
Definition stat now p : FsOp (CachedFs S C) FileMetadata := cached_json "stat" p (fs_stat now p).

(* src: crates/racfs-vfs/src/cached_fs.rs 130-134 CachedFs::create *)
Definition create now p : FsOp (CachedFs S C) () := on_inner (fs_create now p) ;; drop_path p.

(* src: crates/racfs-vfs/src/cached_fs.rs 136-146 CachedFs::write *)
Definition write now p (data : bytes) (offset flags : Z) : FsOp (CachedFs S C) Z :=
  n ← on_inner (fs_write now p data offset flags); drop_path p ;; mret n.

(* src: crates/racfs-vfs/src/cached_fs.rs 151-155 CachedFs::mkdir *)
Definition mkdir now p (perm : Z) : FsOp (CachedFs S C) () := on_inner (fs_mkdir now p perm) ;; drop_path p.

(* src: crates/racfs-vfs/src/cached_fs.rs 157-169 CachedFs::read_dir *)
Definition read_dir now p : FsOp (CachedFs S C) (list FileMetadata) :=
  cached_json "readdir" p (fs_read_dir now p).

(* src: crates/racfs-vfs/src/cached_fs.rs 171-175 CachedFs::remove *)
Definition remove now p : FsOp (CachedFs S C) () := on_inner (fs_remove now p) ;; drop_path p.

(* src: crates/racfs-vfs/src/cached_fs.rs 177-181 CachedFs::remove_all *)
Definition remove_all now p : FsOp (CachedFs S C) () := on_inner (fs_remove_all now p) ;; drop_below p.

(* src: crates/racfs-vfs/src/cached_fs.rs 183-188 CachedFs::rename *)
Definition rename now (old_path new_path : Path) : FsOp (CachedFs S C) () :=
  on_inner (fs_rename now old_path new_path) ;; drop_path old_path ;; drop_path new_path.

(* src: crates/racfs-vfs/src/cached_fs.rs 193-197 CachedFs::chmod *)
Definition chmod now p (mode : Z) : FsOp (CachedFs S C) () := on_inner (fs_chmod now p mode) ;; drop_path p.

(* src: crates/racfs-vfs/src/cached_fs.rs 202-208 CachedFs::truncate *)
Definition truncate now p (size : Z) : FsOp (CachedFs S C) () :=
  on_inner (fs_truncate now p size) ;; drop_path p.

(* src: crates/racfs-vfs/src/cached_fs.rs 210-216 CachedFs::touch *)
Definition touch now p : FsOp (CachedFs S C) () := on_inner (fs_touch now p) ;; drop_path p.

(** Links and attributes are left to the default methods. *)
(* src: crates/racfs-vfs/src/cached_fs.rs 201-217 FileSystem for CachedFs *)
#[global] Instance cached_filesystem : FileSystem (CachedFs S C) := {
  fs_read := read; fs_stat := stat; fs_create := create; fs_write := write;
  fs_mkdir := mkdir; fs_read_dir := read_dir; fs_remove := remove;
  fs_remove_all := remove_all; fs_rename := rename; fs_chmod := chmod;
  fs_truncate := truncate; fs_touch := touch; fs_readlink := default_readlink;
  fs_symlink := default_symlink; fs_get_xattr := default_get_xattr;
  fs_set_xattr := default_set_xattr; fs_remove_xattr := default_remove_xattr;
  fs_list_xattr := default_list_xattr
}.
End Ops.

(** ** What reads back *)

Definition round_meta (m : FileMetadata) : FileMetadata :=
  {| path := path m; size := size m; mode := mode m; created := round_ms <$> created m;
     modified := round_ms <$> modified m; accessed := round_ms <$> accessed m;
     is_symlink_flag := is_symlink_flag m; symlink_target := symlink_target m |}.



Section ReadBack.
Context `{JsonTextLaws} `{TsMillisecondsLaws}.

(** Whatever a stored value reads back as is the value, rounded. *)
Definition reads_back {A} `{Serialize A, Deserialize A} (round : A -> A) : Prop :=
  forall a a', from_json (to_json a) = Some a' -> a' = round a.

Lemma from_slice_to_vec {A} `{Serialize A, Deserialize A} (round : A -> A) a a' :
  reads_back round -> from_slice (to_vec a) = Some a' -> a' = round a.
Proof.
  intros Hr. unfold from_slice, to_vec. rewrite from_bytes_as_bytes, json_text_roundtrip. simpl. apply Hr.
Qed.

Lemma metadata_reads_back : reads_back round_meta.
Proof.
  intros [p n perm c m a l t] v. unfold from_json, to_json, FileMetadata_Deserialize, FileMetadata_Serialize.
  unfold get_field, opt_field. simpl. destruct (in_u64 n), (in_u32 perm); simpl; try done.
  all: rewrite ?ts_roundtrip; simpl; try done.
  all: destruct t as [t|]; simpl; intros; by simplify_eq.
Qed.

End ReadBack.

(** ** Keys *)

Lemma app_cancel_l (a s t : string) : a +:+ s = a +:+ t -> s = t.
Proof. induction a as [|c a IH]; simpl; [done|]. intros Heq. injection Heq as Heq. auto. Qed.


(** What a key is for. *)
Inductive Kind := KRead | KStat | KReaddir.

Definition kind_name (k : Kind) : string :=
  match k with KRead => "read" | KStat => "stat" | KReaddir => "readdir" end.

Abbreviation slot prefix k p := (key prefix (kind_name k) p).

Lemma slot_inj prefix k1 k2 p q : slot prefix k1 p = slot prefix k2 q -> k1 = k2 /\ p = q.
Proof. unfold key. intros Heq%app_cancel_l. by destruct k1, k2; simpl in Heq; simplify_eq. Qed.


(** ** When the wrapper answers as the inner filesystem *)

(** Does the call only look? *)
Definition is_lookup (c : FsCall) : bool :=
  match c with CRead _ _ _ | CStat _ | CReadDir _ => true | _ => false end.

(** A filesystem whose answers are those of its state: the calls respect the
    equivalence [R] of states, the ones that only look stay in their class and
    do not depend on the clock, and a read is the part of the whole. *)
Class StableReads (S : Type) `{FileSystem S} (R : relation S) : Prop := {
  stable_equivalence :: Equivalence R;
  stable_call now c w w' :
    R w w' -> fst (run_call now c w) = fst (run_call now c w') /\ R (snd (run_call now c w)) (snd (run_call now c w'));
  stable_lookup now now' c w :
    is_lookup c = true -> fst (run_call now c w) = fst (run_call now' c w) /\ R (snd (run_call now c w)) w;
  stable_range now p offset size w :
    0 <= offset <= i64_max -> (0 <= size -> offset + size <= i64_max) ->
    (forall d, fst (fs_read now p 0 (-1) w) = Ok d -> len d <= isize_max) ->
    fst (fs_read now p offset size w) = (fun d => range_spec d offset size) <$> fst (fs_read now p 0 (-1) w)
}.






Section Transparent.
Context `{BuildProfile} `{JsonTextLaws} `{TsMillisecondsLaws}.
Context {S C : Type} `{FileSystem S} `{CacheLaws C} (R : relation S) `{!StableReads S R}.
(** The paths of the calls, each with one spelling. *)
Variable used : Path -> Prop.
Implicit Types (now : Now) (p q : Path) (c : C) (w : S) (k : Kind).










(** ** What is forgotten *)








(** ** One call *)





(** ** One look-up *)

Lemma read_part_spec (d : bytes) (o n : Z) :
  len d <= isize_max -> 0 <= o <= i64_max -> (0 <= n -> o + n <= i64_max) ->
  read_part d o n = Ok (range_spec d o n).
Proof.
  intros Hd Ho Hn. rewrite <- (read_range_spec d o n) by (unfold isize_max, i64_max in *; lia).
  unfold read_part, read_range, range_bounds. pose proof (len_nonneg d).
  destruct (Z.ltb_spec n 0) as [Hneg|Hpos]; simpl; [by rewrite Z.min_id|].
  rewrite i64_add_ok by (unfold i64_min; lia). simpl.
  rewrite usize_as_i64_small by (unfold isize_max, i64_max in *; lia).
  rewrite (Z.max_l (Z.min _ _)) by lia.
  rewrite (i64_as_usize_nonneg (Z.min _ _)) by (unfold isize_max, i64_max in *; lia).
  by rewrite (Z.min_l (Z.min _ _) (len d)) by lia.
Qed.

Lemma lookup_run k p (f : CachedFs S C) :
  exists c, lookup_cache (kind_name k) p f =
            (Ok (held (cache f) !! slot (key_prefix f) k p), mkCachedFs (inner f) c (key_prefix f)) /\
            held c ⊆ held (cache f).
Proof.
  exists (snd (cache_get (slot (key_prefix f) k p) (cache f))). split; [|apply cache_get_keeps].
  unfold lookup_cache. rewrite <- cache_get_held. by destruct (cache_get _ _).
Qed.







Definition step {T} `{FileSystem T} (nx : Now * FsCall) (s : T) : outcome FSError FsReply * T :=
  run_call (fst nx) (snd nx) s.

End Transparent.

(** ** Where it does not *)

Section Stale.
Context `{BuildProfile} `{JsonTextLaws} `{TsMillisecondsLaws} {S : Type} `{FileSystem S}.
Implicit Types (now : Now) (p q : Path).

(** A cached content is answered without asking the filesystem. *)
Lemma read_hit {C} `{CacheLaws C} now q v (f : CachedFs S C) :
  len v <= isize_max -> held (cache f) !! slot (key_prefix f) KRead q = Some v ->
  fst (read now q 0 (-1) f) = Ok v.
Proof.
  intros Hlen Hv. unfold read. rewrite run_bind. destruct (lookup_run KRead q f) as (c & Hrun & _).
  change (kind_name KRead) with "read"%string in *. rewrite Hrun, Hv. unfold lift. simpl.
  rewrite read_part_spec by (unfold i64_max; lia). unfold range_spec. simpl. by rewrite zdrop_0.
Qed.

(** With the bounded cache [remove_all] forgets nothing: what is removed can
    still be read. *)
Theorem foyer_remove_all_stale now now' p q v (f : CachedFs S (FoyerCache.FoyerCache SmallFoyer.SmallFoyer)) :
  len v <= isize_max -> held (cache f) !! slot (key_prefix f) KRead q = Some v ->
  fst (fs_remove_all now p (inner f)) = Ok () ->
  fst (read now' q 0 (-1) (exec (remove_all now p) f)) = Ok v.
Proof.
  intros Hlen Hv Hr. apply read_hit; [done|]. unfold remove_all, on_inner, drop_below, modify. munfold.
  destruct (fs_remove_all now p (inner f)) as [[[]|e| |] s]; simplify_eq/=.
  unfold invalidate_prefix, drop_parent. simpl. destruct (listed_parent p) as [pp|]; [|done]. simpl.
  rewrite lookup_delete_ne; [done|]. intros Heq. by apply (slot_inj _ KReaddir KRead) in Heq as [? _].
Qed.

(** A change under another spelling of a path is not seen through the cache. *)
Theorem cached_fs_other_spelling now now' p q v data offset flags n
    (f : CachedFs S HashMapCache.HashMapCache) :
  len v <= isize_max -> held (cache f) !! slot (key_prefix f) KRead q = Some v ->
  q <> p -> fst (fs_write now p data offset flags (inner f)) = Ok n ->
  fst (read now' q 0 (-1) (exec (write now p data offset flags) f)) = Ok v.
Proof.
  intros Hlen Hv Hne Hw. apply read_hit; [done|]. unfold write, on_inner, drop_path, modify. munfold.
  destruct (fs_write now p data offset flags (inner f)) as [[m|e| |] s]; simplify_eq/=.
  unfold invalidate_path, drop_parent. simpl.
  assert (Hk : forall k r, (k, r) <> (KRead, q) -> slot (key_prefix f) k r <> slot (key_prefix f) KRead q).
  { intros k r Hkr [-> ->]%slot_inj. done. }
  destruct (listed_parent p) as [pp|]; simpl;
    repeat (rewrite lookup_delete_ne; [|by first [apply (Hk KRead)|apply (Hk KStat)|apply (Hk KReaddir)]; congruence]);
    done.
Qed.

(** A second [stat] answers times in whole milliseconds. *)
Theorem cached_stat_rounds now now' p m m' (f : CachedFs S HashMapCache.HashMapCache) :
  held (cache f) !! slot (key_prefix f) KStat p = None -> fst (fs_stat now p (inner f)) = Ok m ->
  from_slice (to_vec m) = Some m' ->
  fst (stat now p f) = Ok m /\ fst (stat now' p (exec (stat now p) f)) = Ok m' /\ m' = round_meta m.
Proof.
  intros Hn Hs Hm. split_and!; [| |by apply (from_slice_to_vec round_meta _ _ metadata_reads_back)].
  - unfold stat, cached_json. rewrite run_bind. destruct (lookup_run KStat p f) as (c & Hrun & _).
    change (kind_name KStat) with "stat"%string in *. rewrite Hrun, Hn. unfold on_inner, store_cache, modify. munfold.
    by destruct (fs_stat now p (inner f)) as [[?|?| |] ?]; simplify_eq/=.
  - assert (Hh : held (cache (exec (stat now p) f)) !! slot (key_prefix (exec (stat now p) f)) KStat p = Some (to_vec m)).
    { unfold stat, cached_json, lookup_cache, on_inner, store_cache, modify. munfold. simpl in Hn.
      unfold HashMapCache.get. change (kind_name KStat) with "stat"%string in *. rewrite Hn. simpl.
      destruct (fs_stat now p (inner f)) as [[?|?| |] ?]; simplify_eq/=. by rewrite lookup_insert_eq. }
    revert Hh. generalize (exec (stat now p) f). intros g Hg. unfold stat, cached_json. rewrite run_bind.
    destruct (lookup_run KStat p g) as (c & Hrun & _).
    change (kind_name KStat) with "stat"%string in *. rewrite Hrun, Hg. simpl. by rewrite Hm.
Qed.
End Stale.

(** ** The key-value filesystem behind a cache *)

(** A whole content is read at any length. *)
Lemma read_range_whole `{BuildProfile} d : read_range d 0 (-1) = Ok d.
Proof.
  unfold read_range, range_bounds. simpl. change (i64_as_usize (Z.max 0 0)) with 0.
  destruct (Z.leb_spec (len d) 0).
  - pose proof (len_nonneg d). by rewrite (len_zero_inv d) by lia.
  - apply slice_full.
Qed.

(** The answers of [KvFS] are those of its state. *)
#[global] Instance kvfs_stable `{BuildProfile} : StableReads KvFS.KvFS eq.
Proof.
  split; [typeclasses eauto|by intros ? ? ? ? ->| |].
  - intros now now' [] w Hl; try done; simpl; unfold fmap, M_fmap, KvFS.read, KvFS.stat; munfold;
      by destruct (pm_get _ _).
  - intros now p o n w Ho Hn Hlen. simpl in *. unfold KvFS.read in *. munfold.
    destruct (pm_get p (KvFS.store w)) as [d|]; simpl in *; [|done].
    assert (Hd : len d <= isize_max) by (by apply Hlen, read_range_whole).
    rewrite read_range_whole. simpl. apply read_range_spec; unfold isize_max, i64_max in *; lia.
Qed.

(** ** Witnesses *)

(** Milliseconds as numbers. *)
Definition number_ms : TsMilliseconds := {|
  ts_serialize o := match o with Some d => JNum (d / 10 ^ 6) | None => JNull end;
  ts_deserialize v :=
    match v with JNum n => Some (Some (n * 10 ^ 6)) | JNull => Some None | _ => None end
|}.

Lemma number_ms_laws : @TsMillisecondsLaws number_ms.
Proof. by intros []. Qed.

Section Witnesses.
#[local] Existing Instance debug_profile.
#[local] Existing Instance binary_json.
#[local] Existing Instance binary_json_laws.
#[local] Existing Instance number_ms.
#[local] Existing Instance number_ms_laws.


Definition demo_calls : list (Now * FsCall) :=
  let at_time n := (fun _ : nat => n) in
  [(at_time 1, CCreate "/f"); (at_time 2, CStat "/f"); (at_time 3, CReadDir "/");
   (at_time 4, CWrite "/f" (as_bytes "abc") 0 0); (at_time 5, CRead "/f" 1 2); (at_time 6, CRead "/f" 0 1);
   (at_time 7, CRemoveAll "/f"); (at_time 8, CRead "/f" 0 (-1)); (at_time 9, CReadDir "/"); (at_time 10, CReadlink "/f")].







(** The run is one of hits and misses, with the answers expected. *)
Example demo_answers :
  fst (run_all step demo_calls (with_key_prefix "m:" (new KvFS.new HashMapCache.new))) =
  [Ok RUnit; Ok (RMeta (file (fun _ => 1) "/f" 0)); Ok (RList [file (fun _ => 1) "/f" 0]); Ok (RCount 3);
   Ok (RBytes (as_bytes "bc")); Ok (RBytes (as_bytes "a")); Ok RUnit; Err (NotFound "/f"); Ok (RList []);
   Err (NotSupported "readlink not implemented")].
Proof. vm_compute. reflexivity. Qed.
End Witnesses.
