(* ===== verification/HttpFS.v ===== *)
(** * HttpFS: requests as files ([crates/racfs-plugin-httpfs])

    A map of files, some of which are looked at when [send] is written to a
    file named [trigger]: the request they describe is sent, the response is
    stored as files, and a GET is answered from, and kept in, the files below
    [/cache].  The crate [reqwest] works on a world [W] of its own; the hash of
    a URL is a parameter, as the standard library leaves it open.  [read_dir]
    depends on the order in which the map is iterated, which is an argument. *)

From S2P Require Import Prelude Text RPath FsError Metadata Flags FileSystem AbsPath Json.
From Stdlib Require Import Strings.Ascii.
From Stdlib Require Strings.String.

(* src: crates/racfs-plugin-httpfs/src/fs/mod.rs 33-36 FileEntry *)
Record FileEntry := { data : bytes; metadata : FileMetadata }.

(* src: crates/racfs-plugin-httpfs/src/fs/mod.rs 27-30 HttpFS *)
Record HttpFS (W : Type) := mkHttpFS { files : PathMap FileEntry; world : W }.
Arguments mkHttpFS {W}.
Arguments files {W}.
Arguments world {W}.

(** ** The client *)

Abbreviation Headers := (gmap string string).

(** A request as it is handed to [reqwest], and what comes back: a header value
    that is not text has none.  The crate documents that its blocking client may
    panic inside a runtime, where this one is used. *)
Record HttpCall := {
  call_method : string;
  call_url : string;
  call_headers : list (string * string);
  call_body : option bytes
}.
Record HttpReply := {
  reply_status : Z;
  reply_headers : list (string * option string);
  reply_body : string + bytes
}.

Class Reqwest (W : Type) := {
  client_build : outcome string ();
  http_send : HttpCall -> W -> outcome string HttpReply * W;
  headers_error : string -> string;
  hash_url : string -> Z
}.

(** ** Helpers *)

(* src: crates/racfs-plugin-httpfs/src/fs/mod.rs 39-62 parse_request_id *)
Definition parse_request_id (p : Path) : Res string :=
  match components p with
  | RootDir :: Normal "requests" :: c :: _ =>
    match c with Normal name => Ok name | _ => Err (InvalidInput "invalid request ID") end
  | _ => Err (InvalidInput "invalid request path")
  end.

(** [format!("{:016x}", n)] for a [u64]. *)
Definition hex_digit (n : Z) : ascii := if n <? 10 then digit n else ascii_of_nat (87 + Z.to_nat n).
Fixpoint hex_fixed (w : nat) (n : Z) : string :=
  match w with O => "" | S k => hex_fixed k (n / 16) +:+ String (hex_digit (n mod 16)) "" end.

(* src: crates/racfs-plugin-httpfs/src/fs/mod.rs 65-69 url_to_cache_key *)
Definition url_to_cache_key {W} `{Reqwest W} (url : string) : string := hex_fixed 16 (hash_url url).

(* src: crates/racfs-plugin-httpfs/src/fs/mod.rs 73-78 CacheDirective *)
Record CacheDirective := { max_age_secs : option Z; no_store : bool }.

Definition comma : ascii := ",".

(** One turn of the loop.  Only the first eight characters are compared, and
    no other character has a small letter of them. *)
Definition cache_control_part (d : CacheDirective) (part : string) : CacheDirective :=
  let part := trim part in
  if eq_ignore_ascii_case part "no-store" then {| max_age_secs := max_age_secs d; no_store := true |}
  else if eq_ignore_ascii_case part "no-cache" then {| max_age_secs := Some 0; no_store := no_store d |}
  else if starts_with (to_ascii_lowercase part) "max-age=" then
    match parse_u64 (trim (String.substring 8 (String.length part) part)) with
    | Some n => {| max_age_secs := Some n; no_store := no_store d |}
    | None => d
    end
  else d.

Definition either {A} (a b : option A) : option A := match a with Some _ => a | None => b end.

(* src: crates/racfs-plugin-httpfs/src/fs/mod.rs 81-105 parse_cache_control *)
Definition parse_cache_control (headers : Headers) : CacheDirective :=
  let value := default "" (either (headers !! "cache-control"%string) (headers !! "Cache-Control"%string)) in
  fold_left cache_control_part (split_char comma value) {| max_age_secs := None; no_store := false |}.

(* src: crates/racfs-plugin-httpfs/src/fs/mod.rs 108-108 DEFAULT_CACHE_TTL_SECS *)
Definition DEFAULT_CACHE_TTL_SECS : Z := 60.

(** [Path::ends_with] *)
Definition path_ends_with (p q : Path) : bool :=
  match list_strip_prefix (rev (components q)) (rev (components p)) with Some _ => true | None => false end.

(** [HashMap<String, String>] as JSON, and the collected headers of a reply, of
    which the last one of a name stays. *)
Definition headers_to_json (h : Headers) : Json := JObj (map (fun kv => (fst kv, JStr (snd kv))) (map_to_list h)).
Definition headers_from_json (v : Json) : option Headers := map_from string_Deserialize v.
Definition collect_headers (l : list (string * option string)) : Headers :=
  fold_left (fun m kv => match snd kv with Some v => <[fst kv := v]> m | None => m end) l ∅.

(** Seconds since the epoch. *)
Definition timestamp (d : DateTime) : Z := d / 10 ^ 9.
Definition i64_as_u64 (z : Z) : Z := u64_wrap z.

Definition dir_entry now (p : Path) : FileEntry := {| data := []; metadata := directory now p |}.
Definition file_entry now (p : Path) (n : Z) (d : bytes) : FileEntry := {| data := d; metadata := file now p n |}.

(** ** The operations *)

Section Ops.
Context `{BuildProfile} `{JsonText} {W : Type} `{Reqwest W}.
Context (iter_files : PathMap FileEntry -> list (Path * FileEntry)).
Implicit Types (now : Now) (p : Path).
Abbreviation Op := (FsOp (HttpFS W)).

Definition set_files f : Op () := modify (fun s => mkHttpFS f (world s)).
Definition insert_file p (e : FileEntry) : Op () := modify (fun s => mkHttpFS (pm_insert p e (files s)) (world s)).

(* src: crates/racfs-plugin-httpfs/src/fs/mod.rs 123-157 HttpFS::init_directories *)
Definition init_directories now : PathMap FileEntry :=
  pm_insert "/cache" (dir_entry (now_from 9 now) "/cache")
    (pm_insert "/responses" (dir_entry (now_from 6 now) "/responses")
      (pm_insert "/requests" (dir_entry (now_from 3 now) "/requests")
        (pm_insert "/" (dir_entry now "/") ∅))).

(* src: crates/racfs-plugin-httpfs/src/fs/mod.rs 112-120 HttpFS::new *)
Definition new now (w : W) : HttpFS W := mkHttpFS (init_directories now) w.

(* src: crates/racfs-plugin-httpfs/src/fs/mod.rs 159-164 HttpFS::get_entry *)
Definition get_entry p : Op FileEntry := s ← get; lift (ok_or (pm_get p (files s)) (NotFound p)).

(* src: crates/racfs-plugin-httpfs/src/fs/mod.rs 166-182 HttpFS::ensure_parent_exists *)
Definition ensure_parent_exists p : Op () :=
  match parent p with
  | Some q =>
    if String.eqb q "/" then mret ()
    else
      e ← get_entry q;
      fail_if (negb (is_directory (metadata e))) (NotADirectory q)
  | None => mret ()
  end.

(* src: crates/racfs-plugin-httpfs/src/fs/mod.rs 385-395 HttpFS::read_bytes_sync *)
Definition read_bytes_sync p : Op bytes :=
  e ← get_entry p;
  fail_if (is_directory (metadata e)) (IsDirectory p) ;;
  mret (data e).

(* src: crates/racfs-plugin-httpfs/src/fs/mod.rs 378-383 HttpFS::read_to_string_sync *)
Definition read_to_string_sync p : Op string :=
  d ← read_bytes_sync p;
  lift (ok_or (from_utf8 d) (from_utf8_error (utf8_error_text d))).

(** [result.ok()], on operations that do not panic. *)
Definition try_op {A} (m : Op A) : Op (option A) := fun s =>
  match m s with
  | (Ok a, s') => (Ok (Some a), s')
  | (Err _, s') => (Ok None, s')
  | (Panic, s') => (Panic, s')
  | (Diverge, s') => (Diverge, s')
  end.

Definition or_else {A} (o : option A) (e : FSError) : Op A := lift (ok_or o e).

Definition cache_dir (key : string) : Path := "/cache/" +:+ key.

(** The [?] on an [Option] gives up; the error that stands for it is dropped. *)
(* src: crates/racfs-plugin-httpfs/src/fs/mod.rs 398-418 HttpFS::get_cached_response *)
Definition get_cached_response now (key : string) : Op (option (Z * Headers * bytes)) :=
  let base := cache_dir key in
  let none := InvalidInput "" in
  try_op
    (expiry_str ← read_to_string_sync (join base "expiry");
     expiry_secs ← or_else (parse_u64 (trim expiry_str)) none;
     fail_if (i64_wrap expiry_secs <? timestamp (now 0%nat)) none ;;
     status_str ← read_to_string_sync (join base "status");
     status_code ← or_else (n ← parse_u64 (trim status_str); if n <=? 65535 then Some n else None) none;
     headers_json ← read_to_string_sync (join base "headers.json");
     headers ← or_else (v ← json_from_str headers_json; headers_from_json v) none;
     body ← read_bytes_sync (join base "body");
     mret (status_code, headers, body)).

(* src: crates/racfs-plugin-httpfs/src/fs/mod.rs 501-504 HttpFS::get_cached_etag *)
Definition get_cached_etag (key : string) : Op (option string) :=
  try_op (read_to_string_sync ("/cache/" +:+ key +:+ "/etag")).

(* src: crates/racfs-plugin-httpfs/src/fs/mod.rs 506-509 HttpFS::get_cached_body_only *)
Definition get_cached_body_only (key : string) : Op (option bytes) :=
  try_op (read_bytes_sync ("/cache/" +:+ key +:+ "/body")).

(** [if !files.contains_key(&dir) { files.insert(dir, ..) }] *)
Definition ensure_dir now p : Op () :=
  s ← get;
  if pm_contains p (files s) then mret () else insert_file p (dir_entry now p).

(* src: crates/racfs-plugin-httpfs/src/fs/mod.rs 320-376 HttpFS::store_response_direct *)
Definition store_response_direct now (request_id : string) (status_code : Z) (headers : Headers) (body : bytes)
  : Op () :=
  let dir := "/responses/" +:+ request_id in
  ensure_dir now dir ;;
  let status_path := dir +:+ "/status" in
  let status_data := as_bytes (to_string status_code) in
  insert_file status_path (file_entry (now_from 3 now) status_path (len status_data) status_data) ;;
  let headers_path := dir +:+ "/headers.json" in
  let headers_data := as_bytes (json_to_string (headers_to_json headers)) in
  insert_file headers_path (file_entry (now_from 6 now) headers_path (len headers_data) headers_data) ;;
  let body_path := dir +:+ "/body" in
  insert_file body_path (file_entry (now_from 9 now) body_path (len body) body).

(* src: crates/racfs-plugin-httpfs/src/fs/mod.rs 421-499 HttpFS::set_cached_response *)
Definition set_cached_response now (key : string) (status_code : Z) (headers : Headers) (body : bytes)
    (max_age : Z) : Op () :=
  let base := cache_dir key in
  ensure_dir now base ;;
  expiry_secs ← lift (usize_add (i64_as_u64 (timestamp (now 3%nat))) max_age);
  let status_path := join base "status" in
  insert_file status_path (file_entry (now_from 4 now) status_path 3 (as_bytes (to_string status_code))) ;;
  let headers_path := join base "headers.json" in
  let headers_data := as_bytes (json_to_string (headers_to_json headers)) in
  insert_file headers_path (file_entry (now_from 7 now) headers_path (len headers_data) headers_data) ;;
  let body_path := join base "body" in
  insert_file body_path (file_entry (now_from 10 now) body_path (len body) body) ;;
  let expiry_path := join base "expiry" in
  insert_file expiry_path (file_entry (now_from 13 now) expiry_path 20 (as_bytes (to_string expiry_secs))) ;;
  match either (headers !! "etag"%string) (headers !! "ETag"%string) with
  | Some etag =>
    let etag_path := join base "etag" in
    insert_file etag_path (file_entry (now_from 16 now) etag_path (str_len etag) (as_bytes etag))
  | None => mret ()
  end.

Definition methods : list string := ["GET"; "POST"; "PUT"; "DELETE"; "PATCH"; "HEAD"]%string.
Definition takes_body (m : string) : bool := existsb (String.eqb m) ["POST"; "PUT"; "PATCH"]%string.

Definition send (c : HttpCall) : Op (outcome string HttpReply) := fun s =>
  let '(r, w) := http_send c (world s) in (Ok r, mkHttpFS (files s) w).

(** [trim_matches] with a double quote. *)
Definition unquote (s : string) : string := trim_end_str dquote (trim_start_char (ascii_of_nat 34) s).

(** The readings of the clock are those of the three parts in turn. *)
(* src: crates/racfs-plugin-httpfs/src/fs/mod.rs 185-318 HttpFS::execute_request_sync *)
Definition execute_request_sync now (request_id : string) : Op () :=
  let dir := "/requests/" +:+ request_id in
  url ← read_to_string_sync (dir +:+ "/url");
  method ← read_to_string_sync (dir +:+ "/method");
  headers_json ← default "" <$> try_op (read_to_string_sync (dir +:+ "/headers.json"));
  body ← default [] <$> try_op (read_bytes_sync (dir +:+ "/body"));
  let method_upper := to_uppercase (trim method) in
  let is_get := String.eqb method_upper "GET" in
  let cache_key := if is_get then url_to_cache_key (trim url) else "" in
  cached ← (if is_get then get_cached_response now cache_key else mret None);
  match cached with
  | Some (status_code, headers, cached_body) =>
    store_response_direct (now_from 1 now) request_id status_code headers cached_body
  | None =>
    headers ← (if String.eqb headers_json "" then mret ∅
               else or_else (v ← json_from_str headers_json; headers_from_json v)
                            (InvalidInput ("invalid headers.json: " +:+ headers_error headers_json)));
    lift (map_err (fun e => Io ("failed to build HTTP client: " +:+ e)) client_build) ;;
    fail_if (negb (existsb (String.eqb method_upper) methods))
      (InvalidInput ("unsupported HTTP method: " +:+ method)) ;;
    etag ← (if is_get then get_cached_etag cache_key else mret None);
    r ← send {| call_method := method_upper; call_url := if is_get then trim url else url;
                call_headers := map_to_list headers ++
                  match etag with Some t => [("If-None-Match"%string, unquote t)] | None => [] end;
                call_body := if negb (bool_decide (body = [])) && takes_body method_upper then Some body else None |};
    response ← lift (map_err (fun e => Io ("HTTP request failed: " +:+ e)) r);
    let status_code := reply_status response in
    let response_headers := collect_headers (reply_headers response) in
    response_body ←
      (if (status_code =? 304) && is_get then default [] <$> get_cached_body_only cache_key
       else lift (match reply_body response with
                  | inl e => Err (Io ("failed to read response body: " +:+ e))
                  | inr b => Ok b
                  end));
    store_response_direct (now_from 1 now) request_id status_code response_headers response_body ;;
    if is_get && (status_code =? 200) then
      let directive := parse_cache_control response_headers in
      if negb (no_store directive) then
        let ttl := default DEFAULT_CACHE_TTL_SECS (max_age_secs directive) in
        try_op (set_cached_response (now_from 13 now) cache_key status_code response_headers response_body ttl) ;;
        mret ()
      else mret ()
    else mret ()
  end.

(** ** The trait *)

(* src: crates/racfs-plugin-httpfs/src/fs/read.rs 10-32 HttpFS::read *)
Definition read now p (offset size : Z) : Op bytes :=
  e ← get_entry p;
  fail_if (is_directory (metadata e)) (IsDirectory p) ;;
  lift (read_range (data e) offset size).

(* src: crates/racfs-plugin-httpfs/src/fs/read.rs 34-37 HttpFS::stat *)
Definition stat now p : Op FileMetadata := e ← get_entry p; mret (metadata e).

(** The directories that hold no files of their own. *)
Definition top_dirs : list string := ["/requests"; "/responses"; "/cache"]%string.
Definition is_top (s : string) : bool := existsb (String.eqb s) top_dirs.

(* src: crates/racfs-plugin-httpfs/src/fs/write.rs 10-41 HttpFS::create *)
Definition create now p : Op () :=
  ensure_parent_exists p ;;
  s ← get;
  fail_if (pm_contains p (files s)) (AlreadyExists p) ;;
  fail_if (match parent p with Some q => is_top q | None => false end) (PermissionDenied p) ;;
  insert_file p (file_entry now p 0 []).

(** The new content, made in place. *)
Definition write_data (content : bytes) (offset flags : Z) : M bytes FSError () :=
  d ← get;
  if WriteFlags.contains_append flags || (len d <=? i64_as_usize offset) then
    let e := i64_as_usize (Z.max offset 0) in
    (if len d <? e then update_state (resize e Byte.x00) else mret ()) ;;
    update_state (extend_from_slice content)
  else put content.

(** The entry after a write that came back, and after one that panicked. *)
Definition written now (d : bytes) (e : FileEntry) : FileEntry :=
  {| data := d; metadata := set_modified (Some (now 0%nat)) (set_size (len d) (metadata e)) |}.

(* src: crates/racfs-plugin-httpfs/src/fs/write.rs 43-94 HttpFS::write *)
Definition write now p (content : bytes) (offset flags : Z) : Op Z :=
  e ← get_entry p;
  fail_if (is_directory (metadata e)) (IsDirectory p) ;;
  if path_ends_with p "trigger" && String.eqb (trim (from_utf8_lossy content)) "send" then
    match parse_request_id p with
    | Ok request_id => execute_request_sync now request_id
    | _ => mret ()
    end ;;
    mret (len content)
  else
    fail_if (path_starts_with p "/responses/") ReadOnly ;;
    let '(r, d) := write_data content offset flags (data e) in
    modify (fun s => mkHttpFS (pm_update p (fun e =>
      match r with Ok _ => written now d e | _ => {| data := d; metadata := metadata e |} end) (files s)) (world s)) ;;
    lift r ;;
    mret (len content).

(* src: crates/racfs-plugin-httpfs/src/fs/dir.rs 10-43 HttpFS::mkdir *)
Definition mkdir now p (perm : Z) : Op () :=
  fail_if (match parent p with Some q => negb (String.eqb q "/" || is_top q) | None => false end)
    (PermissionDenied p) ;;
  s ← get;
  fail_if (pm_contains p (files s)) (AlreadyExists p) ;;
  insert_file p (dir_entry now p).

Definition first_normal (p : Path) : option string :=
  head (omap (fun c => match c with Normal s => Some s | _ => None end) (components p)).

(** One turn of the iterator: the names that were seen, and the entries. *)
Definition list_step (prefix : string) (acc : list string * list FileMetadata) (kv : Path * FileEntry)
  : list string * list FileMetadata :=
  let '(seen, out) := acc in
  let '(p, e) := kv in
  if starts_with p prefix && negb (String.eqb p prefix) then
    let relative := if String.eqb prefix "" then p else default p (path_strip_prefix p prefix) in
    if String.eqb relative "/" then acc
    else match first_normal relative with
         | None => acc
         | Some name =>
           if existsb (String.eqb name) seen then acc
           else
             let child := join (if String.eqb prefix "" then "/" else prefix) name in
             (name :: seen, out ++ [set_path child (metadata e)])
         end
  else acc.

(* src: crates/racfs-plugin-httpfs/src/fs/dir.rs 45-96 HttpFS::read_dir *)
Definition read_dir now p : Op (list FileMetadata) :=
  s ← get; mret (snd (fold_left (list_step (dir_prefix p)) (iter_files (files s)) ([], []))).

(* src: crates/racfs-plugin-httpfs/src/fs/dir.rs 98-114 HttpFS::remove *)
Definition remove now p : Op () :=
  s ← get;
  entry ← lift (ok_or (pm_get p (files s)) (NotFound p));
  let files' := pm_remove p (files s) in
  put (mkHttpFS files' (world s)) ;;
  fail_if (is_directory (metadata entry) &&
           existsb (fun q => negb (path_eqb q p) && path_starts_with q p) (pm_keys files')) DirectoryNotEmpty.

(* src: crates/racfs-plugin-httpfs/src/fs/dir.rs 116-129 HttpFS::remove_all *)
Definition remove_all now p : Op () :=
  s ← get;
  fail_if (negb (pm_contains p (files s))) (NotFound p) ;;
  put (mkHttpFS (pm_retain (fun q => negb (path_starts_with q p) || path_eqb q p) (files s)) (world s)).

(* src: crates/racfs-plugin-httpfs/src/fs/dir.rs 131-152 HttpFS::rename *)
Definition rename now (old_path new_path : Path) : Op () :=
  s ← get;
  entry ← lift (ok_or (pm_get old_path (files s)) (NotFound old_path));
  let files' := pm_remove old_path (files s) in
  if pm_contains new_path files' then
    put (mkHttpFS (pm_insert old_path entry files') (world s)) ;; fail (AlreadyExists new_path)
  else
    put (mkHttpFS (pm_insert new_path {| data := data entry; metadata := set_path new_path (metadata entry) |} files')
                  (world s)).

(* src: crates/racfs-plugin-httpfs/src/fs/chmod.rs 10-22 HttpFS::chmod *)
Definition chmod now p (mode : Z) : Op () :=
  get_entry p ;;
  modify (fun s => mkHttpFS (pm_update p (fun e =>
    {| data := data e; metadata := set_modified (Some (now 0%nat)) (set_permissions mode (metadata e)) |}) (files s))
    (world s)).

(* src: crates/racfs-plugin-httpfs/src/fs/mod.rs 520-545 HttpFS::truncate *)
Definition truncate now p (size : Z) : Op () :=
  e ← get_entry p;
  fail_if (is_directory (metadata e)) (IsDirectory p) ;;
  d ← lift (if size <? len (data e) then Ok (ztake size (data e))
            else if len (data e) <? size then resize size Byte.x00 (data e)
            else Ok (data e));
  modify (fun s => mkHttpFS (pm_update p (fun e =>
    {| data := d; metadata := set_modified (Some (now 0%nat)) (set_size size (metadata e)) |}) (files s)) (world s)).

Definition touched now (e : FileEntry) : FileEntry :=
  {| data := data e; metadata := set_modified (Some (now 1%nat)) (set_accessed (Some (now 0%nat)) (metadata e)) |}.
Definition touch_entry now p : Op () :=
  modify (fun s => mkHttpFS (pm_update p (touched now) (files s)) (world s)).

(* src: crates/racfs-plugin-httpfs/src/fs/mod.rs 547-570 HttpFS::touch *)
Definition touch now p : Op () :=
  s ← get;
  if pm_contains p (files s) then touch_entry now p
  else create now p ;; touch_entry (now_from 3 now) p.

#[global] Instance httpfs_filesystem : FileSystem (HttpFS W) := {
  fs_read := read; fs_stat := stat; fs_create := create; fs_write := write;
  fs_mkdir := mkdir; fs_read_dir := read_dir; fs_remove := remove;
  fs_remove_all := remove_all; fs_rename := rename; fs_chmod := chmod;
  fs_truncate := truncate; fs_touch := touch; fs_readlink := default_readlink;
  fs_symlink := default_symlink; fs_get_xattr := default_get_xattr;
  fs_set_xattr := default_set_xattr; fs_remove_xattr := default_remove_xattr;
  fs_list_xattr := default_list_xattr
}.
End Ops.

(** ** What the helpers leave and find *)

Section Files.
Context `{BuildProfile} `{JT : JsonText} {W : Type} `{Reqwest W}.
Abbreviation Op := (FsOp (HttpFS W)).
Implicit Types (now : Now) (p q : Path) (s : HttpFS W) (m : PathMap FileEntry) (h : Headers).

(** The content and the text of a file. *)
Definition content m p : option bytes :=
  e ← pm_get p m; if is_directory (metadata e) then None else Some (data e).
Definition text m p : option string := d ← content m p; from_utf8 d.

Lemma try_read_bytes p s : try_op (read_bytes_sync p) s = (Ok (content (files s) p), s).
Proof.
  unfold try_op, read_bytes_sync, get_entry, content. munfold.
  destruct (pm_get p (files s)) as [e|]; [|done]. simpl. by destruct (is_directory (metadata e)).
Qed.

Lemma try_read_text p s : try_op (read_to_string_sync p) s = (Ok (text (files s) p), s).
Proof.
  unfold try_op, read_to_string_sync, read_bytes_sync, get_entry, text, content. munfold.
  destruct (pm_get p (files s)) as [e|]; [|done]. simpl. destruct (is_directory (metadata e)); [done|].
  simpl. by destruct (from_utf8 (data e)).
Qed.

Lemma read_bytes_ok p s d : content (files s) p = Some d -> read_bytes_sync p s = (Ok d, s).
Proof.
  unfold read_bytes_sync, get_entry, content. munfold.
  destruct (pm_get p (files s)) as [e|]; [|done]. simpl.
  destruct (is_directory (metadata e)); [done|]. by intros [= <-].
Qed.

Lemma read_text_ok p s t : text (files s) p = Some t -> read_to_string_sync p s = (Ok t, s).
Proof.
  unfold text. destruct (content (files s) p) as [d|] eqn:E; [|done]. simpl. intros Ht.
  unfold read_to_string_sync. rewrite run_bind, (read_bytes_ok p s d E). unfold lift. by rewrite Ht.
Qed.

Lemma content_of_insert now p n d m : content (pm_insert p (file_entry now p n d) m) p = Some d.
Proof. unfold content. by rewrite pm_get_insert. Qed.

Lemma content_of_insert_ne p q e m :
  components p <> components q -> content (pm_insert p e m) q = content m q.
Proof. intros Hne. unfold content. by rewrite pm_get_insert_ne. Qed.

(** The collected headers read back from their JSON text. *)
Lemma headers_json h : headers_from_json (headers_to_json h) = Some h.
Proof.
  unfold headers_from_json, headers_to_json, map_from.
  assert (Hm : mapM (fun kv : string * Json => a ← string_Deserialize (snd kv); Some (fst kv, a))
                 (map (fun kv => (fst kv, JStr (snd kv))) (map_to_list h)) = Some (map_to_list h)).
  { induction (map_to_list h) as [|[k v] l IH]; [done|]. simpl in *. by rewrite IH. }
  rewrite Hm. simpl. f_equal. clear Hm.
  transitivity (list_to_map (rev (map_to_list h)) : Headers).
  - rewrite <- fold_left_rev_right.
    induction (rev (map_to_list h)) as [|[k v] l IH]; [done|]. simpl. by rewrite IH.
  - rewrite <- (list_to_map_to_list h) at 2. symmetry. apply list_to_map_proper.
    + apply NoDup_fst_map_to_list.
    + apply Permutation_rev.
Qed.

(** A key is a name. *)
Definition hex_char (a : ascii) : bool := negb (Ascii.eqb a slash) && negb (Ascii.eqb a ".").
Fixpoint hex_chars (t : string) : bool :=
  match t with "" => true | String a t => hex_char a && hex_chars t end.

Lemma hex_digit_char n : hex_char (hex_digit (n mod 16)) = true.
Proof.
  pose proof (Z.mod_pos_bound n 16 ltac:(lia)) as Hb.
  assert (Hin : n mod 16 ∈ seqZ 0 16) by (apply elem_of_seqZ; lia).
  revert Hin. generalize (n mod 16). intros d Hin. apply list_elem_of_In in Hin.
  vm_compute in Hin. repeat destruct Hin as [<-|Hin]; try reflexivity. destruct Hin.
Qed.

Lemma hex_fixed_chars w n : hex_chars (hex_fixed w n) = true.
Proof.
  revert n. induction w as [|w IH]; intros n; [done|]. cbn [hex_fixed].
  specialize (IH (n / 16)). revert IH. generalize (hex_fixed w (n / 16)). intros t.
  induction t as [|a t IHt].
  - intros _. change (hex_char (hex_digit (n mod 16)) && true = true). by rewrite hex_digit_char.
  - rewrite string_app_cons. cbn [hex_chars]. intros [Ha Ht]%andb_true_iff. by rewrite Ha, IHt.
Qed.

Lemma hex_name t : t <> "" -> hex_chars t = true -> name_ok t = true.
Proof.
  intros Hne Ht. unfold name_ok, trivial_seg. destruct t as [|a t]; [done|].
  cbn in Ht. apply andb_true_iff in Ht as [[Ha Hd]%andb_true_iff Ht].
  apply andb_true_iff. split.
  - cbn. apply negb_true_iff in Hd. by rewrite Hd.
  - rewrite no_slash_cons, Ha. cbn. clear Ha Hd Hne. induction t as [|b t IH]; [done|].
    cbn in Ht. apply andb_true_iff in Ht as [[Hb _]%andb_true_iff Ht].
    rewrite no_slash_cons, Hb. by apply IH.
Qed.

Lemma url_key_name url : name_ok (url_to_cache_key url) = true.
Proof.
  apply hex_name; [|apply hex_fixed_chars]. unfold url_to_cache_key. cbn [hex_fixed].
  intros Heq. apply (f_equal String.length) in Heq. rewrite !string_length_app in Heq. cbn in Heq. lia.
Qed.
End Files.

(** ** Responses and the cache *)

Section Cached.
Context `{BuildProfile} `{JT : JsonText} {W : Type} `{Reqwest W}.
Abbreviation Op := (FsOp (HttpFS W)).
Implicit Types (now : Now) (p q : Path) (s : HttpFS W) (m : PathMap FileEntry) (h : Headers).

Definition in_top (t : string) (q : Path) : Prop := exists r, components q = RootDir :: Normal t :: r.

Definition headers_text h : string := json_to_string (headers_to_json h).

(** The three files of a stored response. *)
Definition stored m (dir : string) (id : string) (st : Z) h (b : bytes) : Prop :=
  content m (abs_path [dir; id; "status"]) = Some (as_bytes (to_string st)) /\
  content m (abs_path [dir; id; "headers.json"]) = Some (as_bytes (headers_text h)) /\
  content m (abs_path [dir; id; "body"]) = Some b.

Lemma file_path_ok (d id n : string) : name_ok d = true -> name_ok id = true -> name_ok n = true ->
  components (abs_path [d; id; n]) = [RootDir; Normal d; Normal id; Normal n].
Proof. intros. apply (components_abs [d; id; n]). by repeat constructor. Qed.

Lemma ensure_dir_run now p s : exists f, ensure_dir now p s = (Ok (), mkHttpFS f (world s)) /\
  forall q, components q <> components p -> pm_get q f = pm_get q (files s).
Proof.
  unfold ensure_dir, insert_file. munfold. destruct (pm_contains p (files s)).
  - exists (files s). by destruct s.
  - eexists. split; [done|]. intros q Hq. by rewrite pm_get_insert_ne.
Qed.

Ltac other_name := rewrite ?file_path_ok by done; congruence.

Lemma store_response_run now id st h b s : name_ok id = true ->
  exists f, store_response_direct now id st h b s = (Ok (), mkHttpFS f (world s)) /\
    stored f "responses" id st h b /\
    forall q, ~ in_top "responses" q -> pm_get q f = pm_get q (files s).
Proof.
  intros Hid. unfold store_response_direct.
  destruct (ensure_dir_run now ("/responses/" +:+ id) s) as (f0 & Hf0 & Hother).
  rewrite run_bind, Hf0. eexists. split; [reflexivity|]. cbn [files world].
  change (("/responses/" +:+ id) +:+ "/status") with (abs_path ["responses"; id; "status"]).
  change (("/responses/" +:+ id) +:+ "/headers.json") with (abs_path ["responses"; id; "headers.json"]).
  change (("/responses/" +:+ id) +:+ "/body") with (abs_path ["responses"; id; "body"]).
  split.
  - unfold stored. rewrite ?content_of_insert, ?content_of_insert_ne by other_name.
    rewrite ?content_of_insert, ?content_of_insert_ne by other_name. by rewrite ?content_of_insert.
  - intros q Hq.
    assert (Hne : forall n, name_ok n = true -> components (abs_path ["responses"; id; n]) <> components q).
    { intros n Hn Heq. apply Hq. eexists. rewrite <- Heq. by rewrite file_path_ok. }
    rewrite !pm_get_insert_ne by (by apply Hne). apply Hother. intros Heq. apply Hq.
    exists [Normal id]. rewrite Heq. change ("/responses/" +:+ id) with (abs_path ["responses"; id]).
    apply (components_abs ["responses"; id]). by repeat constructor.
Qed.

(** The fourth file of a cached response, its last second. *)
Definition cached m (key : string) (st : Z) h (b : bytes) (expiry : Z) : Prop :=
  stored m "cache" key st h b /\
  content m (abs_path ["cache"; key; "expiry"]) = Some (as_bytes (to_string expiry)).

Lemma cache_file key n : name_ok key = true -> name_ok n = true ->
  join (cache_dir key) n = abs_path ["cache"; key; n].
Proof.
  intros Hk Hn. change (cache_dir key) with (abs_path ["cache"; key]).
  apply (join_abs ["cache"; key]); [by repeat constructor|done].
Qed.

Lemma expiry_sum (t ttl : Z) : 0 <= t -> 0 <= ttl -> t + ttl <= i64_max ->
  @usize_add _ FSError (i64_as_u64 t) ttl = Ok (t + ttl).
Proof.
  unfold i64_max. intros. unfold i64_as_u64, u64_wrap. rewrite Z.mod_small by lia.
  apply usize_add_ok. unfold u64_max. lia.
Qed.

Lemma set_cached_run now key st h b ttl s :
  name_ok key = true -> 0 <= timestamp (now 3%nat) -> 0 <= ttl -> timestamp (now 3%nat) + ttl <= i64_max ->
  exists f, set_cached_response now key st h b ttl s = (Ok (), mkHttpFS f (world s)) /\
    cached f key st h b (timestamp (now 3%nat) + ttl) /\
    forall q, ~ in_top "cache" q -> pm_get q f = pm_get q (files s).
Proof.
  intros Hk Hnow Httl Hmax. unfold set_cached_response.
  destruct (ensure_dir_run now (cache_dir key) s) as (f0 & Hf0 & Hother).
  rewrite run_bind, Hf0. rewrite run_bind. unfold lift at 1. rewrite expiry_sum by done. cbv beta iota.
  rewrite !cache_file by done. repeat (rewrite run_bind; unfold insert_file at 1, modify at 1; cbn [files world]).
  set (f1 := pm_insert (abs_path ["cache"; key; "expiry"]) _ _).
  assert (Hne : forall q n, ~ in_top "cache" q -> name_ok n = true ->
    components (abs_path ["cache"; key; n]) <> components q).
  { intros q n Hq Hn Heq. apply Hq. eexists. rewrite <- Heq. by rewrite file_path_ok. }
  assert (Hf1 : cached f1 key st h b (timestamp (now 3%nat) + ttl)).
  { unfold cached, stored, f1.
    repeat (rewrite content_of_insert || rewrite content_of_insert_ne by (rewrite !file_path_ok by done; congruence)).
    done. }
  assert (Hf1o : forall q, ~ in_top "cache" q -> pm_get q f1 = pm_get q (files s)).
  { intros q Hq. unfold f1. rewrite !pm_get_insert_ne by (by apply Hne). apply Hother. intros Heq. apply Hq.
    exists [Normal key]. rewrite Heq. change (cache_dir key) with (abs_path ["cache"; key]).
    apply (components_abs ["cache"; key]). by repeat constructor. }
  destruct (either _ _) as [t|]; [|by exists f1]. eexists. split; [reflexivity|]. cbn [files].
  split.
  - unfold cached, stored. rewrite !content_of_insert_ne by (rewrite !file_path_ok by done; congruence). exact Hf1.
  - intros q Hq. rewrite pm_get_insert_ne by (by apply Hne). by apply Hf1o.
Qed.

Lemma or_else_some {A B} (a : A) e (f : A -> Op B) s : (or_else (Some a) e ≫= f) s = f a s.
Proof. done. Qed.

(** All Rust strings are UTF-8, those of a JSON text too. *)
Definition headers_utf8 h : Prop := from_utf8 (as_bytes (headers_text h)) = Some (headers_text h).

Lemma text_content m p d : content m p = Some d -> text m p = from_utf8 d.
Proof. unfold text. by intros ->. Qed.

Lemma text_number m p n : 0 <= n -> content m p = Some (as_bytes (to_string n)) -> text m p = Some (to_string n).
Proof. intros Hn Hp. rewrite (text_content _ _ _ Hp). by apply from_utf8_to_string. Qed.

Lemma get_cached_run `{!@JsonTextLaws JT} now key st h b expiry s :
  name_ok key = true -> cached (files s) key st h b expiry ->
  0 <= expiry <= i64_max -> 0 <= st <= 65535 -> headers_utf8 h ->
  get_cached_response now key s =
    (Ok (if timestamp (now 0%nat) <=? expiry then Some (st, h, b) else None), s).
Proof.
  intros Hk [(Hst & Hh & Hb) Hexp] Hrange Hcode Hutf.
  unfold get_cached_response, try_op. rewrite !cache_file by done.
  rewrite (bind_ok _ _ _ _ _ (read_text_ok _ s (to_string expiry)
    (text_number _ _ expiry ltac:(lia) Hexp))).
  rewrite parse_to_string by (unfold i64_max, u64_max in *; lia). rewrite or_else_some.
  unfold i64_wrap. rewrite Z.mod_small by (unfold i64_max in *; lia).
  replace (expiry + 2 ^ 63 - 2 ^ 63) with expiry by lia.
  destruct (Z.leb_spec (timestamp (now 0%nat)) expiry), (Z.ltb_spec expiry (timestamp (now 0%nat))); try lia;
    [|reflexivity].
  rewrite (bind_ok (fail_if false (InvalidInput "")) _ s s () eq_refl).
  rewrite (bind_ok _ _ _ _ _ (read_text_ok _ s (to_string st) (text_number _ _ st ltac:(lia) Hst))).
  rewrite parse_to_string by (unfold u64_max in *; lia). cbn [mbind option_bind].
  rewrite (proj2 (Z.leb_le st 65535)) by lia. rewrite or_else_some.
  rewrite (bind_ok _ _ _ _ _ (read_text_ok _ s (headers_text h)
    (eq_trans (text_content _ _ _ Hh) Hutf))).
  unfold headers_text at 1. rewrite json_text_roundtrip. cbn [mbind option_bind]. rewrite headers_json, or_else_some.
  by rewrite (bind_ok _ _ _ _ _ (read_bytes_ok _ s b Hb)).
Qed.

(** *** A trigger *)

Definition request_file (id n : string) : Path := abs_path ["requests"; id; n].

(** The request [id] is a GET of [url] and can be triggered. *)
Record get_request s (id url : string) : Prop := {
  request_name : name_ok id = true;
  request_trigger : is_Some (content (files s) (request_file id "trigger"));
  request_url : text (files s) (request_file id "url") = Some url;
  request_method : exists t, text (files s) (request_file id "method") = Some t /\ to_uppercase (trim t) = "GET"
}.

(** The headers that it names, none when it has no such file. *)
Definition request_headers s (id : string) : option Headers :=
  match text (files s) (request_file id "headers.json") with
  | None | Some "" => Some ∅
  | Some t => v ← json_from_str t; headers_from_json v
  end.

(** What is sent: an entry of the cache, even a stale one, gives its tag. *)
Definition get_call s (url : string) (hs : Headers) : HttpCall :=
  {| call_method := "GET"; call_url := trim url;
     call_headers := map_to_list hs ++
       match text (files s) (abs_path ["cache"; url_to_cache_key (trim url); "etag"]) with
       | Some t => [("If-None-Match", unquote t)]
       | None => []
       end;
     call_body := None |}.

Definition trigger now (id : string) : Op Z := write now (request_file id "trigger") (as_bytes "send") 0 0.

Lemma trigger_run now id url s : get_request s id url ->
  trigger now id s = (execute_request_sync now id ;; mret 4) s.
Proof.
  intros [Hid [d Hd] _ _]. unfold trigger, write, content in *.
  destruct (pm_get (request_file id "trigger") (files s)) as [e|] eqn:E; [|done].
  cbn [mbind option_bind] in Hd. destruct (is_directory (metadata e)) eqn:Ed; [done|].
  rewrite (bind_ok _ _ s s e) by (unfold get_entry; munfold; by rewrite E). rewrite Ed.
  rewrite (bind_ok (fail_if false _) _ s s () eq_refl).
  assert (Hc : components (request_file id "trigger") = [RootDir; Normal "requests"; Normal id; Normal "trigger"]).
  { by apply file_path_ok. }
  unfold path_ends_with, parse_request_id. rewrite Hc.
  change (trim (from_utf8_lossy (as_bytes "send"))) with "send". by rewrite run_bind.
Qed.

Lemma exec_start {A} now id url s (f : string -> string -> Op A) : get_request s id url ->
  exists t, to_uppercase (trim t) = "GET" /\
  (read_to_string_sync (("/requests/" +:+ id) +:+ "/url") ≫= (fun url =>
   read_to_string_sync (("/requests/" +:+ id) +:+ "/method") ≫= (fun t => f url t))) s = f url t s.
Proof.
  intros [_ _ Hu (t & Ht & HG)]. exists t. split; [done|].
  change (("/requests/" +:+ id) +:+ "/url") with (request_file id "url").
  change (("/requests/" +:+ id) +:+ "/method") with (request_file id "method").
  by rewrite (bind_ok _ _ _ _ _ (read_text_ok _ _ _ Hu)), (bind_ok _ _ _ _ _ (read_text_ok _ _ _ Ht)).
Qed.

(** Answered from the cache: nothing is sent. *)
Lemma exec_hit now id url st h b s : get_request s id url ->
  get_cached_response now (url_to_cache_key (trim url)) s = (Ok (Some (st, h, b)), s) ->
  execute_request_sync now id s = store_response_direct (now_from 1 now) id st h b s.
Proof.
  intros Hreq Hhit. unfold execute_request_sync.
  match goal with |- (_ ≫= (fun u => _ ≫= @?f u)) s = _ =>
    destruct (exec_start now id url s f Hreq) as (t & HG & ->) end. cbv beta.
  rewrite HG. change (String.eqb "GET" "GET") with true. cbv iota.
  rewrite (bind_ok _ _ s s (default "" (text (files s) (("/requests/" +:+ id) +:+ "/headers.json"))))
    by (unfold fmap, M_fmap; by rewrite try_read_text).
  rewrite (bind_ok _ _ s s (default [] (content (files s) (("/requests/" +:+ id) +:+ "/body"))))
    by (unfold fmap, M_fmap; by rewrite try_read_bytes).
  by rewrite (bind_ok _ _ _ _ _ Hhit).
Qed.

Definition reply_ttl h : Z := default DEFAULT_CACHE_TTL_SECS (max_age_secs (parse_cache_control h)).

Lemma max_age_nonneg parts d :
  default 0 (max_age_secs d) >= 0 -> default 0 (max_age_secs (fold_left cache_control_part parts d)) >= 0.
Proof.
  revert d. induction parts as [|part parts IH]; intros d Hd; [done|]. cbn [fold_left]. apply IH.
  unfold cache_control_part. repeat case_match; cbn; try done.
  match goal with Hp : parse_u64 _ = Some _ |- _ => apply parse_u64_range in Hp end. lia.
Qed.

Lemma reply_ttl_nonneg h : 0 <= reply_ttl h.
Proof.
  unfold reply_ttl, parse_cache_control.
  pose proof (max_age_nonneg (split_char comma (default "" (either (h !! "cache-control") (h !! "Cache-Control"))))
    {| max_age_secs := None; no_store := false |} ltac:(cbn; lia)) as Hm.
  destruct (max_age_secs _); cbn in *; [lia|done].
Qed.

(** What is stored as the body of a reply: for "not modified" the one in the cache. *)
Definition received s (url : string) (status_code : Z) b : bytes :=
  if status_code =? 304 then default [] (content (files s) (abs_path ["cache"; url_to_cache_key (trim url); "body"])) else b.

Definition kept (status_code : Z) h : bool := (status_code =? 200) && negb (no_store (parse_cache_control h)).

(** Sent and stored, and kept or not. *)
Lemma exec_miss now id url hs reply b w s : get_request s id url ->
  get_cached_response now (url_to_cache_key (trim url)) s = (Ok None, s) ->
  request_headers s id = Some hs -> client_build = Ok () ->
  http_send (get_call s url hs) (world s) = (Ok reply, w) -> reply_body reply = inr b ->
  let h := collect_headers (reply_headers reply) in
  let st := reply_status reply in
  execute_request_sync now id s =
    (store_response_direct (now_from 1 now) id st h (received s url st b) ;;
     if kept st h then
       try_op (set_cached_response (now_from 13 now) (url_to_cache_key (trim url)) st h (received s url st b) (reply_ttl h)) ;;
       mret ()
     else mret ()) (mkHttpFS (files s) w).
Proof.
  intros Hreq Hmiss Hhs Hce Hsend Hb h st. unfold execute_request_sync.
  match goal with |- (_ ≫= (fun u => _ ≫= @?f u)) s = _ =>
    destruct (exec_start now id url s f Hreq) as (t & HG & ->) end. cbv beta.
  rewrite HG. change (String.eqb "GET" "GET") with true. cbv iota.
  change (("/requests/" +:+ id) +:+ "/headers.json") with (request_file id "headers.json").
  rewrite (bind_ok _ _ s s (default "" (text (files s) (request_file id "headers.json"))))
    by (unfold fmap, M_fmap; by rewrite try_read_text).
  rewrite (bind_ok _ _ s s (default [] (content (files s) (("/requests/" +:+ id) +:+ "/body"))))
    by (unfold fmap, M_fmap; by rewrite try_read_bytes).
  rewrite (bind_ok _ _ _ _ _ Hmiss).
  rewrite (bind_ok _ _ s s hs).
  2: { unfold request_headers in Hhs. destruct (text _ _) as [[|a j]|]; cbn [from_option Datatypes.id];
       [by injection Hhs as ->| |by injection Hhs as ->].
       change (String.eqb (String a j) "") with false. cbv iota. by rewrite Hhs. }
  rewrite Hce, (bind_ok (lift (map_err _ (Ok ()))) _ s s () eq_refl).
  change (existsb (String.eqb "GET") methods) with true. cbn [negb].
  rewrite (bind_ok (fail_if false _) _ s s () eq_refl).
  rewrite (bind_ok _ _ s s (text (files s) (abs_path ["cache"; url_to_cache_key (trim url); "etag"])))
    by (apply try_read_text).
  rewrite (bind_ok _ _ s (mkHttpFS (files s) w) (Ok reply)).
  2: { unfold send. change (takes_body "GET") with false. rewrite andb_false_r.
       unfold get_call in Hsend. by rewrite Hsend. }
  rewrite (bind_ok (lift (map_err _ (Ok reply))) _ (mkHttpFS (files s) w) (mkHttpFS (files s) w) reply eq_refl).
  fold st h. rewrite andb_true_r. change (true && (st =? 200)) with (st =? 200).
  rewrite (bind_ok _ _ (mkHttpFS (files s) w) (mkHttpFS (files s) w) (received s url st b)).
  2: { unfold received. destruct (st =? 304); [|by rewrite Hb].
       unfold fmap, M_fmap, get_cached_body_only. by rewrite try_read_bytes. }
  unfold kept. by destruct (st =? 200), (no_store (parse_cache_control h)).
Qed.

Lemma content_ext m m' p : pm_get p m' = pm_get p m -> content m' p = content m p.
Proof. unfold content. by intros ->. Qed.

Lemma stored_ext d id st h b m m' : name_ok d = true -> name_ok id = true ->
  (forall q, in_top d q -> pm_get q m' = pm_get q m) -> stored m d id st h b -> stored m' d id st h b.
Proof.
  intros Hd Hid Hext (H1 & H2 & H3). unfold stored.
  assert (Hf : forall n, name_ok n = true -> content m' (abs_path [d; id; n]) = content m (abs_path [d; id; n])).
  { intros n Hn. apply content_ext, Hext. exists [Normal id; Normal n]. by apply file_path_ok. }
  by rewrite !Hf.
Qed.

Lemma not_both_tops t u q : t <> u -> in_top t q -> ~ in_top u q.
Proof. intros Hne [r Hr] [r' Hr']. congruence. Qed.

Lemma cached_ext key st h b x m m' : name_ok key = true ->
  (forall q, in_top "cache" q -> pm_get q m' = pm_get q m) -> cached m key st h b x -> cached m' key st h b x.
Proof.
  intros Hk Hext [Hs Hx]. split; [by eapply stored_ext|]. rewrite <- Hx. apply content_ext, Hext.
  exists [Normal key; Normal "expiry"]. by apply file_path_ok.
Qed.

(** The trigger that found nothing in the cache: the response is stored, and may be kept. *)
Lemma miss_run now id url hs reply b w s : get_request s id url ->
  get_cached_response now (url_to_cache_key (trim url)) s = (Ok None, s) ->
  request_headers s id = Some hs -> client_build = Ok () ->
  http_send (get_call s url hs) (world s) = (Ok reply, w) -> reply_body reply = inr b ->
  let h := collect_headers (reply_headers reply) in
  let st := reply_status reply in
  (kept st h = true -> 0 <= timestamp (now 16%nat) /\ timestamp (now 16%nat) + reply_ttl h <= i64_max) ->
  exists f, trigger now id s = (Ok 4, mkHttpFS f w) /\ stored f "responses" id st h (received s url st b) /\
    if kept st h
    then cached f (url_to_cache_key (trim url)) st h (received s url st b) (timestamp (now 16%nat) + reply_ttl h)
    else forall q, in_top "cache" q -> pm_get q f = pm_get q (files s).
Proof.
  intros Hreq Hmiss Hhs Hce Hsend Hb h st Hclock.
  rewrite (trigger_run _ _ _ _ Hreq), run_bind.
  rewrite (exec_miss now id url hs reply b w s) by done. fold h st. set (body := received s url st b).
  destruct (store_response_run (now_from 1 now) id st h body (mkHttpFS (files s) w) (request_name _ _ _ Hreq))
    as (f1 & Hf1 & Hr1 & Ho1).
  rewrite (bind_ok _ _ _ _ _ Hf1). cbn [world files] in *. destruct (kept st h) eqn:Hk.
  - destruct (Hclock eq_refl) as [Hnow Hmax].
    destruct (set_cached_run (now_from 13 now) (url_to_cache_key (trim url)) st h body (reply_ttl h) (mkHttpFS f1 w)
      (url_key_name _) Hnow (reply_ttl_nonneg h) Hmax) as (f2 & Hf2 & Hc2 & Ho2).
    rewrite (bind_ok (try_op _) _ _ (mkHttpFS f2 w) (Some ())) by (unfold try_op; by rewrite Hf2).
    exists f2. split; [done|]. split; [|exact Hc2].
    eapply stored_ext; [done|exact (request_name _ _ _ Hreq)| |exact Hr1].
    intros q Hq. apply Ho2. by apply (not_both_tops "responses").
  - exists f1. split; [done|]. split; [done|]. intros q Hq. apply Ho1. by apply (not_both_tops "cache").
Qed.

(** C15: a GET that the cache does not answer, whose headers can be read and whose
    reply comes back, sends one request and stores the reply below [/responses], whatever its status, with the body of the cache
    for "not modified".  A reply of status 200 without [no-store] is kept: until
    [max-age] (or a minute) has passed, any later GET of the same URL stores the
    same response without sending anything, as long as [/cache] was left alone,
    and afterwards the cache does not answer.  Any other reply leaves [/cache]
    as it was. *)
Theorem httpfs_cached_get `{!@JsonTextLaws JT} now1 id1 url1 hs reply b w s :
  get_request s id1 url1 ->
  get_cached_response now1 (url_to_cache_key (trim url1)) s = (Ok None, s) ->
  request_headers s id1 = Some hs -> client_build = Ok () ->
  http_send (get_call s url1 hs) (world s) = (Ok reply, w) -> reply_body reply = inr b ->
  let h := collect_headers (reply_headers reply) in
  let st := reply_status reply in
  (kept st h = true ->
   headers_utf8 h /\ 0 <= timestamp (now1 16%nat) /\ timestamp (now1 16%nat) + reply_ttl h <= i64_max) ->
  let s1 := exec (trigger now1 id1) s in
  (result (trigger now1 id1) s = Ok 4 /\ world s1 = w /\ stored (files s1) "responses" id1 st h (received s url1 st b)) /\
  if kept st h then
    forall now2 id2 url2 s',
      (forall q, in_top "cache" q -> pm_get q (files s') = pm_get q (files s1)) ->
      get_request s' id2 url2 -> trim url2 = trim url1 ->
      let s2 := exec (trigger now2 id2) s' in
      if timestamp (now2 0%nat) <=? timestamp (now1 16%nat) + reply_ttl h
      then result (trigger now2 id2) s' = Ok 4 /\ world s2 = world s' /\ stored (files s2) "responses" id2 200 h b
      else get_cached_response now2 (url_to_cache_key (trim url2)) s' = (Ok None, s')
  else forall q, in_top "cache" q -> pm_get q (files s1) = pm_get q (files s).
Proof.
  intros Hreq1 Hmiss Hhs Hce Hsend Hb h st Hkeep s1.
  destruct (miss_run now1 id1 url1 hs reply b w s) as (f1 & Hf1 & Hr1 & Hc1); [done..|by intros Hk; apply Hkeep|].
  unfold s1, exec, result. rewrite Hf1. cbn [fst snd files world]. split; [done|].
  fold h st in Hc1. destruct (kept st h) eqn:Hk; [|exact Hc1]. destruct (Hkeep eq_refl) as (Hutf & Hnow & Hmax).
  assert (H200 : st = 200) by (unfold kept in Hk; destruct (Z.eqb_spec st 200); done).
  intros now2 id2 url2 s' Hsame Hreq2 Hurl. pose proof (reply_ttl_nonneg h) as Httl.
  pose proof (get_cached_run now2 (url_to_cache_key (trim url1)) st h (received s url1 st b)
    (timestamp (now1 16%nat) + reply_ttl h) s' (url_key_name _)
    (cached_ext _ _ _ _ _ f1 _ (url_key_name _) Hsame Hc1) ltac:(lia) ltac:(lia) Hutf) as Hget.
  rewrite <- Hurl in Hget. destruct (timestamp (now2 0%nat) <=? _); [|exact Hget].
  unfold received in Hget. rewrite H200 in Hget. change (200 =? 304) with false in Hget. cbv iota in Hget.
  destruct (store_response_run (now_from 1 now2) id2 200 h b s' (request_name _ _ _ Hreq2)) as (f2 & Hf2 & Hr2 & _).
  rewrite (trigger_run _ _ _ _ Hreq2), run_bind, (exec_hit now2 id2 url2 200 h b s' Hreq2 Hget), Hf2. done.
Qed.
End Cached.

(** ** Writing to the other files *)

Section Writes.
Context `{BuildProfile} `{JT : JsonText} {W : Type} `{Reqwest W}.
Implicit Types (now : Now) (p q : Path) (s : HttpFS W) (d content : bytes).

(** The content that a write leaves: at or past the end, before the start and
    in append mode it is added at the end, anywhere else it is all that stays. *)
Definition write_result content (offset flags : Z) d : bytes :=
  if WriteFlags.contains_append flags || (offset <? 0) || (len d <=? offset)
  then d ++ replicate (Z.to_nat (offset - len d)) Byte.x00 ++ content
  else content.

(** A write of [content] to [p] is a [send], or one to a response. *)
Definition special_write p content : bool :=
  path_ends_with p "trigger" && String.eqb (trim (from_utf8_lossy content)) "send" || path_starts_with p "/responses/".

Lemma write_data_run content offset flags d :
  in_i64 offset = true -> Z.max (len d) offset + len content <= isize_max ->
  write_data content offset flags d = (Ok (), write_result content offset flags d).
Proof.
  intros Hoff Hmax. pose proof (len_nonneg d). pose proof (len_nonneg content).
  unfold in_i64 in Hoff. bool_lia. unfold write_data, write_result.
  rewrite (bind_ok get _ d d d eq_refl).
  assert (Htest : (len d <=? i64_as_usize offset) = (offset <? 0) || (len d <=? offset)).
  { destruct (Z.ltb_spec offset 0); simpl.
    - rewrite i64_as_usize_neg by lia. apply Z.leb_le. unfold i64_min, isize_max in *. lia.
    - by rewrite i64_as_usize_nonneg by lia. }
  rewrite Htest, orb_assoc. destruct (_ || _ || _); [|done].
  rewrite i64_as_usize_nonneg by (unfold i64_max, isize_max in *; lia).
  assert (Hgrow : (if len d <? Z.max offset 0 then update_state (resize (Z.max offset 0) Byte.x00) else mret ()) d
    = (@Ok FSError _ (), d ++ replicate (Z.to_nat (offset - len d)) Byte.x00)).
  { destruct (Z.ltb_spec (len d) (Z.max offset 0)).
    - unfold update_state. munfold. rewrite resize_grow by lia. do 4 f_equal. lia.
    - replace (Z.to_nat (offset - len d)) with 0%nat by lia. by rewrite app_nil_r. }
  rewrite (bind_ok _ _ _ _ _ Hgrow). unfold update_state. munfold.
  assert (len (replicate (Z.to_nat (offset - len d)) Byte.x00) = Z.max 0 (offset - len d)) as Hrep.
  { unfold len. rewrite length_replicate. lia. }
  rewrite extend_from_slice_ok by (rewrite len_app, Hrep; lia). by rewrite <- app_assoc.
Qed.

(** A write inside the content of a file replaces the whole content, whatever
    the offset is; at or past the end, before the start and in append mode it
    adds to it.  The size is that of the new content, and no other entry
    changes. *)
Theorem httpfs_write_spec now p content offset flags s e :
  pm_get p (files s) = Some e -> is_directory (metadata e) = false -> special_write p content = false ->
  in_i64 offset = true -> Z.max (len (data e)) offset + len content <= isize_max ->
  let s' := exec (write now p content offset flags) s in
  result (write now p content offset flags) s = Ok (len content) /\
  pm_get p (files s') = Some (written now (write_result content offset flags (data e)) e) /\
  (forall q, components q <> components p -> pm_get q (files s') = pm_get q (files s)) /\
  world s' = world s.
Proof.
  intros Hp Hd [Htrig Hresp]%orb_false_iff Hoff Hmax. unfold exec, result, write.
  rewrite (bind_ok _ _ s s e) by (unfold get_entry; munfold; by rewrite Hp). rewrite Hd, Htrig, Hresp.
  rewrite (bind_ok (fail_if false _) _ s s () eq_refl), (bind_ok (fail_if false _) _ s s () eq_refl).
  rewrite write_data_run by done. cbv beta iota.
  rewrite (bind_ok (modify _) _ s _ () eq_refl), (bind_ok (lift _) _ _ _ () eq_refl).
  cbn [fst snd mret M_ret files world]. rewrite pm_get_update, Hp.
  repeat split. intros q Hq. by rewrite pm_get_update_ne.
Qed.

(** *** Of what is removed *)

(** [remove_all] takes exactly what is below the path, and keeps the entry it
    is called on: a file stays as it is. *)
Lemma httpfs_remove_all_keeps now p q s e :
  pm_wf (files s) -> pm_get p (files s) = Some e ->
  result (remove_all now p) s = Ok () /\
  pm_get q (files (exec (remove_all now p) s)) =
    (if negb (path_starts_with q p) || path_eqb q p then pm_get q (files s) else None).
Proof.
  intros Hwf Hp. unfold result, exec, remove_all. rewrite (bind_ok get _ s s s eq_refl).
  rewrite (proj2 (pm_contains_get p (files s))) by (by rewrite Hp).
  rewrite (bind_ok (fail_if false _) _ s s () eq_refl). split; [done|].
  unfold put. cbn [snd files]. apply pm_get_retain; [done|].
  intros k Hk. unfold path_eqb, path_starts_with. by rewrite Hk.
Qed.

(** The refused [remove] of a directory with entries takes it away. *)
Lemma httpfs_remove_nonempty now p c k v s e :
  pm_wf (files s) -> pm_get p (files s) = Some e -> is_directory (metadata e) = true ->
  (files s : gmap _ _) !! c = Some (k, v) -> c <> components p -> path_starts_with k p = true ->
  result (remove now p) s = Err DirectoryNotEmpty /\ pm_get p (files (exec (remove now p) s)) = None.
Proof.
  intros Hwf Hp Hd Hc Hne Hsub. unfold result, exec, remove.
  rewrite (bind_ok get _ s s s eq_refl), (bind_ok (lift _) _ s s e) by (unfold lift; by rewrite Hp).
  cbv zeta. rewrite (bind_ok (put _) _ s _ () eq_refl). rewrite Hd, (pm_has_below p c k v) by done.
  split; [done|]. by rewrite <- (pm_get_remove p (files s)).
Qed.
End Writes.

(** ** A client that counts, and echoes the URL *)

Section Demo.

Definition echo_client : Reqwest Z := {|
  client_build := Ok ();
  http_send c w :=
    (Ok {| reply_status := 200; reply_headers := [("cache-control", Some "public, max-age=30")];
            reply_body := inr (as_bytes (call_url c)) |}, w + 1);
  headers_error _ := "";
  hash_url u := str_len u
|}.

#[local] Instance demo_profile : BuildProfile := debug_profile.
#[local] Instance demo_json : JsonText := binary_json.
#[local] Instance demo_client : Reqwest Z := echo_client.

Definition at_second (t : Z) : Now := fun _ => t * 10 ^ 9.

(** The files of a request. *)
Definition put_file (p : Path) (t : string) : FsOp (HttpFS Z) () :=
  create (at_second 0) p ;; write (at_second 0) p (as_bytes t) 0 0 ;; mret ().
Definition demo_request (id url method : string) : FsOp (HttpFS Z) () :=
  mkdir (at_second 0) ("/requests/" +:+ id) 0 ;;
  put_file (request_file id "url") url ;;
  put_file (request_file id "method") method ;;
  put_file (request_file id "trigger") "".

Definition demo_start : HttpFS Z := exec (demo_request "a" "http://x/y" "GET") (new (at_second 0) 0).
Definition text_file (p : Path) (t : string) : FileEntry := file_entry (at_second 0) p (str_len t) (as_bytes t).
Definition demo_later : HttpFS Z :=
  let s := exec (trigger (at_second 100) "a") demo_start in
  let add n t := pm_insert (request_file "b" n) (text_file (request_file "b" n) t) in
  mkHttpFS (add "url" " http://x/y " (add "method" "get" (add "trigger" "" (files s)))) (world s).

Lemma httpfs_cached_get_witness :
  result (trigger (at_second 130) "b") demo_later = Ok 4 /\ world (exec (trigger (at_second 130) "b") demo_later) = 1.
Proof.
  assert (Hreq1 : get_request demo_start "a" "http://x/y").
  { split; [reflexivity|vm_compute; eauto|reflexivity|exists "GET"; split; reflexivity]. }
  assert (Hreq2 : get_request demo_later "b" " http://x/y ").
  { split; [reflexivity|vm_compute; eauto|reflexivity|exists "get"; split; reflexivity]. }
  pose proof binary_json_laws as Hlaws.
  destruct (httpfs_cached_get (JT := binary_json) (at_second 100) "a" "http://x/y" ∅
    {| reply_status := 200; reply_headers := [("cache-control", Some "public, max-age=30")];
       reply_body := inr (as_bytes "http://x/y") |} (as_bytes "http://x/y") 1 demo_start) as [_ H].
  - exact Hreq1.
  - vm_compute. reflexivity.
  - vm_compute. reflexivity.
  - reflexivity.
  - vm_compute. reflexivity.
  - reflexivity.
  - intros _. split; [vm_compute; reflexivity|]. split; vm_compute; intros [=].
  - specialize (H (at_second 130) "b" " http://x/y " demo_later).
    destruct H as (Hr & Hw & _).
    + unfold demo_later. cbn [files]. intros q [r Hq].
      rewrite !pm_get_insert_ne by (rewrite Hq; intros [=]). reflexivity.
    + exact Hreq2.
    + vm_compute. reflexivity.
    + split; [exact Hr|]. etransitivity; [exact Hw|vm_compute; reflexivity].
Defined.

(** Four bytes written at offset 7 of a longer file are all that is left. *)
Lemma httpfs_write_spec_witness :
  let s := exec (write (at_second 9) "/requests/a/url" (as_bytes "host") 7 0) demo_start in
  result (write (at_second 9) "/requests/a/url" (as_bytes "host") 7 0) demo_start = Ok 4 /\
  content (files s) "/requests/a/url" = Some (as_bytes "host").
Proof.
  destruct (httpfs_write_spec (at_second 9) "/requests/a/url" (as_bytes "host") 7 0 demo_start
    (written (at_second 0) (as_bytes "http://x/y") (file_entry (at_second 0) "/requests/a/url" 0 [])))
    as (Hr & Hp & _).
  - vm_compute. reflexivity.
  - reflexivity.
  - vm_compute. reflexivity.
  - reflexivity.
  - vm_compute. intros [=].
  - split; [exact Hr|]. unfold content. rewrite Hp. reflexivity.
Defined.
End Demo.
