(* ===== verification/Contents.v ===== *)
(** * Contents: what a write makes of a stored content

    The plugins that keep whole files as cells of a table read the content,
    change it and write it back; the code of the change is the same in
    [crates/racfs-plugin-vectorfs], [-sqlfs] and [-pgsfs].  Here it is with what
    it comes to. *)

From S2P Require Import Prelude FsError Flags.

Section Contents.
Context `{BuildProfile}.

(** [WriteFlags::from_bits_truncate(0x0020)], which keeps the defined bits. *)
Definition O_TRUNC : Z := Z.land 32 WriteFlags.all_bits.

(** The content after a write. *)
(* src: crates/racfs-plugin-vectorfs/src/fs/write.rs 105-127 VectorFS::write *)
Definition new_content (content : bytes) (offset flags : Z) (existing : bytes) : Res bytes :=
  if WriteFlags.contains_append flags || (len existing <=? i64_as_usize offset) then
    let start := i64_as_usize (Z.max offset 0) in
    d ← (if len existing <? start then resize start Byte.x00 existing else Ok existing);
    extend_from_slice content d
  else if (offset <=? 0) || contains flags O_TRUNC then Ok content
  else
    let start := i64_as_usize offset in
    d ← (if len existing <? start then resize start Byte.x00 existing else Ok existing);
    e ← usize_add start (len content);
    d ← (if len d <? e then resize e Byte.x00 d else Ok d);
    copy_from_slice start content d.

(** A write at or behind the end, in append mode or at a negative offset adds
    to the content; any other replaces it. *)
Definition spec_write (content : bytes) (offset flags : Z) (existing : bytes) : Res bytes :=
  if WriteFlags.contains_append flags || (offset <? 0) || (len existing <=? offset) then
    let padded := existing ++ replicate (Z.to_nat (offset - len existing)) Byte.x00 in
    if isize_max <? len padded + len content then Panic else Ok (padded ++ content)
  else Ok content.

Definition spec_truncate (n : Z) (existing : bytes) : Res bytes :=
  if (isize_max <? n) && (len existing <? n) then Panic
  else Ok (ztake n existing ++ replicate (Z.to_nat (n - len existing)) Byte.x00).

Lemma o_trunc_is_always_there flags : contains flags O_TRUNC = true.
Proof. unfold contains. change O_TRUNC with 0. rewrite Z.land_0_r. reflexivity. Qed.

Lemma new_content_spec content offset flags existing :
  in_i64 offset = true -> len content <= isize_max -> len existing <= isize_max ->
  new_content content offset flags existing = spec_write content offset flags existing.
Proof.
  intros Ho Hc He. apply andb_true_iff in Ho as [Ho1%Z.leb_le Ho2%Z.leb_le].
  unfold isize_max, i64_max, i64_min in *. pose proof (len_nonneg existing).
  unfold new_content, spec_write. rewrite o_trunc_is_always_there, orb_true_r.
  assert (Hcond : (len existing <=? i64_as_usize offset) = (offset <? 0) || (len existing <=? offset)).
  { destruct (Z.ltb_spec offset 0).
    - rewrite i64_as_usize_neg by (unfold i64_min; lia). apply Z.leb_le. lia.
    - by rewrite i64_as_usize_nonneg by (unfold i64_max; lia). }
  rewrite Hcond, orb_assoc. destruct (_ || _ || _); [|done].
  rewrite i64_as_usize_nonneg by (unfold i64_max; lia).
  destruct (Z.ltb_spec (len existing) (Z.max offset 0)).
  - rewrite resize_grow by (unfold isize_max; lia).
    replace (Z.max offset 0) with offset by lia. reflexivity.
  - replace (Z.to_nat (offset - len existing)) with 0%nat by lia.
    cbn [replicate]. rewrite app_nil_r. reflexivity.
Qed.

Lemma spec_write_len content offset flags existing r :
  len content <= isize_max -> spec_write content offset flags existing = Ok r -> len r <= isize_max.
Proof.
  unfold spec_write. intros Hc. destruct (_ || _ || _); [|by intros [= <-]].
  destruct (Z.ltb_spec isize_max (len (existing ++ replicate (Z.to_nat (offset - len existing)) Byte.x00) + len content));
    [discriminate|].
  intros [= <-]. rewrite len_app. lia.
Qed.

Lemma truncate_spec n existing :
  0 <= n -> len existing <= isize_max ->
  (if n <? len existing then Ok (ztake n existing)
   else if len existing <? n then resize n Byte.x00 existing else Ok existing) = spec_truncate n existing.
Proof.
  intros Hn He. unfold spec_truncate, resize.
  destruct (Z.ltb_spec n (len existing)).
  - replace (isize_max <? n) with false by (symmetry; apply Z.ltb_ge; lia).
    replace (Z.to_nat (n - len existing)) with 0%nat by lia. cbn [replicate andb]. by rewrite app_nil_r.
  - destruct (Z.ltb_spec (len existing) n).
    + replace (n <=? len existing) with false by (symmetry; apply Z.leb_gt; lia).
      rewrite andb_true_r, ztake_ge by lia. reflexivity.
    + rewrite andb_false_r, ztake_ge by lia.
      replace (Z.to_nat (n - len existing)) with 0%nat by lia. cbn [replicate]. by rewrite app_nil_r.
Qed.

Lemma spec_truncate_len n existing r :
  0 <= n -> len existing <= isize_max -> spec_truncate n existing = Ok r -> len r <= isize_max.
Proof.
  intros Hn He. unfold spec_truncate.
  destruct (Z.ltb_spec isize_max n), (Z.ltb_spec (len existing) n); try discriminate; intros [= <-];
    rewrite len_app, len_ztake by done;
    (destruct (Z.leb_spec n (len existing));
     [replace (Z.to_nat (n - len existing)) with 0%nat by lia; cbn [replicate]; rewrite len_nil; lia
     |rewrite len_replicate by lia; lia]).
Qed.

End Contents.
