(* ===== verification/SqlTable.v ===== *)
(** * SqlTable: the table of files of the SQL plugins

    [crates/racfs-plugin-sqlfs] and [crates/racfs-plugin-pgsfs] keep a row for
    every path and change the rows by the same statements, over SQLite and over
    PostgreSQL.  A statement is a constructor that stands for its text in the
    code; a database answers it or fails.  [select] and [apply] say what the
    texts mean for the rows, with the [LIKE] of the dialect as an argument, and
    [SqlLaws] that a database which does not fail does that.  The second half is
    a filesystem on the rows alone, which the plugins refine. *)

From S2P Require Import Prelude Text RPath FsError Metadata Flags FileSystem Contents.
From Stdlib Require Import Strings.Ascii.
From Stdlib Require Strings.String.

(** ** Rows and statements *)

(** [chrono::DateTime::from_timestamp_millis]. *)
Class Millis := { from_timestamp_millis : Z -> option DateTime }.

Definition timestamp_millis (d : DateTime) : Z := d / 10 ^ 6.

Record Row := mkRow {
  row_path : string;
  row_data : option bytes;
  row_is_dir : bool;
  row_mode : Z;
  row_created : option Z;
  row_modified : option Z;
  row_accessed : option Z
}.

(** [SELECT .. WHERE path = ?] and [SELECT .. WHERE path LIKE ?]. *)
Inductive Query :=
| ByPath (p : string)
| ByPattern (pattern : string).

Inductive Statement :=
| CreateSchema (text : string)
| InsertOrIgnore (r : Row)
| Insert (r : Row)
| SetContent (p : string) (data : bytes) (modified : Z) (accessed : option Z)
| SetTimes (p : string) (accessed modified : Z)
| SetMode (p : string) (mode modified : Z)
| DeleteRow (p : string)
| DeleteTree (p pattern : string)
| MoveRow (old new : string)
| MoveBelow (pattern new : string) (skip : Z).

(** What a database does; a row that is read may fail by itself.  [no_rows] is
    the error of a query that must have a row. *)
Class SqlDb (W : Type) := {
  prepare : Query -> M W string ();
  fetch : Query -> M W string (list (outcome string Row));
  fetch_count : string -> M W string Z;
  execute : Statement -> M W string ();
  no_rows : string
}.

(** ** What the statements mean *)

(** The characters of a text from the [n]-th on, as [SUBSTR(path, n + 1)] gives
    them. *)
Definition skip_chars (n : Z) (s : string) : string :=
  from_bytes (concat (map item_bytes (zdrop n (utf8_items (as_bytes s))))).

Abbreviation Rows := (gmap string Row).

Definition set_content (data : bytes) (modified : Z) (accessed : option Z) (r : Row) : Row :=
  mkRow (row_path r) (Some data) (row_is_dir r) (row_mode r) (row_created r) (Some modified)
    (match accessed with Some a => Some a | None => row_accessed r end).
Definition set_times (accessed modified : Z) (r : Row) : Row :=
  mkRow (row_path r) (row_data r) (row_is_dir r) (row_mode r) (row_created r) (Some modified) (Some accessed).
Definition set_row_mode (md modified : Z) (r : Row) : Row :=
  mkRow (row_path r) (row_data r) (row_is_dir r) md (row_created r) (Some modified) (row_accessed r).
Definition set_row_path (p : string) (r : Row) : Row :=
  mkRow p (row_data r) (row_is_dir r) (row_mode r) (row_created r) (row_modified r) (row_accessed r).

Definition move_row (old new : string) (t : Rows) : Rows :=
  match t !! old with Some r => <[new := set_row_path new r]> (delete old t) | None => t end.

Section Meaning.
Context (like : string -> string -> bool).

Definition select (q : Query) (t : Rows) : Rows :=
  match q with
  | ByPath p => match t !! p with Some r => {[p := r]} | None => ∅ end
  | ByPattern pat => filter (fun kr => like pat (fst kr) = true) t
  end.

(** The rows after a statement; none when the statement breaks the primary key,
    and then nothing is changed.  A path that is moved must be free. *)
Definition apply (u : Statement) (t : Rows) : option Rows :=
  match u with
  | CreateSchema _ => Some t
  | InsertOrIgnore r => Some (if bool_decide (is_Some (t !! row_path r)) then t else <[row_path r := r]> t)
  | Insert r => if bool_decide (is_Some (t !! row_path r)) then None else Some (<[row_path r := r]> t)
  | SetContent p data m a => Some (alter (set_content data m a) p t)
  | SetTimes p a m => Some (alter (set_times a m) p t)
  | SetMode p md m => Some (alter (set_row_mode md m) p t)
  | DeleteRow p => Some (delete p t)
  | DeleteTree p pat => Some (filter (fun kr => negb (String.eqb (fst kr) p || like pat (fst kr)) = true) t)
  | MoveRow old new =>
    if String.eqb old new then Some t
    else if bool_decide (is_Some (t !! old)) && bool_decide (is_Some (t !! new)) then None
    else Some (move_row old new t)
  | MoveBelow pat new skip =>
    let moved := map fst (map_to_list (select (ByPattern pat) t)) in
    let new_path p := new +:+ skip_chars skip p in
    if bool_decide (NoDup (map new_path moved)) && forallb (fun p => negb (bool_decide (is_Some (t !! new_path p)))) moved
    then Some (fold_right (fun p => move_row p (new_path p)) t moved)
    else None
  end.

(** A database that answers.  A statement that
    breaks the primary key fails; nothing is said of one that moves many rows. *)
Class SqlLaws (W : Type) `{SqlDb W} := {
  rows : W -> Rows;
  prepare_ok : forall q w, prepare q w = (Ok (), w);
  fetch_ok : forall q w, exists l,
    fetch q w = (Ok (map Ok l), w) /\ l ≡ₚ map snd (map_to_list (select q (rows w)));
  count_ok : forall pat w, fetch_count pat w = (Ok (Z.of_nat (base.size (select (ByPattern pat) (rows w)))), w);
  execute_ok : forall u w, match apply u (rows w) with
    | Some t => exists w', execute u w = (Ok (), w') /\ rows w' = t
    | None => match u with MoveBelow _ _ _ => True | _ => exists e, execute u w = (Err e, w) end
    end
}.
End Meaning.

(** Such a database, on rows in memory. *)
Definition rows_db (like : string -> string -> bool) : SqlDb Rows := {|
  prepare _ w := (Ok (), w);
  fetch q w := (Ok (map Ok (map snd (map_to_list (select like q w)))), w);
  fetch_count pat w := (Ok (Z.of_nat (base.size (select like (ByPattern pat) w))), w);
  execute u w := match apply like u w with Some t => (Ok (), t) | None => (Err "UNIQUE constraint failed"%string, w) end;
  no_rows := "Query returned no rows"
|}.

Definition rows_db_laws (like : string -> string -> bool) : @SqlLaws like Rows (rows_db like).
Proof.
  refine (@Build_SqlLaws like Rows (rows_db like) (fun w => w) _ _ _ _).
  - done.
  - intros q w. eexists. by split.
  - done.
  - intros u w. cbn. destruct (apply like u w) as [t|]; [by exists t|]. destruct u; try done; by eexists.
Defined.

(** *** Patterns

    [%] stands for any bytes and [_] for one character; [same] compares the
    others, and [escape] makes the next byte stand for itself. *)

Definition percent : u8 := Byte.x25.
Definition underscore : u8 := Byte.x5f.

Fixpoint match_bytes (same : u8 -> u8 -> bool) (escape : option u8) (pat : bytes) : bytes -> bool :=
  match pat with
  | [] => fun s => match s with [] => true | _ => false end
  | c :: pat' =>
    if Byte.eqb c percent then
      fix any s := match_bytes same escape pat' s || match s with [] => false | _ :: s' => any s' end
    else if Byte.eqb c underscore then
      fun s => match s with [] => false | _ :: s' => match_bytes same escape pat' (drop_while is_cont s') end
    else
      match escape, pat' with
      | Some e, d :: pat'' =>
        if Byte.eqb c e
        then fun s => match s with [] => false | x :: s' => same d x && match_bytes same escape pat'' s' end
        else fun s => match s with [] => false | x :: s' => same c x && match_bytes same escape pat' s' end
      | _, _ => fun s => match s with [] => false | x :: s' => same c x && match_bytes same escape pat' s' end
      end
  end.

(** SQLite compares ASCII letters without their case and has no escape;
    PostgreSQL compares bytes, and a backslash escapes. *)
Definition lower_byte (b : u8) : Z := let v := byte_val b in if (65 <=? v) && (v <=? 90) then v + 32 else v.
Definition sqlite_like (pat s : string) : bool :=
  match_bytes (fun a b => lower_byte a =? lower_byte b) None (as_bytes pat) (as_bytes s).
Definition backslash : u8 := Byte.x5c.
Definition pg_like (pat s : string) : bool := match_bytes Byte.eqb (Some backslash) (as_bytes pat) (as_bytes s).

(** A byte that stands for itself. *)
Definition literal (c : u8) : bool := negb (Byte.eqb c percent || Byte.eqb c underscore || Byte.eqb c backslash).

Lemma match_any same escape s : match_bytes same escape [percent] s = true.
Proof. cbn. destruct s as [|x s]; [done|]. cbn. induction s as [|y s IH]; [done|]. exact IH. Qed.

(** A pattern of literals and a final [%] asks for a beginning. *)
Lemma match_prefix same escape p s :
  (escape = None \/ escape = Some backslash) -> forallb literal p = true ->
  match_bytes same escape (p ++ [percent]) s = true <->
  exists a b, s = a ++ b /\ Forall2 (fun c x => same c x = true) p a.
Proof.
  intros He. revert s. induction p as [|c p IH]; intros s Hp.
  - cbn [app]. rewrite match_any. split; [|done]. intros _. by exists [], s.
  - cbn [forallb] in Hp. apply andb_true_iff in Hp as [Hc Hp]. unfold literal in Hc.
    apply negb_true_iff, orb_false_iff in Hc as [[Hc1 Hc2]%orb_false_iff Hc3].
    assert (Hstep : match_bytes same escape ((c :: p) ++ [percent]) s =
      match s with [] => false | x :: s' => same c x && match_bytes same escape (p ++ [percent]) s' end).
    { cbn [app match_bytes]. rewrite Hc1, Hc2. destruct He as [->| ->]; [done|].
      rewrite Hc3. by destruct (p ++ [percent]). }
    rewrite Hstep. destruct s as [|x s].
    + split; [done|]. intros (a & b & Hs & Ha). inversion Ha; subst. done.
    + rewrite andb_true_iff, IH by done. split.
      * intros [Hx (a & b & -> & Ha)]. exists (x :: a), b. split; [done|]. by constructor.
      * intros (a & b & Hs & Ha). inversion Ha as [|? y ? a' Hy Ha']; subst. injection Hs as -> ->. eauto.
Qed.

(** ** A filesystem on the rows *)

Definition row_metadata `{Millis} (r : Row) : FileMetadata :=
  {| path := row_path r; size := len (default [] (row_data r)); mode := row_mode r;
     created := c ← row_created r; from_timestamp_millis c;
     modified := m ← row_modified r; from_timestamp_millis m;
     accessed := a ← row_accessed r; from_timestamp_millis a;
     is_symlink_flag := false; symlink_target := None |}.

Definition file_bits : Z := Z.lor S_IFREG (octal 744).
Definition dir_bits : Z := Z.lor S_IFDIR (octal 755).

Definition new_row (p : string) (dir : bool) (md t : Z) : Row := mkRow p (Some []) dir md (Some t) (Some t) (Some t).

(** Paths that the plugins take as they are. *)
Definition plain (p : Path) : bool := starts_with p "/" && bool_decide (from_utf8 (as_bytes p) = Some p).
Definition rooted (p : Path) : bool :=
  plain p && match parent p with Some q => plain q | None => true end.

Section Spec.
Context `{BuildProfile} `{Millis} (like : string -> string -> bool) (child : string -> string -> string -> string).
Context (max_file_size : Z).
Implicit Types (now : Now) (t : Rows).

Definition below (p : string) : string := p +:+ "/%".

Definition spec_parent p t : Res () :=
  match parent p with
  | None => Ok ()
  | Some q =>
    if String.eqb q "/" then Ok ()
    else match t !! q with
         | None => Err (NotFound q)
         | Some r => if is_directory (row_metadata r) then Ok () else Err (NotADirectory q)
         end
  end.

Definition spec_make (p : Path) (r : Row) t : Res FsReply * Rows :=
  match spec_parent p t with
  | Ok _ => if bool_decide (is_Some (t !! p)) then (Err (AlreadyExists p), t) else (Ok RUnit, <[p := r]> t)
  | Err e => (Err e, t)
  | Panic => (Panic, t)
  | Diverge => (Diverge, t)
  end.

(** A change of the content of a file. *)
Definition spec_content p (f : bytes -> Res bytes) (m : Z) (a : option Z) (reply : FsReply) t : Res FsReply * Rows :=
  match t !! p with
  | None => (Err (NotFound p), t)
  | Some r =>
    if row_is_dir r then (Err (IsDirectory p), t)
    else match f (default [] (row_data r)) with
         | Ok data => (Ok reply, <[p := set_content data m a r]> t)
         | Err e => (Err e, t)
         | Panic => (Panic, t)
         | Diverge => (Diverge, t)
         end
  end.

Definition spec_existing p (f : Row -> Res FsReply * Rows) t : Res FsReply * Rows :=
  match t !! p with Some r => f r | None => (Err (NotFound p), t) end.

(** The rows below a directory under their new paths, when all of them are
    free. *)
Definition move_tree (old new : string) t : option Rows :=
  let moved := map fst (map_to_list (select like (ByPattern (below old)) t)) in
  if bool_decide (NoDup (new :: map (child old new) moved)) &&
     forallb (fun p => negb (bool_decide (is_Some (t !! child old new p)))) moved
  then Some (fold_right (fun p => move_row p (child old new p)) t moved)
  else None.

(** What a call answers and leaves; nothing is said of renames onto each other
    and of listings, whose order is the database's. *)
Definition spec_call now (c : FsCall) t : option (Res FsReply * Rows) :=
  let ms k := timestamp_millis (now k) in
  match c with
  | CRead p o n => Some (spec_existing p (fun r =>
      (if row_is_dir r then Err (IsDirectory p) else RBytes <$> read_range (default [] (row_data r)) o n, t)) t)
  | CStat p => Some (spec_existing p (fun r => (Ok (RMeta (row_metadata r)), t)) t)
  | CCreate p => Some (spec_make p (new_row p false file_bits (ms 0%nat)) t)
  | CMkdir p _ => Some (spec_make p (new_row p true dir_bits (ms 0%nat)) t)
  | CWrite p d o f =>
    Some (spec_content p (fun e => if max_file_size <? len d then Err StorageFull else spec_write d o f e)
            (ms 0%nat) (Some (ms 0%nat)) (RCount (len d)) t)
  | CTruncate p n => Some (spec_content p (spec_truncate n) (ms 0%nat) None RUnit t)
  | CTouch p =>
    Some (match t !! p with
          | Some r => (Ok RUnit, <[p := set_times (ms 0%nat) (ms 0%nat) r]> t)
          | None => let r := new_row p false file_bits (ms 1%nat) in
                    spec_make p (set_times (ms 0%nat) (ms 0%nat) r) t
          end)
  | CChmod p md => Some (spec_existing p (fun r => (Ok RUnit, <[p := set_row_mode md (ms 0%nat) r]> t)) t)
  | CRemove p => Some (spec_existing p (fun r =>
      if row_is_dir r && (0 <? Z.of_nat (base.size (select like (ByPattern (below p)) t)))
      then (Err DirectoryNotEmpty, t) else (Ok RUnit, delete p t)) t)
  | CRemoveAll p => Some (spec_existing p (fun _ =>
      (Ok RUnit, filter (fun kr => negb (String.eqb (fst kr) p || like (below p) (fst kr)) = true) t)) t)
  | CRename p q =>
    match t !! p with
    | None => Some (Err (NotFound p), t)
    | Some r =>
      if bool_decide (is_Some (t !! q)) then Some (Err (AlreadyExists q), t)
      else if row_is_dir r then (t' ← move_tree p q t; Some (Ok RUnit, move_row p q t'))
      else Some (Ok RUnit, move_row p q t)
    end
  | _ => None
  end.

(** The calls that the filesystem on rows answers. *)
Definition sql_call (c : FsCall) : bool :=
  call_wf c &&
  match c with
  | CChmod p md => rooted p && (md <=? 2 ^ 31 - 1)
  | CRead p _ _ | CStat p | CCreate p | CMkdir p _ | CWrite p _ _ _ | CTruncate p _ | CTouch p | CRemove p
  | CRemoveAll p => rooted p
  | CRename p q => rooted p && rooted q
  | _ => false
  end.
End Spec.

(** ** Facts about rows *)

Lemma alter_some (f : Row -> Row) p r (t : Rows) : t !! p = Some r -> alter f p t = <[p := f r]> t.
Proof.
  intros Hr. apply map_eq. intros q. destruct (decide (p = q)) as [<-|Hne].
  - by rewrite lookup_alter_eq, lookup_insert_eq, Hr.
  - by rewrite lookup_alter_ne, lookup_insert_ne.
Qed.

Lemma move_row_lookup old new (t : Rows) q :
  t !! new = None -> q <> new -> t !! q = None -> move_row old new t !! q = None.
Proof.
  intros Hn Hne Hq. unfold move_row. destruct (t !! old) as [r|]; [|done].
  rewrite lookup_insert_ne by done. rewrite lookup_delete_None. by right.
Qed.

(** Paths that are free and are not moved to stay free. *)
Lemma move_all_free (g : string -> string) l (t : Rows) q :
  t !! q = None -> q ∉ map g l -> fold_right (fun p => move_row p (g p)) t l !! q = None.
Proof.
  intros Hq. induction l as [|p l IH]; [done|]. cbn [map fold_right].
  intros [Hne Hl]%not_elem_of_cons. unfold move_row. specialize (IH Hl).
  destruct (fold_right _ t l !! p); [|done]. rewrite lookup_insert_ne by done.
  rewrite lookup_delete_None. by right.
Qed.

(** Contents cut or filled with zeros. *)
Lemma cut_or_grow n existing :
  0 <= n -> len existing <= isize_max ->
  (if n <? len existing then Ok (ztake n existing) else resize n Byte.x00 existing) = spec_truncate n existing.
Proof.
  intros Hn He. rewrite <- truncate_spec by done. destruct (Z.ltb_spec n (len existing)); [done|].
  destruct (Z.ltb_spec (len existing) n); [done|]. unfold resize.
  destruct (Z.leb_spec n (len existing)); [|lia]. by rewrite ztake_ge by lia.
Qed.

(** Rows under their paths, with contents that fit into memory and modes that fit
    into the column. *)
Definition row_fits (p : string) (r : Row) : Prop :=
  row_path r = p /\ len (default [] (row_data r)) <= isize_max /\ 0 <= row_mode r <= i32_max.
Definition contents_fit (t : Rows) : Prop := map_Forall row_fits t.

Lemma apply_move old new like (t : Rows) :
  old <> new -> t !! new = None -> apply like (MoveRow old new) t = Some (move_row old new t).
Proof.
  intros Hne Hn. unfold apply. destruct (String.eqb_spec old new) as [->|]; [done|]. by rewrite Hn, andb_false_r.
Qed.

Lemma fits_content data m a p r : len data <= isize_max -> row_fits p r -> row_fits p (set_content data m a r).
Proof. by intros Hd (Hp & _ & Hm). Qed.

Lemma fits_times a m p r : row_fits p r -> row_fits p (set_times a m r).
Proof. done. Qed.

Lemma fits_mode md m p r : 0 <= md <= i32_max -> row_fits p r -> row_fits p (set_row_mode md m r).
Proof. by intros Hmd (Hp & Hd & _). Qed.

Lemma fits_new_row p dir md t : 0 <= md <= i32_max -> row_fits p (new_row p dir md t).
Proof. by intros Hmd. Qed.

Lemma fits_len p r : row_fits p r -> len (default [] (row_data r)) <= isize_max.
Proof. by intros (_ & ? & _). Qed.

#[export] Hint Resolve fits_content fits_times fits_mode fits_new_row fits_len : racfs.

Lemma fit_insert p r (t : Rows) : row_fits p r -> contents_fit t -> contents_fit (<[p := r]> t).
Proof. intros Hr Ht. by apply map_Forall_insert_2. Qed.

Lemma fit_delete p (t : Rows) : contents_fit t -> contents_fit (delete p t).
Proof. intros Ht. by apply map_Forall_delete. Qed.

Lemma fit_filter (P : string * Row -> Prop) `{!forall x, Decision (P x)} (t : Rows) :
  contents_fit t -> contents_fit (filter P t).
Proof. intros Ht p r [Hr _]%map_lookup_filter_Some. by eapply Ht. Qed.

Lemma fit_move old new (t : Rows) : contents_fit t -> contents_fit (move_row old new t).
Proof.
  intros Ht. unfold move_row. destruct (t !! old) as [r|] eqn:E; [|done].
  apply fit_insert; [|by apply fit_delete]. by destruct (Ht _ _ E) as (_ & Hd & Hm).
Qed.

Lemma fit_move_all (g : string -> string) l (t : Rows) :
  contents_fit t -> contents_fit (fold_right (fun p => move_row p (g p)) t l).
Proof. intros Ht. induction l as [|p l IH]; [done|]. by apply fit_move. Qed.

#[export] Hint Resolve fit_insert fit_delete fit_filter fit_move fit_move_all : racfs.

Lemma rooted_plain p : rooted p = true -> plain p = true.
Proof. unfold rooted. by intros [? _]%andb_true_iff. Qed.

Lemma rooted_parent p q : rooted p = true -> parent p = Some q -> plain q = true.
Proof. unfold rooted. intros [_ Hq]%andb_true_iff Hp. by rewrite Hp in Hq. Qed.

(** *** Sequences of calls *)

Fixpoint spec_run `{BuildProfile} `{Millis} (like : string -> string -> bool) (child : string -> string -> string -> string)
    (max : Z) (cs : list (Now * FsCall)) (t : Rows) : option (list (Res FsReply) * Rows) :=
  match cs with
  | [] => Some ([], t)
  | (now, c) :: cs =>
    '(r, t1) ← spec_call like child max now c t;
    '(rs, t2) ← spec_run like child max cs t1;
    Some (r :: rs, t2)
  end.

(** A filesystem whose calls agree with those on rows agrees over sequences. *)
Lemma spec_run_agrees `{BuildProfile} `{Millis} like child max {S} (sim : S -> Rows -> Prop)
    (step : Now * FsCall -> S -> Res FsReply * S) cs s t rs t' :
  (forall now c s t e, sql_call c = true -> sim s t -> spec_call like child max now c t = Some e ->
    agrees sim id (step (now, c) s) e) ->
  forallb (fun c => sql_call (snd c)) cs = true -> sim s t -> spec_run like child max cs t = Some (rs, t') ->
  fst (run_all step cs s) = rs /\ sim (snd (run_all step cs s)) t'.
Proof.
  intros Hstep. revert s t rs. induction cs as [|[now c] cs IH]; intros s t rs Hcs Hsim Hrun.
  - injection Hrun as <- <-. by split.
  - cbn [forallb snd] in Hcs. apply andb_true_iff in Hcs as [Hc Hcs]. cbn [spec_run] in Hrun.
    destruct (spec_call like child max now c t) as [[r t1]|] eqn:Ec; [|done].
    cbn in Hrun. destruct (spec_run like child max cs t1) as [[rs1 t2]|] eqn:Er; [|done].
    injection Hrun as <- <-. destruct (Hstep now c s t (r, t1) Hc Hsim Ec) as [Hr Hs].
    cbn [run_all]. destruct (step (now, c) s) as [r' s1]. cbn [fst snd] in *.
    destruct (IH s1 t1 rs1 Hcs Hs Er) as [Hrs Hend]. destruct (run_all step cs s1). cbn [fst snd] in *.
    split; [|done]. f_equal; [|done]. rewrite <- Hr. by destruct r'.
Qed.
