(* ===== verification/KvSqlite.v ===== *)
(** * KvSqlite: the key-value backend with its two stores ([crates/racfs-plugin-kvfs])

    [KvBackend] holds the maps of [KvFS] or a connection to SQLite.  A statement
    of the second is a constructor that stands for its text; [KvLaws] says what
    the texts mean for the rows of the table, with [LIKE] as in [SqlTable].  What
    the code asks for beside the statements is the state of the connection [W]. *)

From S2P Require Import Prelude Text RPath FsError Metadata Flags FileSystem.
From S2P Require KvFS SqlTable.
From Stdlib Require Import Strings.Ascii.
From Stdlib Require Strings.String.

(** ** The table *)

Record KvRow := mkKvRow { kr_path : string; kr_data : bytes; kr_is_dir : Z; kr_mode : Z }.

(** [WHERE path = ?], the same [AND is_dir = 0], and [WHERE path LIKE ? AND path != ?]. *)
Inductive KvQuery :=
| AtPath (p : string)
| FileAt (p : string)
| BelowPath (pattern except : string).

Inductive KvStatement :=
| CreateTable
| InsertIfNew (r : KvRow)
| InsertRow (r : KvRow)
| SetData (data : bytes) (p : string)
| SetModeAt (mode : Z) (p : string)
| SetPath (new old : string)
| DeleteAt (p : string)
| DeleteBelow (p pattern : string).

(** A statement answers how many rows it changed, and [changes] tells it again. *)
Class KvDb (W : Type) := {
  kv_prepare : KvQuery -> M W string ();
  kv_fetch : KvQuery -> M W string (list (outcome string KvRow));
  kv_count : string -> M W string Z;
  kv_execute : KvStatement -> M W string Z;
  kv_changes : W -> Z
}.

Abbreviation KvRows := (gmap string KvRow).

Definition set_kr_data d (r : KvRow) : KvRow := mkKvRow (kr_path r) d (kr_is_dir r) (kr_mode r).
Definition set_kr_mode m (r : KvRow) : KvRow := mkKvRow (kr_path r) (kr_data r) (kr_is_dir r) m.
Definition set_kr_path p (r : KvRow) : KvRow := mkKvRow p (kr_data r) (kr_is_dir r) (kr_mode r).

Definition kv_select (q : KvQuery) (t : KvRows) : list KvRow :=
  match q with
  | AtPath p => match t !! p with Some r => [r] | None => [] end
  | FileAt p => match t !! p with Some r => if kr_is_dir r =? 0 then [r] else [] | None => [] end
  | BelowPath pat x =>
    map snd (map_to_list (filter (fun kr => SqlTable.sqlite_like pat (fst kr) && negb (String.eqb (fst kr) x) = true) t))
  end.

Definition deleted (p pattern : string) (t : KvRows) : KvRows :=
  filter (fun kr => negb (String.eqb (fst kr) p || SqlTable.sqlite_like pattern (fst kr)) = true) t.

(** The rows after a statement and how many are changed; none when a path is
    taken. *)
Definition kv_apply (u : KvStatement) (t : KvRows) : option (KvRows * Z) :=
  let one p := if bool_decide (is_Some (t !! p)) then 1 else 0 in
  match u with
  | CreateTable => Some (t, 0)
  | InsertIfNew r => if bool_decide (is_Some (t !! kr_path r)) then Some (t, 0) else Some (<[kr_path r := r]> t, 1)
  | InsertRow r => if bool_decide (is_Some (t !! kr_path r)) then None else Some (<[kr_path r := r]> t, 1)
  | SetData d p => Some (alter (set_kr_data d) p t, one p)
  | SetModeAt m p => Some (alter (set_kr_mode m) p t, one p)
  | SetPath new old =>
    match t !! old with
    | None => Some (t, 0)
    | Some r =>
      if negb (String.eqb old new) && bool_decide (is_Some (t !! new)) then None
      else Some (<[new := set_kr_path new r]> (delete old t), 1)
    end
  | DeleteAt p => Some (delete p t, one p)
  | DeleteBelow p pat => let t' := deleted p pat t in Some (t', Z.of_nat (base.size t) - Z.of_nat (base.size t'))
  end.

(** A database that answers; [conflict] is its complaint about a taken path.
    What it says of changes after a table is created does not matter. *)
Class KvLaws (W : Type) `{KvDb W} := {
  kv_rows : W -> KvRows;
  conflict : string;
  kv_prepare_ok : forall q w, kv_prepare q w = (Ok (), w);
  kv_fetch_ok : forall q w, exists l, kv_fetch q w = (Ok (map Ok l), w) /\ l ≡ₚ kv_select q (kv_rows w);
  kv_count_ok : forall p w, kv_count p w = (Ok (if bool_decide (is_Some (kv_rows w !! p)) then 1 else 0), w);
  kv_execute_ok : forall u w, match kv_apply u (kv_rows w) with
    | Some (t, n) => exists w' k, kv_execute u w = (Ok k, w') /\ kv_rows w' = t /\
                       (u = CreateTable \/ k = n /\ kv_changes w' = n)
    | None => kv_execute u w = (Err conflict, w)
    end
}.

(** Such a database, on rows in memory with the number of changes. *)
Definition kv_rows_db : KvDb (KvRows * Z) := {|
  kv_prepare _ w := (Ok (), w);
  kv_fetch q w := (Ok (map Ok (kv_select q (fst w))), w);
  kv_count p w := (Ok (if bool_decide (is_Some (fst w !! p)) then 1 else 0), w);
  kv_execute u w := match kv_apply u (fst w) with
    | Some (t, n) => (Ok n, (t, n))
    | None => (Err "UNIQUE constraint failed: kvfs.path"%string, w)
    end;
  kv_changes w := snd w
|}.

Definition kv_rows_db_laws : @KvLaws (KvRows * Z) kv_rows_db.
Proof.
  refine (@Build_KvLaws (KvRows * Z) kv_rows_db fst "UNIQUE constraint failed: kvfs.path" _ _ _ _).
  - done.
  - intros q w. eexists. by split.
  - done.
  - intros u w. cbn. destruct (kv_apply u (fst w)) as [[t n]|]; [|done]. exists (t, n), n.
    split; [done|]. split; [done|]. by right.
Defined.

(** ** The plugin *)

(* src: crates/racfs-plugin-kvfs/src/fs/mod.rs 23-35 KvBackend, KvFS *)
Inductive KvBackend (W : Type) :=
| Memory (maps : KvFS.KvFS)
| Sqlite (conn : W).
Arguments Memory {W}.
Arguments Sqlite {W}.

(* src: crates/racfs-plugin-kvfs/src/fs/mod.rs 88-98 KvFS::path_to_str *)
Definition path_to_str (p : Path) : Res string :=
  path_str ← ok_or (from_utf8 (as_bytes p)) (InvalidInput "Path contains invalid UTF-8");
  Ok (if starts_with path_str "/" then path_str else "/" +:+ path_str).

Section Ops.
Context `{BuildProfile} {W : Type} `{KvDb W}.
Implicit Types (now : Now) (p : Path).
Abbreviation Op := (FsOp W).

(** A call of the connection, with its error mapped. *)
Definition on_db {A} (f : string -> FSError) (m : M W string A) : Op A := fun w => (map_err f (fst (m w)), snd (m w)).
Definition io (text : string) (e : string) : FSError := Io (text +:+ ": " +:+ e).

(** [query_row], which fails without a row. *)
Definition query_row (f : string -> FSError) (q : KvQuery) : Op KvRow :=
  l ← on_db f (kv_fetch q);
  match l with [] => fail (f "Query returned no rows") | row :: _ => lift (map_err f row) end.

(* src: crates/racfs-plugin-kvfs/src/fs/mod.rs 100-120 KvFS::initialize_schema *)
Definition initialize_schema : Op () := on_db (io "Failed to create schema") (kv_execute CreateTable) ;; mret ().

(* src: crates/racfs-plugin-kvfs/src/fs/mod.rs 122-140 KvFS::create_root *)
Definition create_root : Op () :=
  on_db (io "Failed to create root")
    (kv_execute (InsertIfNew (mkKvRow "/" [] 1 (Z.lor S_IFDIR (octal 755))))) ;; mret ().

Definition row_meta (r : KvRow) : FileMetadata :=
  {| path := kr_path r; size := if negb (kr_is_dir r =? 0) then 0 else len (kr_data r); mode := u32_wrap (kr_mode r);
     created := None; modified := None; accessed := None; is_symlink_flag := false; symlink_target := None |}.

(* src: crates/racfs-plugin-kvfs/src/fs/read.rs 32-57 KvFS::read *)
Definition db_read p (offset size : Z) : Op bytes :=
  path_str ← lift (path_to_str p);
  r ← query_row (fun _ => NotFound p) (FileAt path_str);
  lift (read_range (kr_data r) offset size).

(* src: crates/racfs-plugin-kvfs/src/fs/read.rs 72-104 KvFS::stat *)
Definition db_stat p : Op FileMetadata :=
  path_str ← lift (path_to_str p);
  r ← query_row (fun _ => NotFound p) (AtPath path_str);
  mret (row_meta r).

(* src: crates/racfs-plugin-kvfs/src/fs/write.rs 37-50 KvFS::create *)
Definition db_create p : Op () :=
  path_str ← lift (path_to_str p);
  on_db (io "Failed to create") (kv_execute (InsertRow (mkKvRow path_str [] 0 (Z.lor S_IFREG (octal 644))))) ;; mret ().

(* src: crates/racfs-plugin-kvfs/src/fs/write.rs 94-131 KvFS::write *)
Definition db_write p (content : bytes) (offset flags : Z) : Op Z :=
  path_str ← lift (path_to_str p);
  r ← query_row (fun _ => NotFound p) (FileAt path_str);
  let '(done, existing) := KvFS.write_entry content offset flags (kr_data r) in
  lift done ;;
  on_db (io "Failed to write") (kv_execute (SetData existing path_str)) ;;
  mret (len content).

(* src: crates/racfs-plugin-kvfs/src/fs/dir.rs 34-47 KvFS::mkdir *)
Definition db_mkdir p (_perm : Z) : Op () :=
  path_str ← lift (path_to_str p);
  on_db (io "Failed to mkdir") (kv_execute (InsertRow (mkKvRow path_str [] 1 (Z.lor S_IFDIR (octal 755))))) ;; mret ().

(** The loop over the rows. *)
Fixpoint listed (prefix_with_slash : string) (l : list (outcome string KvRow)) : Res (list FileMetadata) :=
  match l with
  | [] => Ok []
  | row :: l =>
    r ← map_err (io "Row error") row;
    rest ← listed prefix_with_slash l;
    let tail := default (kr_path r) (strip_prefix_str (kr_path r) prefix_with_slash) in
    Ok (if contains_char tail slash then rest else row_meta r :: rest)
  end.

(* src: crates/racfs-plugin-kvfs/src/fs/dir.rs 82-146 KvFS::read_dir *)
Definition db_read_dir p : Op (list FileMetadata) :=
  path_str ← lift (path_to_str p);
  let prefix_check := if String.eqb path_str "/" then "/"%string else trim_end_str "/" path_str in
  let prefix_like := if String.eqb path_str "/" then "/%"%string else prefix_check +:+ "/%" in
  let prefix_with_slash := if String.eqb path_str "/" then "/"%string else prefix_check +:+ "/" in
  on_db (io "Failed to prepare read_dir") (kv_prepare (BelowPath prefix_like path_str)) ;;
  l ← on_db (io "Failed to read_dir") (kv_fetch (BelowPath prefix_like path_str));
  lift (listed prefix_with_slash l).

(* src: crates/racfs-plugin-kvfs/src/fs/dir.rs 165-180 KvFS::remove *)
Definition db_remove p : Op () :=
  path_str ← lift (path_to_str p);
  changed ← on_db (io "Failed to remove") (kv_execute (DeleteAt path_str));
  fail_if (changed =? 0) (NotFound p).

(* src: crates/racfs-plugin-kvfs/src/fs/dir.rs 204-218 KvFS::remove_all *)
Definition db_remove_all p : Op () :=
  path_str ← lift (path_to_str p);
  let prefix := trim_end_str "/" path_str in
  on_db (io "Failed to remove_all") (kv_execute (DeleteBelow path_str (prefix +:+ "/%"))) ;; mret ().

(* src: crates/racfs-plugin-kvfs/src/fs/dir.rs 250-283 KvFS::rename *)
Definition db_rename (old_path new_path : Path) : Op () :=
  old_str ← lift (path_to_str old_path);
  new_str ← lift (path_to_str new_path);
  there ← on_db (io "Failed to check rename target") (kv_count new_str);
  fail_if (negb (there =? 0)) (AlreadyExists new_path) ;;
  on_db (io "Failed to rename") (kv_execute (SetPath new_str old_str)) ;;
  w ← get;
  fail_if (kv_changes w =? 0) (NotFound old_path).

(* src: crates/racfs-plugin-kvfs/src/fs/chmod.rs 24-46 KvFS::chmod *)
Definition db_chmod p (md : Z) : Op () :=
  path_str ← lift (path_to_str p);
  r ← query_row (fun _ => NotFound p) (AtPath path_str);
  let current_mode := u32_wrap (kr_mode r) in
  let new_mode := Z.lor (Z.land current_mode (octal 170000)) (Z.land md (octal 777)) in
  on_db (io "Failed to chmod") (kv_execute (SetModeAt new_mode path_str)) ;; mret ().
End Ops.

(** [match &self.backend]. *)
Definition on_backend {W A} (memory : FsOp KvFS.KvFS A) (sqlite : FsOp W A) : FsOp (KvBackend W) A := fun b =>
  match b with
  | Memory s => (fst (memory s), Memory (snd (memory s)))
  | Sqlite w => (fst (sqlite w), Sqlite (snd (sqlite w)))
  end.

(* src: crates/racfs-plugin-kvfs/src/fs/mod.rs 70-85 KvFS::with_database *)
Definition with_database {W} `{KvDb W} (open : Path -> outcome string W) (p : Path) : Res (KvBackend W) :=
  conn ← map_err (io "Failed to open database") (open p);
  let '(r, w) := (initialize_schema ;; create_root) conn in
  r ;; Ok (Sqlite w).

#[global] Instance kv_backend_filesystem `{BuildProfile} {W} `{KvDb W} : FileSystem (KvBackend W) := {
  fs_read now p o n := on_backend (KvFS.read now p o n) (db_read p o n);
  fs_stat now p := on_backend (KvFS.stat now p) (db_stat p);
  fs_create now p := on_backend (KvFS.create now p) (db_create p);
  fs_write now p d o f := on_backend (KvFS.write now p d o f) (db_write p d o f);
  fs_mkdir now p m := on_backend (KvFS.mkdir now p m) (db_mkdir p m);
  fs_read_dir now p := on_backend (KvFS.read_dir now p) (db_read_dir p);
  fs_remove now p := on_backend (KvFS.remove now p) (db_remove p);
  fs_remove_all now p := on_backend (KvFS.remove_all now p) (db_remove_all p);
  fs_rename now o n := on_backend (KvFS.rename now o n) (db_rename o n);
  fs_chmod now p m := on_backend (KvFS.chmod now p m) (db_chmod p m);
  fs_truncate := default_truncate; fs_touch := default_touch; fs_readlink := default_readlink;
  fs_symlink := default_symlink; fs_get_xattr := default_get_xattr; fs_set_xattr := default_set_xattr;
  fs_remove_xattr := default_remove_xattr; fs_list_xattr := default_list_xattr
}.

(** ** A filesystem on the rows *)

Section Spec.
Context `{BuildProfile}.
Implicit Types t : KvRows.

Definition spec_at p (f : KvRow -> Res FsReply * KvRows) t : Res FsReply * KvRows :=
  match t !! p with Some r => f r | None => (Err (NotFound p), t) end.
Definition spec_file p (f : KvRow -> Res FsReply * KvRows) t : Res FsReply * KvRows :=
  spec_at p (fun r => if kr_is_dir r =? 0 then f r else (Err (NotFound p), t)) t.
Definition spec_insert p (r : KvRow) (e : FSError) t : Res FsReply * KvRows :=
  if bool_decide (is_Some (t !! p)) then (Err e, t) else (Ok RUnit, <[p := r]> t).

(** What a call answers and leaves, where the complaint about a taken path is
    [taken]. *)
Definition kv_spec (taken : string) (c : FsCall) t : Res FsReply * KvRows :=
  match c with
  | CRead p o n => spec_file p (fun r => (RBytes <$> read_range (kr_data r) o n, t)) t
  | CStat p => spec_at p (fun r => (Ok (RMeta (row_meta r)), t)) t
  | CCreate p => spec_insert p (mkKvRow p [] 0 (Z.lor S_IFREG (octal 644))) (io "Failed to create" taken) t
  | CMkdir p _ => spec_insert p (mkKvRow p [] 1 (Z.lor S_IFDIR (octal 755))) (io "Failed to mkdir" taken) t
  | CWrite p d o f => spec_file p (fun r =>
      match KvFS.write_outcome d o f (kr_data r) with
      | Some d' => (Ok (RCount (len d)), <[p := set_kr_data d' r]> t)
      | None => (Panic, t)
      end) t
  | CRemove p => spec_at p (fun _ => (Ok RUnit, delete p t)) t
  | CRemoveAll p => (Ok RUnit, deleted p (trim_end_str "/" p +:+ "/%") t)
  | CRename p q =>
    if bool_decide (is_Some (t !! q)) then (Err (AlreadyExists q), t)
    else spec_at p (fun r => (Ok RUnit, <[q := set_kr_path q r]> (delete p t))) t
  | CChmod p md => spec_at p (fun r =>
      (Ok RUnit, <[p := set_kr_mode (Z.lor (Z.land (u32_wrap (kr_mode r)) (octal 170000)) (Z.land md (octal 777))) r]> t)) t
  | _ => (Ok RUnit, t)
  end.

(** The calls that it answers: listings come in the order of the database. *)
Definition kv_call (c : FsCall) : bool :=
  call_wf c &&
  match c with
  | CRead p _ _ | CStat p | CCreate p | CMkdir p _ | CWrite p _ _ _ | CRemove p | CRemoveAll p | CChmod p _ =>
    SqlTable.plain p
  | CRename p q => SqlTable.plain p && SqlTable.plain q
  | _ => false
  end.
End Spec.

Definition kv_fit (t : KvRows) : Prop := map_Forall (fun _ r => len (kr_data r) <= isize_max) t.

Lemma kv_fit_insert p r t : len (kr_data r) <= isize_max -> kv_fit t -> kv_fit (<[p := r]> t).
Proof. intros Hr Ht. by apply map_Forall_insert_2. Qed.

Lemma kv_fit_delete p t : kv_fit t -> kv_fit (delete p t).
Proof. intros Ht. by apply map_Forall_delete. Qed.

Lemma kv_fit_deleted p pat t : kv_fit t -> kv_fit (deleted p pat t).
Proof. intros Ht q r [Hr _]%map_lookup_filter_Some. exact (Ht q r Hr). Qed.

Lemma kv_alter f p (r : KvRow) (t : KvRows) : t !! p = Some r -> alter f p t = <[p := f r]> t.
Proof.
  intros Hr. apply map_eq. intros q. destruct (decide (p = q)) as [<-|Hne].
  - by rewrite lookup_alter_eq, lookup_insert_eq, Hr.
  - by rewrite lookup_alter_ne, lookup_insert_ne.
Qed.

Section Calls.
Context `{BuildProfile} {W : Type} `{!KvDb W} `{LW : !KvLaws W}.
Implicit Types (p : Path) (w : W) (t : KvRows).

Definition kv_sim w t : Prop := kv_rows w = t /\ kv_fit t.
Abbreviation agrees := (FileSystem.agrees kv_sim).
Abbreviation spec := (kv_spec conflict).

Lemma kv_path_ok {A} p (k : string -> FsOp W A) w :
  SqlTable.plain p = true -> (path_str ← lift (path_to_str p); k path_str) w = k p w.
Proof.
  unfold SqlTable.plain. intros [Hs Hu%bool_decide_eq_true]%andb_true_iff. apply bind_ok. unfold lift, path_to_str.
  rewrite Hu. cbn. by rewrite Hs.
Qed.

(** A row that is asked for. *)
Lemma query_row_ok {A} f q (k : KvRow -> FsOp W A) w r :
  kv_select q (kv_rows w) = [r] -> (r ← query_row f q; k r) w = k r w.
Proof.
  intros Hq. destruct (kv_fetch_ok q w) as (l & Hf & Hl). rewrite Hq in Hl. apply Permutation_singleton_r in Hl as ->.
  apply bind_ok. unfold query_row. erewrite bind_ok by (unfold on_db; rewrite Hf; reflexivity). done.
Qed.

Lemma query_row_none {A} f q (k : KvRow -> FsOp W A) w :
  kv_select q (kv_rows w) = [] -> (r ← query_row f q; k r) w = (Err (f "Query returned no rows"%string), w).
Proof.
  intros Hq. destruct (kv_fetch_ok q w) as (l & Hf & Hl). rewrite Hq in Hl. apply Permutation_nil_r in Hl as ->.
  rewrite run_bind. unfold query_row. erewrite bind_ok by (unfold on_db; rewrite Hf; reflexivity). done.
Qed.

(** A query at a path, in the shape of the description. *)
Lemma at_path_ok {A} p (k : KvRow -> FsOp W A) (g : A -> FsReply) (e : KvRow -> Res FsReply * KvRows) w t :
  kv_sim w t -> (forall r, t !! p = Some r -> agrees g (k r w) (e r)) ->
  agrees g ((r ← query_row (fun _ => NotFound p) (AtPath p); k r) w) (spec_at p e t).
Proof.
  intros Hsim Hk. pose proof Hsim as [Hrows _]. unfold spec_at. destruct (t !! p) as [r|] eqn:Er.
  - rewrite (query_row_ok _ _ k w r) by (cbn; by rewrite Hrows, Er). by apply Hk.
  - rewrite query_row_none by (cbn; by rewrite Hrows, Er). by split.
Qed.

Lemma file_at_ok {A} p (k : KvRow -> FsOp W A) (g : A -> FsReply) (e : KvRow -> Res FsReply * KvRows) w t :
  kv_sim w t -> (forall r, t !! p = Some r -> agrees g (k r w) (e r)) ->
  agrees g ((r ← query_row (fun _ => NotFound p) (FileAt p); k r) w) (spec_file p e t).
Proof.
  intros Hsim Hk. pose proof Hsim as [Hrows _]. unfold spec_file, spec_at. destruct (t !! p) as [r|] eqn:Er.
  - destruct (kr_is_dir r =? 0) eqn:Ed.
    + rewrite (query_row_ok _ _ k w r) by (cbn; by rewrite Hrows, Er, Ed). by apply Hk.
    + rewrite query_row_none by (cbn; by rewrite Hrows, Er, Ed). by split.
  - rewrite query_row_none by (cbn; by rewrite Hrows, Er). by split.
Qed.

(** A statement that is carried out. *)
Lemma kv_executed f u w t t' n :
  kv_sim w t -> kv_apply u t = Some (t', n) -> kv_fit t' -> u <> CreateTable ->
  exists w', on_db f (kv_execute u) w = (Ok n, w') /\ kv_sim w' t' /\ kv_changes w' = n.
Proof.
  intros [<- _] Hu Hfit Hne. pose proof (kv_execute_ok u w) as He. rewrite Hu in He.
  destruct He as (w' & k & He & Hr & [Hc|[-> Hn]]); [done|]. exists w'. unfold on_db. rewrite He. by repeat split.
Qed.

Lemma execute_end {A} f u w t t' n (g : A -> FsReply) (x : A) :
  kv_sim w t -> kv_apply u t = Some (t', n) -> kv_fit t' -> u <> CreateTable ->
  agrees g ((on_db f (kv_execute u) ;; mret x) w) (Ok (g x), t').
Proof.
  intros Hsim Hu Hfit Hne. destruct (kv_executed f u w t t' n Hsim Hu Hfit Hne) as (w' & He & Hs & _).
  rewrite (bind_ok _ _ _ _ _ He). by split.
Qed.

Lemma insert_agrees f p (r : KvRow) w t :
  kv_sim w t -> kr_path r = p -> kr_data r = [] ->
  agrees (fun _ => RUnit) ((on_db f (kv_execute (InsertRow r)) ;; mret ()) w) (spec_insert p r (f conflict) t).
Proof.
  intros Hsim <- Hd. pose proof Hsim as [Hrows Hfit]. unfold spec_insert.
  destruct (bool_decide (is_Some (t !! kr_path r))) eqn:E.
  - rewrite run_bind. pose proof (kv_execute_ok (InsertRow r) w) as He. cbn in He. rewrite Hrows, E in He.
    unfold on_db. rewrite He. by split.
  - apply (execute_end _ _ w t _ 1 (fun _ => RUnit)); [done|cbn; by rewrite E| |done].
    apply kv_fit_insert; [|done]. by rewrite Hd.
Qed.

Lemma db_write_agrees p d o f w t :
  SqlTable.plain p = true -> in_i64 o = true -> len d <= isize_max -> kv_sim w t ->
  agrees RCount (db_write p d o f w) (spec (CWrite p d o f) t).
Proof.
  intros Hp Ho Hd Hsim. pose proof Hsim as [_ Hfit]. unfold db_write. rewrite kv_path_ok by done. cbn [kv_spec].
  apply file_at_ok; [done|]. intros r Er. pose proof (Hfit p r Er) as Hr.
  pose proof (KvFS.write_entry_run d o f (kr_data r) Ho Hr Hd) as Hw.
  destruct (KvFS.write_outcome d o f (kr_data r)) as [d'|] eqn:E.
  - rewrite Hw. rewrite (bind_ok _ _ w w ()) by done.
    apply (execute_end _ _ w t _ 1 RCount (len d)); [done| | |done].
    + cbn. rewrite (kv_alter _ p r) by done. by rewrite bool_decide_eq_true_2 by eauto.
    + apply kv_fit_insert; [|done]. exact (KvFS.write_outcome_len d o f _ _ Hr E).
  - destruct (KvFS.write_entry d o f (kr_data r)) as [x y]. cbn in Hw. subst x. by split.
Qed.

Lemma db_remove_agrees p w t :
  SqlTable.plain p = true -> kv_sim w t ->
  agrees (fun _ => RUnit) (db_remove p w) (spec (CRemove p) t).
Proof.
  intros Hp Hsim. pose proof Hsim as [_ Hfit]. unfold db_remove. rewrite kv_path_ok by done. cbn [kv_spec]. unfold spec_at.
  destruct (kv_executed (io "Failed to remove") (DeleteAt p) w t _ _ Hsim eq_refl (kv_fit_delete p t Hfit)) as (w' & He & Hs & _);
    [done|].
  rewrite (bind_ok _ _ _ _ _ He). destruct (t !! p) as [r|] eqn:Er.
  - rewrite bool_decide_eq_true_2 by eauto. by split.
  - rewrite bool_decide_eq_false_2 by by intros []. split; [done|]. cbn. by rewrite delete_id in Hs.
Qed.

Lemma db_rename_agrees p q w t :
  SqlTable.plain p = true -> SqlTable.plain q = true -> kv_sim w t ->
  agrees (fun _ => RUnit) (db_rename p q w) (spec (CRename p q) t).
Proof.
  intros Hp Hq Hsim. pose proof Hsim as [Hrows Hfit]. unfold db_rename. rewrite !kv_path_ok by done. cbn [kv_spec].
  rewrite run_bind. unfold on_db at 1. rewrite kv_count_ok, Hrows. cbn [map_err fst snd].
  destruct (bool_decide (is_Some (t !! q))) eqn:Eq; [by split|]. rewrite (bind_ok _ _ w w ()) by done.
  assert (Ha : kv_apply (SetPath q p) t = match t !! p with
    | Some r => Some (<[q := set_kr_path q r]> (delete p t), 1)
    | None => Some (t, 0)
    end) by (unfold kv_apply; rewrite Eq, andb_false_r; done).
  unfold spec_at. destruct (t !! p) as [r|] eqn:Er.
  all: edestruct (kv_executed (io "Failed to rename") (SetPath q p) w t) as (w' & He & Hs & Hn); [done|exact Ha| |done|].
  - apply kv_fit_insert; [exact (Hfit p r Er)|by apply kv_fit_delete].
  - rewrite (bind_ok _ _ _ _ _ He), (bind_ok get _ w' w' w') by done. rewrite Hn. by split.
  - done.
  - rewrite (bind_ok _ _ _ _ _ He), (bind_ok get _ w' w' w') by done. rewrite Hn. by split.
Qed.

Lemma db_chmod_agrees p md w t :
  SqlTable.plain p = true -> kv_sim w t ->
  agrees (fun _ => RUnit) (db_chmod p md w) (spec (CChmod p md) t).
Proof.
  intros Hp Hsim. pose proof Hsim as [_ Hfit]. unfold db_chmod. rewrite kv_path_ok by done. cbn [kv_spec].
  apply at_path_ok; [done|]. intros r Er.
  apply (execute_end _ _ w t _ 1 (fun _ => RUnit) ()); [done| | |done].
  - cbn. rewrite (kv_alter _ p r) by done. by rewrite bool_decide_eq_true_2 by eauto.
  - apply kv_fit_insert; [exact (Hfit p r Er)|done].
Qed.

Definition backend_sim (b : KvBackend W) t : Prop := exists w, b = Sqlite w /\ kv_sim w t.

Lemma backend_agrees {A} (g : A -> FsReply) memory (sqlite : FsOp W A) w e :
  agrees g (sqlite w) e -> FileSystem.agrees backend_sim g (on_backend memory sqlite (Sqlite w)) e.
Proof. intros [Hr Hs]. split; [done|]. by exists (snd (sqlite w)). Qed.

Abbreviation kv_fs_call := (run_call (H := kv_backend_filesystem)).

Lemma kv_call_agrees now c (b : KvBackend W) t :
  kv_call c = true -> backend_sim b t -> FileSystem.agrees backend_sim id (kv_fs_call now c b) (spec c t).
Proof.
  unfold kv_call. intros [Hwf Hc]%andb_true_iff (w & -> & Hsim). pose proof Hsim as [_ Hfit].
  destruct c as [p o n|p|p|p d o f|p m| |p|p|p q|p m| | | | | | | | ]; try discriminate; cbn [call_wf] in Hwf.
  - apply agrees_fmap, backend_agrees. unfold db_read. rewrite kv_path_ok by done. by apply file_at_ok.
  - apply agrees_fmap, backend_agrees. unfold db_stat. rewrite kv_path_ok by done. by apply at_path_ok.
  - apply agrees_unit, backend_agrees. unfold db_create. rewrite kv_path_ok by done. by apply insert_agrees.
  - apply andb_true_iff in Hwf as [[Ho _]%andb_true_iff Hd%Z.leb_le].
    by apply agrees_fmap, backend_agrees, db_write_agrees.
  - apply agrees_unit, backend_agrees. unfold db_mkdir. rewrite kv_path_ok by done. by apply insert_agrees.
  - by apply agrees_unit, backend_agrees, db_remove_agrees.
  - apply agrees_unit, backend_agrees. unfold db_remove_all. rewrite kv_path_ok by done.
    by eapply (execute_end _ _ w t _ _ (fun _ => RUnit) ()); [|reflexivity|apply kv_fit_deleted|].
  - apply andb_true_iff in Hc as [Hp Hq]. by apply agrees_unit, backend_agrees, db_rename_agrees.
  - by apply agrees_unit, backend_agrees, db_chmod_agrees.
Qed.
End Calls.

Abbreviation kv_run := (run_all (fun c => run_call (H := kv_backend_filesystem) (fst c) (snd c))).

(** C21: The SQLite store of KvFS is a filesystem on the rows of its table: over
    every sequence of calls each answer is the one that the description on rows
    gives, and the rows are those of the description, panics included.  A taken
    path is an I/O error, a directory is removed with its entries left behind,
    and nothing asks for the directory above. *)
Theorem kv_sqlite_refines `{BuildProfile} {W} `{!KvDb W} `{!KvLaws W} (cs : list (Now * FsCall)) (w : W) :
  kv_fit (kv_rows w) -> forallb (fun c => kv_call (snd c)) cs = true ->
  let spec_run := run_all (fun c => kv_spec conflict (snd c)) cs (kv_rows w) in
  fst (kv_run cs (Sqlite w)) = fst spec_run /\
  exists w', snd (kv_run cs (Sqlite w)) = Sqlite w' /\ kv_rows w' = snd spec_run.
Proof.
  intros Hfit Hcs.
  destruct (run_all_agrees backend_sim (fun c => run_call (H := kv_backend_filesystem) (fst c) (snd c))
    (fun c => kv_spec conflict (snd c)) (fun c => kv_call (snd c)) cs (Sqlite w) (kv_rows w))
    as [Hr (w' & Hw & Ht & _)]; [|done|by exists w|].
  - intros [now c] b t Hc Hsim. by apply kv_call_agrees.
  - split; [done|]. by exists w'.
Qed.

(** A listing holds the rows below whose paths go on without a slash, in the order
    of the database. *)
Lemma kv_sqlite_listing `{BuildProfile} {W} `{!KvDb W} `{!KvLaws W} p (w : W) :
  SqlTable.plain p = true ->
  let below := if String.eqb p "/" then "/"%string else trim_end_str "/" p +:+ "/" in
  let right_below r := negb (contains_char (default (kr_path r) (strip_prefix_str (kr_path r) below)) slash) in
  exists l, db_read_dir p w = (Ok (map row_meta (List.filter right_below l)), w) /\
    l ≡ₚ kv_select (BelowPath (below +:+ "%") p) (kv_rows w).
Proof.
  intros Hp below right_below. unfold db_read_dir. rewrite kv_path_ok by done.
  assert (Hb : (if String.eqb p "/" then "/%"%string
                else (if String.eqb p "/" then "/"%string else trim_end_str "/" p) +:+ "/%") = below +:+ "%").
  { unfold below. destruct (String.eqb p "/"); [done|]. exact (string_app_assoc _ "/" "%"). }
  rewrite Hb. rewrite (bind_ok _ _ w w ()) by (unfold on_db; by rewrite kv_prepare_ok).
  destruct (kv_fetch_ok (BelowPath (below +:+ "%") p) w) as (l & Hf & Hl). exists l. split; [|done].
  erewrite bind_ok by (unfold on_db; rewrite Hf; reflexivity). unfold lift.
  replace (if String.eqb p "/" then "/"%string
           else (if String.eqb p "/" then "/"%string else trim_end_str "/" p) +:+ "/") with below
    by (unfold below; by destruct (String.eqb p "/")).
  f_equal. clear Hf Hl Hb. induction l as [|r l IH]; [done|]. cbn [map listed map_err mbind outcome_bind]. rewrite IH.
  cbn [mbind outcome_bind List.filter]. unfold right_below. by destruct (contains_char (default (kr_path r) _) slash).
Qed.

(** ** On a small table *)

Section Demo.
#[local] Existing Instance debug_profile.
#[local] Instance demo_db : KvDb (KvRows * Z) := kv_rows_db.
#[local] Instance demo_laws : KvLaws (KvRows * Z) := kv_rows_db_laws.

Definition calls (cs : list FsCall) : list (Now * FsCall) := map (fun c => (fun _ => 0, c)) cs.
Definition fresh : KvRows * Z := snd ((initialize_schema ;; create_root) (∅ : KvRows, 0)).
Definition opened : KvBackend (KvRows * Z) := Sqlite fresh.
Definition answers (b : KvBackend (KvRows * Z)) (cs : list FsCall) : list (Res FsReply) := fst (kv_run (calls cs) b).

Lemma kv_sqlite_refines_witness :
  answers opened [CMkdir "/d" 0; CCreate "/d/k"; CWrite "/d/k" (as_bytes "hello") 0 0; CRename "/d/k" "/n"; CRead "/n" 1 2;
                  CWrite "/n" (as_bytes "xyz") 3 0; CRemove "/d"; CRemove "/d"] =
    [Ok RUnit; Ok RUnit; Ok (RCount 5); Ok RUnit; Ok (RBytes (as_bytes "el")); Panic; Ok RUnit; Err (NotFound "/d")].
Proof.
  refine (eq_trans (proj1 (kv_sqlite_refines _ fresh _ _)) _).
  - replace (kv_rows fresh) with ({["/" := mkKvRow "/" [] 1 (Z.lor S_IFDIR (octal 755))]} : KvRows) by (vm_compute; reflexivity).
    intros p r [_ <-]%lookup_singleton_Some. by vm_compute.
  - vm_compute. reflexivity.
  - vm_compute. reflexivity.
Defined.

Lemma kv_opened : with_database (fun _ => Ok (∅ : KvRows, 0)) "kv.db" = Ok opened.
Proof. vm_compute. reflexivity. Qed.

(** The two stores answer differently about a path that is taken. *)
Lemma kv_stores_differ :
  answers opened [CCreate "/k"; CCreate "/k"] =
    [Ok RUnit; Err (Io "Failed to create: UNIQUE constraint failed: kvfs.path")] /\
  answers (Memory KvFS.new) [CCreate "/k"; CCreate "/k"] = [Ok RUnit; Err (AlreadyExists "/k")].
Proof. vm_compute. done. Qed.

(** A directory is removed from above its entries, and entries are made where
    there is no directory. *)
Lemma kv_sqlite_orphans :
  answers opened [CMkdir "/d" 0; CCreate "/d/k"; CRemove "/d"; CRead "/d/k" 0 1; CCreate "/x/y"] =
    [Ok RUnit; Ok RUnit; Ok RUnit; Ok (RBytes []); Ok RUnit].
Proof. vm_compute. done. Qed.

(** Removing [/a_b] with all that is in it takes what is in [/axb], and removing
    the root with all that is in it takes the root. *)
Lemma kv_sqlite_removes_more :
  answers opened [CCreate "/axb/k"; CRemoveAll "/a_b"; CStat "/axb/k"; CRemoveAll "/"; CStat "/"] =
    [Ok RUnit; Ok RUnit; Err (NotFound "/axb/k"); Ok RUnit; Err (NotFound "/")].
Proof. vm_compute. done. Qed.

(** Renaming a directory leaves its entries under the old name. *)
Lemma kv_sqlite_rename_leaves :
  answers opened [CMkdir "/d" 0; CCreate "/d/k"; CRename "/d" "/e"; CRead "/d/k" 0 1; CRead "/e/k" 0 1] =
    [Ok RUnit; Ok RUnit; Ok RUnit; Ok (RBytes []); Err (NotFound "/e/k")].
Proof. vm_compute. done. Qed.
End Demo.
