(* ===== verification/SqlFS.v ===== *)
(** * SqlFS: files in an SQLite table ([crates/racfs-plugin-sqlfs])

    Every call is a few statements of [SqlTable] on one connection; each query is
    prepared before it is run.  The state is the configuration and the database
    [W]. *)

From S2P Require Import Prelude Text RPath FsError Metadata Flags FileSystem Contents SqlTable.
From Stdlib Require Import Strings.Ascii.
From Stdlib Require Strings.String.

(* src: crates/racfs-plugin-sqlfs/src/fs/mod.rs 23-28 SqlConfig *)
Record SqlConfig := { database_url : string; max_file_size : Z }.

(* src: crates/racfs-plugin-sqlfs/src/fs/mod.rs 31-36 SqlConfig::default *)
Definition default_config : SqlConfig := {| database_url := "file::memory:"; max_file_size := 5 * 1024 * 1024 |}.

(* src: crates/racfs-plugin-sqlfs/src/fs/mod.rs 40-43 SqlFS *)
Record SqlFS (W : Type) := mkSqlFS { config : SqlConfig; conn : W }.
Arguments mkSqlFS {W}.
Arguments config {W}.
Arguments conn {W}.

(* src: crates/racfs-plugin-sqlfs/src/fs/mod.rs 136-146 SqlFS::path_to_str *)
Definition path_to_str (p : Path) : Res string :=
  path_str ← ok_or (from_utf8 (as_bytes p)) (InvalidInput "Path contains invalid UTF-8");
  Ok (if starts_with path_str "/" then path_str else "/" +:+ path_str).

Section Ops.
Context `{BuildProfile} `{Millis} {W : Type} `{SqlDb W}.
Implicit Types (now : Now) (p : Path) (s : SqlFS W).
Abbreviation Op := (FsOp (SqlFS W)).

(** A call of the connection, with the text of its error. *)
Definition on_conn {A} (text : string) (m : M W string A) : Op A := fun s =>
  (map_err (fun e => Io (text +:+ ": " +:+ e)) (fst (m (conn s))), mkSqlFS (config s) (snd (m (conn s)))).

(** [query_row(..).optional()] and [query_row(..)]. *)
Definition first_row (text : string) (q : Query) : Op (option Row) :=
  l ← on_conn text (fetch q);
  match l with
  | [] => mret None
  | r :: _ => row ← lift (map_err (fun e => Io (text +:+ ": " +:+ e)) r); mret (Some row)
  end.
Definition one_row (text : string) (q : Query) : Op Row :=
  row ← first_row text q; lift (ok_or row (Io (text +:+ ": " +:+ no_rows))).

(* src: crates/racfs-plugin-sqlfs/src/fs/mod.rs 81-112 SqlFS::initialize_schema *)
Definition initialize_schema : Op () :=
  on_conn "Failed to create schema" (execute (CreateSchema "files")) ;;
  on_conn "Failed to create index" (execute (CreateSchema "idx_files_is_dir")).

(* src: crates/racfs-plugin-sqlfs/src/fs/mod.rs 115-133 SqlFS::create_root *)
Definition create_root now : Op () :=
  let t := timestamp_millis (now 0%nat) in
  let md := Z.lor S_IFDIR (Z.lor S_IRWXU (Z.lor S_IRGRP (Z.lor S_IXGRP (Z.lor S_IROTH S_IXOTH)))) in
  on_conn "Failed to create root" (execute (InsertOrIgnore (new_row "/" true md t))).

(* src: crates/racfs-plugin-sqlfs/src/fs/mod.rs 149-198 SqlFS::get_metadata *)
Definition get_metadata (path_str : string) : Op FileMetadata :=
  on_conn "Failed to prepare query" (prepare (ByPath path_str)) ;;
  row ← first_row "Failed to query metadata" (ByPath path_str);
  r ← lift (ok_or row (NotFound path_str));
  mret (row_metadata r).

(* src: crates/racfs-plugin-sqlfs/src/fs/mod.rs 201-219 SqlFS::exists *)
Definition exists_ (path_str : string) : Op bool :=
  on_conn "Failed to prepare exists query" (prepare (ByPath path_str)) ;;
  row ← first_row "Failed to query exists" (ByPath path_str);
  mret (bool_decide (is_Some row)).

(* src: crates/racfs-plugin-sqlfs/src/fs/mod.rs 222-237 SqlFS::ensure_parent_exists *)
Definition ensure_parent_exists (path_str : string) : Op () :=
  match parent path_str with
  | None => mret ()
  | Some q =>
    parent_str ← lift (path_to_str q);
    if String.eqb parent_str "/" then mret ()
    else
      m ← get_metadata parent_str;
      fail_if (negb (is_directory m)) (NotADirectory parent_str)
  end.

(* src: crates/racfs-plugin-sqlfs/src/fs/mod.rs 240-259 SqlFS::is_dir *)
Definition is_dir (path_str : string) : Op bool :=
  on_conn "Failed to prepare is_dir query" (prepare (ByPath path_str)) ;;
  row ← first_row "Failed to query is_dir" (ByPath path_str);
  r ← lift (ok_or row (NotFound path_str));
  mret (row_is_dir r).

(* src: crates/racfs-plugin-sqlfs/src/fs/read.rs 11-48 SqlFS::read *)
Definition read now p (offset size : Z) : Op bytes :=
  path_str ← lift (path_to_str p);
  d ← is_dir path_str;
  fail_if d (IsDirectory p) ;;
  on_conn "Failed to prepare read query" (prepare (ByPath path_str)) ;;
  r ← one_row "Failed to read data" (ByPath path_str);
  lift (read_range (default [] (row_data r)) offset size).

(* src: crates/racfs-plugin-sqlfs/src/fs/read.rs 50-53 SqlFS::stat *)
Definition stat now p : Op FileMetadata := path_str ← lift (path_to_str p); get_metadata path_str.

(* src: crates/racfs-plugin-sqlfs/src/fs/write.rs 17-52 SqlFS::create *)
Definition create now p : Op () :=
  path_str ← lift (path_to_str p);
  ensure_parent_exists path_str ;;
  there ← exists_ path_str;
  fail_if there (AlreadyExists p) ;;
  let md := Z.lor S_IFREG (Z.lor S_IRWXU (Z.lor S_IRGRP S_IROTH)) in
  on_conn "Failed to create file" (execute (Insert (new_row path_str false md (timestamp_millis (now 0%nat))))).

(** A query that fails counts as an empty content. *)
Definition existing_data (path_str : string) : Op bytes := fun s =>
  let '(r, s') := first_row "" (ByPath path_str) s in
  (match r with
   | Ok (Some row) => Ok (default [] (row_data row))
   | Ok None | Err _ => Ok []
   | Panic => Panic
   | Diverge => Diverge
   end, s').

(* src: crates/racfs-plugin-sqlfs/src/fs/write.rs 54-130 SqlFS::write *)
Definition write now p (data : bytes) (offset flags : Z) : Op Z :=
  path_str ← lift (path_to_str p);
  d ← is_dir path_str;
  fail_if d (IsDirectory p) ;;
  s ← get;
  fail_if (max_file_size (config s) <? len data) StorageFull ;;
  on_conn "Failed to prepare write read query" (prepare (ByPath path_str)) ;;
  existing ← existing_data path_str;
  new_data ← lift (new_content data offset flags existing);
  let t := timestamp_millis (now 0%nat) in
  on_conn "Failed to write" (execute (SetContent path_str new_data t (Some t))) ;;
  mret (len data).

(* src: crates/racfs-plugin-sqlfs/src/fs/dir.rs 16-43 SqlFS::mkdir *)
Definition mkdir now p (_perm : Z) : Op () :=
  path_str ← lift (path_to_str p);
  ensure_parent_exists path_str ;;
  there ← exists_ path_str;
  fail_if there (AlreadyExists p) ;;
  let md := Z.lor S_IFDIR (Z.lor S_IRWXU (Z.lor S_IRGRP (Z.lor S_IXGRP (Z.lor S_IROTH S_IXOTH)))) in
  on_conn "Failed to create directory" (execute (Insert (new_row path_str true md (timestamp_millis (now 0%nat))))).

(** Is a row of the listing right below the directory? *)
Definition slashes (s : string) : nat :=
  length (List.filter (Ascii.eqb slash) (String.list_ascii_of_string s)).
Definition direct (path_str full : string) : bool :=
  if String.eqb path_str "/" then (slashes full =? 1)%nat
  else negb (contains_char (default full (path_strip_prefix full path_str)) slash).

Fixpoint listed (path_str : string) (l : list (outcome string Row)) : Res (list FileMetadata) :=
  match l with
  | [] => Ok []
  | row :: l =>
    r ← map_err (fun e => Io ("Failed to read row: " +:+ e)) row;
    rest ← listed path_str l;
    Ok (if direct path_str (row_path r) then row_metadata r :: rest else rest)
  end.

(* src: crates/racfs-plugin-sqlfs/src/fs/dir.rs 45-131 SqlFS::read_dir *)
Definition read_dir now p : Op (list FileMetadata) :=
  path_str ← lift (path_to_str p);
  d ← is_dir path_str;
  fail_if (negb d) (NotADirectory p) ;;
  let pattern := if String.eqb path_str "/" then "/%"%string else path_str +:+ "/%" in
  on_conn "Failed to prepare read_dir query" (prepare (ByPattern pattern)) ;;
  l ← on_conn "Failed to query read_dir" (fetch (ByPattern pattern));
  lift (listed path_str l).

(* src: crates/racfs-plugin-sqlfs/src/fs/dir.rs 133-169 SqlFS::remove *)
Definition remove now p : Op () :=
  path_str ← lift (path_to_str p);
  there ← exists_ path_str;
  fail_if (negb there) (NotFound p) ;;
  d ← is_dir path_str;
  (if (d : bool) then
     on_conn "Failed to prepare empty check query" (prepare (ByPattern (below path_str))) ;;
     count ← on_conn "Failed to check if directory is empty" (fetch_count (below path_str));
     fail_if (0 <? count) DirectoryNotEmpty
   else mret ()) ;;
  on_conn "Failed to remove" (execute (DeleteRow path_str)).

(* src: crates/racfs-plugin-sqlfs/src/fs/dir.rs 171-191 SqlFS::remove_all *)
Definition remove_all now p : Op () :=
  path_str ← lift (path_to_str p);
  there ← exists_ path_str;
  fail_if (negb there) (NotFound p) ;;
  on_conn "Failed to remove all" (execute (DeleteTree path_str (below path_str))).

(* src: crates/racfs-plugin-sqlfs/src/fs/dir.rs 193-253 SqlFS::rename *)
Definition rename now (old_path new_path : Path) : Op () :=
  old_str ← lift (path_to_str old_path);
  new_str ← lift (path_to_str new_path);
  there ← exists_ old_str;
  fail_if (negb there) (NotFound old_path) ;;
  taken ← exists_ new_str;
  fail_if taken (AlreadyExists new_path) ;;
  d ← is_dir old_str;
  if (d : bool) then
    on_conn "Failed to move directory children" (execute (MoveBelow (below old_str) new_str (str_len old_str))) ;;
    on_conn "Failed to move directory" (execute (MoveRow old_str new_str))
  else on_conn "Failed to rename" (execute (MoveRow old_str new_str)).

(* src: crates/racfs-plugin-sqlfs/src/fs/chmod.rs 12-37 SqlFS::chmod *)
Definition chmod now p (md : Z) : Op () :=
  path_str ← lift (path_to_str p);
  there ← exists_ path_str;
  fail_if (negb there) (NotFound p) ;;
  on_conn "Failed to chmod" (execute (SetMode path_str md (timestamp_millis (now 0%nat)))).

(* src: crates/racfs-plugin-sqlfs/src/fs/mod.rs 264-316 SqlFS::truncate *)
Definition truncate now p (n : Z) : Op () :=
  path_str ← lift (path_to_str p);
  d ← is_dir path_str;
  fail_if d (IsDirectory p) ;;
  on_conn "Failed to prepare truncate query" (prepare (ByPath path_str)) ;;
  r ← one_row "Failed to read for truncate" (ByPath path_str);
  let existing := default [] (row_data r) in
  new_data ← lift (if n <? len existing then Ok (ztake n existing) else resize n Byte.x00 existing);
  on_conn "Failed to truncate" (execute (SetContent path_str new_data (timestamp_millis (now 0%nat)) None)).

(* src: crates/racfs-plugin-sqlfs/src/fs/mod.rs 318-354 SqlFS::touch *)
Definition touch now p : Op () :=
  path_str ← lift (path_to_str p);
  let t := timestamp_millis (now 0%nat) in
  there ← exists_ path_str;
  if (there : bool) then on_conn "Failed to touch" (execute (SetTimes path_str t t))
  else
    create (now_from 1 now) p ;;
    on_conn "Failed to touch" (execute (SetTimes path_str t t)).

(** What the constructors do with an open connection. *)
Definition set_up now : Op () := initialize_schema ;; create_root now.

(* src: crates/racfs-plugin-sqlfs/src/fs/mod.rs 52-64 SqlFS::with_config *)
Definition with_config now (open : string -> outcome string W) (c : SqlConfig) : Res (SqlFS W) :=
  w ← map_err (fun e => Io ("Failed to open database: " +:+ e)) (open (database_url c));
  let '(r, s) := set_up now (mkSqlFS c w) in
  r ;; Ok s.

(* src: crates/racfs-plugin-sqlfs/src/fs/mod.rs 67-78 SqlFS::with_connection *)
Definition with_connection now (w : W) : Res (SqlFS W) :=
  let '(r, s) := set_up now (mkSqlFS default_config w) in
  r ;; Ok s.

(* src: crates/racfs-plugin-sqlfs/src/fs/mod.rs 47-49 SqlFS::new *)
Definition new now (open : string -> outcome string W) : Res (SqlFS W) := with_config now open default_config.

#[global] Instance sqlfs_filesystem : FileSystem (SqlFS W) := {
  fs_read := read; fs_stat := stat; fs_create := create; fs_write := write;
  fs_mkdir := mkdir; fs_read_dir := read_dir; fs_remove := remove;
  fs_remove_all := remove_all; fs_rename := rename; fs_chmod := chmod;
  fs_truncate := truncate; fs_touch := touch; fs_readlink := default_readlink;
  fs_symlink := default_symlink; fs_get_xattr := default_get_xattr; fs_set_xattr := default_set_xattr;
  fs_remove_xattr := default_remove_xattr; fs_list_xattr := default_list_xattr
}.
End Ops.

(** ** The calls on a database that answers *)

(** What [path = ?1 || SUBSTR(path, ?2 + 1)] makes of a path. *)
Definition sql_child (old new p : string) : string := new +:+ skip_chars (str_len old) p.

Section Calls.
Context `{BuildProfile} `{Millis} (like : string -> string -> bool) {W : Type} `{!SqlDb W} `{LW : !SqlLaws like W}.
Context (cfg : SqlConfig).
Implicit Types (now : Now) (p : Path) (s : SqlFS W) (t : Rows).

Definition sim s t : Prop := config s = cfg /\ rows like (conn s) = t /\ contents_fit t.

Lemma on_conn_ok {A} text (m : M W string A) s a w : m (conn s) = (Ok a, w) -> on_conn text m s = (Ok a, mkSqlFS (config s) w).
Proof. intros Hm. unfold on_conn. by rewrite Hm. Qed.

Lemma same_conn s : mkSqlFS (config s) (conn s) = s.
Proof. by destruct s. Qed.

Lemma prepare_spec text q s : on_conn text (prepare q) s = (Ok (), s).
Proof. rewrite (on_conn_ok _ _ _ () (conn s)); [by rewrite same_conn|]. apply (prepare_ok like). Qed.

Lemma first_row_spec text p s : first_row text (ByPath p) s = (Ok (rows like (conn s) !! p), s).
Proof.
  destruct (fetch_ok like (ByPath p) (conn s)) as (l & Hf & Hl). unfold first_row.
  rewrite (bind_ok _ _ s s (map Ok l)) by (rewrite (on_conn_ok _ _ _ (map Ok l) (conn s) Hf); by rewrite same_conn).
  cbn [select] in Hl. destruct (rows like (conn s) !! p) as [r|].
  - rewrite map_to_list_singleton in Hl. apply Permutation_singleton_r in Hl as ->. reflexivity.
  - rewrite map_to_list_empty in Hl. apply Permutation_nil_r in Hl as ->. reflexivity.
Qed.

Lemma one_row_spec text p r s : rows like (conn s) !! p = Some r -> one_row text (ByPath p) s = (Ok r, s).
Proof. intros Hr. unfold one_row. rewrite (bind_ok _ _ s s _ (first_row_spec text p s)). by rewrite Hr. Qed.

Lemma existing_data_spec p s :
  existing_data p s = (Ok (default [] (rows like (conn s) !! p ≫= row_data)), s).
Proof. unfold existing_data. rewrite first_row_spec. by destruct (rows like (conn s) !! p). Qed.

Lemma get_metadata_spec p s :
  get_metadata p s = (ok_or (row_metadata <$> rows like (conn s) !! p) (NotFound p), s).
Proof.
  unfold get_metadata. rewrite (bind_ok _ _ _ _ _ (prepare_spec _ _ s)), (bind_ok _ _ _ _ _ (first_row_spec _ p s)).
  by destruct (rows like (conn s) !! p).
Qed.

Lemma sql_exists_spec p s : exists_ p s = (Ok (bool_decide (is_Some (rows like (conn s) !! p))), s).
Proof.
  unfold exists_. by rewrite (bind_ok _ _ _ _ _ (prepare_spec _ _ s)), (bind_ok _ _ _ _ _ (first_row_spec _ p s)).
Qed.

Lemma is_dir_spec p s : is_dir p s = (ok_or (row_is_dir <$> rows like (conn s) !! p) (NotFound p), s).
Proof.
  unfold is_dir. rewrite (bind_ok _ _ _ _ _ (prepare_spec _ _ s)), (bind_ok _ _ _ _ _ (first_row_spec _ p s)).
  by destruct (rows like (conn s) !! p).
Qed.

Lemma path_to_str_spec p : plain p = true -> path_to_str p = Ok p.
Proof. unfold plain, path_to_str. intros [Hs Hu%bool_decide_eq_true]%andb_true_iff. rewrite Hu. cbn. by rewrite Hs. Qed.

Lemma execute_spec text u s t t' :
  sim s t -> apply like u t = Some t' -> contents_fit t' ->
  exists s', on_conn text (execute u) s = (Ok (), s') /\ sim s' t'.
Proof.
  intros (Hc & <- & Hfit) Hu Hfit'. pose proof (execute_ok like u (conn s)) as He. rewrite Hu in He.
  destruct He as (w' & He & Hw'). exists (mkSqlFS (config s) w'). split; [by apply on_conn_ok|]. by split.
Qed.

Lemma parent_spec p s t :
  rooted p = true -> sim s t -> ensure_parent_exists p s = (spec_parent p t, s).
Proof.
  intros Hp (_ & <- & _). unfold ensure_parent_exists, spec_parent. destruct (parent p) as [q|] eqn:Eq; [|done].
  rewrite (bind_ok _ _ s s q) by (unfold lift; by rewrite (path_to_str_spec q (rooted_parent p q Hp Eq))).
  destruct (String.eqb q "/"); [done|]. rewrite run_bind, get_metadata_spec.
  destruct (rows like (conn s) !! q) as [r|]; [|done]. cbn. by destruct (is_directory (row_metadata r)).
Qed.

(** *** One call *)

Abbreviation agrees := (FileSystem.agrees sim).
Abbreviation spec := (SqlTable.spec_call like sql_child (max_file_size cfg)).

(** The first steps of a call, at a path that is taken as it is. *)
Lemma path_ok {A} p (k : string -> FsOp (SqlFS W) A) s : plain p = true -> (path_str ← lift (path_to_str p); k path_str) s = k p s.
Proof. intros Hp. apply bind_ok. unfold lift. by rewrite path_to_str_spec. Qed.

Lemma is_dir_ok {A} p (k : bool -> FsOp (SqlFS W) A) s t :
  sim s t ->
  (d ← is_dir p; k d) s = match t !! p with Some r => k (row_is_dir r) s | None => (Err (NotFound p), s) end.
Proof. intros (_ & <- & _). rewrite run_bind, is_dir_spec. by destruct (rows like (conn s) !! p). Qed.

Lemma exists_ok {A} p (k : bool -> FsOp (SqlFS W) A) s t :
  sim s t -> (there ← exists_ p; k there) s = k (bool_decide (is_Some (t !! p))) s.
Proof. intros (_ & <- & _). by rewrite (bind_ok _ _ _ _ _ (sql_exists_spec p s)). Qed.

Lemma prepare_then {A} text q (k : FsOp (SqlFS W) A) s : (on_conn text (prepare q) ;; k) s = k s.
Proof. by rewrite (bind_ok _ _ _ _ _ (prepare_spec text q s)). Qed.

Lemma one_row_ok {A} text p r (k : Row -> FsOp (SqlFS W) A) s t :
  sim s t -> t !! p = Some r -> (r ← one_row text (ByPath p); k r) s = k r s.
Proof. intros (_ & <- & _) Hr. by rewrite (bind_ok _ _ _ _ _ (one_row_spec text p r s Hr)). Qed.

Lemma fit_row s t p r : sim s t -> t !! p = Some r -> row_fits p r.
Proof. intros (_ & _ & Hfit) Hr. exact (Hfit p r Hr). Qed.

Lemma fit_table s t : sim s t -> contents_fit t.
Proof. by intros (_ & _ & Hfit). Qed.

(** A statement at the end of a call. *)
Lemma execute_last {A} text u s t t' (reply : FsReply) (f : () -> A) (g : A -> FsReply) :
  sim s t -> apply like u t = Some t' -> contents_fit t' -> g (f tt) = reply ->
  agrees g ((x ← on_conn text (execute u); mret (f x)) s) (Ok reply, t').
Proof.
  intros Hsim Hu Hfit <-. destruct (execute_spec text u s t t' Hsim Hu Hfit) as (s' & He & Hs').
  rewrite (bind_ok _ _ _ _ _ He). by split.
Qed.

Lemma execute_only text u s t t' :
  sim s t -> apply like u t = Some t' -> contents_fit t' ->
  agrees (fun _ => RUnit) (on_conn text (execute u) s) (Ok RUnit, t').
Proof.
  intros Hsim Hu Hfit. destruct (execute_spec text u s t t' Hsim Hu Hfit) as (s' & -> & Hs'). by split.
Qed.

Lemma make_agrees text p r s t :
  rooted p = true -> sim s t -> row_fits p r ->
  agrees (fun _ => RUnit)
    ((ensure_parent_exists p ;; there ← exists_ p; fail_if there (AlreadyExists p) ;; on_conn text (execute (Insert r))) s)
    (spec_make p r t).
Proof.
  intros Hp Hsim Hfits. pose proof Hfits as [Hr _]. unfold spec_make. rewrite run_bind, (parent_spec p s t Hp Hsim).
  destruct (spec_parent p t) as [[]|e| |]; [|by split..]. rewrite (exists_ok p _ s t Hsim).
  destruct (bool_decide (is_Some (t !! p))) eqn:E; [by split|]. rewrite (bind_ok _ _ s s ()) by done.
  apply (execute_only text _ s t); [done|cbn; by rewrite Hr, E|]. destruct Hsim as (_ & _ & ?). by apply fit_insert.
Qed.

Lemma sql_create_agrees now p s t :
  rooted p = true -> sim s t ->
  agrees (fun _ => RUnit) (create now p s) (spec_make p (new_row p false file_bits (timestamp_millis (now 0%nat))) t).
Proof.
  intros Hp Hsim. unfold create. rewrite path_ok by by apply rooted_plain.
  apply make_agrees; [done|done|by apply fits_new_row].
Qed.

Lemma mkdir_agrees now p perm s t :
  rooted p = true -> sim s t ->
  agrees (fun _ => RUnit) (mkdir now p perm s) (spec_make p (new_row p true dir_bits (timestamp_millis (now 0%nat))) t).
Proof.
  intros Hp Hsim. unfold mkdir. rewrite path_ok by by apply rooted_plain.
  apply make_agrees; [done|done|by apply fits_new_row].
Qed.

Lemma stat_agrees now p s t :
  rooted p = true -> sim s t ->
  agrees RMeta (stat now p s) (spec_existing p (fun r => (Ok (RMeta (row_metadata r)), t)) t).
Proof.
  intros Hp Hsim. unfold stat. rewrite path_ok by by apply rooted_plain.
  rewrite get_metadata_spec. pose proof Hsim as (_ & -> & _). unfold spec_existing. by destruct (t !! p).
Qed.

Lemma sql_read_agrees now p offset size s t :
  rooted p = true -> sim s t ->
  agrees RBytes (read now p offset size s) (spec_existing p (fun r =>
    (if row_is_dir r then Err (IsDirectory p) else RBytes <$> read_range (default [] (row_data r)) offset size, t)) t).
Proof.
  intros Hp Hsim. unfold read. rewrite path_ok by by apply rooted_plain. rewrite (is_dir_ok p _ s t Hsim).
  unfold spec_existing. destruct (t !! p) as [r|] eqn:Er; [|by split].
  destruct (row_is_dir r); [by split|]. rewrite (bind_ok _ _ s s ()) by done.
  rewrite prepare_then, (one_row_ok _ p r _ s t Hsim Er). by split.
Qed.

Lemma sql_write_agrees now p data offset flags s t :
  rooted p = true -> in_i64 offset = true -> len data <= isize_max -> sim s t ->
  agrees RCount (write now p data offset flags s)
    (spec_content p (fun e => if max_file_size cfg <? len data then Err StorageFull else spec_write data offset flags e)
       (timestamp_millis (now 0%nat)) (Some (timestamp_millis (now 0%nat))) (RCount (len data)) t).
Proof.
  intros Hp Ho Hd Hsim. unfold write. rewrite path_ok by by apply rooted_plain. rewrite (is_dir_ok p _ s t Hsim).
  unfold spec_content. destruct (t !! p) as [r|] eqn:Er; [|by split].
  destruct (row_is_dir r); [by split|]. rewrite (bind_ok _ _ s s ()) by done.
  rewrite (bind_ok get _ s s s) by done. pose proof Hsim as (Hcfg & Hrows & Hfit). rewrite Hcfg.
  destruct (max_file_size cfg <? len data); [by split|]. rewrite (bind_ok _ _ s s ()) by done.
  rewrite prepare_then, (bind_ok _ _ _ _ _ (existing_data_spec p s)), Hrows, Er.
  change (Some r ≫= row_data) with (row_data r). rewrite run_bind. unfold lift.
  rewrite new_content_spec by (done || exact (fits_len p r (fit_row s t p r Hsim Er))).
  destruct (spec_write data offset flags (default [] (row_data r))) as [nd| | |] eqn:En; [|by split..].
  apply (execute_last _ _ s t); [done|cbn; by rewrite (alter_some _ p r)| |done].
  apply fit_insert; [|done]. apply fits_content; [exact (spec_write_len _ _ _ _ _ Hd En)|exact (fit_row s t p r Hsim Er)].
Qed.

Lemma sql_truncate_agrees now p n s t :
  rooted p = true -> 0 <= n -> sim s t ->
  agrees (fun _ => RUnit) (truncate now p n s)
    (spec_content p (spec_truncate n) (timestamp_millis (now 0%nat)) None RUnit t).
Proof.
  intros Hp Hn Hsim. unfold truncate. rewrite path_ok by by apply rooted_plain. rewrite (is_dir_ok p _ s t Hsim).
  unfold spec_content. destruct (t !! p) as [r|] eqn:Er; [|by split].
  destruct (row_is_dir r); [by split|]. rewrite (bind_ok _ _ s s ()) by done.
  rewrite prepare_then, (one_row_ok _ p r _ s t Hsim Er), run_bind. unfold lift.
  pose proof (fit_row s t p r Hsim Er) as Hfits. pose proof (fits_len p r Hfits) as Hlen. rewrite cut_or_grow by done.
  destruct (spec_truncate n (default [] (row_data r))) as [nd| | |] eqn:En; [|by split..].
  apply (execute_only _ _ s t); [done|cbn; by rewrite (alter_some _ p r)|].
  apply fit_insert; [apply fits_content; [exact (spec_truncate_len _ _ _ Hn Hlen En)|done]|exact (fit_table s t Hsim)].
Qed.

Lemma sql_touch_agrees now p s t :
  rooted p = true -> sim s t ->
  agrees (fun _ => RUnit) (touch now p s)
    (match t !! p with
     | Some r => (Ok RUnit, <[p := set_times (timestamp_millis (now 0%nat)) (timestamp_millis (now 0%nat)) r]> t)
     | None => spec_make p (set_times (timestamp_millis (now 0%nat)) (timestamp_millis (now 0%nat))
                 (new_row p false file_bits (timestamp_millis (now 1%nat)))) t
     end).
Proof.
  intros Hp Hsim. unfold touch. rewrite path_ok by by apply rooted_plain. rewrite (exists_ok p _ s t Hsim).
  destruct (t !! p) as [r|] eqn:Er.
  - rewrite bool_decide_eq_true_2 by eauto.
    apply (execute_only _ _ s t); [done|cbn; by rewrite (alter_some _ p r)|].
    apply fit_insert; [exact (fit_row s t p r Hsim Er)|]. exact (fit_table s t Hsim).
  - rewrite bool_decide_eq_false_2 by by intros []. rewrite run_bind.
    pose proof (sql_create_agrees (now_from 1 now) p s t Hp Hsim) as [Hr Hs]. revert Hr Hs.
    unfold spec_make. rewrite Er. rewrite bool_decide_eq_false_2 by by intros [].
    destruct (create (now_from 1 now) p s) as [[[]|e| |] s1], (spec_parent p t) as [[]|e'| |]; cbn; try done;
      try (intros [=]; subst; by split); try (by intros [=]).
    intros _ Hs1. eapply execute_only; [exact Hs1|unfold apply; by rewrite alter_insert_eq|].
    apply fit_insert; [by apply fits_times, fits_new_row|exact (fit_table s t Hsim)].
Qed.

Lemma chmod_agrees now p md s t :
  rooted p = true -> 0 <= md <= i32_max -> sim s t ->
  agrees (fun _ => RUnit) (chmod now p md s)
    (spec_existing p (fun r => (Ok RUnit, <[p := set_row_mode md (timestamp_millis (now 0%nat)) r]> t)) t).
Proof.
  intros Hp Hmd Hsim. unfold chmod. rewrite path_ok by by apply rooted_plain. rewrite (exists_ok p _ s t Hsim).
  unfold spec_existing. destruct (t !! p) as [r|] eqn:Er.
  - rewrite bool_decide_eq_true_2 by eauto. rewrite (bind_ok _ _ s s ()) by done.
    apply (execute_only _ _ s t); [done|cbn; by rewrite (alter_some _ p r)|].
    apply fit_insert; [apply fits_mode; [done|exact (fit_row s t p r Hsim Er)]|]. exact (fit_table s t Hsim).
  - rewrite bool_decide_eq_false_2 by by intros []. by split.
Qed.

Lemma sql_remove_agrees now p s t :
  rooted p = true -> sim s t ->
  agrees (fun _ => RUnit) (remove now p s)
    (spec_existing p (fun r =>
      if row_is_dir r && (0 <? Z.of_nat (base.size (select like (ByPattern (below p)) t)))
      then (Err DirectoryNotEmpty, t) else (Ok RUnit, delete p t)) t).
Proof.
  intros Hp Hsim. unfold remove. rewrite path_ok by by apply rooted_plain. rewrite (exists_ok p _ s t Hsim).
  unfold spec_existing. destruct (t !! p) as [r|] eqn:Er; [|rewrite bool_decide_eq_false_2 by (by intros []); by split].
  rewrite bool_decide_eq_true_2 by eauto. rewrite (bind_ok _ _ s s ()) by done.
  rewrite (is_dir_ok p _ s t Hsim), Er.
  assert (Hdel : agrees (fun _ => RUnit) (on_conn "Failed to remove" (execute (DeleteRow p)) s) (Ok RUnit, delete p t)).
  { apply (execute_only _ _ s t); [done|done|]. apply fit_delete. exact (fit_table s t Hsim). }
  destruct (row_is_dir r); [|rewrite (bind_ok _ _ s s ()) by done; exact Hdel]. cbn [andb].
  rewrite run_bind, prepare_then. pose proof Hsim as (_ & Hrows & _).
  erewrite bind_ok by (rewrite (on_conn_ok _ _ _ _ _ (count_ok like _ _)), same_conn; reflexivity).
  rewrite Hrows. destruct (0 <? _); [by split|exact Hdel].
Qed.

Lemma sql_remove_all_agrees now p s t :
  rooted p = true -> sim s t ->
  agrees (fun _ => RUnit) (remove_all now p s)
    (spec_existing p (fun _ =>
      (Ok RUnit, filter (fun kr => negb (String.eqb (fst kr) p || like (below p) (fst kr)) = true) t)) t).
Proof.
  intros Hp Hsim. unfold remove_all. rewrite path_ok by by apply rooted_plain. rewrite (exists_ok p _ s t Hsim).
  unfold spec_existing. destruct (t !! p) as [r|] eqn:Er; [|rewrite bool_decide_eq_false_2 by (by intros []); by split].
  rewrite bool_decide_eq_true_2 by eauto. rewrite (bind_ok _ _ s s ()) by done.
  apply (execute_only _ _ s t); [done|done|]. apply fit_filter. exact (fit_table s t Hsim).
Qed.

(** Moving the rows below a directory, when their new paths are free. *)
Lemma apply_move_below p q t t' :
  move_tree like sql_child p q t = Some t' -> t !! q = None ->
  apply like (MoveBelow (below p) q (str_len p)) t = Some t' /\ t' !! q = None /\ (contents_fit t -> contents_fit t').
Proof.
  unfold move_tree, apply. set (moved := map fst _). intros Hm Hq.
  destruct (bool_decide (NoDup (q :: map (sql_child p q) moved))) eqn:Ed; [|done]. cbn [andb] in Hm.
  destruct (forallb _ moved) eqn:Ef; [|done]. injection Hm as <-.
  apply bool_decide_eq_true, NoDup_cons in Ed as [Hnot Hd].
  change (fun p0 : string => q +:+ skip_chars (str_len p) p0) with (sql_child p q).
  rewrite bool_decide_eq_true_2 by exact Hd. replace (forallb _ moved) with true by (symmetry; exact Ef). cbn [andb].
  split; [done|]. split; [|by apply fit_move_all]. by apply move_all_free.
Qed.

Lemma sql_rename_agrees now p q s t e :
  rooted p = true -> rooted q = true -> sim s t -> spec now (CRename p q) t = Some e ->
  agrees (fun _ => RUnit) (rename now p q s) e.
Proof.
  intros Hp Hq Hsim He. unfold rename. rewrite !path_ok by by apply rooted_plain.
  rewrite (exists_ok p _ s t Hsim). cbn [SqlTable.spec_call] in He.
  destruct (t !! p) as [r|] eqn:Er;
    [|rewrite bool_decide_eq_false_2 by (by intros []); injection He as <-; by split].
  rewrite bool_decide_eq_true_2 by eauto. rewrite (bind_ok _ _ s s ()) by done.
  rewrite (exists_ok q _ s t Hsim). destruct (bool_decide (is_Some (t !! q))) eqn:Eq; [injection He as <-; by split|].
  apply bool_decide_eq_false, eq_None_not_Some in Eq. rewrite (bind_ok _ _ s s ()) by done.
  rewrite (is_dir_ok p _ s t Hsim), Er. pose proof Hsim as (_ & _ & Hfit).
  destruct (row_is_dir r).
  - destruct (move_tree like sql_child p q t) as [t'|] eqn:Em; [|done]. injection He as <-.
    destruct (apply_move_below p q t t' Em Eq) as (Ha & Hq' & Hfit').
    destruct (execute_spec "Failed to move directory children" _ s t t' Hsim Ha (Hfit' Hfit)) as (s1 & H1 & Hs1).
    rewrite (bind_ok _ _ _ _ _ H1). apply (execute_only _ _ s1 t'); [done| |by apply fit_move, Hfit'].
    apply apply_move; [by intros ->; congruence|done].
  - injection He as <-. apply (execute_only _ _ s t); [done| |by apply fit_move].
    apply apply_move; [by intros ->; congruence|done].
Qed.

Abbreviation sql_fs_call := (run_call (H := sqlfs_filesystem)).

Lemma sql_call_agrees now c s t e :
  sql_call c = true -> sim s t -> spec now c t = Some e -> agrees id (sql_fs_call now c s) e.
Proof.
  unfold sql_call. intros [Hwf Hc]%andb_true_iff Hsim He.
  destruct c; try discriminate; cbn [call_wf] in Hwf; try (injection He as <-).
  - by apply agrees_fmap, sql_read_agrees.
  - by apply agrees_fmap, stat_agrees.
  - by apply agrees_unit, sql_create_agrees.
  - apply andb_true_iff in Hwf as [[Ho _]%andb_true_iff Hl%Z.leb_le]. by apply agrees_fmap, sql_write_agrees.
  - by apply agrees_unit, mkdir_agrees.
  - by apply agrees_unit, sql_remove_agrees.
  - by apply agrees_unit, sql_remove_all_agrees.
  - apply andb_true_iff in Hc as [Hp Hq]. by apply agrees_unit, (sql_rename_agrees now _ _ s t e).
  - apply andb_true_iff in Hc as [Hp Hm%Z.leb_le], Hwf as [Hmin%Z.leb_le _]. by apply agrees_unit, chmod_agrees.
  - apply andb_true_iff in Hwf as [Hn%Z.leb_le _]. by apply agrees_unit, sql_truncate_agrees.
  - by apply agrees_unit, sql_touch_agrees.
Qed.
End Calls.

Abbreviation sql_run := (run_all (fun c => run_call (H := sqlfs_filesystem) (fst c) (snd c))).

(** C18: SqlFS is a filesystem on the rows of its table: over every sequence of
    calls each answer is the one that the description on rows gives, errors
    included, and the rows are those of the description.  Whose rows are below a
    directory is decided by [LIKE]; listings, attributes and renames of
    directories onto paths that are taken are left out. *)
Theorem sqlfs_refines `{BuildProfile} `{Millis} (like : string -> string -> bool) {W} `{!SqlDb W} `{!SqlLaws like W}
    (cs : list (Now * FsCall)) (s : SqlFS W) replies t' :
  contents_fit (rows like (conn s)) -> forallb (fun c => sql_call (snd c)) cs = true ->
  spec_run like sql_child (max_file_size (config s)) cs (rows like (conn s)) = Some (replies, t') ->
  fst (sql_run cs s) = replies /\ rows like (conn (snd (sql_run cs s))) = t'.
Proof.
  intros Hfit Hcs Hrun.
  destruct (spec_run_agrees like sql_child (max_file_size (config s)) (sim like (config s))
    (fun c => run_call (H := sqlfs_filesystem) (fst c) (snd c)) cs s (rows like (conn s)) replies t')
    as [Hr (_ & Ht & _)]; [|done..].
  intros now c s1 t e Hc Hsim He. by apply (sql_call_agrees like (config s) now c s1 t e).
Qed.

(** A listing holds the rows that match and are right below, in the order of the
    database. *)
Lemma sqlfs_listing `{BuildProfile} `{Millis} like {W} `{!SqlDb W} `{!SqlLaws like W} now p r (s : SqlFS W) :
  plain p = true -> rows like (conn s) !! p = Some r -> row_is_dir r = true ->
  exists l, fst (read_dir now p s) = Ok (map row_metadata (List.filter (fun r => direct p (row_path r)) l)) /\
    l ≡ₚ map snd (map_to_list (select like (ByPattern (if String.eqb p "/" then "/%"%string else p +:+ "/%"))
                                 (rows like (conn s)))).
Proof.
  intros Hp Hr Hd. unfold read_dir. rewrite (path_ok p _ s Hp).
  rewrite run_bind, (is_dir_spec like), Hr. cbn [fmap option_fmap option_map ok_or]. rewrite Hd. cbn [negb fail_if].
  rewrite (bind_ok _ _ s s ()) by done. rewrite (prepare_then like).
  set (pat := if String.eqb p "/" then _ else _).
  destruct (fetch_ok like (ByPattern pat) (conn s)) as (l & Hf & Hl). exists l. split; [|done].
  erewrite bind_ok by (apply on_conn_ok; exact Hf). unfold lift. cbn [fst]. clear Hf Hl.
  induction l as [|x l IH]; [done|]. cbn [map listed]. cbn [map_err mbind outcome_bind]. rewrite IH.
  cbn [mbind outcome_bind List.filter]. by destruct (direct p (row_path x)).
Qed.

(** Below a path without wildcards are, for SQLite, the paths that begin with it
    and a slash, in small or capital letters. *)
Lemma sqlite_below p q :
  forallb literal (as_bytes p) = true ->
  sqlite_like (below p) q = true <->
  exists a b, as_bytes q = a ++ b /\ map lower_byte a = map lower_byte (as_bytes (p +:+ "/")).
Proof.
  intros Hp. unfold sqlite_like, below.
  replace (as_bytes (p +:+ "/%")) with (as_bytes (p +:+ "/") ++ [percent]) by (rewrite !as_bytes_app, <- app_assoc; done).
  rewrite match_prefix; [|by left|].
  - split; intros (a & b & -> & Ha); exists a, b; split; try done.
    + clear b. revert Ha. induction 1 as [|x y l k Hxy _ IH]; [done|]. cbn. rewrite IH. f_equal. symmetry. by apply Z.eqb_eq.
    + clear b. revert a Ha. induction (as_bytes (p +:+ "/")) as [|x l IH]; intros [|y a] Ha; try done.
      injection Ha as Hxy Ha. constructor; [by apply Z.eqb_eq|by apply IH].
  - rewrite as_bytes_app, forallb_app, Hp. reflexivity.
Qed.

(** ** On a small table *)

Section Demo.
#[local] Existing Instance debug_profile.
#[local] Instance demo_millis : Millis := {| from_timestamp_millis t := Some (t * 10 ^ 6) |}.
#[local] Instance demo_db : SqlDb Rows := rows_db sqlite_like.
#[local] Instance demo_laws : SqlLaws sqlite_like Rows := rows_db_laws sqlite_like.

Definition at_second (t : Z) : Now := fun _ => t * 10 ^ 9.
Definition demo_start : SqlFS Rows := snd (set_up (at_second 0) (mkSqlFS default_config (∅ : Rows))).
Definition calls (cs : list FsCall) : list (Now * FsCall) := map (fun c => (at_second 1, c)) cs.

Lemma sqlfs_refines_witness :
  fst (sql_run (calls [CMkdir "/a" 0; CCreate "/a/f"; CWrite "/a/f" (as_bytes "hello") 0 0; CRename "/a" "/b";
                       CRead "/b/f" 1 2; CRemove "/b"; CRemoveAll "/b"; CStat "/b/f"]) demo_start) =
    [Ok RUnit; Ok RUnit; Ok (RCount 5); Ok RUnit; Ok (RBytes (as_bytes "el")); Err DirectoryNotEmpty; Ok RUnit;
     Err (NotFound "/b/f")].
Proof.
  refine (proj1 (sqlfs_refines sqlite_like _ demo_start _ {["/" := new_row "/" true dir_bits 0]} _ _ _)).
  - replace (rows sqlite_like (conn demo_start)) with ({["/" := new_row "/" true dir_bits 0]} : Rows) by (vm_compute; reflexivity).
    intros p r [<- <-]%lookup_singleton_Some. by apply fits_new_row.
  - vm_compute. reflexivity.
  - vm_compute. reflexivity.
Defined.

Definition after (cs : list FsCall) : SqlFS Rows := snd (sql_run (calls cs) demo_start).

(** An underscore in the name of a directory stands for any character: removing
    [/a_b] takes what is in [/axb]. *)
Lemma sqlfs_wildcard_removes_sibling :
  fst (stat (at_second 2) "/axb/f" (after [CMkdir "/a_b" 0; CMkdir "/axb" 0; CCreate "/axb/f"; CRemoveAll "/a_b"])) =
    Err (NotFound "/axb/f").
Proof. vm_compute. reflexivity. Qed.

(** Capitals are not told from small letters: removing [/A] takes what is in
    [/a]. *)
Lemma sqlfs_case_removes_sibling :
  fst (stat (at_second 2) "/a/f" (after [CMkdir "/A" 0; CMkdir "/a" 0; CCreate "/a/f"; CRemoveAll "/A"])) =
    Err (NotFound "/a/f").
Proof. vm_compute. reflexivity. Qed.

(** The root is an entry of itself. *)
Lemma sqlfs_root_lists_itself :
  map path <$> fst (read_dir (at_second 2) "/" demo_start) = Ok ["/"].
Proof. vm_compute. reflexivity. Qed.

(** The root counts as empty, and its row can be removed; nothing can be listed
    afterwards. *)
Lemma sqlfs_root_removed :
  fst (read_dir (at_second 2) "/" (after [CCreate "/f"; CRemove "/"])) = Err (NotFound "/").
Proof. vm_compute. reflexivity. Qed.

(** A file can be moved to where there is no directory. *)
Lemma sqlfs_rename_without_parent :
  let s := after [CCreate "/g"; CRename "/g" "/b/f"] in
  is_ok (fst (stat (at_second 2) "/b/f" s)) = true /\ fst (stat (at_second 2) "/b" s) = Err (NotFound "/b").
Proof. vm_compute. done. Qed.

(** The length of a name is counted in bytes, that of a path in characters: a
    directory with the name [ä] loses the slash of its entries when it is
    renamed. *)
Lemma sqlfs_rename_counts_bytes :
  let d := from_bytes [Byte.x2f; Byte.xc3; Byte.xa4] in
  is_ok (fst (stat (at_second 2) "/bf" (after [CMkdir d 0; CCreate (d +:+ "/f"); CRename d "/b"]))) = true.
Proof. vm_compute. reflexivity. Qed.
End Demo.
