(* ===== verification/S3FS.v ===== *)
(** * S3FS: objects of a bucket as files ([crates/racfs-plugin-s3fs])

    A path is the key of an object, and every call is a few requests of the AWS
    SDK, whose client is a class over a world [W].  The first part is the plugin;
    the second says what the requests mean for the objects of the bucket
    ([S3Laws]), gives a bucket in memory for which they hold, and shows what the
    calls come to on the objects alone. *)

From stdpp Require Import sorting.
From S2P Require Import Prelude Text RPath FsError Metadata Flags FileSystem.
From Stdlib Require Import Strings.Ascii.
From Stdlib Require Strings.String.

(* src: crates/racfs-plugin-s3fs/src/config.rs 5-24 S3Config *)
Record S3Config := {
  bucket : string;
  region : string;
  endpoint : option string;
  access_key : string;
  secret_key : string;
  cache_enabled : bool;
  cache_size : Z;
  multipart_threshold : Z;
  multipart_part_size : Z
}.

(* src: crates/racfs-plugin-s3fs/src/config.rs 27-39 S3Config::default *)
Definition default_config : S3Config :=
  {| bucket := ""; region := "us-east-1"; endpoint := None; access_key := ""; secret_key := "";
     cache_enabled := false; cache_size := 1024 * 1024 * 1024;
     multipart_threshold := 5 * 1024 * 1024; multipart_part_size := 5 * 1024 * 1024 |}.

(** ** Requests and answers *)

(** An error of the SDK: its text, and whether it is the answer of the service
    that there is no such object. *)
Record SdkError := { error_text : string; is_not_found : bool }.

(** A time of the SDK, in seconds and nanoseconds, and the date that [chrono]
    makes of it. *)
Definition AwsTime : Type := Z * Z.
Class AwsDates := { from_timestamp : AwsTime -> option DateTime }.

Record S3Object := { obj_key : option string; obj_size : option Z; obj_last_modified : option AwsTime }.
Record HeadOutput := { content_length : option Z; head_last_modified : option AwsTime }.

(** The header [Range]: [bytes=a-b] and [bytes=a-]. *)
Inductive Range := RangeFromTo (first last : Z) | RangeFrom (first : Z).

Record ListRequest := {
  list_prefix : string;
  list_delimiter : option string;
  max_keys : Z;
  continuation_token : option string
}.
Record ListOutput := {
  contents : list S3Object;
  common_prefixes : list (option string);
  is_truncated : option bool;
  next_continuation_token : option string;
  key_count : option Z
}.

(** The client; the first argument of every request is the bucket. *)
Class S3Client (W : Type) := {
  send_head : string -> string -> M W SdkError HeadOutput;
  send_get : string -> string -> option Range -> M W SdkError bytes;
  send_put : string -> string -> bytes -> M W SdkError ();
  send_copy : string -> string -> string -> M W SdkError ();
  send_delete : string -> string -> M W SdkError ();
  send_delete_all : string -> list string -> M W SdkError ();
  send_list : string -> ListRequest -> M W SdkError ListOutput;
  send_create_upload : string -> string -> M W SdkError (option string);
  send_part : string -> string -> string -> Z -> bytes -> M W SdkError (option string);
  send_complete : string -> string -> string -> list (Z * string) -> M W SdkError ();
  send_abort : string -> string -> string -> M W SdkError ()
}.

(** ** The plugin *)

(* src: crates/racfs-plugin-s3fs/src/fs/mod.rs 27-30 S3FS *)
Record S3FS (W : Type) := mkS3FS { config : S3Config; client : W }.
Arguments mkS3FS {W}.
Arguments config {W}.
Arguments client {W}.

(** What the client is built with. *)
Record SdkConfig := {
  sdk_region : string;
  endpoint_url : option string;
  credentials : option (string * string * string)
}.

(* src: crates/racfs-plugin-s3fs/src/fs/mod.rs 42-64 S3FS::build_client *)
Definition build_client {W} (load : SdkConfig -> W) (c : S3Config) : Res W :=
  Ok (load {| sdk_region := region c; endpoint_url := endpoint c;
              credentials := if negb (String.eqb (access_key c) "") && negb (String.eqb (secret_key c) "")
                             then Some (access_key c, secret_key c, "racfs-s3fs"%string) else None |}).

(* src: crates/racfs-plugin-s3fs/src/fs/mod.rs 35-40 S3FS::new *)
Definition new {W} (load : SdkConfig -> W) (c : S3Config) : Res (S3FS W) :=
  w ← build_client load c; Ok (mkS3FS c w).

(* src: crates/racfs-plugin-s3fs/src/fs/mod.rs 92-98 S3FS::key_to_path *)
Definition key_to_path (key : string) : Path :=
  if String.eqb key "" || String.eqb key "/" then "/"%string else join "/" key.

(* src: crates/racfs-plugin-s3fs/src/fs/mod.rs 101-108 S3FS::path_to_key *)
Definition path_to_key (p : Path) : string :=
  let path_str := from_utf8_lossy (as_bytes p) in
  if String.eqb path_str "/" then ""%string else default path_str (strip_prefix_str path_str "/").

(* src: crates/racfs-plugin-s3fs/src/fs/mod.rs 110-114 S3FS::sdk_error *)
Definition sdk_error (e : SdkError) : FSError := Io (error_text e).

Section Ops.
Context `{BuildProfile} `{AwsDates} {W : Type} `{S3Client W}.
Implicit Types (now : Now) (p : Path) (s : S3FS W).
Abbreviation Op := (FsOp (S3FS W)).

(** A request: its outcome and the world after it, and the same with the error
    mapped. *)
Definition sent {A} (m : string -> M W SdkError A) : Op (SdkError + A) := fun s =>
  match m (bucket (config s)) (client s) with
  | (Ok a, w) => (Ok (inr a), mkS3FS (config s) w)
  | (Err e, w) => (Ok (inl e), mkS3FS (config s) w)
  | (Panic, w) => (Panic, mkS3FS (config s) w)
  | (Diverge, w) => (Diverge, mkS3FS (config s) w)
  end.
Definition send {A} (m : string -> M W SdkError A) : Op A :=
  r ← sent m; match r with inr a => mret a | inl e => fail (sdk_error e) end.

(* src: crates/racfs-plugin-s3fs/src/fs/mod.rs 67-89 S3FS::validate_config *)
Definition validate_config : Op () :=
  s ← get;
  let c := config s in
  fail_if (String.eqb (bucket c) "") (InvalidInput "S3 bucket name cannot be empty") ;;
  fail_if (String.eqb (region c) "") (InvalidInput "S3 region cannot be empty") ;;
  fail_if (String.eqb (access_key c) "") (InvalidInput "S3 access key cannot be empty") ;;
  fail_if (String.eqb (secret_key c) "") (InvalidInput "S3 secret key cannot be empty").

(** The times of an object replace those of the clock. *)
Definition set_last_modified (t : option AwsTime) (m : FileMetadata) : FileMetadata :=
  match t with
  | Some d => set_accessed (from_timestamp d) (set_modified (from_timestamp d) m)
  | None => m
  end.

(** What one answer adds to a listing; every entry reads the clock three times. *)
Fixpoint object_metas now (l : list S3Object) : list FileMetadata :=
  match l with
  | [] => []
  | o :: l =>
    set_last_modified (obj_last_modified o)
      (file now (key_to_path (default ""%string (obj_key o))) (u64_wrap (default 0 (obj_size o)))) ::
    object_metas (now_from 3 now) l
  end.
Fixpoint prefix_metas now (l : list (option string)) : list FileMetadata :=
  match l with
  | [] => []
  | Some p :: l =>
    if String.eqb p "" then prefix_metas now l
    else directory now (key_to_path p) :: prefix_metas (now_from 3 now) l
  | None :: l => prefix_metas now l
  end.
(* src: crates/racfs-plugin-s3fs/src/fs/mod.rs 143-163 S3FS::list_objects_v2 *)
Definition page_metas now (out : ListOutput) : list FileMetadata :=
  object_metas now (contents out) ++ prefix_metas (now_from (3 * length (contents out)) now) (common_prefixes out).

(** The token to go on with, if the listing does. *)
Definition next_page (out : ListOutput) : option string :=
  if default false (is_truncated out) then next_continuation_token out else None.

(** The loop over the pages of a listing; the code has no bound for it. *)
(* src: crates/racfs-plugin-s3fs/src/fs/mod.rs 124-174 S3FS::list_objects_v2 *)
Fixpoint list_pages (fuel : nat) now (prefix : string) (delimiter token : option string) (results : list FileMetadata)
    : Op (list FileMetadata) :=
  match fuel with
  | O => lift Diverge
  | S fuel =>
    resp ← send (fun b => send_list b {| list_prefix := prefix; list_delimiter := delimiter; max_keys := 1000;
                                         continuation_token := token |});
    let page := page_metas now resp in
    let results := results ++ page in
    match next_page resp with
    | None => mret results
    | Some t => list_pages fuel (now_from (3 * length page) now) prefix delimiter (Some t) results
    end
  end.

Context (fuel : nat).

(* src: crates/racfs-plugin-s3fs/src/fs/mod.rs 117-175 S3FS::list_objects_v2 *)
Definition list_objects_v2 now (prefix : string) (delimiter : option string) : Op (list FileMetadata) :=
  validate_config ;; list_pages fuel now prefix delimiter None [].

(* src: crates/racfs-plugin-s3fs/src/fs/mod.rs 178-206 S3FS::exists *)
Definition exists_ p : Op bool :=
  let key := path_to_key p in
  if String.eqb key "" then mret true
  else
    resp ← sent (fun b => send_head b key);
    match resp with
    | inr _ => mret true
    | inl e => if is_not_found e then mret false else fail (sdk_error e)
    end.

(* src: crates/racfs-plugin-s3fs/src/fs/mod.rs 209-226 S3FS::is_directory *)
Definition is_directory p : Op bool :=
  if String.eqb (from_utf8_lossy (as_bytes p)) "/" then mret true
  else
    let prefix := path_to_key p +:+ "/" in
    out ← send (fun b => send_list b {| list_prefix := prefix; list_delimiter := None; max_keys := 1;
                                        continuation_token := None |});
    mret ((0 <? default 0 (key_count out)) || negb (length (common_prefixes out) =? 0)%nat).

(* src: crates/racfs-plugin-s3fs/src/fs/mod.rs 229-243 S3FS::create_multipart_upload *)
Definition create_multipart_upload (key : string) : Op string :=
  id ← send (fun b => send_create_upload b key);
  lift (ok_or id (Io "CreateMultipartUpload: missing UploadId")).

(* src: crates/racfs-plugin-s3fs/src/fs/mod.rs 246-268 S3FS::upload_part *)
Definition upload_part (key upload_id : string) (part_number : Z) (body : bytes) : Op string :=
  tag ← send (fun b => send_part b key upload_id part_number body);
  lift (ok_or tag (Io "UploadPart: missing ETag")).

Definition i32_of_usize (z : Z) : Z := i32_wrap z.

(* src: crates/racfs-plugin-s3fs/src/fs/mod.rs 271-300 S3FS::complete_multipart_upload *)
Definition complete_multipart_upload (key upload_id : string) (etags : list string) : Op () :=
  let parts := imap (fun i etag => (i32_of_usize (Z.of_nat i + 1), etag)) etags in
  send (fun b => send_complete b key upload_id parts).

(* src: crates/racfs-plugin-s3fs/src/fs/mod.rs 303-313 S3FS::abort_multipart_upload *)
Definition abort_multipart_upload (key upload_id : string) : Op () :=
  sent (fun b => send_abort b key upload_id) ;; mret ().

(* src: crates/racfs-plugin-s3fs/src/fs/read.rs 11-40 S3FS::read *)
Definition read now p (offset size : Z) : Op bytes :=
  validate_config ;;
  let key := path_to_key p in
  fail_if (String.eqb key "") (IsDirectory p) ;;
  range ← (if (0 <? offset) || (0 <? size) then
             if 0 <? size then
               sum ← lift (i64_add offset size);
               last ← lift (i64_add sum (-1));
               mret (Some (RangeFromTo offset last))
             else mret (Some (RangeFrom offset))
           else mret None);
  send (fun b => send_get b key range).

(* src: crates/racfs-plugin-s3fs/src/fs/read.rs 42-94 S3FS::stat *)
Definition stat now p : Op FileMetadata :=
  validate_config ;;
  if String.eqb (from_utf8_lossy (as_bytes p)) "/" then mret (directory now "/")
  else
    let key := path_to_key p in
    d ← is_directory p;
    if (d : bool) then mret (directory now p)
    else
      resp ← sent (fun b => send_head b key);
      match resp with
      | inr head =>
        mret (set_last_modified (head_last_modified head) (file now p (u64_wrap (default 0 (content_length head)))))
      | inl e =>
        if is_not_found e then
          d ← is_directory p;
          if (d : bool) then mret (directory now p) else fail (NotFound p)
        else fail (sdk_error e)
      end.

(* src: crates/racfs-plugin-s3fs/src/fs/write.rs 15-32 S3FS::create *)
Definition create now p : Op () :=
  validate_config ;;
  let key := path_to_key p in
  if String.eqb key "" then mret () else send (fun b => send_put b key []).

(** The content to send.  A read that fails counts as an empty content. *)
(* src: crates/racfs-plugin-s3fs/src/fs/write.rs 50-65 S3FS::write *)
Definition final_content now p (data : bytes) (offset flags : Z) : Op bytes :=
  if (0 <? offset) || WriteFlags.contains_append flags then
    r ← attempt (read now p 0 (-1));
    let existing := match r with inr d => d | inl _ => [] end in
    if (0 <? offset) && WriteFlags.contains_append flags then lift (extend_from_slice data existing)
    else if 0 <? offset then
      lift (extend_from_slice data
              (if i64_as_usize offset <? len existing then ztake (i64_as_usize offset) existing else existing))
    else mret data
  else mret data.

(** The loop over the parts, with the tags so far. *)
(* src: crates/racfs-plugin-s3fs/src/fs/write.rs 73-94 S3FS::write *)
Fixpoint upload_parts (n : nat) (part_size : Z) (key upload_id : string) (data : bytes) (part_number offset_pos : Z)
    (etags : list string) : Op (list string) :=
  if offset_pos <? len data then
    match n with
    | O => lift Diverge
    | S n =>
      sum ← lift (usize_add offset_pos part_size);
      let end_ := Z.min sum (len data) in
      part_data ← lift (slice offset_pos end_ data);
      r ← attempt (upload_part key upload_id part_number part_data);
      match r with
      | inr etag =>
        part_number ← lift (i32_add part_number 1);
        upload_parts n part_size key upload_id data part_number end_ (etags ++ [etag])
      | inl e => abort_multipart_upload key upload_id ;; fail e
      end
    end
  else mret etags.

(* src: crates/racfs-plugin-s3fs/src/fs/write.rs 72-102 S3FS::write *)
Definition upload_in_parts (part_size : Z) (key : string) (data : bytes) : Op () :=
  upload_id ← create_multipart_upload key;
  etags ← upload_parts (length data) part_size key upload_id data 1 0 [];
  r ← attempt (complete_multipart_upload key upload_id etags);
  match r with
  | inr _ => mret ()
  | inl e => abort_multipart_upload key upload_id ;; fail e
  end.

(* src: crates/racfs-plugin-s3fs/src/fs/write.rs 34-115 S3FS::write *)
Definition write now p (data : bytes) (offset flags : Z) : Op Z :=
  validate_config ;;
  let key := path_to_key p in
  fail_if (String.eqb key "") (IsDirectory p) ;;
  final_data ← final_content now p data offset flags;
  s ← get;
  let threshold := multipart_threshold (config s) in
  let part_size := multipart_part_size (config s) in
  (if (threshold <=? len final_data) && (0 <? part_size) then upload_in_parts part_size key final_data
   else send (fun b => send_put b key final_data)) ;;
  mret (len data).

(* src: crates/racfs-plugin-s3fs/src/fs/dir.rs 10-29 S3FS::mkdir *)
Definition mkdir now p (_perm : Z) : Op () :=
  validate_config ;;
  let key := path_to_key p in
  let dir_key := if String.eqb key "" then "/"%string else key +:+ "/" in
  send (fun b => send_put b dir_key []).

(* src: crates/racfs-plugin-s3fs/src/fs/dir.rs 31-47 S3FS::read_dir *)
Definition read_dir now p : Op (list FileMetadata) :=
  validate_config ;;
  if String.eqb (from_utf8_lossy (as_bytes p)) "/" then list_objects_v2 now "" (Some "/"%string)
  else
    let key := path_to_key p in
    let prefix := if String.eqb key "" then ""%string else key +:+ "/" in
    list_objects_v2 now prefix (Some "/"%string).

(* src: crates/racfs-plugin-s3fs/src/fs/dir.rs 49-67 S3FS::remove *)
Definition remove now p : Op () :=
  validate_config ;;
  let key := path_to_key p in
  fail_if (String.eqb key "") (PermissionDenied p) ;;
  send (fun b => send_delete b key).

(** The loop over the pages of the objects to remove; an identifier with a key
    and a payload with objects are always built. *)
(* src: crates/racfs-plugin-s3fs/src/fs/dir.rs 84-131 S3FS::remove_all *)
Fixpoint remove_pages (n : nat) (prefix : string) (token : option string) : Op () :=
  match n with
  | O => lift Diverge
  | S n =>
    resp ← send (fun b => send_list b {| list_prefix := prefix; list_delimiter := None; max_keys := 1000;
                                         continuation_token := token |});
    let keys := omap obj_key (contents resp) in
    (if (length keys =? 0)%nat then mret () else send (fun b => send_delete_all b keys)) ;;
    match next_page resp with
    | None => mret ()
    | Some t => remove_pages n prefix (Some t)
    end
  end.

(* src: crates/racfs-plugin-s3fs/src/fs/dir.rs 69-145 S3FS::remove_all *)
Definition remove_all now p : Op () :=
  validate_config ;;
  fail_if (String.eqb (from_utf8_lossy (as_bytes p)) "/") (PermissionDenied p) ;;
  let key := path_to_key p in
  (if String.eqb key "" then mret () else remove_pages fuel (key +:+ "/") None) ;;
  (if String.eqb key "" then mret () else sent (fun b => send_delete b key) ;; mret ()).

(* src: crates/racfs-plugin-s3fs/src/fs/dir.rs 147-171 S3FS::rename *)
Definition rename now (old_path new_path : Path) : Op () :=
  validate_config ;;
  let old_key := path_to_key old_path in
  let new_key := path_to_key new_path in
  fail_if (String.eqb old_key "" || String.eqb new_key "") (PermissionDenied old_path) ;;
  send (fun b => send_copy b new_key (b +:+ "/" +:+ old_key)) ;;
  remove now old_path.

(* src: crates/racfs-plugin-s3fs/src/fs/chmod.rs 10-15 S3FS::chmod *)
Definition chmod now p (_mode : Z) : Op () := mret ().

(* src: crates/racfs-plugin-s3fs/src/fs/mod.rs 318-336 S3FS::truncate *)
Definition truncate now p (size : Z) : Op () :=
  validate_config ;;
  current ← read now p 0 (-1);
  if len current <=? size then mret ()
  else
    truncated ← lift (slice 0 size current);
    let key := path_to_key p in
    send (fun b => send_put b key truncated).

(* src: crates/racfs-plugin-s3fs/src/fs/mod.rs 338-358 S3FS::touch *)
Definition touch now p : Op () :=
  validate_config ;;
  let key := path_to_key p in
  if String.eqb key "" then mret ()
  else
    there ← exists_ p;
    if (there : bool) then send (fun b => send_copy b key (b +:+ "/" +:+ key))
    else create now p.

#[global] Instance s3fs_filesystem : FileSystem (S3FS W) := {
  fs_read := read; fs_stat := stat; fs_create := create; fs_write := write;
  fs_mkdir := mkdir; fs_read_dir := read_dir; fs_remove := remove;
  fs_remove_all := remove_all; fs_rename := rename; fs_chmod := chmod;
  fs_truncate := truncate; fs_touch := touch; fs_readlink := default_readlink;
  fs_symlink := default_symlink; fs_get_xattr := default_get_xattr; fs_set_xattr := default_set_xattr;
  fs_remove_xattr := default_remove_xattr; fs_list_xattr := default_list_xattr
}.
End Ops.

(** ** What the requests mean for the objects *)

Abbreviation Objects := (gmap string bytes).

(** An upload that is not complete: its key, and the parts by number, tag and
    content. *)
Record Upload := mkUpload { up_key : string; up_parts : list (Z * string * bytes) }.

Definition part_number (x : Z * string * bytes) : Z := fst (fst x).
Definition part_data (x : Z * string * bytes) : bytes := snd x.

(** The source of a copy must be encoded as in a URL; these bytes stand for
    themselves. *)
Definition url_byte (b : u8) : bool :=
  let v := byte_val b in
  (97 <=? v) && (v <=? 122) || (65 <=? v) && (v <=? 90) || (45 <=? v) && (v <=? 57) || (v =? 95) || (v =? 126).
Definition url_safe (k : string) : bool := forallb url_byte (as_bytes k).

(** What a [Range] selects of a content, if it begins inside. *)
Definition select_range (r : option Range) (d : bytes) : option bytes :=
  match r with
  | None => Some d
  | Some (RangeFrom a) => if a <? len d then Some (zdrop a d) else None
  | Some (RangeFromTo a b) => if a <? len d then Some (ztake (b + 1 - a) (zdrop a d)) else None
  end.
Definition range_wf (r : option Range) : Prop :=
  match r with None => True | Some (RangeFrom a) => 0 <= a | Some (RangeFromTo a b) => 0 <= a <= b end.

(** A service that answers, with the errors it has.  [after t k] tells that the
    key [k] comes after the pages up to the token [t]. *)
Class S3Laws (W : Type) `{S3Client W} (b : string) := {
  objects : W -> Objects;
  uploads : W -> gmap string Upload;
  min_part : Z;
  max_parts : Z;
  max_parts_small : max_parts < i32_max;
  after : string -> string -> bool;
  no_such_key : string -> SdkError;
  invalid_range : string -> SdkError;
  copy_to_itself : string -> SdkError;
  no_such_key_found : forall k, is_not_found (no_such_key k) = true;
  head_ok : forall k w, match objects w !! k with
    | Some d => exists h, send_head b k w = (Ok h, w) /\ content_length h = Some (len d)
    | None => send_head b k w = (Err (no_such_key k), w)
    end;
  get_ok : forall k r w, range_wf r -> send_get b k r w =
    (match objects w !! k with
     | Some d => match select_range r d with Some x => Ok x | None => Err (invalid_range k) end
     | None => Err (no_such_key k)
     end, w);
  put_ok : forall k d w, exists w', send_put b k d w = (Ok (), w') /\ objects w' = <[k := d]> (objects w);
  copy_ok : forall k k0 w, url_safe k0 = true -> match objects w !! k0 with
    | None => send_copy b k (b +:+ "/" +:+ k0) w = (Err (no_such_key k0), w)
    | Some d =>
      if String.eqb k k0 then send_copy b k (b +:+ "/" +:+ k0) w = (Err (copy_to_itself k), w)
      else exists w', send_copy b k (b +:+ "/" +:+ k0) w = (Ok (), w') /\ objects w' = <[k := d]> (objects w)
    end;
  delete_ok : forall k w, exists w', send_delete b k w = (Ok (), w') /\ objects w' = delete k (objects w);
  delete_all_ok : forall ks w, ks <> [] -> exists w', send_delete_all b ks w = (Ok (), w') /\
    objects w' = filter (fun kd => fst kd ∉ ks) (objects w);
  list_ok : forall prefix t n w, 0 < n ->
    let matches k := is_Some (objects w !! k) /\ starts_with k prefix = true /\
                     match t with Some t => after t k = true | None => True end in
    exists out keys,
      send_list b {| list_prefix := prefix; list_delimiter := None; max_keys := n; continuation_token := t |} w = (Ok out, w) /\
      map obj_key (contents out) = map Some keys /\ common_prefixes out = [] /\ key_count out = Some (len keys) /\
      (forall k, k ∈ keys -> matches k) /\
      match next_page out with
      | None => forall k, matches k -> k ∈ keys
      | Some t' => keys <> [] /\ (forall k, matches k -> k ∈ keys \/ after t' k = true) /\
                   (forall k, k ∈ keys -> after t' k = false)
      end;
  create_upload_ok : forall k w, exists id w', send_create_upload b k w = (Ok (Some id), w') /\
    objects w' = objects w /\ uploads w' = <[id := mkUpload k []]> (uploads w);
  part_ok : forall k id n d w parts,
    uploads w !! id = Some (mkUpload k parts) -> n = Z.of_nat (length parts) + 1 -> n <= max_parts ->
    exists tag w', send_part b k id n d w = (Ok (Some tag), w') /\ objects w' = objects w /\
      uploads w' = <[id := mkUpload k (parts ++ [(n, tag, d)])]> (uploads w);
  complete_ok : forall k id w parts last,
    uploads w !! id = Some (mkUpload k (parts ++ [last])) -> (forall x, x ∈ parts -> min_part <= len (part_data x)) ->
    exists w', send_complete b k id (map fst (parts ++ [last])) w = (Ok (), w') /\
      objects w' = <[k := concat (map part_data (parts ++ [last]))]> (objects w)
}.

(** *** The calls on objects *)

Section Spec.
Context `{BuildProfile} {W : Type} `{S3Client W} (cfg : S3Config) `{LW : !S3Laws W (bucket cfg)}.
Implicit Types (p : Path) (t : Objects).

(** What is sent for a write: at an offset the content behind it is lost. *)
Definition spec_content (d : bytes) (o f : Z) (existing : bytes) : Res bytes :=
  if 0 <? o then
    let kept := if WriteFlags.contains_append f then existing else ztake o existing in
    if isize_max <? len kept + len d then Panic else Ok (kept ++ d)
  else Ok d.

(** Can the service take a content? *)
Definition takes (d : bytes) : bool :=
  (len d <? multipart_threshold cfg) || (multipart_part_size cfg <=? 0) ||
  (min_part <=? multipart_part_size cfg) && (len d <=? max_parts * multipart_part_size cfg).

Definition spec_get p (r : option Range) t : Res bytes :=
  if String.eqb (path_to_key p) "" then Err (IsDirectory p)
  else match t !! path_to_key p with
       | None => Err (sdk_error (no_such_key (path_to_key p)))
       | Some d => match select_range r d with Some x => Ok x | None => Err (sdk_error (invalid_range (path_to_key p))) end
       end.

Definition range_of (o n : Z) : option Range :=
  if 0 <? n then Some (RangeFromTo o (o + n - 1)) else if 0 <? o then Some (RangeFrom o) else None.

Definition spec_copy (k k0 : string) t : Res FsReply * Objects :=
  match t !! k0 with
  | None => (Err (sdk_error (no_such_key k0)), t)
  | Some d => if String.eqb k k0 then (Err (sdk_error (copy_to_itself k)), t) else (Ok RUnit, <[k := d]> t)
  end.

(** What a call answers and leaves. *)
Definition s3_spec (c : FsCall) t : option (Res FsReply * Objects) :=
  match c with
  | CRead p o n => Some (RBytes <$> spec_get p (range_of o n) t, t)
  | CCreate p => Some (Ok RUnit, if String.eqb (path_to_key p) "" then t else <[path_to_key p := []]> t)
  | CWrite p d o f =>
    if String.eqb (path_to_key p) "" then Some (Err (IsDirectory p), t)
    else match spec_content d o f (default [] (t !! path_to_key p)) with
         | Ok x => if takes x then Some (Ok (RCount (len d)), <[path_to_key p := x]> t) else None
         | Err e => Some (Err e, t)
         | Panic => Some (Panic, t)
         | Diverge => Some (Diverge, t)
         end
  | CMkdir p _ =>
    Some (Ok RUnit, <[if String.eqb (path_to_key p) "" then "/" else path_to_key p +:+ "/" := []]> t)
  | CRemove p =>
    Some (if String.eqb (path_to_key p) "" then (Err (PermissionDenied p), t) else (Ok RUnit, delete (path_to_key p) t))
  | CRemoveAll p =>
    Some (if String.eqb p "/" then (Err (PermissionDenied p), t)
          else if String.eqb (path_to_key p) "" then (Ok RUnit, t)
          else (Ok RUnit, delete (path_to_key p) (filter (fun kd => starts_with (fst kd) (path_to_key p +:+ "/") = false) t)))
  | CRename p q =>
    Some (if String.eqb (path_to_key p) "" || String.eqb (path_to_key q) "" then (Err (PermissionDenied p), t)
          else let '(r, t') := spec_copy (path_to_key q) (path_to_key p) t in
               (r, if is_ok r then delete (path_to_key p) t' else t'))
  | CChmod p _ => Some (Ok RUnit, t)
  | CTruncate p n =>
    Some (match spec_get p None t with
          | Ok d => (Ok RUnit, if len d <=? n then t else <[path_to_key p := ztake n d]> t)
          | Err e => (Err e, t)
          | Panic => (Panic, t)
          | Diverge => (Diverge, t)
          end)
  | CTouch p =>
    Some (if String.eqb (path_to_key p) "" then (Ok RUnit, t)
          else match t !! path_to_key p with
               | Some _ => (Err (sdk_error (copy_to_itself (path_to_key p))), t)
               | None => (Ok RUnit, <[path_to_key p := []]> t)
               end)
  | _ => None
  end.

(** Paths in UTF-8 whose keys can be a source of a copy. *)
Definition s3_path p : bool :=
  bool_decide (from_utf8_lossy (as_bytes p) = p) && url_safe (path_to_key p).

(** Offsets are not negative and do not pass the largest one. *)
Definition s3_call (c : FsCall) : bool :=
  call_wf c &&
  match c with
  | CRead p o n => s3_path p && (0 <=? o) && (o + n <=? i64_max)
  | CCreate p | CMkdir p _ | CWrite p _ _ _ | CRemove p | CRemoveAll p | CChmod p _ | CTruncate p _ | CTouch p => s3_path p
  | CRename p q => s3_path p && s3_path q
  | _ => false
  end.
End Spec.

Definition valid_config (c : S3Config) : Prop :=
  bucket c <> ""%string /\ region c <> ""%string /\ access_key c <> ""%string /\ secret_key c <> ""%string /\
  0 < multipart_threshold c /\ in_u64 (multipart_part_size c) = true.

(** ** The calls on a service that answers *)

Section Calls.
Context `{BuildProfile} `{AwsDates} {W : Type} `{!S3Client W} (cfg : S3Config) `{LW : !S3Laws W (bucket cfg)}.
Context (valid : valid_config cfg).
Implicit Types (now : Now) (p : Path) (s : S3FS W) (t : Objects).

Definition sim s t : Prop := config s = cfg /\ objects (client s) = t.
Abbreviation agrees := (FileSystem.agrees sim).

Lemma config_ok {A} (k : FsOp (S3FS W) A) s t : sim s t -> (validate_config ;; k) s = k s.
Proof.
  intros [Hc _]. destruct valid as (Hb & Hr & Ha & Hs & _).
  rewrite (bind_ok _ _ s s ()); [done|]. unfold validate_config. rewrite (bind_ok get _ s s s) by done. rewrite Hc.
  rewrite (proj2 (String.eqb_neq _ _) Hb), (proj2 (String.eqb_neq _ _) Hr), (proj2 (String.eqb_neq _ _) Ha),
    (proj2 (String.eqb_neq _ _) Hs). reflexivity.
Qed.

(** Requests and what they leave. *)
Lemma sent_ok {A} (m : string -> M W SdkError A) s t a w :
  sim s t -> m (bucket cfg) (client s) = (Ok a, w) -> sent m s = (Ok (inr a), mkS3FS cfg w).
Proof. intros [Hc _] Hm. unfold sent. by rewrite Hc, Hm. Qed.

Lemma sent_err {A} (m : string -> M W SdkError A) s t e w :
  sim s t -> m (bucket cfg) (client s) = (Err e, w) -> sent m s = (Ok (inl e), mkS3FS cfg w).
Proof. intros [Hc _] Hm. unfold sent. by rewrite Hc, Hm. Qed.

Lemma send_ok {A} (m : string -> M W SdkError A) s t a w :
  sim s t -> m (bucket cfg) (client s) = (Ok a, w) -> send m s = (Ok a, mkS3FS cfg w).
Proof. intros Hs Hm. unfold send. by rewrite (bind_ok _ _ _ _ _ (sent_ok m s t a w Hs Hm)). Qed.

Lemma send_err {A} (m : string -> M W SdkError A) s t e w :
  sim s t -> m (bucket cfg) (client s) = (Err e, w) -> send m s = (Err (sdk_error e), mkS3FS cfg w).
Proof. intros Hs Hm. unfold send. by rewrite (bind_ok _ _ _ _ _ (sent_err m s t e w Hs Hm)). Qed.

Lemma same_client s t : sim s t -> mkS3FS cfg (client s) = s.
Proof. intros [Hc _]. destruct s as [c w]. cbn in Hc. by rewrite Hc. Qed.

Lemma sim_after w t : objects w = t -> sim (mkS3FS cfg w) t.
Proof. by split. Qed.

(** A change of the objects by one request. *)
Definition changes (m : string -> M W SdkError ()) (f : Objects -> Objects) : Prop :=
  forall w, exists w', m (bucket cfg) w = (Ok (), w') /\ objects w' = f (objects w).

Lemma change_sent m f s t : changes m f -> sim s t -> exists s', send m s = (Ok (), s') /\ sim s' (f t).
Proof.
  intros Hm Hs. pose proof Hs as [_ Ht]. destruct (Hm (client s)) as (w' & Hw & Ho). rewrite Ht in Ho.
  exists (mkS3FS cfg w'). split; [by eapply send_ok|by apply sim_after].
Qed.

Lemma change_agrees m f s t : changes m f -> sim s t -> agrees (fun _ => RUnit) (send m s) (Ok RUnit, f t).
Proof. intros Hm Hs. destruct (change_sent m f s t Hm Hs) as (s' & -> & Hs'). by split. Qed.

Lemma put_changes k d : changes (fun b => send_put b k d) (insert k d).
Proof. intros w. apply put_ok. Qed.

Lemma delete_changes k : changes (fun b => send_delete b k) (delete k).
Proof. intros w. apply delete_ok. Qed.

Lemma get_spec p k r s t :
  sim s t -> range_wf r -> k = path_to_key p -> String.eqb k "" = false ->
  send (fun b => send_get b k r) s = (spec_get cfg p r t, s).
Proof.
  intros Hs Hr -> Hk. pose proof Hs as [_ Ht]. unfold spec_get. rewrite Hk.
  pose proof (get_ok (path_to_key p) r (client s) Hr) as Hg. rewrite Ht in Hg.
  destruct (t !! path_to_key p) as [d|]; [destruct (select_range r d)|].
  - by rewrite (send_ok _ s t _ _ Hs Hg), (same_client s t Hs).
  - by rewrite (send_err _ s t _ _ Hs Hg), (same_client s t Hs).
  - by rewrite (send_err _ s t _ _ Hs Hg), (same_client s t Hs).
Qed.

Lemma read_spec now p o n s t :
  sim s t -> 0 <= o -> in_i64 n = true -> o + n <= i64_max -> read now p o n s = (spec_get cfg p (range_of o n) t, s).
Proof.
  intros Hs Ho Hn Hsum. apply andb_true_iff in Hn as [Hmin%Z.leb_le _].
  unfold read. rewrite (config_ok _ s t Hs).
  destruct (String.eqb (path_to_key p) "") eqn:Ek; [unfold spec_get; by rewrite Ek|].
  rewrite (bind_ok _ _ s s ()) by done. unfold range_of.
  destruct (Z.ltb_spec 0 n).
  - rewrite orb_true_r. unfold i64_min in *. erewrite bind_ok; [apply get_spec; [done|cbn; lia|done|done]|].
    rewrite (bind_ok _ _ s s (o + n)) by (unfold lift; rewrite i64_add_ok by (unfold i64_min; lia); reflexivity).
    rewrite (bind_ok _ _ s s (o + n - 1)) by (unfold lift; rewrite i64_add_ok by (unfold i64_min; lia); reflexivity). done.
  - rewrite orb_false_r. erewrite bind_ok; [apply get_spec; [done| |done|done]|].
    2: by destruct (0 <? o). by destruct (0 <? o).
Qed.

(** *** Uploads in parts *)

Definition numbered (etags : list string) : list (Z * string) :=
  imap (fun i etag => (i32_of_usize (Z.of_nat i + 1), etag)) etags.

Definition big (parts : list (Z * string * bytes)) : Prop := forall x, x ∈ parts -> min_part <= len (part_data x).

(** An upload after its first [pos] bytes. *)
Record Progress (key id : string) (data : bytes) (etags : list string) (pos : Z) t s
    (parts : list (Z * string * bytes)) : Prop := {
  pr_sim : sim s t;
  pr_upload : uploads (client s) !! id = Some (mkUpload key parts);
  pr_tags : map fst parts = numbered etags;
  pr_data : concat (map part_data parts) = ztake pos data;
  pr_size : (pos < len data /\ pos = Z.of_nat (length parts) * multipart_part_size cfg /\ big parts) \/
            (pos = len data /\ exists init last, parts = init ++ [last] /\ big init)
}.

Lemma s3_numbered_snoc etags e : numbered (etags ++ [e]) = numbered etags ++ [(i32_of_usize (Z.of_nat (length etags) + 1), e)].
Proof. unfold numbered. rewrite imap_app. cbn. by rewrite Nat.add_0_r. Qed.

Lemma i32_of_usize_small n : 0 <= n <= i32_max -> i32_of_usize n = n.
Proof. unfold i32_of_usize, i32_wrap, i32_max. intros Hn. rewrite Z.mod_small; lia. Qed.

Lemma i32_add_small {E} a : 0 <= a < i32_max -> @i32_add _ E a 1 = Ok (a + 1).
Proof.
  unfold i32_add, checked_arith, in_i32, i32_max. intros Ha.
  destruct (Z.leb_spec (- 2 ^ 31) (a + 1)), (Z.leb_spec (a + 1) (2 ^ 31 - 1)); done || lia.
Qed.

Section Upload.
Context (key id : string) (data : bytes).
Context (fits : len data <= isize_max) (enough : len data <= max_parts * multipart_part_size cfg).
Context (positive : 0 < multipart_part_size cfg) (large : min_part <= multipart_part_size cfg).

(** One part more. *)
Lemma next_part etags pos t s parts :
  Progress key id data etags pos t s parts -> pos < len data ->
  let end_ := Z.min (pos + multipart_part_size cfg) (len data) in
  let n := Z.of_nat (length parts) + 1 in
  exists tag s', upload_part key id n (ztake (end_ - pos) (zdrop pos data)) s = (Ok tag, s') /\
    Progress key id data (etags ++ [tag]) end_ t s' (parts ++ [(n, tag, ztake (end_ - pos) (zdrop pos data))]).
Proof.
  intros [Hsim Hup Htags Hdata Hsize] Hpos end_ n.
  destruct Hsize as [(_ & Hk & Hbig)|[Heq _]]; [|lia].
  assert (Hn : n <= max_parts) by (unfold n; nia). pose proof max_parts_small as Hmax.
  destruct (part_ok key id n (ztake (end_ - pos) (zdrop pos data)) (client s) parts Hup eq_refl Hn) as (tag & w & Hs & Ho & Hu).
  exists tag, (mkS3FS cfg w). split.
  { unfold upload_part. rewrite (bind_ok _ _ _ _ _ (send_ok _ s t _ _ Hsim Hs)). done. }
  pose proof Hsim as [_ Ht]. assert (Hlen : length etags = length parts).
  { apply (f_equal length) in Htags. unfold numbered in Htags. by rewrite length_map, length_imap in Htags. }
  assert (0 <= pos) by lia.
  assert (Hpiece : len (ztake (end_ - pos) (zdrop pos data)) = end_ - pos).
  { rewrite len_ztake, len_zdrop by lia. lia. }
  split.
  - apply sim_after. by rewrite Ho.
  - cbn. by rewrite Hu, lookup_insert_eq.
  - rewrite map_app, s3_numbered_snoc, Htags, Hlen. cbn. by rewrite i32_of_usize_small by lia.
  - rewrite map_app, concat_app, Hdata. cbn. rewrite app_nil_r. unfold ztake, zdrop.
    rewrite take_take_drop. f_equal. lia.
  - destruct (Z.ltb_spec end_ (len data)).
    + left. split; [done|]. rewrite length_app. cbn. split; [lia|].
      intros x [Hx|Hx]%elem_of_app; [by apply Hbig|]. apply list_elem_of_singleton in Hx as ->. cbn. lia.
    + right. split; [lia|]. by eexists parts, _.
Qed.

Lemma upload_parts_ok n etags pos t s parts :
  Progress key id data etags pos t s parts -> len data - pos <= Z.of_nat n ->
  exists etags' s' parts',
    upload_parts n (multipart_part_size cfg) key id data (Z.of_nat (length parts) + 1) pos etags s = (Ok etags', s') /\
    Progress key id data etags' (len data) t s' parts'.
Proof.
  revert etags pos s parts. induction n as [|n IH]; intros etags pos s parts Hp Hn.
  all: destruct (Z.ltb_spec pos (len data)) as [Hlt|Hge].
  - lia.
  - exists etags, s, parts. pose proof Hp as [_ _ _ _ [[? _]|[-> _]]]; [lia|]. split; [|done].
    cbn. by rewrite Z.ltb_irrefl.
  - pose proof Hp as [Hsim _ _ _ [(_ & Hk & _)|[? _]]]; [|lia]. cbn [upload_parts].
    rewrite (proj2 (Z.ltb_lt _ _) Hlt). destruct valid as (_ & _ & _ & _ & _ & [_ Hps%Z.leb_le]%andb_true_iff).
    assert (Hsum : 0 <= pos + multipart_part_size cfg <= u64_max).
    { unfold isize_max, u64_max in *. destruct (length parts); nia. }
    rewrite (bind_ok _ _ s s (pos + multipart_part_size cfg)) by (unfold lift; by rewrite usize_add_ok).
    destruct (next_part etags pos t s parts Hp Hlt) as (tag & s' & Hs & Hp').
    set (end_ := Z.min _ _) in *. rewrite (bind_ok _ _ s s (ztake (end_ - pos) (zdrop pos data)))
      by (unfold lift; rewrite slice_ok by lia; done).
    rewrite (bind_ok _ _ s s' (inr tag)) by (by apply attempt_ok).
    pose proof max_parts_small. assert (Z.of_nat (length parts) + 1 <= max_parts) by nia.
    rewrite (bind_ok _ _ s' s' (Z.of_nat (length parts) + 1 + 1)) by (unfold lift; by rewrite i32_add_small by lia).
    destruct (IH _ _ s' _ Hp' ltac:(lia)) as (etags' & s'' & parts' & Hu & Hend).
    exists etags', s'', parts'. split; [|done]. rewrite length_app in Hu. cbn [length] in Hu.
    replace (Z.of_nat (length parts) + 1 + 1) with (Z.of_nat (length parts + 1) + 1) by lia. exact Hu.
  - exists etags, s, parts. pose proof Hp as [_ _ _ _ [[? _]|[-> _]]]; [lia|]. split; [|done].
    cbn. by rewrite Z.ltb_irrefl.
Qed.

End Upload.

(** The object holds the parts one after another, which are the content. *)
Lemma upload_in_parts_ok key data t s :
  0 < len data <= isize_max -> 0 < multipart_part_size cfg -> min_part <= multipart_part_size cfg ->
  len data <= max_parts * multipart_part_size cfg -> sim s t ->
  exists s', upload_in_parts (multipart_part_size cfg) key data s = (Ok (), s') /\ sim s' (<[key := data]> t).
Proof.
  intros Hlen Hps Hmin Hmax Hsim. unfold upload_in_parts. pose proof Hsim as [_ Ht].
  destruct (create_upload_ok key (client s)) as (id & w & Hc & Ho & Hu).
  rewrite (bind_ok _ _ s (mkS3FS cfg w) id).
  2: { unfold create_multipart_upload. by rewrite (bind_ok _ _ _ _ _ (send_ok _ s t _ _ Hsim Hc)). }
  assert (Hp : Progress key id data [] 0 t (mkS3FS cfg w) []).
  { split; [by apply sim_after; rewrite Ho|cbn; by rewrite Hu, lookup_insert_eq|done|done|].
    left. split; [lia|]. split; [done|]. by intros x Hx%elem_of_nil. }
  destruct (upload_parts_ok key id data (proj2 Hlen) Hmax Hps Hmin (length data) [] 0 t _ [] Hp) as (etags & s' & parts & Hs & Hp');
    [unfold len; lia|].
  rewrite (bind_ok _ _ _ _ _ Hs). destruct Hp' as [Hsim' Hup Htags Hdata [[? _]|[_ (init & last & -> & Hbig)]]]; [lia|].
  destruct (complete_ok key id (client s') init last Hup Hbig) as (w' & Hcomplete & Ho').
  rewrite Htags in Hcomplete. rewrite Hdata, ztake_ge in Ho' by lia.
  rewrite (bind_ok _ _ s' (mkS3FS cfg w') (inr ())).
  2: { apply attempt_ok. unfold complete_multipart_upload. by apply (send_ok _ s' t). }
  exists (mkS3FS cfg w'). split; [done|]. apply sim_after. rewrite Ho'. by destruct Hsim' as [_ ->].
Qed.

Lemma write_tail_ok key data t s :
  len data <= isize_max -> takes cfg data = true -> sim s t ->
  exists s', (if (multipart_threshold cfg <=? len data) && (0 <? multipart_part_size cfg)
              then upload_in_parts (multipart_part_size cfg) key data
              else send (fun b => send_put b key data)) s = (Ok (), s') /\ sim s' (<[key := data]> t).
Proof.
  intros Hlen Htakes Hsim. destruct valid as (_ & _ & _ & _ & Hth & _).
  destruct (_ && _) eqn:E; [|apply change_sent; [apply put_changes|done]].
  apply andb_true_iff in E as [Hle%Z.leb_le Hps%Z.ltb_lt]. unfold takes in Htakes.
  rewrite (proj2 (Z.ltb_ge _ _) Hle) in Htakes. rewrite (proj2 (Z.leb_gt _ _) Hps) in Htakes.
  cbn in Htakes. apply andb_true_iff in Htakes as [Hmin%Z.leb_le Hmax%Z.leb_le].
  apply upload_in_parts_ok; [lia|done..].
Qed.

(** What is sent. *)
Lemma final_content_ok now p d o f s t :
  in_i64 o = true -> String.eqb (path_to_key p) "" = false -> sim s t ->
  final_content now p d o f s = (spec_content d o f (default [] (t !! path_to_key p)), s).
Proof.
  intros Ho Hk Hsim. apply andb_true_iff in Ho as [_ Ho%Z.leb_le]. unfold final_content, spec_content.
  assert (Hread : attempt (read now p 0 (-1)) s = (Ok (match t !! path_to_key p with
      Some x => inr x | None => inl (sdk_error (no_such_key (path_to_key p))) end), s)).
  { unfold attempt. rewrite (read_spec now p 0 (-1) s t Hsim) by (done || unfold i64_max; lia).
    unfold spec_get. rewrite Hk. cbn. by destruct (t !! path_to_key p). }
  destruct (_ || _) eqn:E.
  - rewrite (bind_ok _ _ _ _ _ Hread).
    assert (Hex : match (match t !! path_to_key p with Some x => inr x | None => inl (sdk_error (no_such_key (path_to_key p))) end)
                  with inr x => x | inl _ => [] end = default [] (t !! path_to_key p)) by by destruct (t !! path_to_key p).
    rewrite Hex. destruct (Z.ltb_spec 0 o); cbn [andb]; [|done].
    destruct (WriteFlags.contains_append f); [done|]. rewrite i64_as_usize_nonneg by (unfold i64_max in *; lia).
    destruct (Z.ltb_spec o (len (default [] (t !! path_to_key p)))); [done|]. rewrite ztake_ge by done. done.
  - apply orb_false_iff in E as [-> _]. done.
Qed.

Lemma s3_write_agrees now p d o f s t e :
  in_i64 o = true -> len d <= isize_max -> sim s t -> s3_spec cfg (CWrite p d o f) t = Some e ->
  agrees RCount (write now p d o f s) e.
Proof.
  intros Ho Hd Hsim. cbn [s3_spec]. unfold write. rewrite (config_ok _ s t Hsim).
  destruct (String.eqb (path_to_key p) "") eqn:Ek; [intros [= <-]; by split|]. rewrite (bind_ok _ _ s s ()) by done.
  rewrite run_bind, (final_content_ok now p d o f s t Ho Ek Hsim).
  destruct (spec_content d o f _) as [x| | |] eqn:Ex; [|intros [= <-]; by split..].
  destruct (takes cfg x) eqn:Et; [|done]. intros [= <-]. rewrite (bind_ok get _ s s s) by done.
  pose proof Hsim as [-> _]. assert (Hx : len x <= isize_max).
  { unfold spec_content in Ex. destruct (0 <? o); [|by injection Ex as <-].
    destruct (Z.ltb_spec isize_max (len (if WriteFlags.contains_append f then default [] (t !! path_to_key p)
      else ztake o (default [] (t !! path_to_key p))) + len d)); [done|]. injection Ex as <-. by rewrite len_app. }
  destruct (write_tail_ok (path_to_key p) x t s Hx Et Hsim) as (s' & Hs & Hsim').
  rewrite (bind_ok _ _ _ _ _ Hs). by split.
Qed.

(** *** Removing page by page *)

Definition under (prefix : string) t : Objects := filter (fun kd => starts_with (fst kd) prefix = true) t.
Definition outside (prefix : string) t : Objects := filter (fun kd => starts_with (fst kd) prefix = false) t.

Lemma omap_keys (l : list S3Object) keys : map obj_key l = map Some keys -> omap obj_key l = keys.
Proof.
  revert keys. induction l as [|o l IH]; intros [|k keys] Hl; try done. injection Hl as Ho Hl.
  cbn. rewrite Ho. f_equal. by apply IH.
Qed.

Lemma outside_all prefix t : (forall k, is_Some (t !! k) -> starts_with k prefix = true -> False) -> outside prefix t = t.
Proof.
  intros Hno. apply map_filter_id. intros k d Hk. cbn [fst]. destruct (starts_with k prefix) eqn:E; [|done].
  destruct (Hno k); [by exists d|done].
Qed.

Lemma under_decreases prefix keys t :
  keys <> [] -> (forall k, k ∈ keys -> is_Some (t !! k) /\ starts_with k prefix = true) ->
  (base.size (under prefix (filter (fun kd => fst kd ∉ keys) t)) < base.size (under prefix t))%nat.
Proof.
  intros Hne Hin. destruct keys as [|k keys]; [done|]. destruct (Hin k) as [[d Hd] Hk]; [by left|].
  apply map_subset_size. split.
  - intros x. destruct (under prefix (filter _ t) !! x) as [y|] eqn:E; [|by destruct (under prefix t !! x)].
    apply map_lookup_filter_Some in E as [[E _]%map_lookup_filter_Some Hx]. cbn.
    replace (under prefix t !! x) with (Some y); [done|]. symmetry. by apply map_lookup_filter_Some.
  - intros Hsub. assert (Hd' : under prefix t !! k = Some d) by by apply map_lookup_filter_Some.
    eapply lookup_weaken in Hd'; [|exact Hsub]. apply map_lookup_filter_Some in Hd' as [[_ Hd']%map_lookup_filter_Some _].
    apply Hd'. cbn. by left.
Qed.

Lemma remove_pages_ok n prefix token s t :
  sim s t ->
  (forall k, is_Some (t !! k) -> starts_with k prefix = true -> match token with Some x => after x k = true | None => True end) ->
  (base.size (under prefix t) < n)%nat ->
  exists s', remove_pages n prefix token s = (Ok (), s') /\ sim s' (outside prefix t).
Proof.
  revert token s t. induction n as [|n IH]; intros token s t Hsim Htoken Hn; [lia|]. cbn [remove_pages].
  pose proof Hsim as [_ Ht]. destruct (list_ok prefix token 1000 (client s)) as (out & keys & Hl & Hkeys & _ & _ & Hin & Hnext); [done|].
  rewrite Ht in Hin, Hnext. rewrite (bind_ok _ _ _ _ _ (send_ok _ s t _ _ Hsim Hl)), (same_client s t Hsim).
  rewrite (omap_keys _ _ Hkeys).
  assert (Hdel : exists s', (if (length keys =? 0)%nat then mret () else send (fun b => send_delete_all b keys)) s = (Ok (), s') /\
    sim s' (filter (fun kd => fst kd ∉ keys) t)).
  { destruct keys as [|k keys]; cbn [length Nat.eqb].
    - exists s. split; [done|]. rewrite map_filter_id; [done|]. intros k d _. by apply not_elem_of_nil.
    - destruct (delete_all_ok (k :: keys) (client s)) as (w & Hw & Ho); [done|]. exists (mkS3FS cfg w).
      split; [by eapply send_ok|]. apply sim_after. by rewrite Ho, Ht. }
  destruct Hdel as (s' & Hdel & Hsim'). rewrite (bind_ok _ _ _ _ _ Hdel).
  destruct (next_page out) as [x|].
  - destruct Hnext as (Hne & Hall & Hkeep).
    destruct (IH (Some x) s' _ Hsim') as (s'' & Hr & Hend).
    + intros k [d [Hk Hnot]%map_lookup_filter_Some] Hp. destruct (Hall k) as [|]; [|done|done].
      split; [by exists d|]. split; [done|]. apply Htoken; [by exists d|done].
    + enough (base.size (under prefix (filter (fun kd => fst kd ∉ keys) t)) < base.size (under prefix t))%nat by lia.
      apply under_decreases; [done|]. intros k Hk. by destruct (Hin k Hk) as (? & ? & _).
    + exists s''. split; [exact Hr|]. replace (outside prefix t) with (outside prefix (filter (fun kd => fst kd ∉ keys) t)); [done|].
      unfold outside. rewrite map_filter_filter. apply map_filter_ext. intros k d Hk. cbn [fst]. split; [by intros [? _]|].
      intros Hp. split; [done|]. intros Hin'. destruct (Hin k Hin') as (_ & Hp' & _). congruence.
  - exists s'. split; [done|]. replace (outside prefix t) with (filter (fun kd => fst kd ∉ keys) t : Objects); [done|].
    apply map_filter_ext. intros k d Hk. cbn [fst]. destruct (starts_with k prefix) eqn:Hp.
    + split; [|done]. intros Hnot. destruct Hnot. apply Hnext. split; [by exists d|]. split; [done|].
      apply Htoken; [by exists d|done].
    + split; [done|]. intros _ Hin'. destruct (Hin k Hin') as (_ & Hp' & _). congruence.
Qed.

(** *** One call *)

Context (fuel : nat).

Lemma s3_path_text p : s3_path p = true -> from_utf8_lossy (as_bytes p) = p.
Proof. unfold s3_path. by intros [?%bool_decide_eq_true _]%andb_true_iff. Qed.

Lemma s3_create_agrees now p s t :
  sim s t ->
  agrees (fun _ => RUnit) (create now p s) (Ok RUnit, if String.eqb (path_to_key p) "" then t else <[path_to_key p := []]> t).
Proof.
  intros Hsim. unfold create. rewrite (config_ok _ s t Hsim). destruct (String.eqb _ _); [by split|].
  by apply change_agrees; [apply put_changes|].
Qed.

Lemma s3_remove_agrees now p s t :
  sim s t ->
  agrees (fun _ => RUnit) (remove now p s)
    (if String.eqb (path_to_key p) "" then (Err (PermissionDenied p), t) else (Ok RUnit, delete (path_to_key p) t)).
Proof.
  intros Hsim. unfold remove. rewrite (config_ok _ s t Hsim). destruct (String.eqb _ _); [by split|].
  rewrite (bind_ok _ _ s s ()) by done. by apply change_agrees; [apply delete_changes|].
Qed.

Lemma copy_sent k k0 s t :
  sim s t -> url_safe k0 = true ->
  exists s', send (fun b => send_copy b k (b +:+ "/" +:+ k0)) s =
    (match spec_copy cfg k k0 t with (Ok _, _) => Ok () | (Err e, _) => Err e | (Panic, _) => Panic | (Diverge, _) => Diverge end, s') /\
    sim s' (snd (spec_copy cfg k k0 t)).
Proof.
  intros Hsim Hk. pose proof Hsim as [_ Ht]. pose proof (copy_ok k k0 (client s) Hk) as Hc. rewrite Ht in Hc. unfold spec_copy.
  destruct (t !! k0) as [d|].
  - destruct (String.eqb k k0).
    + exists s. by rewrite (send_err _ s t _ _ Hsim Hc), (same_client s t Hsim).
    + destruct Hc as (w & Hc & Ho). exists (mkS3FS cfg w). rewrite (send_ok _ s t _ _ Hsim Hc). split; [done|].
      by apply sim_after.
  - exists s. by rewrite (send_err _ s t _ _ Hsim Hc), (same_client s t Hsim).
Qed.

Lemma s3_rename_agrees now p q s t e :
  s3_path p = true -> sim s t -> s3_spec cfg (CRename p q) t = Some e -> agrees (fun _ => RUnit) (rename now p q s) e.
Proof.
  unfold s3_path. intros [_ Hp]%andb_true_iff Hsim. cbn [s3_spec]. unfold rename. rewrite (config_ok _ s t Hsim).
  destruct (_ || _) eqn:E; [intros [= <-]; by split|]. apply orb_false_iff in E as [Ek _]. rewrite (bind_ok _ _ s s ()) by done.
  destruct (copy_sent (path_to_key q) (path_to_key p) s t Hsim Hp) as (s' & Hc & Hsim').
  rewrite run_bind, Hc. destruct (spec_copy cfg _ _ t) as [[r|x| |] t'] eqn:Es; cbn [fst snd is_ok] in *; intros [= <-]; try by split.
  pose proof (s3_remove_agrees now p s' t' Hsim') as Hr. rewrite Ek in Hr.
  assert (Hru : r = RUnit); [|by subst r].
  unfold spec_copy in Es. destruct (t !! _); [|done]. by destruct (String.eqb (path_to_key q) (path_to_key p)); simplify_eq.
Qed.

Lemma s3_truncate_agrees now p n s t e :
  0 <= n -> sim s t -> s3_spec cfg (CTruncate p n) t = Some e -> agrees (fun _ => RUnit) (truncate now p n s) e.
Proof.
  intros Hn Hsim. cbn [s3_spec]. unfold truncate. rewrite (config_ok _ s t Hsim), run_bind.
  rewrite (read_spec now p 0 (-1) s t Hsim) by (done || unfold i64_max; lia). change (range_of 0 (-1)) with (@None Range).
  destruct (spec_get cfg p None t) as [d| | |]; [|intros [= <-]; by split..]. intros [= <-].
  destruct (Z.leb_spec (len d) n); [by split|].
  rewrite (bind_ok _ _ s s (ztake n d)) by (unfold lift; rewrite slice_ok by lia; by rewrite Z.sub_0_r).
  by apply change_agrees; [apply put_changes|].
Qed.

Lemma s3_exists_spec p s t :
  sim s t -> String.eqb (path_to_key p) "" = false -> exists_ p s = (Ok (bool_decide (is_Some (t !! path_to_key p))), s).
Proof.
  intros Hsim Ek. unfold exists_. rewrite Ek. pose proof Hsim as [_ Ht].
  pose proof (head_ok (path_to_key p) (client s)) as Hh. rewrite Ht in Hh. destruct (t !! path_to_key p) as [d|].
  - destruct Hh as (h & Hh & _). by rewrite (bind_ok _ _ _ _ _ (sent_ok _ s t _ _ Hsim Hh)), (same_client s t Hsim).
  - by rewrite (bind_ok _ _ _ _ _ (sent_err _ s t _ _ Hsim Hh)), (same_client s t Hsim), no_such_key_found.
Qed.

Lemma s3_touch_agrees now p s t e :
  s3_path p = true -> sim s t -> s3_spec cfg (CTouch p) t = Some e -> agrees (fun _ => RUnit) (touch now p s) e.
Proof.
  unfold s3_path. intros [_ Hp]%andb_true_iff Hsim. cbn [s3_spec]. unfold touch. rewrite (config_ok _ s t Hsim).
  destruct (String.eqb (path_to_key p) "") eqn:Ek; [intros [= <-]; by split|].
  rewrite (bind_ok _ _ _ _ _ (s3_exists_spec p s t Hsim Ek)). destruct (t !! path_to_key p) as [d|] eqn:Ed; intros [= <-].
  - destruct (copy_sent (path_to_key p) (path_to_key p) s t Hsim Hp) as (s' & Hc & Hs').
    unfold spec_copy in Hc, Hs'. rewrite Ed, String.eqb_refl in Hc, Hs'. rewrite bool_decide_eq_true_2, Hc by eauto. by split.
  - rewrite bool_decide_eq_false_2 by by intros []. pose proof (s3_create_agrees now p s t Hsim) as Hc. by rewrite Ek in Hc.
Qed.

Lemma s3_remove_all_agrees now p s t e :
  s3_path p = true -> (base.size t < fuel)%nat -> sim s t -> s3_spec cfg (CRemoveAll p) t = Some e ->
  agrees (fun _ => RUnit) (remove_all fuel now p s) e.
Proof.
  intros Hp Hfuel Hsim. cbn [s3_spec]. unfold remove_all. rewrite (config_ok _ s t Hsim), (s3_path_text p Hp).
  destruct (String.eqb p "/"); [intros [= <-]; by split|]. rewrite (bind_ok _ _ s s ()) by done.
  destruct (String.eqb (path_to_key p) ""); [intros [= <-]; rewrite (bind_ok _ _ s s ()) by done; by split|]. intros [= <-].
  destruct (remove_pages_ok fuel (path_to_key p +:+ "/") None s t Hsim) as (s' & Hr & Hs'); [done| |].
  { assert (Hsub : under (path_to_key p +:+ "/") t ⊆ t) by apply map_filter_subseteq. apply map_subseteq_size in Hsub. lia. }
  rewrite (bind_ok _ _ _ _ _ Hr). pose proof Hs' as [_ Ho].
  destruct (delete_changes (path_to_key p) (client s')) as (w & Hw & Ho'). rewrite Ho in Ho'.
  rewrite (bind_ok _ _ _ _ _ (sent_ok _ s' _ _ _ Hs' Hw)). split; [done|]. by apply sim_after.
Qed.

Abbreviation s3_fs_call := (run_call (H := s3fs_filesystem fuel)).

Lemma s3_call_agrees now c s t e :
  s3_call c = true -> (base.size t < fuel)%nat -> sim s t -> s3_spec cfg c t = Some e -> agrees id (s3_fs_call now c s) e.
Proof.
  unfold s3_call. intros [Hwf Hc]%andb_true_iff Hfuel Hsim He.
  destruct c; try discriminate; cbn [call_wf] in Hwf.
  - injection He as <-. apply andb_true_iff in Hc as [[_ Ho%Z.leb_le]%andb_true_iff Hs%Z.leb_le], Hwf as [_ Hn].
    apply agrees_fmap. cbn [fs_read s3fs_filesystem]. rewrite (read_spec now _ _ _ s t) by done. by split.
  - injection He as <-. by apply agrees_unit, s3_create_agrees.
  - apply andb_true_iff in Hwf as [[Ho _]%andb_true_iff Hl%Z.leb_le]. apply agrees_fmap. by apply (s3_write_agrees now _ _ _ _ s t).
  - injection He as <-. apply agrees_unit. cbn [fs_mkdir s3fs_filesystem]. unfold mkdir. rewrite (config_ok _ s t Hsim).
    by apply change_agrees; [apply put_changes|].
  - injection He as <-. by apply agrees_unit, s3_remove_agrees.
  - by apply agrees_unit, (s3_remove_all_agrees now _ s t).
  - apply andb_true_iff in Hc as [Hp _]. by apply agrees_unit, (s3_rename_agrees now _ _ s t).
  - injection He as <-. by apply agrees_unit.
  - apply andb_true_iff in Hwf as [Hn%Z.leb_le _]. by apply agrees_unit, (s3_truncate_agrees now _ _ s t).
  - by apply agrees_unit, (s3_touch_agrees now _ s t).
Qed.
End Calls.

(** ** Sequences of calls *)

Section Run.
Context `{BuildProfile} {W : Type} `{S3Client W} (cfg : S3Config) `{LW : !S3Laws W (bucket cfg)}.

Fixpoint s3_run (cs : list FsCall) (t : Objects) : option (list (Res FsReply) * Objects) :=
  match cs with
  | [] => Some ([], t)
  | c :: cs => '(r, t1) ← s3_spec cfg c t; '(rs, t2) ← s3_run cs t1; Some (r :: rs, t2)
  end.

(** A call makes at most one object more. *)
Lemma insert_grows k (d : bytes) (t : Objects) : (base.size (<[k := d]> t) <= S (base.size t))%nat.
Proof. rewrite map_size_insert. destruct (t !! k); cbn; lia. Qed.

Lemma delete_grows k (t : Objects) : (base.size (delete k t) <= base.size t)%nat.
Proof. apply map_subseteq_size, delete_subseteq. Qed.

Lemma spec_copy_grows k k0 (t : Objects) r t' : spec_copy cfg k k0 t = (r, t') -> (base.size t' <= S (base.size t))%nat.
Proof.
  unfold spec_copy. destruct (t !! k0); [destruct (String.eqb k k0)|]; intros [= <- <-]; try lia. apply insert_grows.
Qed.

Lemma s3_spec_grows c t r t' : s3_spec cfg c t = Some (r, t') -> (base.size t' <= S (base.size t))%nat.
Proof.
  assert (Hsame : (base.size t <= S (base.size t))%nat) by lia.
  destruct c; cbn [s3_spec]; try done; repeat case_match; intros Hc; simplify_eq; try done; try apply insert_grows.
  all: try (etrans; [apply delete_grows|]); try done; try apply insert_grows.
  - etrans; [|exact Hsame]. by apply map_subseteq_size, map_filter_subseteq.
  - by eapply spec_copy_grows.
  - by eapply spec_copy_grows.
Qed.

Context `{AwsDates}.

Lemma s3_run_agrees fuel (valid : valid_config cfg) (cs : list (Now * FsCall)) (s : S3FS W) t replies t' :
  sim cfg s t -> forallb (fun c => s3_call (snd c)) cs = true -> (base.size t + length cs < fuel)%nat ->
  s3_run (map snd cs) t = Some (replies, t') ->
  let step c := run_call (H := s3fs_filesystem fuel) (fst c) (snd c) in
  fst (run_all step cs s) = replies /\ sim cfg (snd (run_all step cs s)) t'.
Proof.
  intros Hsim Hcs Hfuel Hrun step. revert s t replies Hsim Hcs Hfuel Hrun.
  induction cs as [|[now c] cs IH]; intros s t replies Hsim Hcs Hfuel Hrun; [by injection Hrun as <- <-|].
  cbn [forallb snd] in Hcs. apply andb_true_iff in Hcs as [Hc Hcs]. cbn [map snd s3_run] in Hrun. cbn [length] in Hfuel.
  destruct (s3_spec cfg c t) as [[r t1]|] eqn:Ec; [|done]. cbn in Hrun.
  destruct (s3_run (map snd cs) t1) as [[rs t2]|] eqn:Er; [|done]. injection Hrun as <- <-.
  pose proof (s3_spec_grows c t r t1 Ec) as Hgrows.
  destruct (s3_call_agrees cfg valid fuel now c s t (r, t1) Hc ltac:(lia) Hsim Ec) as [Hr Hs].
  cbn [run_all]. change (step (now, c) s) with (run_call (H := s3fs_filesystem fuel) now c s).
  destruct (run_call now c s) as [r' s1]. cbn [fst snd] in *.
  destruct (IH s1 t1 rs Hs Hcs ltac:(lia) Er) as [Hrs Hend]. destruct (run_all step cs s1). cbn [fst snd] in *.
  split; [|done]. f_equal; [|done]. rewrite <- Hr. by destruct r'.
Qed.
End Run.

(** C20: S3FS is a filesystem on the objects of its bucket, with their paths as
    keys: over every sequence of calls each answer is the one that the
    description on objects gives, errors included, and the objects are those of
    the description, whatever is sent in one piece or in parts and however many
    pages a listing has.  The loop of remove_all ends after as many pages as
    there can be objects.  [stat] and [read_dir] are not among these calls. *)
Theorem s3fs_refines `{BuildProfile} `{AwsDates} {W : Type} `{!S3Client W} (s : S3FS W) `{!S3Laws W (bucket (config s))}
    fuel (cs : list (Now * FsCall)) replies t' :
  valid_config (config s) -> forallb (fun c => s3_call (snd c)) cs = true ->
  (base.size (objects (client s)) + length cs < fuel)%nat ->
  s3_run (config s) (map snd cs) (objects (client s)) = Some (replies, t') ->
  let run := run_all (fun c => run_call (H := s3fs_filesystem fuel) (fst c) (snd c)) cs s in
  fst run = replies /\ objects (client (snd run)) = t'.
Proof.
  intros Hvalid Hcs Hfuel Hrun run.
  destruct (s3_run_agrees (config s) fuel Hvalid cs s (objects (client s)) replies t') as [Hr [_ Ht]]; [by split|done..|].
  by split.
Qed.

(** A path is a directory when there is an object below it, and otherwise a file
    when there is an object there, of its size. *)
Definition below (p : Path) (t : Objects) : Prop :=
  map_Exists (fun k _ => starts_with k (path_to_key p +:+ "/") = true) t.

Section Stat.
Context `{BuildProfile} `{AwsDates} {W : Type} `{!S3Client W} (cfg : S3Config) `{LW : !S3Laws W (bucket cfg)}.

Lemma is_directory_spec p s t :
  sim cfg s t -> s3_path p = true -> p <> "/"%string ->
  exists d, is_directory p s = (Ok d, s) /\ (d = true <-> below p t).
Proof.
  intros Hsim Hp Hne. pose proof Hsim as [_ Ht]. unfold is_directory. rewrite (s3_path_text p Hp), (proj2 (String.eqb_neq _ _) Hne).
  destruct (list_ok (path_to_key p +:+ "/") None 1 (client s)) as (out & keys & Hl & _ & Hc & Hn & Hin & Hnext); [done|].
  rewrite Ht in Hin, Hnext. eexists. split.
  { rewrite (bind_ok _ _ _ _ _ (send_ok cfg _ s t _ _ Hsim Hl)), (same_client cfg s t Hsim), Hc, Hn. reflexivity. }
  cbn. rewrite orb_false_r. destruct keys as [|k keys].
  - split; [done|]. intros (k & d & Hk & Hs). destruct (next_page out) as [x|]; [by destruct Hnext|].
    destruct (not_elem_of_nil k). apply Hnext. split; [by exists d|]. by split.
  - split; [|done]. intros _. destruct (Hin k) as ([d Hd] & Hs & _); [by left|]. by exists k, d.
Qed.

Lemma s3fs_stat_spec now p s t :
  valid_config cfg -> sim cfg s t -> s3_path p = true -> p <> "/"%string ->
  (below p t -> stat now p s = (Ok (directory now p), s)) /\
  (~ below p t -> match t !! path_to_key p with
                  | Some d => exists m, stat now p s = (Ok m, s) /\ path m = p /\ size m = u64_wrap (len d) /\ mode m = file_mode
                  | None => stat now p s = (Err (NotFound p), s)
                  end).
Proof.
  intros Hvalid Hsim Hp Hne. pose proof Hsim as [_ Ht]. unfold stat.
  rewrite (config_ok cfg Hvalid _ s t Hsim), (s3_path_text p Hp), (proj2 (String.eqb_neq _ _) Hne).
  destruct (is_directory_spec p s t Hsim Hp Hne) as (d & Hd & Hb). rewrite (bind_ok _ _ _ _ _ Hd). split.
  - intros Hbelow. by rewrite (proj2 Hb Hbelow).
  - intros Hno. destruct d; [by destruct Hno; apply Hb|].
    pose proof (head_ok (path_to_key p) (client s)) as Hh. rewrite Ht in Hh. destruct (t !! path_to_key p) as [x|].
    + destruct Hh as (h & Hh & Hl). rewrite (bind_ok _ _ _ _ _ (sent_ok cfg _ s t _ _ Hsim Hh)), (same_client cfg s t Hsim).
      eexists. split; [reflexivity|]. rewrite Hl. by destruct (head_last_modified h).
    + rewrite (bind_ok _ _ _ _ _ (sent_err cfg _ s t _ _ Hsim Hh)), (same_client cfg s t Hsim), no_such_key_found.
      by rewrite (bind_ok _ _ _ _ _ Hd).
Qed.
End Stat.

(** ** A bucket in memory

    At most two keys on a page, parts of at least two bytes. *)

Record Bucket := mkBucket { b_objects : Objects; b_uploads : gmap string Upload; b_next : nat }.

Definition set_objects (f : Objects -> Objects) (w : Bucket) : Bucket := mkBucket (f (b_objects w)) (b_uploads w) (b_next w).
Definition set_uploads (f : gmap string Upload -> gmap string Upload) (w : Bucket) : Bucket :=
  mkBucket (b_objects w) (f (b_uploads w)) (S (b_next w)).

Definition missing (k : string) : SdkError := {| error_text := "NoSuchKey: " +:+ k; is_not_found := true |}.
Definition bad_range (k : string) : SdkError := {| error_text := "InvalidRange: " +:+ k; is_not_found := false |}.
Definition self_copy (k : string) : SdkError := {| error_text := "InvalidRequest: " +:+ k; is_not_found := false |}.
Definition bad_upload : SdkError := {| error_text := "NoSuchUpload"; is_not_found := false |}.
Definition bad_parts : SdkError := {| error_text := "InvalidPart"; is_not_found := false |}.

Definition strictly_after (t k : string) : bool := bool_decide (String.le t k) && negb (String.eqb t k).

(** The keys that a listing is about, in order. *)
Definition listed_keys (prefix : string) (token : option string) (t : Objects) : list string :=
  merge_sort String.le
    (List.filter (fun k => starts_with k prefix && match token with Some x => strictly_after x k | None => true end)
       (map fst (map_to_list t))).

Definition as_object (t : Objects) (k : string) : S3Object :=
  {| obj_key := Some k; obj_size := len <$> t !! k; obj_last_modified := None |}.

Definition last_key (l : list string) : string := default ""%string (last l).

(** Everything below a slash is rolled up into one prefix. *)
Definition rolled_up (prefix : string) (keys : list string) : list string :=
  remove_dups (omap (fun k => match split_char slash (default k (strip_prefix_str k prefix)) with
                              | seg :: _ :: _ => Some (prefix +:+ seg +:+ "/") | _ => None end) keys).

Definition one_page (r : ListRequest) (t : Objects) : ListOutput :=
  let all := listed_keys (list_prefix r) (continuation_token r) t in
  match list_delimiter r with
  | None =>
    let n := Z.to_nat (Z.min (max_keys r) 2) in
    let page := take n all in
    let more := negb (length (drop n all) =? 0)%nat in
    {| contents := map (as_object t) page; common_prefixes := []; is_truncated := Some more;
       next_continuation_token := if more then Some (last_key page) else None; key_count := Some (len page) |}
  | Some _ =>
    let direct k := negb (contains_char (default k (strip_prefix_str k (list_prefix r))) slash) in
    let page := List.filter direct all in
    let ups := rolled_up (list_prefix r) all in
    {| contents := map (as_object t) page; common_prefixes := map Some ups; is_truncated := Some false;
       next_continuation_token := None; key_count := Some (len page + len ups) |}
  end.

Definition parts_fit (l : list (Z * string * bytes)) : bool :=
  match rev l with [] => false | _ :: init => forallb (fun x => 2 <=? len (part_data x)) init end.

#[local] Instance bucket_client : S3Client Bucket := {
  send_head b k w := (match b_objects w !! k with
    | Some d => Ok {| content_length := Some (len d); head_last_modified := None |} | None => Err (missing k) end, w);
  send_get b k r w := (match b_objects w !! k with
    | Some d => match select_range r d with Some x => Ok x | None => Err (bad_range k) end
    | None => Err (missing k)
    end, w);
  send_put b k d w := (Ok (), set_objects (insert k d) w);
  send_copy b k source w :=
    let k0 := default ""%string (strip_prefix_str source (b +:+ "/")) in
    match b_objects w !! k0 with
    | None => (Err (missing k0), w)
    | Some d => if String.eqb k k0 then (Err (self_copy k), w) else (Ok (), set_objects (insert k d) w)
    end;
  send_delete b k w := (Ok (), set_objects (delete k) w);
  send_delete_all b ks w := (Ok (), set_objects (filter (fun kd => fst kd ∉ ks)) w);
  send_list b r w := (Ok (one_page r (b_objects w)), w);
  send_create_upload b k w :=
    let id := to_string (Z.of_nat (b_next w)) in (Ok (Some id), set_uploads (insert id (mkUpload k [])) w);
  send_part b k id n d w := match b_uploads w !! id with
    | Some u => (Ok (Some "tag"%string), set_uploads (insert id (mkUpload (up_key u) (up_parts u ++ [(n, "tag"%string, d)]))) w)
    | None => (Err bad_upload, w)
    end;
  send_complete b k id l w := match b_uploads w !! id with
    | Some u =>
      if bool_decide (l = map fst (up_parts u)) && parts_fit (up_parts u)
      then (Ok (), set_objects (insert k (concat (map part_data (up_parts u)))) (set_uploads (delete id) w))
      else (Err bad_parts, w)
    | None => (Err bad_upload, w)
    end;
  send_abort b k id w := (Ok (), set_uploads (delete id) w)
}.

Lemma listed_keys_spec prefix token t k :
  k ∈ listed_keys prefix token t <->
  is_Some (t !! k) /\ starts_with k prefix = true /\ match token with Some x => strictly_after x k = true | None => True end.
Proof.
  unfold listed_keys. rewrite merge_sort_Permutation, list_elem_of_In, filter_In, <- list_elem_of_In, andb_true_iff.
  assert (Hk : k ∈ map fst (map_to_list t) <-> is_Some (t !! k)).
  { rewrite list_elem_of_fmap. split.
    - intros ([k' d] & -> & Hd%elem_of_map_to_list). by exists d.
    - intros [d Hd]. exists (k, d). split; [done|]. by apply elem_of_map_to_list. }
  rewrite Hk. destruct token; tauto.
Qed.

Lemma listed_keys_nodup prefix token t : NoDup (listed_keys prefix token t).
Proof.
  unfold listed_keys. rewrite merge_sort_Permutation. apply NoDup_ListNoDup, List.NoDup_filter, NoDup_ListNoDup.
  apply NoDup_fst_map_to_list.
Qed.

Lemma last_key_snoc l k : last_key (l ++ [k]) = k.
Proof. unfold last_key. by rewrite last_snoc. Qed.

(** Between the pages lies the last key of the first. *)
Lemma page_split prefix token t (n : nat) :
  let all := listed_keys prefix token t in
  (0 < n)%nat -> drop n all <> [] ->
  take n all <> [] /\ (forall k, k ∈ drop n all -> strictly_after (last_key (take n all)) k = true) /\
  (forall k, k ∈ take n all -> strictly_after (last_key (take n all)) k = false).
Proof.
  intros all Hn Hrest. assert (Hpage : take n all <> []).
  { destruct all as [|k l]; [by rewrite drop_nil in Hrest|]. by destruct n; [lia|]. }
  destruct (exists_last Hpage) as (init & x & Hinit). rewrite Hinit, last_key_snoc. split; [by destruct init|].
  pose proof (take_drop n all) as Hall. rewrite Hinit in Hall.
  assert (Hsorted : StronglySorted String.le all) by apply (StronglySorted_merge_sort String.le).
  assert (Hnodup : NoDup all) by apply listed_keys_nodup. rewrite <- Hall in Hsorted, Hnodup.
  unfold strictly_after. split; intros k Hk.
  - apply andb_true_iff. split.
    + apply bool_decide_eq_true. eapply (StronglySorted_app_1_elem_of String.le); [exact Hsorted| |exact Hk].
      apply elem_of_app. right. by left.
    + apply negb_true_iff, String.eqb_neq. intros ->. apply NoDup_app in Hnodup as (_ & Hno & _).
      apply (Hno k); [apply elem_of_app; right; by left|done].
  - apply elem_of_app in Hk as [Hk| ->%list_elem_of_singleton]; [|by rewrite String.eqb_refl, andb_false_r].
    destruct (bool_decide (String.le x k)) eqn:E; [|done]. apply bool_decide_eq_true in E. apply negb_false_iff, String.eqb_eq.
    apply (anti_symm String.le); [done|]. apply (StronglySorted_app_1_l String.le) in Hsorted.
    eapply (StronglySorted_app_1_elem_of String.le); [exact Hsorted|exact Hk|by left].
Qed.

Lemma strip_prefix_app p k : strip_prefix_str (p +:+ k) p = Some k.
Proof.
  unfold strip_prefix_str. assert (Hp : String.prefix p (p +:+ k) = true).
  { induction p as [|a p IH]; [by destruct k|].
    change (String.prefix (String a p) (String a p +:+ k)) with (if ascii_dec a a then String.prefix p (p +:+ k) else false).
    destruct (ascii_dec a a) as [_|Hne]; [exact IH|by destruct Hne]. }
  rewrite Hp. clear Hp. f_equal. induction p as [|a p IH]; [|exact IH].
  change (String.substring 0 (String.length k - 0) k = k). rewrite Nat.sub_0_r.
  induction k as [|a k IH]; [done|]. change (String a (String.substring 0 (String.length k) k) = String a k). by f_equal.
Qed.

#[local] Instance bucket_laws (b : string) : S3Laws Bucket b.
Proof.
  refine (@Build_S3Laws Bucket bucket_client b b_objects b_uploads 2 100 _ strictly_after missing bad_range self_copy
    _ _ _ _ _ _ _ _ _ _ _).
  - done.
  - done.
  - intros k w. cbn. destruct (b_objects w !! k); [by eexists|done].
  - done.
  - intros k d w. eexists. by split.
  - intros k k0 w _. cbn. replace (strip_prefix_str (b +:+ "/" +:+ k0) (b +:+ "/")) with (Some k0)
      by (rewrite string_app_assoc; symmetry; apply strip_prefix_app).
    cbn [default from_option id]. destruct (b_objects w !! k0); [|done]. destruct (String.eqb k k0); [done|]. eexists. by split.
  - intros k w. eexists. by split.
  - intros ks w _. eexists. by split.
  - intros prefix t n w Hn matches. set (all := listed_keys prefix t (b_objects w)).
    exists (one_page {| list_prefix := prefix; list_delimiter := None; max_keys := n; continuation_token := t |} (b_objects w)),
      (take (Z.to_nat (Z.min n 2)) all).
    assert (Hall : forall k, k ∈ all <-> matches k) by apply listed_keys_spec.
    split; [done|]. split; [cbn; by rewrite map_map|]. split; [done|]. split; [done|]. split.
    { intros k Hk. apply Hall. rewrite <- (take_drop (Z.to_nat (Z.min n 2)) all). apply elem_of_app. by left. }
    unfold next_page. cbn. fold all. destruct (drop (Z.to_nat (Z.min n 2)) all) as [|x rest] eqn:Er; cbn.
    + intros k Hk%Hall. rewrite <- (take_drop (Z.to_nat (Z.min n 2)) all), Er, app_nil_r in Hk. done.
    + destruct (page_split prefix t (b_objects w) (Z.to_nat (Z.min n 2))) as (Hne & Hrest & Hpage); [lia|fold all; by rewrite Er|].
      fold all in Hne, Hrest, Hpage. rewrite Er in Hrest. split; [done|]. split; [|done]. intros k Hk%Hall.
      rewrite <- (take_drop (Z.to_nat (Z.min n 2)) all), Er in Hk. apply elem_of_app in Hk as [Hk|Hk]; [by left|right; by apply Hrest].
  - intros k w. do 2 eexists. by split.
  - intros k id n d w parts Hu _ _. cbn. rewrite Hu. do 2 eexists. by split.
  - intros k id w parts x Hu Hbig. cbn. rewrite Hu. cbn. rewrite bool_decide_eq_true_2 by done.
    replace (parts_fit (parts ++ [x])) with true; [eexists; by split|]. unfold parts_fit. rewrite rev_app_distr. cbn.
    symmetry. apply forallb_forall. intros y Hy%in_rev. by apply Z.leb_le, Hbig, list_elem_of_In.
Defined.

(** ** Listings *)

(** The pages of a listing as a service sends them, one after another. *)
Inductive Pages {W} `{S3Client W} (b prefix : string) (delimiter : option string) :
    option string -> W -> list ListOutput -> W -> Prop :=
| last_page token w out w' :
  send_list b {| list_prefix := prefix; list_delimiter := delimiter; max_keys := 1000; continuation_token := token |} w = (Ok out, w') ->
  next_page out = None -> Pages b prefix delimiter token w [out] w'
| more_pages token w out w1 t outs w' :
  send_list b {| list_prefix := prefix; list_delimiter := delimiter; max_keys := 1000; continuation_token := token |} w = (Ok out, w1) ->
  next_page out = Some t -> Pages b prefix delimiter (Some t) w1 outs w' -> Pages b prefix delimiter token w (out :: outs) w'.

Fixpoint pages_metas `{AwsDates} (now : Now) (outs : list ListOutput) : list FileMetadata :=
  match outs with
  | [] => []
  | out :: outs => page_metas now out ++ pages_metas (now_from (3 * length (page_metas now out)) now) outs
  end.

(** However many pages there are, the loop ends after them with the entries of
    all of them, in order. *)
Lemma s3fs_listing `{AwsDates} {W} `{S3Client W} fuel now c prefix delimiter token results (w w' : W) outs :
  Pages (bucket c) prefix delimiter token w outs w' -> (length outs <= fuel)%nat ->
  list_pages fuel now prefix delimiter token results (mkS3FS c w) = (Ok (results ++ pages_metas now outs), mkS3FS c w').
Proof.
  intros Hp. revert fuel now results. induction Hp as [token w out w' Hl Hn|token w out w1 t outs w' Hl Hn Hp IH];
    intros [|fuel] now results Hf; cbn in Hf; try lia; cbn [list_pages].
  all: erewrite bind_ok by (unfold send; erewrite bind_ok by (unfold sent; cbn; rewrite Hl; reflexivity); reflexivity).
  all: rewrite Hn; cbn [pages_metas].
  - by rewrite app_nil_r.
  - rewrite IH by lia. by rewrite <- app_assoc.
Qed.

(** ** On a small bucket *)

Section Demo.
#[local] Existing Instance debug_profile.
#[local] Instance demo_dates : AwsDates := {| from_timestamp t := Some (fst t * 10 ^ 9 + snd t) |}.

Definition demo_config : S3Config :=
  {| bucket := "data"; region := "us-east-1"; endpoint := None; access_key := "id"; secret_key := "secret";
     cache_enabled := false; cache_size := 0; multipart_threshold := 4; multipart_part_size := 3 |}.
Definition demo : S3FS Bucket := mkS3FS demo_config (mkBucket ∅ ∅ 0).
Definition at_epoch : Now := fun _ => 0.
Definition calls (cs : list FsCall) : list (Now * FsCall) := map (fun c => (at_epoch, c)) cs.

Abbreviation s3_calls := (run_all (fun c => run_call (H := s3fs_filesystem 20) (fst c) (snd c))).
Definition answers (cs : list FsCall) : list (Res FsReply) := fst (s3_calls (calls cs) demo).

Lemma s3fs_refines_witness :
  answers [CWrite "/d/f" (as_bytes "0123456789") 0 0; CRead "/d/f" 2 5; CCreate "/d/g"; CMkdir "/d" 0;
           CRename "/d/f" "/d/h"; CTruncate "/d/h" 4; CRead "/d/h" 0 (-1); CRemoveAll "/d"; CRead "/d/h" 0 (-1)] =
    [Ok (RCount 10); Ok (RBytes (as_bytes "23456")); Ok RUnit; Ok RUnit; Ok RUnit; Ok RUnit;
     Ok (RBytes (as_bytes "0123")); Ok RUnit; Err (Io "NoSuchKey: d/h")].
Proof.
  refine (proj1 (s3fs_refines demo 20 _ _ ∅ _ _ _ _)).
  - repeat split; discriminate.
  - vm_compute. reflexivity.
  - vm_compute. lia.
  - vm_compute. reflexivity.
Defined.

(** A write at an offset loses what is behind it, does not fill up to it, and in
    append mode at the start replaces the content. *)
Lemma s3fs_write_offsets :
  answers [CWrite "/f" (as_bytes "abc") 0 0; CWrite "/f" (as_bytes "x") 1 0; CRead "/f" 0 (-1);
           CWrite "/f" (as_bytes "y") 5 0; CRead "/f" 0 (-1);
           CWrite "/f" (as_bytes "z") 0 WriteFlags.WAPPEND; CRead "/f" 0 (-1)] =
    [Ok (RCount 3); Ok (RCount 1); Ok (RBytes (as_bytes "ax")); Ok (RCount 1); Ok (RBytes (as_bytes "axy"));
     Ok (RCount 1); Ok (RBytes (as_bytes "z"))].
Proof. vm_compute. reflexivity. Qed.

(** Reading from the end on is an error, of an empty file as well; reading
    nothing reads everything. *)
Lemma s3fs_read_ends :
  answers [CCreate "/e"; CRead "/e" 0 10; CWrite "/f" (as_bytes "abc") 0 0; CRead "/f" 3 1; CRead "/f" 0 0] =
    [Ok RUnit; Err (Io "InvalidRange: e"); Ok (RCount 3); Err (Io "InvalidRange: f"); Ok (RBytes (as_bytes "abc"))].
Proof. vm_compute. reflexivity. Qed.

(** Creating a file that is there empties it, touching it fails, and truncate
    does not make it longer. *)
Lemma s3fs_existing_files :
  answers [CWrite "/f" (as_bytes "abc") 0 0; CTouch "/f"; CTruncate "/f" 9; CRead "/f" 0 (-1); CCreate "/f"; CRead "/f" 0 (-1)] =
    [Ok (RCount 3); Err (Io "InvalidRequest: f"); Ok RUnit; Ok (RBytes (as_bytes "abc")); Ok RUnit; Ok (RBytes [])].
Proof. vm_compute. reflexivity. Qed.

(** A directory cannot be renamed or removed, which answers [Ok]; nothing is
    looked for before it is removed. *)
Lemma s3fs_directories :
  answers [CMkdir "/d" 0; CCreate "/d/f"; CRename "/d" "/e"; CRemove "/d"; CRead "/d/f" 0 (-1); CRemove "/x"] =
    [Ok RUnit; Ok RUnit; Err (Io "NoSuchKey: d"); Ok RUnit; Ok (RBytes []); Ok RUnit].
Proof. vm_compute. reflexivity. Qed.

(** A directory made by [mkdir] is an empty file in its own listing. *)
Lemma s3fs_directory_lists_itself :
  let s := snd (s3_calls (calls [CMkdir "/d" 0; CCreate "/d/f"; CCreate "/d/e/g"]) demo) in
  fst (read_dir 20 at_epoch "/d" s) =
    Ok [file at_epoch "/d/" 0; file at_epoch "/d/f" 0; directory at_epoch "/d/e/"].
Proof. vm_compute. reflexivity. Qed.
End Demo.
