(* ===== verification/VectorFS.v ===== *)
(** * VectorFS: documents with vectors ([crates/racfs-plugin-vectorfs])

    Documents are the rows of a table of the crate [lancedb], one per path;
    virtual files, the text of searches and extended attributes are kept in
    memory.  The table, and the service that makes vectors of texts, are
    reached in a world [W]: the classes [Lance] and [EmbedApi] are what the code
    calls of them, [LanceLaws] what the table's documentation promises.  The
    32-bit floats are those of [SpecFloat].  [HashMap]s are iterated in an order
    that is an argument. *)

From S2P Require Import Prelude Text RPath FsError Metadata Flags FileSystem AbsPath Json Contents.
From Stdlib Require Import Strings.Ascii Floats.SpecFloat.
From Stdlib Require Strings.String.

(* src: crates/racfs-plugin-vectorfs/src/config.rs 9-22 VectorConfig *)
Record VectorConfig := {
  storage_uri : string;
  embedding_api : option string;
  table_name : string;
  dimension : Z
}.

(* src: crates/racfs-plugin-vectorfs/src/config.rs 25-32 VectorConfig::default *)
Definition default_config : VectorConfig :=
  {| storage_uri := "./vector_db"; embedding_api := None; table_name := "vectors"; dimension := 384 |}.

(** ** 32-bit floats *)

Abbreviation f32 := spec_float.
Definition f32_add : f32 -> f32 -> f32 := SFadd 24 128.
Definition f32_mul : f32 -> f32 -> f32 := SFmul 24 128.
Definition f32_div : f32 -> f32 -> f32 := SFdiv 24 128.
Definition f32_sqrt : f32 -> f32 := SFsqrt 24 128.
Definition f32_neg : f32 -> f32 := SFopp.
Definition f32_zero : f32 := S754_zero false.
(** [n as f32] *)
Definition f32_of (n : Z) : f32 := binary_normalize 24 128 n 0 false.

(** ** The table *)

(** A row, as it is written. *)
Record Document := {
  doc_path : string;
  doc_data : bytes;
  doc_vector : list f32;
  doc_mode : Z;
  doc_created : Z;
  doc_modified : Z
}.

(** A batch of rows, as it is read: a column that is missing or of another type
    is [None], and so is a null; the elements of a vector may be of another
    type as well. *)
Record Batch := {
  num_rows : nat;
  col_path : option (list (option string));
  col_data : option (list (option bytes));
  col_vector : option (list (option (option (list f32))));
  col_mode : option (list (option Z));
  col_created : option (list (option Z));
  col_modified : option (list (option Z));
  col_distance : option (list (option f32))
}.

Definition cell {A} (col : list (option A)) (i : nat) : option A := mjoin (col !! i).

(** Where a query may fail. *)
Inductive QueryError := AtNearest (e : string) | AtExecute (e : string) | AtCollect (e : string).

(** [record_batch] checks a row against the schema with vectors of the given
    length; the functions on the table take the path that they are asked about
    as the text of a predicate. *)
Class Lance (W : Type) := {
  lance_query : option string -> option Z -> M W QueryError (list Batch);
  lance_nearest : list f32 -> Z -> M W QueryError (list Batch);
  lance_count : M W string Z;
  record_batch : Z -> Document -> outcome string ();
  lance_merge_insert : string -> Document -> M W string ();
  lance_delete : string -> M W string ()
}.

Class LanceDb (N W : Type) := {
  lance_connect : string -> outcome string N;
  table_names : N -> outcome string (list string);
  open_table : N -> string -> outcome string W;
  create_table : N -> string -> Z -> outcome string W
}.

(** An answer of the service, and the texts and numbers that crates make. *)
Record EmbedReply := { er_status : Z; er_body : outcome string bytes }.
Class EmbedApi (W : Type) := {
  embed_post : string -> string -> M W string EmbedReply;
  status_text : Z -> string;
  floats_from_slice : bytes -> outcome string (list f32);
  matches_json : list (string * f32) -> option bytes;
  hash_bytes : bytes -> Z;
  from_timestamp_millis : Z -> option DateTime
}.

(** ** The state *)

(* src: crates/racfs-plugin-vectorfs/src/fs/mod.rs 40-58 VectorFS *)
Record VectorFS (W : Type) := mkVectorFS {
  config : VectorConfig;
  embedding_client : bool;
  world : W;
  metadata : PathMap FileMetadata;
  search_queries : gmap string bytes;
  xattrs : PathMap (gmap string bytes)
}.
Arguments mkVectorFS {W}.
Arguments config {W}.
Arguments embedding_client {W}.
Arguments world {W}.
Arguments metadata {W}.
Arguments search_queries {W}.
Arguments xattrs {W}.

(** [str::trim_start_matches(p)] for a non-empty string [p]. *)
Fixpoint trim_start_str_aux (fuel : nat) (p s : string) : string :=
  match fuel with
  | O => s
  | S f => match strip_prefix_str s p with Some s' => trim_start_str_aux f p s' | None => s end
  end.
Definition trim_start_str (p s : string) : string := trim_start_str_aux (String.length s) p s.

(** [str::replace] of a character by a string. *)
Fixpoint replace_char (c : ascii) (r s : string) : string :=
  match s with
  | EmptyString => EmptyString
  | String a s => (if Ascii.eqb a c then r else String a EmptyString) +:+ replace_char c r s
  end.

Definition backslash : ascii := ascii_of_nat 92.
Definition quote_char : ascii := ascii_of_nat 39.
Definition squote : string := String quote_char EmptyString.

(* src: crates/racfs-plugin-vectorfs/src/fs/mod.rs 570-572 escape_sql_string *)
Definition escape_sql_string (s : string) : string :=
  replace_char quote_char (squote +:+ squote) (replace_char backslash (String backslash (String backslash "")) s).

Definition path_predicate (p : string) : string := "path = " +:+ squote +:+ escape_sql_string p +:+ squote.

Definition millis (d : DateTime) : Z := d / 10 ^ 6.

(* src: crates/racfs-plugin-vectorfs/src/fs/read.rs 9-9 DEFAULT_SEARCH_LIMIT *)
Definition DEFAULT_SEARCH_LIMIT : Z := 10.
(* src: crates/racfs-plugin-vectorfs/src/fs/read.rs 12-12 MAX_SEARCH_LIMIT *)
Definition MAX_SEARCH_LIMIT : Z := 1000.

Definition is_ascii_whitespace (b : u8) : bool :=
  let v := byte_val b in (v =? 32) || (v =? 9) || (v =? 10) || (v =? 12) || (v =? 13).

(** [position] of the first byte that is not white space. *)
Fixpoint first_visible (b : bytes) : option Z :=
  match b with
  | [] => None
  | c :: b => if is_ascii_whitespace c then Z.succ <$> first_visible b else Some 0
  end.

(* src: crates/racfs-plugin-vectorfs/src/fs/read.rs 40-51 trim_whitespace *)
Definition trim_whitespace (b : bytes) : Res bytes :=
  let start := default (len b) (first_visible b) in
  let stop := default 0 ((fun i => len b - i) <$> first_visible (rev b)) in
  slice start stop b.

(** [obj.get(k)]: of a name that comes twice the last one stays. *)
Definition object_get (k : string) (fields : list (string * Json)) : option Json :=
  last (map snd (List.filter (fun kv => String.eqb (fst kv) k) fields)).

Definition as_u64 (v : Json) : option Z :=
  match v with JNum n => if in_u64 n then Some n else None | _ => None end.

(* src: crates/racfs-plugin-vectorfs/src/fs/read.rs 16-38 parse_query_and_limit *)
Definition parse_query_and_limit `{JsonText} (query_bytes : bytes) : Res (bytes * Z) :=
  trimmed ← trim_whitespace query_bytes;
  if bool_decide (trimmed = []) then Ok ([], DEFAULT_SEARCH_LIMIT)
  else
    match t ← from_utf8 trimmed; json_from_str t with
    | Some (JObj obj) =>
      let query := v ← object_get "query" obj; match v with JStr s => Some (as_bytes s) | _ => None end in
      let limit := default DEFAULT_SEARCH_LIMIT (v ← object_get "limit" obj; as_u64 v) in
      Ok (default query_bytes query, Z.max 1 (Z.min limit MAX_SEARCH_LIMIT))
    | _ => Ok (query_bytes, DEFAULT_SEARCH_LIMIT)
    end.

(** The name of a search, from the path of one of its files. *)
Definition query_id_of (suffix path_str : string) : string :=
  trim_end_str "/" (trim_end_str suffix (trim_start_str "/search/" path_str)).
Definition is_query_file (s : string) : bool := contains_str s "/search/" && ends_with s "/query.txt".
Definition is_matches_file (s : string) : bool := contains_str s "/search/" && ends_with s "/matches.txt".

(** ** The helpers *)

Section Ops.
Context `{BuildProfile} `{JsonText} {W : Type} `{Lance W} `{EmbedApi W}.
Context (iter_meta : PathMap FileMetadata -> list (Path * FileMetadata)).
Context (iter_names : gmap string bytes -> list string).
Implicit Types (now : Now) (p : Path) (s : VectorFS W).
Abbreviation Op := (FsOp (VectorFS W)).

Definition set_world (w : W) s : VectorFS W :=
  mkVectorFS (config s) (embedding_client s) w (metadata s) (search_queries s) (xattrs s).
Definition set_metadata m s : VectorFS W :=
  mkVectorFS (config s) (embedding_client s) (world s) m (search_queries s) (xattrs s).
Definition set_queries q s : VectorFS W :=
  mkVectorFS (config s) (embedding_client s) (world s) (metadata s) q (xattrs s).
Definition set_xattrs x s : VectorFS W :=
  mkVectorFS (config s) (embedding_client s) (world s) (metadata s) (search_queries s) x.

(** A call of the table or of the service, whose error becomes one of [FSError]. *)
Definition on_world {E A} (err : E -> FSError) (m : M W E A) : Op A := fun s =>
  (map_err err (fst (m (world s))), set_world (snd (m (world s))) s).

Definition update_meta p (f : FileMetadata -> FileMetadata) : Op () :=
  modify (fun s => set_metadata (pm_update p f (metadata s)) s).

(* src: crates/racfs-plugin-vectorfs/src/fs/mod.rs 168-200 VectorFS::init_virtual_paths *)
Definition init_virtual_paths now (c : VectorConfig) : PathMap FileMetadata :=
  let dim_str := to_string (dimension c) in
  pm_insert "/search" (directory (now_from 18 now) "/search")
    (pm_insert "/index/status" (file (now_from 15 now) "/index/status" 5)
      (pm_insert "/index/dimension" (file (now_from 12 now) "/index/dimension" (str_len dim_str))
        (pm_insert "/index/count" (file (now_from 9 now) "/index/count" 0)
          (pm_insert "/index" (directory (now_from 6 now) "/index")
            (pm_insert "/documents" (directory (now_from 3 now) "/documents")
              (pm_insert "/" (directory now "/") ∅)))))).

(* src: crates/racfs-plugin-vectorfs/src/fs/mod.rs 203-206 VectorFS::is_virtual_path *)
Definition is_virtual_path p : bool := starts_with p "/index/" || starts_with p "/search/".

(* src: crates/racfs-plugin-vectorfs/src/fs/mod.rs 209-213 VectorFS::document_count *)
Definition document_count : Op Z := on_world (fun e => Io ("LanceDB count_rows: " +:+ e)) lance_count.

Definition query_error (executing collecting : string) (e : QueryError) : FSError :=
  match e with
  | AtNearest e => Io ("LanceDB nearest_to: " +:+ e)
  | AtExecute e => Io ("LanceDB " +:+ executing +:+ ": " +:+ e)
  | AtCollect e => Io ("LanceDB " +:+ collecting +:+ " collect: " +:+ e)
  end.

(** [ok_or_else] on a column. *)
Definition column {A} (c : option A) (name : string) : Res A := ok_or c (Io ("LanceDB: " +:+ name)).

(** The first row of the first batch: data, vector, mode, times. *)
Abbreviation Row := (bytes * list f32 * Z * option Z * option Z)%type.
Definition first_row (batches : list Batch) : Res (option Row) :=
  match batches with
  | b :: _ =>
    if (num_rows b =? 0)%nat then Ok None
    else
      path_col ← column (col_path b) "path column";
      data_col ← column (col_data b) "data column";
      vector_col ← column (col_vector b) "vector column";
      mode_col ← column (col_mode b) "mode column";
      match cell path_col 0, cell data_col 0, cell mode_col 0 with
      | Some _, Some data, Some mode =>
        let created_at := c ← col_created b; cell c 0 in
        let modified_at := c ← col_modified b; cell c 0 in
        vector ← (match cell vector_col 0 with
                  | None => Ok []
                  | Some inner => column inner "vector inner Float32"
                  end);
        Ok (Some (data, vector, mode, created_at, modified_at))
      | _, _, _ => Ok None
      end
  | [] => Ok None
  end.

(* src: crates/racfs-plugin-vectorfs/src/fs/mod.rs 221-305 VectorFS::get_document *)
Definition get_document p : Op (option Row) :=
  batches ← on_world (query_error "query by path" "query") (lance_query (Some (path_predicate p)) (Some 1));
  lift (first_row batches).

(** The rows of a batch that have a path, with the distance negated. *)
Definition batch_results (b : Batch) : list (Path * f32) :=
  match col_path b with
  | None => []
  | Some path_col =>
    omap (fun i => p ← cell path_col i;
                   Some (p, default f32_zero (f32_neg <$> (d ← col_distance b; cell d i))))
         (seq 0 (num_rows b))
  end.

(* src: crates/racfs-plugin-vectorfs/src/fs/mod.rs 310-377 VectorFS::search *)
Definition search (query : list f32) (limit : Z) : Op (list (Path * f32)) :=
  s ← get;
  fail_if (negb (len query =? dimension (config s)))
    (InvalidInput ("query dimension " +:+ to_string (len query) +:+ " != config dimension "
                   +:+ to_string (dimension (config s)))) ;;
  batches ← on_world (query_error "vector search" "search") (lance_nearest query limit);
  mret (concat (map batch_results batches)).

(* src: crates/racfs-plugin-vectorfs/src/fs/mod.rs 380-429 VectorFS::persist_document *)
Definition persist_document (path_str : string) (data : bytes) (vector : list f32) (mode : Z)
    (created_at modified_at : option Z) : Op () :=
  s ← get;
  let d := {| doc_path := path_str; doc_data := data; doc_vector := vector; doc_mode := mode;
              doc_created := default 0 created_at; doc_modified := default 0 modified_at |} in
  lift (map_err (fun e => Io ("RecordBatch: " +:+ e)) (record_batch (dimension (config s)) d)) ;;
  on_world (fun e => Io ("LanceDB merge_insert: " +:+ e)) (lance_merge_insert "path" d).

(* src: crates/racfs-plugin-vectorfs/src/fs/mod.rs 432-441 VectorFS::delete_from_db *)
Definition delete_from_db (path_str : string) : Op () :=
  on_world (fun e => Io ("LanceDB delete: " +:+ e)) (lance_delete (path_predicate path_str)).

(** *** Vectors *)

Fixpoint lcg_values (n : nat) (lcg : Z) : list f32 :=
  match n with
  | O => []
  | S n =>
    let lcg := u64_wrap (u64_wrap (lcg * 1103515245) + 12345) in
    f32_div (f32_of (Z.land (Z.shiftr lcg 16) (2 ^ 15 - 1))) (f32_of 32768) :: lcg_values n lcg
  end.

(* src: crates/racfs-plugin-vectorfs/src/fs/mod.rs 444-459 VectorFS::seed_to_vector *)
Definition seed_to_vector (dim seed : Z) : list f32 :=
  let vector := lcg_values (Z.to_nat dim) seed in
  let magnitude := f32_sqrt (fold_left f32_add (map (fun x => f32_mul x x) vector) f32_zero) in
  if SFltb f32_zero magnitude then map (fun v => f32_div v magnitude) vector else vector.

(* src: crates/racfs-plugin-vectorfs/src/fs/mod.rs 462-468 VectorFS::content_to_vector *)
Definition content_to_vector (dim : Z) (content : bytes) : list f32 := seed_to_vector dim (hash_bytes content).

Definition is_success (status : Z) : bool := (200 <=? status) && (status <=? 299).

(* src: crates/racfs-plugin-vectorfs/src/fs/mod.rs 471-521 VectorFS::embed_content *)
Definition embed_content (content : bytes) : Op (list f32) :=
  s ← get;
  if negb (embedding_client s) then mret (content_to_vector (dimension (config s)) content)
  else
    url ← lift (ok_or (embedding_api (config s)) (InvalidInput "embedding_api not set"));
    text ← lift (ok_or (from_utf8 content) (InvalidInput "Content must be valid UTF-8 when using embedding API"));
    let endpoint := trim_end_str "/" url +:+ "/embed" in
    res ← on_world (fun e => InvalidInput ("Embedding API request failed: " +:+ e)) (embed_post endpoint text);
    body ← lift (map_err (fun e => InvalidInput ("Embedding API response read failed: " +:+ e)) (er_body res));
    fail_if (negb (is_success (er_status res)))
      (InvalidInput ("Embedding API returned " +:+ status_text (er_status res) +:+ ": " +:+ from_utf8_lossy body)) ;;
    vec ← lift (map_err (fun e => InvalidInput ("Embedding API response not JSON array: " +:+ e)) (floats_from_slice body));
    fail_if (negb (len vec =? dimension (config s)))
      (InvalidInput ("Embedding API returned dimension " +:+ to_string (len vec) +:+ " but expected "
                     +:+ to_string (dimension (config s)))) ;;
    mret vec.

(* src: crates/racfs-plugin-vectorfs/src/fs/mod.rs 524-538 VectorFS::parse_vector_xattr *)
Definition parse_vector_xattr (value : bytes) (dim : Z) : Res (list f32) :=
  vec ← map_err (fun e => InvalidInput ("racfs.vector xattr must be JSON array of numbers: " +:+ e)) (floats_from_slice value);
  if negb (len vec =? dim)
  then Err (InvalidInput ("racfs.vector dimension " +:+ to_string (len vec) +:+ " does not match config dimension "
                          +:+ to_string dim))
  else Ok vec.

(* src: crates/racfs-plugin-vectorfs/src/fs/mod.rs 541-567 VectorFS::list_document_paths *)
Definition list_document_paths : Op (list Path) :=
  batches ← on_world (query_error "list paths" "list") (lance_query None None);
  mret (concat (map (fun b => match col_path b with Some c => omap (fun o => o) c | None => [] end) batches)).

(** ** Reading *)

(** The range of the virtual files of a search: the casts come before the sum. *)
Definition search_range (data : bytes) (offset size : Z) : Res bytes :=
  let start := i64_as_usize (Z.max offset 0) in
  e ← (if size <? 0 then Ok (len data)
       else n ← usize_add (i64_as_usize offset) (i64_as_usize size); Ok (Z.min n (len data)));
  if len data <=? start then Ok [] else slice start e data.

(** [serde_json::to_vec(..).unwrap_or_else(|_| b"[]".to_vec())] *)
Definition matches_text (l : list (Path * f32)) : bytes := default (as_bytes "[]") (matches_json l).

(* src: crates/racfs-plugin-vectorfs/src/fs/read.rs 55-193 VectorFS::read *)
Definition read now p (offset size : Z) : Op bytes :=
  if String.eqb p "/index/count" then
    count ← document_count; lift (read_range (as_bytes (to_string count)) offset size)
  else if String.eqb p "/index/status" then lift (read_range (as_bytes "ready") offset size)
  else if String.eqb p "/index/dimension" then
    s ← get; lift (read_range (as_bytes (to_string (dimension (config s)))) offset size)
  else if starts_with p "/documents/" then
    row ← get_document p;
    match row with
    | Some (data, _, _, _, _) => lift (read_range data offset size)
    | None => fail (NotFound p)
    end
  else if is_query_file p then
    s ← get;
    lift (search_range (default [] (search_queries s !! query_id_of "/query.txt" p)) offset size)
  else if is_matches_file p then
    s ← get;
    let query_bytes := default [] (search_queries s !! query_id_of "/matches.txt" p) in
    '(query_for_embed, limit) ← lift (parse_query_and_limit query_bytes);
    query_vector ← embed_content query_for_embed;
    results ← search query_vector limit;
    lift (search_range (matches_text results) offset size)
  else fail (NotFound p).

Definition stat_metadata p : Op FileMetadata :=
  s ← get; lift (ok_or (pm_get p (metadata s)) (NotFound p)).

(* src: crates/racfs-plugin-vectorfs/src/fs/read.rs 195-272 VectorFS::stat *)
Definition stat now p : Op FileMetadata :=
  s ← get;
  if String.eqb p "/index/count" then
    meta ← stat_metadata p; count ← document_count; mret (set_size count meta)
  else if String.eqb p "/index/status" || String.eqb p "/index/dimension" then stat_metadata p
  else
    match (if is_query_file p then pm_get p (metadata s) else None) with
    | Some meta =>
      mret (set_size (default 0 (len <$> search_queries s !! query_id_of "/query.txt" p)) meta)
    | None =>
      match (if is_matches_file p then pm_get p (metadata s) else None) with
      | Some meta => mret (set_size 0 meta)
      | None =>
        row ← (if starts_with p "/documents/" then get_document p else mret None);
        match row with
        | Some (data, _, mode, created_at, modified_at) =>
          let modified := m ← modified_at; from_timestamp_millis m in
          mret {| path := p; size := len data; Metadata.mode := mode;
                  created := c ← created_at; from_timestamp_millis c;
                  modified := modified; accessed := modified;
                  is_symlink_flag := false; symlink_target := None |}
        | None => stat_metadata p
        end
      end
    end.

(** ** Writing *)

(* src: crates/racfs-plugin-vectorfs/src/fs/write.rs 11-41 VectorFS::create *)
Definition create now p : Op () :=
  s ← get;
  fail_if (is_virtual_path p) (PermissionDenied p) ;;
  fail_if (negb (starts_with p "/documents/")) (NotSupported "Can only create files in /documents/") ;;
  row ← get_document p;
  fail_if (bool_decide (is_Some row)) (AlreadyExists p) ;;
  let n := millis (now 0%nat) in
  persist_document p [] (content_to_vector (dimension (config s)) []) (octal 644) (Some n) (Some n) ;;
  modify (fun s => set_metadata (pm_insert p (file (now_from 1 now) p 0) (metadata s)) s).

(** The text of a search after a write. *)
Definition write_query (content : bytes) (offset flags : Z) : M bytes FSError () :=
  stored ← get;
  if (offset <=? 0) && negb (WriteFlags.contains_append flags) then put content
  else if WriteFlags.contains_append flags || (len stored <=? i64_as_usize offset) then
    update_state (extend_from_slice content)
  else
    let start := i64_as_usize offset in
    e ← lift (usize_add start (len content));
    (if len stored <? e then update_state (resize e Byte.x00) else mret ()) ;;
    update_state (copy_from_slice start content).

(** The vector of a document: the one of its attribute, when it has one of the
    right length, or that of its content. *)
Definition document_vector p (content : bytes) : Op (list f32) :=
  s ← get;
  match (m ← pm_get p (xattrs s); m !! "racfs.vector") with
  | Some value =>
    match parse_vector_xattr value (dimension (config s)) with
    | Ok v => mret v
    | _ => embed_content content
    end
  | None => embed_content content
  end.

(* src: crates/racfs-plugin-vectorfs/src/fs/write.rs 43-165 VectorFS::write *)
Definition write now p (content : bytes) (offset flags : Z) : Op Z :=
  if is_query_file p then
    let query_id := query_id_of "/query.txt" p in
    fail_if (String.eqb query_id "" || contains_char query_id slash) (PermissionDenied p) ;;
    s ← get;
    stored ← lift (ok_or (search_queries s !! query_id) (NotFound p));
    let '(r, stored') := write_query content offset flags stored in
    modify (fun s => set_queries (<[query_id := stored']> (search_queries s)) s) ;;
    lift r ;;
    update_meta p (set_size (len stored')) ;;
    mret (len content)
  else
    fail_if (is_virtual_path p) (PermissionDenied p) ;;
    fail_if (negb (starts_with p "/documents/")) (NotSupported "Can only write to files in /documents/") ;;
    row ← get_document p;
    match row with
    | None => fail (NotFound p)
    | Some (existing_data, _, mode, created_at, _) =>
      new_data ← lift (new_content content offset flags existing_data);
      vector ← document_vector p new_data;
      let modified_at := millis (now 0%nat) in
      persist_document p new_data vector mode created_at (Some modified_at) ;;
      update_meta p (fun m => set_modified (from_timestamp_millis modified_at) (set_size (len new_data) m)) ;;
      count ← document_count;
      update_meta "/index/count" (set_size count) ;;
      mret (len content)
    end.

(** ** Directories *)

(* src: crates/racfs-plugin-vectorfs/src/fs/dir.rs 10-45 VectorFS::mkdir *)
Definition mkdir now p (_perm : Z) : Op () :=
  fail_if (negb (starts_with p "/search/")) (NotSupported "Can only create directories under /search/") ;;
  s ← get;
  fail_if (pm_contains p (metadata s)) (AlreadyExists p) ;;
  let query_path := join p "query.txt" in
  let matches_path := join p "matches.txt" in
  modify (fun s => set_metadata
    (pm_insert matches_path (file (now_from 6 now) matches_path 0)
      (pm_insert query_path (file (now_from 3 now) query_path 0)
        (pm_insert p (directory now p) (metadata s)))) s) ;;
  let query_id := trim_end_str "/" (trim_start_str "/search/" p) in
  if negb (String.eqb query_id "") && negb (contains_char query_id slash)
  then modify (fun s => set_queries (<[query_id := []]> (search_queries s)) s)
  else mret ().

(** The entry of a key in a listing, as it is stored. *)
Definition dir_item (prefix : string) (kv : Path * FileMetadata) : option FileMetadata :=
  direct_child prefix (fst kv) ≫= (fun _ => Some (snd kv)).

(** The documents right below [/documents], each with readings of its own. *)
Fixpoint document_items (k : nat) now (paths : list Path) : list FileMetadata :=
  match paths with
  | [] => []
  | p :: rest =>
    if match parent p with Some q => path_eqb q "/documents" | None => false end
    then file (now_from k now) p 0 :: document_items (3 + k) now rest
    else document_items k now rest
  end.

(* src: crates/racfs-plugin-vectorfs/src/fs/dir.rs 47-98 VectorFS::read_dir *)
Definition read_dir now p : Op (list FileMetadata) :=
  s ← get;
  let entries := omap (dir_item (dir_prefix p)) (iter_meta (metadata s)) in
  if String.eqb p "/documents" then
    doc_paths ← list_document_paths; mret (entries ++ document_items 0 now doc_paths)
  else mret entries.

Definition index_path p : bool := is_virtual_path p && starts_with p "/index/".

(** The half of [remove] that runs with the metadata locked. *)
(* src: crates/racfs-plugin-vectorfs/src/fs/dir.rs 118-137 VectorFS::remove *)
Definition remove_search p : Op bool :=
  s ← get;
  fail_if (existsb (fun q => negb (path_eqb q p) && path_starts_with q p) (pm_keys (metadata s))) DirectoryNotEmpty ;;
  let removed := pm_contains p (metadata s) in
  modify (fun s => set_metadata (pm_remove p (metadata s)) s) ;;
  let query_id := trim_end_str "/" (trim_start_str "/search/" p) in
  (if negb (String.eqb query_id "") then
     modify (fun s => set_queries (delete query_id (search_queries s))
       (set_metadata (pm_remove (join p "matches.txt") (pm_remove (join p "query.txt") (metadata s))) s))
   else mret ()) ;;
  mret removed.

(* src: crates/racfs-plugin-vectorfs/src/fs/dir.rs 100-151 VectorFS::remove *)
Definition remove now p : Op () :=
  fail_if (index_path p) (PermissionDenied p) ;;
  removed ← (if starts_with p "/documents/" then
    row ← get_document p;
    r ← (if bool_decide (is_Some row) then delete_from_db p ;; mret true else mret false);
    modify (fun s => set_xattrs (pm_remove p (xattrs s)) s) ;;
    mret r
  else mret false);
  removed ← (if starts_with p "/search/" then r ← remove_search p; mret (r || removed) else mret removed);
  fail_if (negb removed) (NotFound p) ;;
  if starts_with p "/documents/" then modify (fun s => set_metadata (pm_remove p (metadata s)) s) else mret ().

(** The loop over the documents below. *)
Fixpoint remove_documents (ps : list Path) : Op () :=
  match ps with
  | [] => mret ()
  | p :: ps =>
    delete_from_db p ;;
    modify (fun s => set_metadata (pm_remove p (metadata s)) s) ;;
    modify (fun s => set_xattrs (pm_remove p (xattrs s)) s) ;;
    remove_documents ps
  end.

(* src: crates/racfs-plugin-vectorfs/src/fs/dir.rs 153-190 VectorFS::remove_all *)
Definition remove_all now p : Op () :=
  fail_if (index_path p) (PermissionDenied p) ;;
  s ← get;
  if starts_with p "/documents/" then
    let had_meta := pm_contains p (metadata s) in
    paths ← list_document_paths;
    let to_remove := List.filter (fun q => path_starts_with q p) paths in
    remove_documents to_remove ;;
    modify (fun s => set_metadata (pm_remove p (metadata s)) s) ;;
    fail_if (bool_decide (to_remove = []) && negb had_meta) (NotFound p)
  else
    fail_if (negb (pm_contains p (metadata s))) (NotFound p) ;;
    modify (fun s => set_metadata (pm_retain (fun q => negb (path_starts_with q p) || path_eqb q p) (metadata s)) s).

Definition move_xattrs (old_path new_path : Path) : Op () :=
  modify (fun s =>
    match pm_get old_path (xattrs s) with
    | Some m => set_xattrs (pm_insert new_path m (pm_remove old_path (xattrs s))) s
    | None => s
    end).

(** The half of [rename] for documents. *)
(* src: crates/racfs-plugin-vectorfs/src/fs/dir.rs 203-245 VectorFS::rename *)
Definition rename_document now (old_path new_path : Path) : Op () :=
  if path_eqb old_path new_path then mret ()
  else
    row ← get_document old_path;
    match row with
    | None => fail (NotFound old_path)
    | Some (data, vector, mode, created_at, _) =>
      other ← get_document new_path;
      (if bool_decide (is_Some other) then delete_from_db new_path else mret ()) ;;
      delete_from_db old_path ;;
      persist_document new_path data vector mode created_at (Some (millis (now 0%nat))) ;;
      modify (fun s => set_metadata (pm_remove old_path (metadata s)) s) ;;
      let modified := from_timestamp_millis (millis (now 4%nat)) in
      let meta := file (now_from 1 now) new_path (len data) in
      modify (fun s => set_metadata (pm_insert new_path
        {| path := Metadata.path meta; size := Metadata.size meta; Metadata.mode := mode;
           created := c ← created_at; from_timestamp_millis c;
           modified := modified; accessed := modified;
           is_symlink_flag := is_symlink_flag meta; symlink_target := symlink_target meta |} (metadata s)) s) ;;
      move_xattrs old_path new_path
    end.

(* src: crates/racfs-plugin-vectorfs/src/fs/dir.rs 192-285 VectorFS::rename *)
Definition rename now (old_path new_path : Path) : Op () :=
  let unsupported := NotSupported "rename only supported within /documents/ or within /search/" in
  fail_if (starts_with old_path "/index/" || starts_with new_path "/index/") (PermissionDenied old_path) ;;
  if starts_with old_path "/documents/" && starts_with new_path "/documents/" then
    rename_document now old_path new_path
  else if starts_with old_path "/search/" && starts_with new_path "/search/" then
    if path_eqb old_path new_path then mret ()
    else
      s ← get;
      meta ← lift (ok_or (pm_get old_path (metadata s)) (NotFound old_path));
      let new_prefix := if ends_with new_path "/" then new_path else new_path +:+ "/" in
      fail_if (existsb (fun q => starts_with q new_prefix && negb (String.eqb q new_prefix)) (pm_keys (metadata s)))
        DirectoryNotEmpty ;;
      modify (fun s => set_metadata (pm_insert new_path (set_path new_path meta) (pm_remove old_path (metadata s))) s)
  else fail unsupported.

(** ** Modes, sizes and times *)

Definition set_mode_now (d : DateTime) (md : Z) (m : FileMetadata) : FileMetadata :=
  set_modified (Some d) (set_permissions md m).

(* src: crates/racfs-plugin-vectorfs/src/fs/chmod.rs 11-49 VectorFS::chmod *)
Definition chmod now p (md : Z) : Op () :=
  fail_if (index_path p) (PermissionDenied p) ;;
  s ← get;
  fail_if (negb (pm_contains p (metadata s))) (NotFound p) ;;
  update_meta p (set_mode_now (now 0%nat) md) ;;
  row ← (if starts_with p "/documents/" then get_document p else mret None);
  (match row with
   | Some (data, vector, _, created_at, _) =>
     persist_document p data vector md created_at (Some (millis (now 1%nat)))
   | None => mret ()
   end) ;;
  update_meta p (set_mode_now (now 2%nat) md).

(* src: crates/racfs-plugin-vectorfs/src/fs/mod.rs 583-620 VectorFS::truncate *)
Definition truncate now p (n : Z) : Op () :=
  fail_if (is_virtual_path p) (PermissionDenied p) ;;
  fail_if (negb (starts_with p "/documents/")) (NotSupported "Can only truncate files in /documents/") ;;
  row ← get_document p;
  match row with
  | None => fail (NotFound p)
  | Some (data, vector, mode, created_at, _) =>
    d ← lift (if n <? len data then Ok (ztake n data)
              else if len data <? n then resize n Byte.x00 data else Ok data);
    let modified := millis (now 0%nat) in
    persist_document p d vector mode created_at (Some modified) ;;
    update_meta p (fun m => set_modified (from_timestamp_millis modified) (set_size n m))
  end.

(* src: crates/racfs-plugin-vectorfs/src/fs/mod.rs 622-653 VectorFS::touch *)
Definition touch now p : Op () :=
  fail_if (index_path p) (PermissionDenied p) ;;
  fail_if (negb (starts_with p "/documents/")) (NotSupported "Can only touch files in /documents/") ;;
  row ← get_document p;
  match row with
  | Some (data, vector, mode, created_at, _) =>
    let modified := millis (now 0%nat) in
    persist_document p data vector mode created_at (Some modified) ;;
    let t := from_timestamp_millis modified in
    update_meta p (fun m => set_modified t (set_accessed t m))
  | None =>
    create now p ;;
    update_meta p (fun m => set_modified (Some (now 4%nat)) (set_accessed (Some (now 4%nat)) m))
  end.

(** ** Extended attributes *)

(** What the four calls begin with. *)
Definition require_document p : Op () :=
  fail_if (negb (starts_with p "/documents/")) (NotSupported "xattr only supported on document paths") ;;
  row ← get_document p;
  fail_if (negb (bool_decide (is_Some row))) (NotFound p).

Definition no_attribute : FSError := InvalidInput "extended attribute not found".

(* src: crates/racfs-plugin-vectorfs/src/fs/mod.rs 655-676 VectorFS::get_xattr *)
Definition get_xattr now p (name : string) : Op bytes :=
  require_document p ;;
  s ← get;
  per_path ← lift (ok_or (pm_get p (xattrs s)) no_attribute);
  lift (ok_or (per_path !! name) no_attribute).

(* src: crates/racfs-plugin-vectorfs/src/fs/mod.rs 678-695 VectorFS::set_xattr *)
Definition set_xattr now p (name : string) (value : bytes) : Op () :=
  require_document p ;;
  modify (fun s => set_xattrs (pm_insert p (<[name := value]> (default ∅ (pm_get p (xattrs s)))) (xattrs s)) s).

(* src: crates/racfs-plugin-vectorfs/src/fs/mod.rs 697-716 VectorFS::remove_xattr *)
Definition remove_xattr now p (name : string) : Op () :=
  require_document p ;;
  s ← get;
  per_path ← lift (ok_or (pm_get p (xattrs s)) no_attribute);
  lift (ok_or (per_path !! name) no_attribute) ;;
  modify (fun s => set_xattrs (pm_update p (delete name) (xattrs s)) s).

(* src: crates/racfs-plugin-vectorfs/src/fs/mod.rs 718-735 VectorFS::list_xattr *)
Definition list_xattr now p : Op (list string) :=
  require_document p ;;
  s ← get;
  mret (default [] (iter_names <$> pm_get p (xattrs s))).

#[global] Instance vectorfs_filesystem : FileSystem (VectorFS W) := {
  fs_read := read; fs_stat := stat; fs_create := create; fs_write := write;
  fs_mkdir := mkdir; fs_read_dir := read_dir; fs_remove := remove;
  fs_remove_all := remove_all; fs_rename := rename; fs_chmod := chmod;
  fs_truncate := truncate; fs_touch := touch; fs_readlink := default_readlink;
  fs_symlink := default_symlink; fs_get_xattr := get_xattr; fs_set_xattr := set_xattr;
  fs_remove_xattr := remove_xattr; fs_list_xattr := list_xattr
}.
End Ops.

(** ** Opening *)

Section Opening.
Context {N W : Type} `{LanceDb N W}.

(* src: crates/racfs-plugin-vectorfs/src/fs/mod.rs 135-165 VectorFS::open_or_create_table *)
Definition open_or_create_table (conn : N) (c : VectorConfig) : Res W :=
  names ← map_err (fun e => Io ("LanceDB list tables: " +:+ e)) (table_names conn);
  if existsb (String.eqb (table_name c)) names then
    map_err (fun e => Io ("LanceDB open_table: " +:+ e)) (open_table conn (table_name c))
  else map_err (fun e => Io ("LanceDB create_table: " +:+ e)) (create_table conn (table_name c) (dimension c)).

(* src: crates/racfs-plugin-vectorfs/src/fs/mod.rs 88-119 VectorFS::with_config_async *)
Definition with_config_async (now : Now) (c : VectorConfig) : Res (VectorFS W) :=
  conn ← map_err (fun e => Io ("LanceDB connect failed: " +:+ e)) (lance_connect (storage_uri c));
  table ← open_or_create_table conn c;
  Ok (mkVectorFS c (bool_decide (is_Some (embedding_api c))) table (init_virtual_paths now c) ∅ ∅).

(* src: crates/racfs-plugin-vectorfs/src/fs/mod.rs 82-84 VectorFS::new_async *)
Definition new_async (now : Now) : Res (VectorFS W) := with_config_async now default_config.

(* src: crates/racfs-plugin-vectorfs/src/fs/mod.rs 128-133 VectorFS::with_config *)
Definition with_config (now : Now) (c : VectorConfig) : Res (VectorFS W) :=
  match with_config_async now c with
  | Err _ => Panic
  | r => r
  end.
End Opening.

(** ** What the table promises

    Rows come back as they were written.  A predicate on a path that has no
    backslash selects the row with that path: the code doubles backslashes,
    which SQL does not undo, so that the law is not stated for the others. *)

Definition batch_of (docs : list Document) : Batch := {|
  num_rows := length docs;
  col_path := Some (map (fun d => Some (doc_path d)) docs);
  col_data := Some (map (fun d => Some (doc_data d)) docs);
  col_vector := Some (map (fun d => Some (Some (doc_vector d))) docs);
  col_mode := Some (map (fun d => Some (doc_mode d)) docs);
  col_created := Some (map (fun d => Some (doc_created d)) docs);
  col_modified := Some (map (fun d => Some (doc_modified d)) docs);
  col_distance := None
|}.

Definition no_backslash (p : string) : bool := negb (contains_char p backslash).

Class LanceLaws (W : Type) `{Lance W} := {
  contents : W -> gmap string Document;
  query_path : forall w p, no_backslash p = true -> exists groups,
    lance_query (Some (path_predicate p)) (Some 1) w = (Ok (map batch_of groups), w) /\
    concat groups = option_list (contents w !! p) /\ Forall (fun g => g <> []) groups;
  query_all : forall w, exists groups,
    lance_query None None w = (Ok (map batch_of groups), w) /\
    concat groups ≡ₚ map snd (map_to_list (contents w));
  count_rows : forall w, lance_count w = (Ok (Z.of_nat (base.size (contents w))), w);
  row_accepted : forall dim d, 0 < dim <= i32_max -> len (doc_vector d) = dim -> record_batch dim d = Ok ();
  merge_row : forall w d, exists w',
    lance_merge_insert "path" d w = (Ok (), w') /\ contents w' = <[doc_path d := d]> (contents w);
  delete_row : forall w p, no_backslash p = true -> exists w',
    lance_delete (path_predicate p) w = (Ok (), w') /\ contents w' = delete p (contents w)
}.

(** ** A map of files, which the documents refine *)

Record Entry := { e_data : bytes; e_mode : Z; e_created : Z; e_modified : Z }.

Definition erase (d : Document) : Entry :=
  {| e_data := doc_data d; e_mode := doc_mode d; e_created := doc_created d; e_modified := doc_modified d |}.

Definition update (data : bytes) (t : Z) (e : Entry) : Entry :=
  {| e_data := data; e_mode := e_mode e; e_created := e_created e; e_modified := t |}.

(** A change of the content of an entry that must exist. *)
Definition spec_update (p : string) (t : Z) (f : bytes -> Res bytes) (reply : FsReply)
    (m : gmap string Entry) : Res FsReply * gmap string Entry :=
  match m !! p with
  | None => (Err (NotFound p), m)
  | Some e =>
    match f (e_data e) with
    | Ok data => (Ok reply, <[p := update data t e]> m)
    | Err e => (Err e, m)
    | Panic => (Panic, m)
    | Diverge => (Diverge, m)
    end
  end.

Definition spec_call `{BuildProfile} (now : Now) (c : FsCall) (m : gmap string Entry)
  : Res FsReply * gmap string Entry :=
  let t := millis (now 0%nat) in
  let fresh := {| e_data := []; e_mode := octal 644; e_created := t; e_modified := t |} in
  match c with
  | CRead p o n =>
    (match m !! p with Some e => RBytes <$> read_range (e_data e) o n | None => Err (NotFound p) end, m)
  | CCreate p =>
    match m !! p with Some _ => (Err (AlreadyExists p), m) | None => (Ok RUnit, <[p := fresh]> m) end
  | CTouch p =>
    match m !! p with
    | Some e => (Ok RUnit, <[p := update (e_data e) t e]> m)
    | None => (Ok RUnit, <[p := fresh]> m)
    end
  | CWrite p d o f => spec_update p t (spec_write d o f) (RCount (len d)) m
  | CTruncate p n => spec_update p t (spec_truncate n) RUnit m
  | CRemove p => match m !! p with Some _ => (Ok RUnit, delete p m) | None => (Err (NotFound p), m) end
  | CRename p q =>
    if path_eqb p q then (Ok RUnit, m)
    else
      match m !! p with
      | Some e => (Ok RUnit, <[q := update (e_data e) t e]> (delete p m))
      | None => (Err (NotFound p), m)
      end
  | _ => (Ok RUnit, m)
  end.

(** The calls that the map answers. *)
Definition document_path (p : Path) : bool := starts_with p "/documents/" && no_backslash p.
Definition document_call (c : FsCall) : bool :=
  call_wf c &&
  match c with
  | CRead p _ _ | CCreate p | CTruncate p _ | CRemove p | CTouch p => document_path p
  | CWrite p _ _ _ => document_path p && negb (is_query_file p)
  | CRename p q => document_path p && document_path q
  | _ => false
  end.

(** ** The calls on documents *)

Section Documents.
Context `{BuildProfile} `{JsonText} {W : Type} `{LanceLaws W} `{EmbedApi W}.
Context (iter_meta : PathMap FileMetadata -> list (Path * FileMetadata)).
Context (iter_names : gmap string bytes -> list string).
Implicit Types (now : Now) (p : Path) (s : VectorFS W) (m : gmap string Entry) (d : Document).

Definition docs s : gmap string Entry := erase <$> contents (world s).

(** The rows fit the schema and the memory, and no service makes the vectors. *)
Definition doc_inv s : Prop :=
  embedding_client s = false /\ 0 < dimension (config s) <= i32_max /\
  map_Forall (fun _ d => len (doc_vector d) = dimension (config s) /\ len (doc_data d) <= isize_max)
    (contents (world s)).

Definition sim s m : Prop := doc_inv s /\ docs s = m.

Definition row_of d : bytes * list f32 * Z * option Z * option Z :=
  (doc_data d, doc_vector d, doc_mode d, Some (doc_created d), Some (doc_modified d)).

Lemma set_same_world s : set_world (world s) s = s.
Proof. by destruct s. Qed.

Lemma first_row_groups groups :
  Forall (fun g => g <> []) groups -> first_row (map batch_of groups) = Ok (row_of <$> head (concat groups)).
Proof. intros Hg. destruct Hg as [|[|d g] gs Hne _]; [done|done|reflexivity]. Qed.

Lemma get_document_spec p s :
  no_backslash p = true -> get_document p s = (Ok (row_of <$> contents (world s) !! p), s).
Proof.
  intros Hp. destruct (query_path (world s) p Hp) as (groups & Hq & Hc & Hne).
  unfold get_document. erewrite bind_ok by (unfold on_world; rewrite Hq; reflexivity).
  unfold lift. cbn [snd]. rewrite set_same_world, first_row_groups, Hc by done.
  by destruct (contents (world s) !! p).
Qed.

Lemma docs_lookup s p : docs s !! p = erase <$> contents (world s) !! p.
Proof. apply lookup_fmap. Qed.

(** What keeps the table keeps the relation. *)
Lemma sim_frame s s' m :
  config s' = config s -> embedding_client s' = embedding_client s -> world s' = world s -> sim s m -> sim s' m.
Proof. unfold sim, doc_inv, docs. by intros -> -> ->. Qed.

Lemma sim_row s m p d :
  sim s m -> contents (world s) !! p = Some d -> m !! p = Some (erase d) /\
  len (doc_vector d) = dimension (config s) /\ len (doc_data d) <= isize_max.
Proof.
  intros [(_ & _ & Hrows) <-] Hd. rewrite docs_lookup, Hd. split; [done|]. exact (Hrows _ _ Hd).
Qed.

Lemma sim_no_row s m p : sim s m -> contents (world s) !! p = None -> m !! p = None.
Proof. intros [_ <-] Hd. by rewrite docs_lookup, Hd. Qed.

(** A row is written. *)
Lemma persist_spec p data v mode created modified s m :
  sim s m -> len v = dimension (config s) -> len data <= isize_max ->
  exists w', persist_document p data v mode (Some created) (Some modified) s = (Ok (), set_world w' s) /\
    sim (set_world w' s)
      (<[p := {| e_data := data; e_mode := mode; e_created := created; e_modified := modified |}]> m).
Proof.
  intros [(Hc & Hdim & Hrows) <-] Hv Hdata.
  set (d := {| doc_path := p; doc_data := data; doc_vector := v; doc_mode := mode;
               doc_created := created; doc_modified := modified |}).
  destruct (merge_row (world s) d) as (w' & Hm & Hw'). exists w'. split.
  - unfold persist_document. erewrite bind_ok by reflexivity.
    change (default 0 (Some created)) with created. change (default 0 (Some modified)) with modified. fold d.
    erewrite bind_ok by (unfold lift; rewrite (row_accepted _ d) by done; reflexivity).
    unfold on_world. by rewrite Hm.
  - split; [split; [done|split; [done|]]|].
    + cbn [world set_world config]. rewrite Hw'. by apply map_Forall_insert_2.
    + unfold docs. cbn [world set_world]. rewrite Hw', fmap_insert. reflexivity.
Qed.

Lemma delete_spec p s m :
  no_backslash p = true -> sim s m ->
  exists w', delete_from_db p s = (Ok (), set_world w' s) /\ sim (set_world w' s) (delete p m).
Proof.
  intros Hp [(Hc & Hdim & Hrows) <-]. destruct (delete_row (world s) p Hp) as (w' & Hd & Hw').
  exists w'. unfold delete_from_db, on_world. rewrite Hd. split; [done|]. split; [split; [done|split; [done|]]|].
  - cbn [world set_world config]. rewrite Hw'. by apply map_Forall_delete.
  - unfold docs. cbn [world set_world]. by rewrite Hw', fmap_delete.
Qed.

Lemma count_spec s : exists n, document_count s = (Ok n, s).
Proof. eexists. unfold document_count, on_world. rewrite count_rows. cbn. by rewrite set_same_world. Qed.

(** *** Vectors have the length of the schema *)

Lemma length_lcg_values n x : length (lcg_values n x) = n.
Proof. revert x. induction n as [|n IH]; intros x; [done|]. cbn [lcg_values length]. by rewrite IH. Qed.

Lemma len_content_to_vector dim content : 0 <= dim -> len (content_to_vector dim content) = dim.
Proof.
  intros Hd. unfold content_to_vector, seed_to_vector, len.
  destruct (SFltb _ _); rewrite ?length_map, length_lcg_values; lia.
Qed.

Lemma parse_vector_xattr_len value dim v : parse_vector_xattr value dim = Ok v -> len v = dim.
Proof.
  unfold parse_vector_xattr. destruct (map_err _ _) as [u| | |]; try discriminate. cbn.
  destruct (len u =? dim) eqn:E; [|discriminate]. intros [= <-]. by apply Z.eqb_eq.
Qed.

Lemma document_vector_spec p content s m :
  sim s m -> exists v, document_vector p content s = (Ok v, s) /\ len v = dimension (config s).
Proof.
  intros [(Hc & Hdim & _) _].
  assert (He : embed_content content s = (Ok (content_to_vector (dimension (config s)) content), s)).
  { unfold embed_content. erewrite bind_ok by reflexivity. by rewrite Hc. }
  assert (Hl := len_content_to_vector (dimension (config s)) content ltac:(lia)).
  unfold document_vector. erewrite bind_ok by reflexivity.
  destruct (pm_get p (xattrs s) ≫= _) as [value|]; [|eauto].
  destruct (parse_vector_xattr value _) as [v| | |] eqn:E; [|eauto..].
  exists v. split; [done|]. by eapply parse_vector_xattr_len.
Qed.

(** *** One call *)

Abbreviation agrees := (FileSystem.agrees sim).

Lemma document_path_inv p :
  document_path p = true ->
  starts_with p "/documents/" = true /\ no_backslash p = true /\ is_virtual_path p = false /\
  index_path p = false /\ starts_with p "/search/" = false /\ starts_with p "/index/" = false.
Proof.
  unfold document_path. intros [Hd Hb]%andb_true_iff. destruct (prefix_inv p "/documents/" Hd) as [q ->].
  repeat split; assumption || reflexivity.
Qed.

Ltac on_document Hp :=
  let Hd := fresh "Hd" in let Hb := fresh "Hb" in let Hv := fresh "Hv" in
  let Hi := fresh "Hi" in let Hs := fresh "Hs" in let Hx := fresh "Hx" in
  destruct (document_path_inv _ Hp) as (Hd & Hb & Hv & Hi & Hs & Hx).

(** The row of a path, with what the map says of it. *)
Lemma row_cases p s m :
  no_backslash p = true -> sim s m ->
  (get_document p s = (Ok None, s) /\ m !! p = None) \/
  (exists d, get_document p s = (Ok (Some (row_of d)), s) /\ m !! p = Some (erase d) /\
    len (doc_vector d) = dimension (config s) /\ len (doc_data d) <= isize_max).
Proof.
  intros Hb Hsim. rewrite (get_document_spec p s Hb).
  destruct (contents (world s) !! p) as [d|] eqn:E; [right|left].
  - exists d. split; [done|]. by apply sim_row.
  - split; [done|]. by eapply sim_no_row.
Qed.

Lemma read_agrees now p offset n s m :
  document_path p = true -> sim s m -> agrees RBytes (read now p offset n s) (spec_call now (CRead p offset n) m).
Proof.
  intros Hp Hsim. on_document Hp.
  assert (Hne : forall q, starts_with q "/documents/" = false -> String.eqb p q = false).
  { intros q Hq. apply String.eqb_neq. intros ->. congruence. }
  unfold read. rewrite !Hne, Hd by reflexivity.
  destruct (row_cases p s m Hb Hsim) as [[Hg Hm]|(d & Hg & Hm & _)];
    erewrite bind_ok by exact Hg; unfold FileSystem.agrees, spec_call; rewrite Hm; split; try done.
Qed.

Lemma create_agrees now p s m :
  document_path p = true -> sim s m ->
  agrees (fun _ => RUnit) (create now p s) (spec_call now (CCreate p) m).
Proof.
  intros Hp Hsim. on_document Hp.
  unfold create. erewrite bind_ok by reflexivity. rewrite Hv, Hd. cbn [negb fail_if].
  do 2 erewrite bind_ok by reflexivity.
  destruct (row_cases p s m Hb Hsim) as [[Hg Hm]|(d & Hg & Hm & _)];
    erewrite bind_ok by exact Hg; unfold FileSystem.agrees, spec_call; rewrite Hm; [|done].
  erewrite bind_ok by reflexivity.
  destruct (persist_spec p [] (content_to_vector (dimension (config s)) []) (octal 644)
    (millis (now 0%nat)) (millis (now 0%nat)) s m Hsim) as (w' & Hw & Hsim').
  - apply len_content_to_vector. destruct Hsim as [(_ & ? & _) _]. lia.
  - by vm_compute.
  - erewrite bind_ok by exact Hw. split; [done|]. by eapply sim_frame, Hsim'.
Qed.

Lemma truncate_agrees now p n s m :
  document_path p = true -> 0 <= n -> sim s m ->
  agrees (fun _ => RUnit) (truncate now p n s) (spec_call now (CTruncate p n) m).
Proof.
  intros Hp Hn Hsim. on_document Hp.
  unfold truncate. rewrite Hv, Hd. cbn [negb fail_if]. do 2 erewrite bind_ok by reflexivity.
  destruct (row_cases p s m Hb Hsim) as [[Hg Hm]|(d & Hg & Hm & Hlv & Hld)];
    erewrite bind_ok by exact Hg; unfold FileSystem.agrees, spec_call, spec_update; rewrite Hm; [done|].
  cbn [row_of erase e_data]. rewrite truncate_spec by done.
  destruct (spec_truncate n (doc_data d)) as [data| | |] eqn:E; [|done..].
  erewrite bind_ok by reflexivity.
  destruct (persist_spec p data (doc_vector d) (doc_mode d) (doc_created d) (millis (now 0%nat)) s m Hsim)
    as (w' & Hw & Hsim'); [done|by eapply spec_truncate_len|].
  erewrite bind_ok by exact Hw. split; [done|]. by eapply sim_frame, Hsim'.
Qed.

Lemma touch_agrees now p s m :
  document_path p = true -> sim s m ->
  agrees (fun _ => RUnit) (touch now p s) (spec_call now (CTouch p) m).
Proof.
  intros Hp Hsim. on_document Hp. pose proof (create_agrees now p s m Hp Hsim) as Hcreate.
  unfold touch. rewrite Hi, Hd. cbn [negb fail_if]. do 2 erewrite bind_ok by reflexivity.
  destruct (row_cases p s m Hb Hsim) as [[Hg Hm]|(d & Hg & Hm & Hlv & Hld)];
    erewrite bind_ok by exact Hg; unfold FileSystem.agrees, spec_call in *; rewrite Hm in *.
  - destruct (create now p s) as [[[]| | |] s'] eqn:E; destruct Hcreate as [Hr Hs']; try discriminate.
    erewrite bind_ok by exact E. split; [done|]. by eapply sim_frame, Hs'.
  - cbn [row_of]. destruct (persist_spec p (doc_data d) (doc_vector d) (doc_mode d) (doc_created d)
      (millis (now 0%nat)) s m Hsim) as (w' & Hw & Hsim'); [done..|].
    erewrite bind_ok by exact Hw. split; [done|]. by eapply sim_frame, Hsim'.
Qed.

Lemma write_agrees now p content offset flags s m :
  document_path p = true -> is_query_file p = false -> in_i64 offset = true -> len content <= isize_max -> sim s m ->
  agrees RCount (write now p content offset flags s) (spec_call now (CWrite p content offset flags) m).
Proof.
  intros Hp Hq Ho Hc Hsim. on_document Hp.
  unfold write. rewrite Hq, Hv, Hd. cbn [negb fail_if]. do 2 erewrite bind_ok by reflexivity.
  destruct (row_cases p s m Hb Hsim) as [[Hg Hm]|(d & Hg & Hm & Hlv & Hld)];
    erewrite bind_ok by exact Hg; unfold FileSystem.agrees, spec_call, spec_update; rewrite Hm; [done|].
  cbn [row_of erase e_data]. rewrite new_content_spec by done.
  destruct (spec_write content offset flags (doc_data d)) as [data| | |] eqn:E; [|done..].
  erewrite bind_ok by reflexivity.
  destruct (document_vector_spec p data s m Hsim) as (v & Hv' & Hlen). erewrite bind_ok by exact Hv'.
  destruct (persist_spec p data v (doc_mode d) (doc_created d) (millis (now 0%nat)) s m Hsim)
    as (w' & Hw & Hsim'); [done|exact (spec_write_len _ _ _ _ _ Hc E)|].
  erewrite bind_ok by exact Hw. erewrite bind_ok by reflexivity.
  match goal with |- context [(document_count ≫= _) ?s1] => destruct (count_spec s1) as [k Hk] end.
  erewrite bind_ok by exact Hk. split; [done|]. by eapply sim_frame, Hsim'.
Qed.

Lemma remove_agrees now p s m :
  document_path p = true -> sim s m ->
  agrees (fun _ => RUnit) (remove now p s) (spec_call now (CRemove p) m).
Proof.
  intros Hp Hsim. on_document Hp.
  unfold remove. rewrite Hi, Hd, Hs. cbn [fail_if]. erewrite bind_ok by reflexivity.
  destruct (row_cases p s m Hb Hsim) as [[Hg Hm]|(d & Hg & Hm & _)]; unfold FileSystem.agrees, spec_call; rewrite Hm.
  - erewrite bind_ok; [|rewrite (bind_ok (get_document p) _ s s None Hg); reflexivity].
    split; [done|]. by eapply sim_frame, Hsim.
  - destruct (delete_spec p s m Hb Hsim) as (w' & Hw & Hsim').
    erewrite bind_ok; [|rewrite (bind_ok (get_document p) _ s s _ Hg);
      rewrite (bool_decide_eq_true_2 (is_Some (Some (row_of d)))) by eauto; erewrite bind_ok;
      [reflexivity|rewrite (bind_ok (delete_from_db p) _ s _ _ Hw); reflexivity]].
    split; [done|]. by eapply sim_frame, Hsim'.
Qed.

Lemma sim_move_xattrs p q s m : sim s m -> sim (snd (move_xattrs p q s)) m.
Proof. intros Hs. eapply sim_frame, Hs; unfold move_xattrs, modify; cbn; by destruct (pm_get p (xattrs s)). Qed.

Lemma rename_agrees now p q s m :
  document_path p = true -> document_path q = true -> sim s m ->
  agrees (fun _ => RUnit) (rename now p q s) (spec_call now (CRename p q) m).
Proof.
  intros Hp Hq Hsim. on_document Hp. on_document Hq.
  unfold rename. rewrite Hx, Hx0, Hd, Hd0. cbn [orb andb fail_if]. erewrite bind_ok by reflexivity.
  unfold rename_document. unfold spec_call. destruct (path_eqb p q); [done|].
  destruct (row_cases p s m Hb Hsim) as [[Hg Hm]|(d & Hg & Hm & Hlv & Hld)];
    erewrite bind_ok by exact Hg; rewrite Hm; [done|]. cbn [row_of].
  erewrite bind_ok by (apply get_document_spec; done).
  assert (Hnew : exists w1 m1,
    (if bool_decide (is_Some (row_of <$> contents (world s) !! q)) then delete_from_db q else mret ()) s =
      (Ok (), set_world w1 s) /\ sim (set_world w1 s) m1 /\ (m1 = m \/ m1 = delete q m)).
  { destruct (bool_decide _).
    - destruct (delete_spec q s m Hb0 Hsim) as (w1 & Hw1 & Hs1). eauto 10.
    - exists (world s), m. rewrite set_same_world. auto. }
  destruct Hnew as (w1 & m1 & Hw1 & Hs1 & Hm1). erewrite bind_ok by exact Hw1.
  destruct (delete_spec p _ m1 Hb Hs1) as (w2 & Hw2 & Hs2). erewrite bind_ok by exact Hw2.
  destruct (persist_spec q (doc_data d) (doc_vector d) (doc_mode d) (doc_created d) (millis (now 0%nat)) _ _ Hs2)
    as (w3 & Hw3 & Hs3); [done|done|]. erewrite bind_ok by exact Hw3.
  do 2 erewrite bind_ok by reflexivity. split; [done|]. cbn [snd].
  assert (Hsame : forall v, <[q := v]> (delete p m1) = <[q := v]> (delete p m)).
  { intros v. destruct Hm1 as [->| ->]; [done|]. by rewrite delete_delete, insert_delete_eq. }
  rewrite Hsame in Hs3. apply sim_move_xattrs. by eapply sim_frame, Hs3.
Qed.

Abbreviation vectorfs_call := (run_call (H := vectorfs_filesystem iter_meta iter_names)).

Lemma document_call_agrees now c s m :
  document_call c = true -> sim s m -> agrees id (vectorfs_call now c s) (spec_call now c m).
Proof.
  unfold document_call. intros [Hwf Hc]%andb_true_iff Hsim.
  destruct c; try discriminate; cbn [call_wf] in Hwf.
  - by apply agrees_fmap, read_agrees.
  - by apply agrees_unit, create_agrees.
  - apply andb_true_iff in Hwf as [[Ho _]%andb_true_iff Hl%Z.leb_le].
    apply andb_true_iff in Hc as [Hp Hq%negb_true_iff]. by apply agrees_fmap, write_agrees.
  - by apply agrees_unit, remove_agrees.
  - apply andb_true_iff in Hc as [Hp Hq]. by apply agrees_unit, rename_agrees.
  - apply andb_true_iff in Hwf as [Hn%Z.leb_le _]. by apply agrees_unit, truncate_agrees.
  - by apply agrees_unit, touch_agrees.
Qed.

(** Calls one after another, each with its readings of the clock. *)
Definition document_calls (cs : list (Now * FsCall)) s : list (Res FsReply) * VectorFS W :=
  run_all (fun c => vectorfs_call (fst c) (snd c)) cs s.

Definition spec_calls (cs : list (Now * FsCall)) m : list (Res FsReply) * gmap string Entry :=
  run_all (fun c => spec_call (fst c) (snd c)) cs m.

(** C17: VectorFS keeps documents as a map of files does: over every sequence of
    reads, creations, writes, truncations, removals, renames and touches of
    documents, each call answers what the map answers, errors and panics
    included, and leaves the rows that the map describes.  A write inside a
    document replaces all of it.  No service makes the vectors, paths have no
    backslash, and what is written to has not the name of a query; the other
    calls are not among these: a mode, for one, is not always there to change. *)
Theorem vectorfs_documents_refine (cs : list (Now * FsCall)) s :
  doc_inv s -> forallb (fun c => document_call (snd c)) cs = true ->
  fst (document_calls cs s) = fst (spec_calls cs (docs s)) /\
  docs (snd (document_calls cs s)) = snd (spec_calls cs (docs s)).
Proof.
  intros Hinv Hcs. unfold document_calls, spec_calls.
  destruct (run_all_agrees sim (fun c => vectorfs_call (fst c) (snd c)) (fun c => spec_call (fst c) (snd c))
    (fun c => document_call (snd c)) cs s (docs s)) as [Hr [_ Hd]]; [|done..].
  intros [now c] s' m Hc Hsim. by apply document_call_agrees.
Qed.
End Documents.

(** ** The text of a search *)

Lemma first_visible_none b : first_visible b = None <-> forallb is_ascii_whitespace b = true.
Proof.
  induction b as [|c b IH]; [done|]. cbn [first_visible forallb].
  destruct (is_ascii_whitespace c); [|done]. rewrite <- IH. by destruct (first_visible b).
Qed.

Lemma first_visible_some b i :
  first_visible b = Some i ->
  exists l c r, b = l ++ c :: r /\ i = len l /\ is_ascii_whitespace c = false /\ forallb is_ascii_whitespace l = true.
Proof.
  revert i. induction b as [|c b IH]; intros i; [done|]. cbn [first_visible].
  destruct (is_ascii_whitespace c) eqn:Hc.
  - destruct (first_visible b) as [j|] eqn:Hj; [|done]. intros [= <-].
    destruct (IH j eq_refl) as (l & d & r & -> & -> & Hd & Hl).
    exists (c :: l), d, r. cbn [forallb]. rewrite Hc. repeat split; [|done..]. unfold len. cbn [length]. lia.
  - intros [= <-]. by exists [], c, b.
Qed.

Lemma forallb_rev {A} (f : A -> bool) l : forallb f (rev l) = forallb f l.
Proof. induction l as [|a l IH]; [done|]. cbn. rewrite forallb_app, IH. cbn. by rewrite andb_true_r, andb_comm. Qed.

Lemma slice_middle {E A} (l t r : list A) : @slice E A (len l) (len (l ++ t ++ r) - len r) (l ++ t ++ r) = Ok t.
Proof.
  pose proof (len_nonneg l). pose proof (len_nonneg t). pose proof (len_nonneg r).
  rewrite !len_app, slice_ok by (rewrite ?len_app; lia).
  unfold ztake, zdrop, len. rewrite Nat2Z.id, drop_app_length.
  by rewrite take_app_length' by lia.
Qed.

(** The part between the first and the last visible byte; the bounds of the
    slice cross when there is none. *)
Lemma trim_whitespace_spec b :
  match first_visible b with
  | Some _ => exists l t r, trim_whitespace b = Ok t /\ b = l ++ t ++ r /\
      forallb is_ascii_whitespace l = true /\ forallb is_ascii_whitespace r = true
  | None => trim_whitespace b = if bool_decide (b = []) then Ok [] else Panic
  end.
Proof.
  unfold trim_whitespace. destruct (first_visible b) as [i|] eqn:Hi.
  - destruct (first_visible_some b i Hi) as (l & c & r & Hb & -> & Hc & Hl). clear Hi.
    destruct (first_visible (rev b)) as [j|] eqn:Hj.
    + destruct (first_visible_some _ j Hj) as (r' & d & x & Hrev & -> & Hd & Hr').
      assert (Hb' : b = (rev x ++ [d]) ++ rev r').
      { rewrite <- (rev_involutive b), Hrev, rev_app_distr. reflexivity. }
      rewrite Hb' in Hb. apply app_eq_inv in Hb as [(k & Hk & _)|(k & Hk & _)].
      * rewrite Hk, <- app_assoc in Hb'. subst b. exists l, k, (rev r'). split; [|by rewrite forallb_rev].
        assert (Hlen : len (rev r') = len r') by (unfold len; by rewrite length_rev).
        cbn [default fmap option_fmap option_map from_option id]. rewrite <- Hlen. apply slice_middle.
      * rewrite Hk, !forallb_app in Hl. cbn in Hl. rewrite Hd, andb_false_r in Hl. done.
    + apply first_visible_none in Hj. rewrite forallb_rev, Hb, forallb_app in Hj.
      cbn in Hj. rewrite Hc, andb_false_r in Hj. done.
  - assert (Hj : first_visible (rev b) = None).
    { apply first_visible_none. rewrite forallb_rev. by apply first_visible_none. }
    rewrite Hj. cbn. case_bool_decide as Hb; [by rewrite Hb|].
    apply slice_panic. destruct b; [done|]. unfold len. cbn [length]. lia.
Qed.

(** The text of a search, read for its results.  A text of white space alone
    makes the call panic; of any other the limit lies between 1 and 1000, and
    it is 10 unless the text is an object with a limit of its own, which is
    clamped to that range. *)
Theorem vectorfs_query_limit `{JsonText} (b : bytes) :
  match parse_query_and_limit b with
  | Ok (query, limit) =>
    1 <= limit <= 1000 /\
    (limit = 10 \/ exists text obj n, json_from_str text = Some (JObj obj) /\
       object_get "limit" obj = Some (JNum n) /\ limit = Z.max 1 (Z.min n 1000))
  | Panic => b <> [] /\ forallb is_ascii_whitespace b = true
  | _ => False
  end.
Proof.
  unfold parse_query_and_limit. pose proof (trim_whitespace_spec b) as Ht.
  destruct (first_visible b) as [i|] eqn:Hi.
  - destruct Ht as (l & t & r & -> & _). cbn.
    case_bool_decide; [unfold DEFAULT_SEARCH_LIMIT; split; [lia|by left]|].
    destruct (from_utf8 t) as [text|]; cbn; [|unfold DEFAULT_SEARCH_LIMIT; split; [lia|by left]].
    destruct (json_from_str text) as [[| | | | |obj]|] eqn:Hj;
      try (unfold DEFAULT_SEARCH_LIMIT; split; [lia|by left]).
    unfold MAX_SEARCH_LIMIT. split; [lia|].
    destruct (object_get "limit" obj) as [v|] eqn:Hv; cbn; [|by left].
    unfold as_u64. destruct v; try by left. destruct (in_u64 n); [|by left]. right. by exists text, obj, n.
  - rewrite Ht. case_bool_decide as Hb; cbn; [unfold DEFAULT_SEARCH_LIMIT; split; [lia|by left]|].
    split; [done|]. by apply first_visible_none.
Qed.

(** ** A table that keeps the promises

    A map of rows, with the literals of SQL, where a quote is doubled and a
    backslash is a character like others. *)

Fixpoint sql_body (s : string) : option string :=
  match s with
  | EmptyString => None
  | String c rest =>
    if Ascii.eqb c quote_char then
      match rest with
      | EmptyString => Some EmptyString
      | String c' rest' => if Ascii.eqb c' quote_char then String quote_char <$> sql_body rest' else None
      end
    else String c <$> sql_body rest
  end.

Definition sql_literal (predicate : string) : option string :=
  strip_prefix_str predicate ("path = " +:+ squote) ≫= sql_body.

Lemma replace_char_other c r s : contains_char s c = false -> replace_char c r s = s.
Proof.
  unfold contains_char. induction s as [|a s IH]; [done|].
  cbn [String.list_ascii_of_string existsb replace_char]. intros [Ha Hs]%orb_false_iff.
  rewrite Ascii.eqb_sym, Ha, (IH Hs). reflexivity.
Qed.

Lemma sql_body_escaped s :
  no_backslash s = true -> sql_body (escape_sql_string s +:+ squote) = Some s.
Proof.
  unfold escape_sql_string, no_backslash. intros Hs%negb_true_iff. rewrite (replace_char_other backslash _ s Hs).
  clear Hs. induction s as [|a s IH]; [done|]. cbn [replace_char]. rewrite <- string_app_assoc.
  destruct (Ascii.eqb a quote_char) eqn:E.
  - apply Ascii.eqb_eq in E as ->. change (sql_body _) with
      (String quote_char <$> sql_body (replace_char quote_char (squote +:+ squote) s +:+ squote)). by rewrite IH.
  - rewrite string_app_cons. cbn [sql_body]. rewrite E. change (EmptyString +:+ ?t) with t. by rewrite IH.
Qed.

Lemma substring_full s : String.substring 0 (String.length s) s = s.
Proof. induction s as [|a s IH]; [done|]. cbn. by rewrite IH. Qed.

Lemma sql_literal_predicate p : no_backslash p = true -> sql_literal (path_predicate p) = Some p.
Proof.
  intros Hp. unfold sql_literal, path_predicate, strip_prefix_str.
  set (body := escape_sql_string p +:+ squote).
  replace ("path = " +:+ squote +:+ body) with (("path = " +:+ squote) +:+ body) by done.
  rewrite (prefix_app ("path = " +:+ squote) body : String.prefix _ _ = true).
  replace (String.length (("path = " +:+ squote) +:+ body) - String.length ("path = " +:+ squote))%nat
    with (String.length body) by (rewrite string_length_app; lia).
  change (String.substring _ _ (("path = " +:+ squote) +:+ body)) with (String.substring 0 (String.length body) body).
  rewrite substring_full. exact (sql_body_escaped p Hp).
Qed.

Abbreviation Table := (gmap string Document).

#[global] Instance table_lance : Lance Table := {|
  lance_query predicate _ w :=
    (Ok (match predicate with
         | None => [batch_of (map snd (map_to_list w))]
         | Some t =>
           match sql_literal t ≫= (w !!.) with Some d => [batch_of [d]] | None => [] end
         end), w);
  lance_nearest _ n w := (Ok [batch_of (ztake n (map snd (map_to_list w)))], w);
  lance_count w := (Ok (Z.of_nat (base.size w)), w);
  record_batch dim d := if len (doc_vector d) =? dim then Ok () else Err "length"%string;
  lance_merge_insert _ d w := (Ok (), <[doc_path d := d]> w);
  lance_delete t w := (Ok (), match sql_literal t with Some p => delete p w | None => w end)
|}.

#[global] Instance table_laws : LanceLaws Table.
Proof.
  refine {| contents := fun w : Table => w |}.
  - intros w p Hp. cbn. rewrite sql_literal_predicate by done. cbn. destruct (w !! p) as [d|]; cbn.
    + exists [[d]]. repeat split. by constructor.
    + exists []. repeat split. constructor.
  - intros w. eexists [_]. split; [reflexivity|]. cbn. by rewrite app_nil_r.
  - done.
  - intros dim d _ Hd. cbn. by rewrite Hd, Z.eqb_refl.
  - intros w d. eexists. split; reflexivity.
  - intros w p Hp. eexists. split; [reflexivity|]. cbn. by rewrite sql_literal_predicate.
Defined.

(** ** The calls on a small instance *)

Section Demo.
#[local] Existing Instances debug_profile binary_json.

Definition at_second (t : Z) : Now := fun _ => t * 10 ^ 9.

#[local] Instance table_embed : EmbedApi Table := {|
  embed_post _ _ w := (Err "refused"%string, w);
  status_text := to_string;
  floats_from_slice _ := Err "not an array"%string;
  matches_json l := Some (as_bytes (join_str "," (map fst l)));
  hash_bytes := len;
  from_timestamp_millis t := Some (t * 10 ^ 6)
|}.

Definition demo_config : VectorConfig :=
  {| storage_uri := "db"; embedding_api := None; table_name := "vectors"; dimension := 2 |}.

Definition demo_start : VectorFS Table :=
  mkVectorFS demo_config false ∅ (init_virtual_paths (at_second 0) demo_config) ∅ ∅.

Abbreviation entries := (@pm_entries FileMetadata).
Definition demo_names (m : gmap string bytes) : list string := map fst (map_to_list m).

Definition demo_calls (cs : list FsCall) (s : VectorFS Table) : list (Res FsReply) * VectorFS Table :=
  document_calls entries demo_names (map (fun c => (at_second 1, c)) cs) s.

Lemma vectorfs_documents_refine_witness :
  let cs := map (fun c => (at_second 1, c))
    [CCreate "/documents/a"; CWrite "/documents/a" (as_bytes "hello") 0 0;
     CWrite "/documents/a" (as_bytes "J") 1 0; CRename "/documents/a" "/documents/it's";
     CRead "/documents/it's" 0 (-1)] in
  fst (document_calls entries demo_names cs demo_start) =
    [Ok RUnit; Ok (RCount 5); Ok (RCount 1); Ok RUnit; Ok (RBytes (as_bytes "J"))].
Proof.
  destruct (vectorfs_documents_refine entries demo_names
    (map (fun c => (at_second 1, c))
      [CCreate "/documents/a"; CWrite "/documents/a" (as_bytes "hello") 0 0;
       CWrite "/documents/a" (as_bytes "J") 1 0; CRename "/documents/a" "/documents/it's";
       CRead "/documents/it's" 0 (-1)]) demo_start) as [Hr _].
  - split; [reflexivity|split; [vm_compute; split; [reflexivity|intros [=]]|by intros k d Hk]].
  - vm_compute. reflexivity.
  - cbn zeta. rewrite Hr. vm_compute. reflexivity.
Defined.

(** *** What goes wrong *)

Abbreviation names s := (map path (default [] (match s with Ok l => Some l | _ => None end))).

(** A document that was created since the start stands twice in the listing:
    for its metadata and for its row. *)
Lemma vectorfs_listed_twice :
  names (result (read_dir entries (at_second 2) "/documents")
    (exec (create (at_second 1) "/documents/a") demo_start)) = ["/documents/a"; "/documents/a"]%string.
Proof. vm_compute. reflexivity. Qed.

(** The directory of a search holds its two files from the start. *)
Lemma vectorfs_search_not_empty :
  result (remove (at_second 2) "/search/q") (exec (mkdir (at_second 1) "/search/q" 493) demo_start) =
    Err DirectoryNotEmpty.
Proof. vm_compute. reflexivity. Qed.

(** Renaming the directory leaves its files behind. *)
Lemma vectorfs_search_rename :
  let s := exec (rename (at_second 2) "/search/q" "/search/r")
    (exec (mkdir (at_second 1) "/search/q" 493) demo_start) in
  names (result (read_dir entries (at_second 3) "/search/r") s) = [] /\
  is_ok (result (stat (at_second 3) "/search/q/query.txt") s) = true.
Proof. vm_compute. split; reflexivity. Qed.

(** A text of white space makes reading the results panic. *)
Lemma vectorfs_blank_query :
  result (read (at_second 3) "/search/q/matches.txt" 0 (-1))
    (exec (write (at_second 2) "/search/q/query.txt" (as_bytes " ") 0 0)
      (exec (mkdir (at_second 1) "/search/q" 493) demo_start)) = Panic.
Proof. vm_compute. reflexivity. Qed.

(** The size of [/index/count] is the number itself, not that of its text. *)
Lemma vectorfs_count_size :
  let s := snd (demo_calls [CCreate "/documents/a"; CCreate "/documents/b"] demo_start) in
  fmap (M := outcome FSError) Metadata.size (result (stat (at_second 3) "/index/count") s) = Ok 2 /\
  result (read (at_second 3) "/index/count" 0 (-1)) s = Ok (as_bytes "2").
Proof. vm_compute. split; reflexivity. Qed.

(** A document with the name of the text of a search is taken for one. *)
Lemma vectorfs_misnamed_document :
  result (write (at_second 2) "/documents/search/query.txt" (as_bytes "x") 0 0)
    (exec (create (at_second 1) "/documents/search/query.txt") demo_start) =
    Err (PermissionDenied "/documents/search/query.txt").
Proof. vm_compute. reflexivity. Qed.
End Demo.

(** A document stored before the start has no metadata in memory, so that its
    mode cannot be changed. *)
Lemma vectorfs_chmod_forgotten {W} `{Lance W} now p md (s : VectorFS W) :
  starts_with p "/documents/" = true -> pm_get p (metadata s) = None ->
  chmod now p md s = (Err (NotFound p), s).
Proof.
  intros Hd Hm. destruct (prefix_inv p _ Hd) as [q Hq].
  assert (Hi : index_path p = false) by (by rewrite Hq).
  unfold chmod. rewrite Hi. do 2 erewrite bind_ok by reflexivity.
  assert (Hc : pm_contains p (metadata s) = false) by (by apply pm_contains_false).
  by rewrite Hc.
Qed.
