(* ===== verification/Http.v ===== *)
(** * Http: requests and responses

    What the server's handlers see of a request behind [axum] and [hyper], and
    what they answer.  The query string is the list of its pairs, the body a
    text; [Authorization] is the one header that the client sets. *)

From S2P Require Import Prelude Text.
From Stdlib Require Strings.String.

Inductive Method := GET | POST | PUT | DELETE.

#[global] Instance Method_eq_dec : EqDecision Method.
Proof. solve_decision. Defined.

(** [Method::as_str] *)
Definition method_str (m : Method) : string :=
  match m with GET => "GET" | POST => "POST" | PUT => "PUT" | DELETE => "DELETE" end.

Record HttpRequest := {
  method : Method;
  uri_path : string;
  query : list (string * string);
  request_body : option string;
  authorization_header : option string
}.

Record Response := { status : Z; header_map : gmap string string; body : string }.

(** A response without headers. *)
Definition respond (code : Z) (text : string) : Response :=
  {| status := code; header_map := ∅; body := text |}.

(** [StatusCode::is_success] *)
Definition is_success (code : Z) : bool := (200 <=? code) && (code <? 300).
