(* ===== verification/HttpError.v ===== *)
(** * HttpError: the errors of the HTTP interface
    ([crates/racfs-http-error/src/error_code.rs], [error_response.rs] and
    [crates/racfs-server/src/error.rs])

    An error code with its status and its text, the body of an error response,
    and the code and message that every [FSError] is answered with. *)

From S2P Require Import Prelude Text RPath FsError Json Http.
From Stdlib Require Strings.String.

(* src: crates/racfs-http-error/src/error_code.rs 9-20 ErrorCode *)
Inductive ErrorCode :=
| BadRequest
| Unauthorized
| Forbidden
| CodeNotFound
| Conflict
| InternalServerError
| NotImplemented
| ServiceUnavailable
| GatewayTimeout
| InsufficientStorage.

#[global] Instance ErrorCode_eq_dec : EqDecision ErrorCode.
Proof. solve_decision. Defined.

(** [impl From<ErrorCode> for StatusCode] *)
(* src: crates/racfs-http-error/src/error_code.rs 23-36 StatusCode::from *)
Definition status_code (c : ErrorCode) : Z :=
  match c with
  | BadRequest => 400
  | Unauthorized => 401
  | Forbidden => 403
  | CodeNotFound => 404
  | Conflict => 409
  | InternalServerError => 500
  | NotImplemented => 501
  | ServiceUnavailable => 503
  | GatewayTimeout => 504
  | InsufficientStorage => 507
  end.

(** [Display]; [Debug] and the JSON text of a code are the same. *)
(* src: crates/racfs-http-error/src/error_code.rs 39-55 ErrorCode::fmt *)
Definition code_display (c : ErrorCode) : string :=
  match c with
  | BadRequest => "BadRequest"
  | Unauthorized => "Unauthorized"
  | Forbidden => "Forbidden"
  | CodeNotFound => "NotFound"
  | Conflict => "Conflict"
  | InternalServerError => "InternalServerError"
  | NotImplemented => "NotImplemented"
  | ServiceUnavailable => "ServiceUnavailable"
  | GatewayTimeout => "GatewayTimeout"
  | InsufficientStorage => "InsufficientStorage"
  end.

Definition all_codes : list ErrorCode :=
  [BadRequest; Unauthorized; Forbidden; CodeNotFound; Conflict; InternalServerError;
   NotImplemented; ServiceUnavailable; GatewayTimeout; InsufficientStorage].

(** The code of a name, as serde reads it. *)
Definition parse_code (s : string) : option ErrorCode :=
  List.find (fun c => String.eqb (code_display c) s) all_codes.

(* src: crates/racfs-http-error/src/error_code.rs 58-72 ErrorCode::from *)
Definition code_from (s : string) : ErrorCode :=
  if String.eqb s "BadRequest" then BadRequest
  else if String.eqb s "Unauthorized" then Unauthorized
  else if String.eqb s "Forbidden" then Forbidden
  else if String.eqb s "NotFound" then CodeNotFound
  else if String.eqb s "Conflict" then Conflict
  else if String.eqb s "InternalServerError" then InternalServerError
  else if String.eqb s "NotImplemented" then NotImplemented
  else if String.eqb s "ServiceUnavailable" then ServiceUnavailable
  else if String.eqb s "GatewayTimeout" then GatewayTimeout
  else if String.eqb s "InsufficientStorage" then InsufficientStorage
  else InternalServerError.

#[global] Instance ErrorCode_Serialize : Serialize ErrorCode := fun c => JStr (code_display c).
#[global] Instance ErrorCode_Deserialize : Deserialize ErrorCode :=
  fun v => match v with JStr s => parse_code s | _ => None end.

Lemma parse_code_display c : parse_code (code_display c) = Some c.
Proof. by destruct c. Qed.

Lemma code_from_display c : code_from (code_display c) = c.
Proof. by destruct c. Qed.

(** ** The body of an error response *)

(* src: crates/racfs-http-error/src/error_response.rs 15-23 HttpErrorResponse *)
Record HttpErrorResponse := {
  err_code : ErrorCode;
  err_message : string;
  err_detail : option string
}.

(* src: crates/racfs-http-error/src/error_response.rs 27-33 HttpErrorResponse::new *)
Definition new (c : ErrorCode) (m : string) : HttpErrorResponse :=
  {| err_code := c; err_message := m; err_detail := None |}.

(* src: crates/racfs-http-error/src/error_response.rs 36-46 HttpErrorResponse::new_with_detail *)
Definition new_with_detail (c : ErrorCode) (m d : string) : HttpErrorResponse :=
  {| err_code := c; err_message := m; err_detail := Some d |}.

(* src: crates/racfs-http-error/src/error_response.rs 49-51 HttpErrorResponse::bad_request *)
Definition bad_request (m : string) : HttpErrorResponse := new BadRequest m.
(* src: crates/racfs-http-error/src/error_response.rs 54-56 HttpErrorResponse::not_found *)
Definition not_found (m : string) : HttpErrorResponse := new CodeNotFound m.
(* src: crates/racfs-http-error/src/error_response.rs 59-61 HttpErrorResponse::internal *)
Definition internal (m : string) : HttpErrorResponse := new InternalServerError m.

(** A detail that is [None] is left out. *)
#[global] Instance HttpErrorResponse_Serialize : Serialize HttpErrorResponse := fun e =>
  JObj (("code"%string, to_json (err_code e)) :: ("message"%string, JStr (err_message e))
        :: match err_detail e with Some d => [("detail"%string, JStr d)] | None => [] end).

#[global] Instance HttpErrorResponse_Deserialize : Deserialize HttpErrorResponse := fun v =>
  c ← get_field "code" from_json v;
  m ← get_field "message" from_json v;
  d ← opt_field "detail" from_json v;
  Some {| err_code := c; err_message := m; err_detail := d |}.

Lemma error_response_roundtrip (e : HttpErrorResponse) : from_json (to_json e) = Some e.
Proof. by destruct e as [[] m [d|]]. Qed.

(** [IntoResponse] *)
(* src: crates/racfs-http-error/src/error_response.rs 65-68 HttpErrorResponse::into_response *)
Definition into_response `{JsonText} (e : HttpErrorResponse) : Response :=
  respond (status_code (err_code e)) (json_to_string (to_json e)).

(* src: crates/racfs-http-error/src/error_response.rs 71-79 HttpErrorResponse::fmt *)
Definition error_response_display (e : HttpErrorResponse) : string :=
  code_display (err_code e) +:+ ": " +:+ err_message e
  +:+ match err_detail e with Some d => " (" +:+ d +:+ ")" | None => "" end.

(** ** The errors of the filesystems *)

(** The code and the message. *)
(* src: crates/racfs-server/src/error.rs 18-71 map_fs_error_with_context *)
Definition fs_code (error : FSError) : ErrorCode * string :=
  match error with
  | NotFound path => (CodeNotFound, "Not found: " +:+ path)
  | AlreadyExists path => (Conflict, "Already exists: " +:+ path)
  | PermissionDenied path => (Forbidden, "Permission denied: " +:+ path)
  | IsDirectory path => (BadRequest, "Is a directory: " +:+ path)
  | NotADirectory path => (BadRequest, "Not a directory: " +:+ path)
  | InvalidInput message => (BadRequest, "Invalid input: " +:+ message)
  | NotSupported message => (NotImplemented, "Not supported: " +:+ message)
  | AlreadyInUse handle_id => (Conflict, "Already in use: " +:+ handle_id)
  | InvalidHandle handle_id => (BadRequest, "Invalid handle: " +:+ handle_id)
  | OutOfMemory => (ServiceUnavailable, "Out of memory")
  | PathTooLong => (BadRequest, "Path too long")
  | FilenameTooLong => (BadRequest, "Filename too long")
  | ReadOnly => (Forbidden, "Read only")
  | StorageFull => (InsufficientStorage, "Storage full")
  | TooManyOpenFiles => (ServiceUnavailable, "Too many open files")
  | DirectoryNotEmpty => (Conflict, "Directory not empty")
  | CrossDeviceLink => (BadRequest, "Cross device link")
  | InvalidUtf8 message => (BadRequest, "Invalid UTF-8: " +:+ message)
  | Timeout => (GatewayTimeout, "Operation timed out")
  | Io message => (InternalServerError, "I/O error: " +:+ message)
  end%string.

(** The operation and the path, as far as they are known. *)
(* src: crates/racfs-server/src/error.rs 73-78 map_fs_error_with_context *)
Definition context_detail (operation : option string) (path : option Path) : option string :=
  match operation, path with
  | Some op, Some p => Some ("operation: " +:+ op +:+ ", path: " +:+ p)
  | Some op, None => Some ("operation: " +:+ op)
  | None, Some p => Some ("path: " +:+ p)
  | None, None => None
  end%string.

(* src: crates/racfs-server/src/error.rs 13-84 map_fs_error_with_context *)
Definition map_fs_error_with_context (error : FSError) (operation : option string) (path : option Path)
  : HttpErrorResponse :=
  let '(code, message) := fs_code error in
  match context_detail operation path with
  | Some d => new_with_detail code message d
  | None => new code message
  end.

(* src: crates/racfs-server/src/error.rs 8-10 map_fs_error *)
Definition map_fs_error (error : FSError) : HttpErrorResponse := map_fs_error_with_context error None None.

(** ** Laws *)

Lemma map_fs_error_code error op p :
  err_code (map_fs_error_with_context error op p) = fst (fs_code error).
Proof.
  unfold map_fs_error_with_context. destruct (fs_code error) as [c m]. by destruct (context_detail op p).
Qed.

(** An error response is never a success. *)
Lemma status_code_error c : is_success (status_code c) = false.
Proof. by destruct c. Qed.

(** A status is that of one code only. *)
Lemma status_code_inj c d : status_code c = status_code d -> c = d.
Proof. by destruct c, d. Qed.

(** The message that a plain filesystem error carries is told back exactly,
    and its kind up to what shares a code. *)
Lemma error_response_readable `{JsonTextLaws} e :
  (v ← json_from_str (body (into_response e)); from_json v) = Some e.
Proof. simpl. rewrite json_text_roundtrip. simpl. apply error_response_roundtrip. Qed.

#[export] Hint Rewrite parse_code_display code_from_display status_code_error : racfs.
