(* ===== verification/Validation.v ===== *)
(** * Validation: what the API lets through to the filesystem
    ([crates/racfs-server/src/validation.rs])

    The checks of paths, modes and body lengths, and what a path that passes
    looks like to the components behind. *)

From S2P Require Import Prelude Text RPath FileSystem AbsPath HttpError.
From Stdlib Require Import Strings.Ascii.
From Stdlib Require Strings.String.

(* src: crates/racfs-server/src/validation.rs 9-9 MAX_PATH_LEN *)
Definition MAX_PATH_LEN : Z := 8192.
(* src: crates/racfs-server/src/validation.rs 70-70 MAX_WRITE_BODY_LEN *)
Definition MAX_WRITE_BODY_LEN : Z := 16 * 1024 * 1024.

Abbreviation Valid := (outcome HttpErrorResponse ()).

Definition nul : ascii := ascii_of_nat 0.

(* src: crates/racfs-server/src/validation.rs 12-49 validate_path *)
Definition validate_path (path : string) : Valid :=
  if String.eqb path "" then
    Err (new_with_detail BadRequest "path must be non-empty" "path: (empty)")
  else if negb (starts_with path "/") then
    Err (new_with_detail BadRequest "path must be absolute (start with /)" ("path: " +:+ path))
  else if contains_char path nul then
    Err (new_with_detail BadRequest "path must not contain null bytes" "path: (contains NUL)")
  else if contains_str path ".." then
    Err (new_with_detail BadRequest "path must not contain .." ("path: " +:+ path))
  else if MAX_PATH_LEN <? str_len path then
    Err (new_with_detail BadRequest "path too long"
           ("path length " +:+ to_string (str_len path) +:+ " exceeds max " +:+ to_string MAX_PATH_LEN))
  else Ok ().

(* src: crates/racfs-server/src/validation.rs 52-61 validate_mode *)
Definition validate_mode (mode : Z) : Valid :=
  if octal 7777 <? mode then
    Err (new_with_detail BadRequest "mode must be a valid Unix permission (0o0000..0o7777)"
           ("mode: 0o" +:+ to_octal mode))
  else Ok ().

(* src: crates/racfs-server/src/validation.rs 64-66 validate_truncate_size *)
Definition validate_truncate_size (_size : Z) : Valid := Ok ().

(* src: crates/racfs-server/src/validation.rs 72-81 validate_write_data_len *)
Definition validate_write_data_len (n : Z) : Valid :=
  if MAX_WRITE_BODY_LEN <? n then
    Err (new_with_detail BadRequest "request body too large"
           ("size " +:+ to_string n +:+ " exceeds max " +:+ to_string MAX_WRITE_BODY_LEN +:+ " bytes"))
  else Ok ().

(** ** The paths that pass *)

(** A text that contains [..] contains it behind anything. *)
Lemma contains_cons a s p : contains_str s p = true -> contains_str (String a s) p = true.
Proof. intros H. cbn [contains_str]. rewrite H. apply orb_true_r. Qed.

Lemma contains_prefix s p : String.prefix p s = true -> contains_str s p = true.
Proof. intros H. destruct s; cbn [contains_str]; by rewrite H. Qed.

Lemma prefix_cons a p s : String.prefix (String a p) (String a s) = String.prefix p s.
Proof. simpl. by destruct (ascii_dec a a). Qed.

(** A segment is a part of the text. *)
Lemma split_contains c s x : x ∈ split_char c s -> contains_str s x = true.
Proof.
  enough (Hgen : x ∈ split_char c s -> contains_str s x = true /\
    (x = default "" (head (split_char c s)) -> String.prefix x s = true)) by (intros H; by apply Hgen).
  revert x. induction s as [|a s IH]; intros x Hx.
  - apply list_elem_of_singleton in Hx as ->. done.
  - simpl in Hx. destruct (Ascii.eqb a c) eqn:Ea.
    + apply elem_of_cons in Hx as [->|Hx]; [by split|].
      split; [by apply contains_cons, IH|]. simpl. rewrite Ea. intros ->. done.
    + destruct (split_char c s) as [|y ys] eqn:Es; [by apply split_nonempty in Es|].
      assert (Hy : String.prefix y s = true).
      { destruct (IH y ltac:(left)) as [_ H]. by apply H. }
      apply elem_of_cons in Hx as [->|Hx].
      * assert (Hp : String.prefix (String a y) (String a s) = true) by (by rewrite prefix_cons).
        split; [by apply contains_prefix|done].
      * split; [apply contains_cons, IH; by right|]. simpl split_char. rewrite Ea, Es.
        intros ->. exact (eq_trans (prefix_cons a y s) Hy).
Qed.

(** Without [..] among its segments, normalising a path only drops what its
    components skip. *)
Lemma norm_segs_plain segs acc :
  Forall (fun s => String.eqb s ".." = false) segs ->
  fold_left norm_seg segs acc = acc ++ List.filter (fun s => negb (trivial_seg s)) segs.
Proof.
  intros Hs. revert acc. induction Hs as [|s segs Hs _ IH]; intros acc; simpl; [by rewrite app_nil_r|].
  rewrite IH. unfold norm_seg. rewrite Hs. destruct (trivial_seg s); simpl; [done|]. by rewrite <- app_assoc.
Qed.

Lemma body_components_plain segs :
  Forall (fun s => String.eqb s ".." = false) segs ->
  body_components segs = map Normal (List.filter (fun s => negb (trivial_seg s)) segs).
Proof.
  intros Hs. unfold body_components. induction Hs as [|s segs Hs _ IH]; [done|]. simpl.
  destruct (trivial_seg s); simpl; [done|]. unfold seg_component at 1. by rewrite Hs, IH.
Qed.

Lemma validate_path_ok p :
  validate_path p = Ok () <->
  has_root p = true /\ contains_char p nul = false /\ contains_str p ".." = false /\ str_len p <= MAX_PATH_LEN.
Proof.
  assert (Hr : starts_with p "/" = has_root p).
  { destruct p as [|a p]; [done|]. apply eq_bool_prop_intro. unfold starts_with, has_root, slash.
    rewrite !Is_true_true. split.
    - intros H. apply prefix_inv in H as [q Hq]. by injection Hq as -> _.
    - intros ->%Ascii.eqb_eq. apply (prefix_app "/" p). }
  unfold validate_path. rewrite Hr. destruct p as [|a p]; [simpl; split; [discriminate|by intros [? _]]|].
  change (String.eqb (String a p) "") with false. cbn [negb].
  destruct (has_root (String a p)); cbn [negb]; [|split; [done|by intros [? _]]].
  destruct (contains_char (String a p) nul); [split; [done|by intros (_ & ? & _)]|].
  destruct (contains_str (String a p) ".."); [split; [done|by intros (_ & _ & ? & _)]|].
  destruct (Z.ltb_spec MAX_PATH_LEN (str_len (String a p))); [split; [done|intros; lia]|done].
Qed.

(** A path that passes is one of the canonical absolute paths, spelled with
    skipped separators and dots at most: every component sees the same names. *)
Lemma validated_components p :
  validate_path p = Ok () ->
  names_ok (norm_names p) /\ components p = components (abs_path (norm_names p)) /\
  normalize_path p = abs_path (norm_names p).
Proof.
  intros (Hr & _ & Hdd & _)%validate_path_ok.
  destruct (normalize_abs p Hr) as [Hn Hok]. split; [done|]. split; [|done].
  assert (Hs : Forall (fun s => String.eqb s ".." = false) (segments p)).
  { apply Forall_forall. intros s Hs. destruct (String.eqb_spec s ".."); [|done]. subst s.
    apply split_contains in Hs. congruence. }
  rewrite components_abs by done. unfold components. rewrite Hr. simpl. f_equal.
  rewrite body_components_plain by done. unfold norm_names. by rewrite norm_segs_plain.
Qed.

(** A path is accepted exactly when it is absolute, without NUL, without
    two dots in a row and no longer than the limit; an accepted path has no
    parent component, so that its components are those of its normal form and
    no prefix of it leads above the root. *)
Theorem validate_path_spec p :
  (validate_path p = Ok () <->
   has_root p = true /\ contains_char p nul = false /\ contains_str p ".." = false /\
   str_len p <= MAX_PATH_LEN) /\
  (validate_path p = Ok () ->
   (ParentDir ∉ components p) /\ names_ok (norm_names p) /\
   components p = components (normalize_path p)) /\
  (validate_path p <> Ok () -> exists e, validate_path p = Err e /\ err_code e = BadRequest).
Proof.
  split; [apply validate_path_ok|]. split.
  - intros Hv. destruct (validated_components p Hv) as (Hok & Hc & Hn).
    rewrite Hn. split; [|done]. rewrite Hc, components_abs by done.
    intros Hin. apply elem_of_cons in Hin as [?|(x & ? & _)%list_elem_of_fmap]; done.
  - intros Hv. unfold validate_path in *. repeat case_match; try done; by eexists.
Qed.

Lemma validate_write_data_len_ok n : validate_write_data_len n = Ok () <-> n <= MAX_WRITE_BODY_LEN.
Proof. unfold validate_write_data_len. destruct (Z.ltb_spec MAX_WRITE_BODY_LEN n); split; (done || lia). Qed.

Lemma validate_mode_ok mode : validate_mode mode = Ok () <-> mode <= octal 7777.
Proof. unfold validate_mode. destruct (Z.ltb_spec (octal 7777) mode); split; (done || lia). Qed.

(** A name may hold two dots in a row and is refused all the same. *)
Example validate_path_refuses_names :
  name_ok "a..b" = true /\ validate_path (abs_path ["memfs"; "a..b"]) <> Ok ().
Proof. by vm_compute. Qed.
