(* ===== verification/RateLimiter.v ===== *)
(** * RateLimiter: requests per client and window
    ([crates/racfs-server/src/ratelimit.rs])

    Durations and clock readings are in nanoseconds of the monotonic clock, of
    which [duration_since] takes saturating differences.  The hasher's
    algorithm is unspecified and the JSON writer is the [serde_json] crate's:
    both are parameters. *)

From S2P Require Import Prelude Text Metadata Http.
From Stdlib Require Strings.String.

(* src: crates/racfs-server/src/ratelimit.rs 35-42 RateLimitHeaders *)
Record RateLimitHeaders := { h_limit : bool; h_remaining : bool; h_reset : bool }.

(* src: crates/racfs-server/src/ratelimit.rs 24-31 RateLimitConfig *)
Record RateLimitConfig := { max_requests : Z; window : Z; headers : RateLimitHeaders }.

(* src: crates/racfs-server/src/ratelimit.rs 45-51 RateLimitHeaders::default *)
Definition default_headers : RateLimitHeaders := {| h_limit := true; h_remaining := true; h_reset := true |}.

(* src: crates/racfs-server/src/ratelimit.rs 55-61 RateLimitConfig::default *)
Definition default_config : RateLimitConfig :=
  {| max_requests := 100; window := 60 * 10 ^ 9; headers := default_headers |}.

(* src: crates/racfs-server/src/ratelimit.rs 66-71 UserRateLimit *)
Record UserRateLimit := { count : Z; window_start : Z }.

(* src: crates/racfs-server/src/ratelimit.rs 75-80 RateLimiter *)
Record RateLimiter := { users : gmap string UserRateLimit; config : RateLimitConfig }.

(* src: crates/racfs-server/src/ratelimit.rs 84-89 RateLimiter::new *)
Definition new (c : RateLimitConfig) : RateLimiter := {| users := ∅; config := c |}.

(* src: crates/racfs-server/src/ratelimit.rs 92-94 RateLimiter::update_config *)
Definition update_config (c : RateLimitConfig) (s : RateLimiter) : RateLimiter :=
  {| users := users s; config := c |}.

(** [Instant::duration_since] *)
Definition since (now earlier : Z) : Z := Z.max 0 (now - earlier).

(** A window that has run out starts again. *)
(* src: crates/racfs-server/src/ratelimit.rs 112-116 RateLimiter::check *)
Definition renew (c : RateLimitConfig) (t : Z) (u : UserRateLimit) : UserRateLimit :=
  if window c <=? since t (window_start u) then {| count := 0; window_start := t |} else u.

(** Whether a request passes, and the state it leaves. *)
(* src: crates/racfs-server/src/ratelimit.rs 120-124 RateLimiter::check *)
Definition take_one (c : RateLimitConfig) (u : UserRateLimit) : bool * UserRateLimit :=
  let allowed := count u <? max_requests c in
  (allowed, if allowed then {| count := count u + 1; window_start := window_start u |} else u).

(** [(allowed, remaining, reset_time)]; the reset time is in whole seconds. *)
(* src: crates/racfs-server/src/ratelimit.rs 98-131 RateLimiter::check *)
Definition check (now : Now) (client_id : string) (s : RateLimiter) : (bool * Z * Z) * RateLimiter :=
  let c := config s in
  let t := now 0%nat in
  let u := renew c t (default {| count := 0; window_start := t |} (users s !! client_id)) in
  let remaining := saturating_sub (max_requests c) (count u) in
  let '(allowed, u') := take_one c u in
  let reset_time := saturating_sub (window c) (since t (window_start u')) / 10 ^ 9 in
  ((allowed, remaining, reset_time), {| users := <[client_id := u']> (users s); config := c |}).

(** ** The middleware *)

(** What it reads of a request: the limiter among the extensions, the text of
    two headers ([None] inside: not visible ASCII) and the peer's address. *)
Record Request := {
  has_limiter : bool;
  x_api_key : option (option string);
  authorization : option (option string);
  remote_ip : option string
}.

Definition set_header (k v : string) (r : Response) : Response :=
  {| status := status r; header_map := <[k := v]> (header_map r); body := body r |}.

(* src: crates/racfs-server/src/ratelimit.rs 134-155 RateLimiter::add_headers *)
Definition add_headers (c : RateLimitConfig) (remaining reset : Z) (r : Response) : Response :=
  let r := if h_limit (headers c) then set_header "x-rate-limit-limit" (to_string (max_requests c)) r else r in
  let r := if h_remaining (headers c) then set_header "x-rate-limit-remaining" (to_string remaining) r else r in
  if h_reset (headers c) then set_header "x-rate-limit-reset" (to_string reset) r else r.

Section Middleware.
Context (hash_str : string -> Z) (to_json : string -> string -> option string).

(* src: crates/racfs-server/src/ratelimit.rs 189-191 RateLimiter::client_id_apikey *)
Definition client_id_apikey (key : string) : string := "apikey:" +:+ to_string (hash_str key).
(* src: crates/racfs-server/src/ratelimit.rs 194-196 RateLimiter::client_id_user *)
Definition client_id_user (auth : string) : string := "user:" +:+ to_string (hash_str auth).

(* src: crates/racfs-server/src/ratelimit.rs 159-180 RateLimiter::get_client_id *)
Definition get_client_id (r : Request) : string :=
  match x_api_key r with
  | Some (Some key_str) => client_id_apikey key_str
  | _ =>
    match authorization r with
    | Some (Some auth_str) => client_id_user auth_str
    | _ => match remote_ip r with
           | Some ip => "ip:" +:+ ip
           | None => "default"
           end
    end
  end.

Context {W : Type} (next : Request -> W -> Response * W).

(** The limiter, and the state [W] that the handlers behind it work on. *)
(* src: crates/racfs-server/src/ratelimit.rs 207-241 rate_limit_middleware *)
Definition rate_limit_middleware (now : Now) (request : Request) (sw : RateLimiter * W)
  : Response * (RateLimiter * W) :=
  if has_limiter request then
    let '((allowed, remaining, reset), s') := check now (get_client_id request) (fst sw) in
    let '(response, w') := next request (snd sw) in
    if allowed then (add_headers (config s') remaining reset response, (s', w'))
    else
      let response := {| status := 429; header_map := header_map response; body := body response |} in
      let response := add_headers (config s') 0 reset response in
      let text := default "" (to_json "RateLimitExceeded"
                    ("Rate limit exceeded. Try again in " +:+ to_string reset +:+ " seconds.")) in
      ({| status := status response; header_map := header_map response; body := text |}, (s', w'))
  else let '(response, w') := next request (snd sw) in (response, (fst sw, w')).
End Middleware.

(** ** How many requests pass *)

(** One request after another: who, and when. *)
Fixpoint check_all (reqs : list (string * Z)) (s : RateLimiter) : list bool * RateLimiter :=
  match reqs with
  | [] => ([], s)
  | (c, t) :: reqs' =>
    let '((allowed, _, _), s1) := check (fun _ => t) c s in
    let '(rest, s2) := check_all reqs' s1 in (allowed :: rest, s2)
  end.

(** The requests of a client in [[t0, t1)] that passed. *)
Fixpoint passed (c : string) (t0 t1 : Z) (reqs : list (string * Z)) (answers : list bool) : Z :=
  match reqs, answers with
  | (c', t) :: reqs', a :: answers' =>
    (if a && String.eqb c' c && (t0 <=? t) && (t <? t1) then 1 else 0) + passed c t0 t1 reqs' answers'
  | _, _ => 0
  end.

(** The clock does not go back. *)
Fixpoint monotone (t : Z) (reqs : list (string * Z)) : Prop :=
  match reqs with
  | [] => True
  | (_, t') :: reqs' => t <= t' /\ monotone t' reqs'
  end.

(** What the entry of a client may still let through in an interval of one
    window from [t0]. *)
Definition allowance (cfg : RateLimitConfig) (t0 : Z) (u : option UserRateLimit) : Z :=
  match u with
  | None => max_requests cfg
  | Some u => if t0 <=? window_start u then max_requests cfg - count u
              else max_requests cfg - count u + max_requests cfg
  end.

Definition user_ok (cfg : RateLimitConfig) (t : Z) (u : option UserRateLimit) : Prop :=
  match u with
  | None => True
  | Some u => 0 <= count u <= max_requests cfg /\ window_start u <= t
  end.

Section Bound.
Context (cfg : RateLimitConfig) (c : string).
Hypothesis Hmax : 0 <= max_requests cfg.
Hypothesis Hwin : 0 < window cfg.

Lemma passed_later t0 t1 t reqs answers : t1 <= t -> monotone t reqs -> passed c t0 t1 reqs answers = 0.
Proof.
  intros Ht. revert t Ht answers. induction reqs as [|[c' t'] reqs IH]; intros t Ht answers; [done|].
  intros [H1 H2]. destruct answers as [|a answers]; [done|]. simpl.
  rewrite (IH t') by (done || lia). destruct (Z.ltb_spec t' t1); [lia|]. by rewrite andb_false_r.
Qed.

Lemma check_other now c' s : c' <> c -> users (snd (check now c' s)) !! c = users s !! c.
Proof.
  intros Hne. unfold check. destruct (take_one _ _) as [a u]. simpl. by rewrite lookup_insert_ne.
Qed.

Lemma check_config now c' s : config (snd (check now c' s)) = config s.
Proof. unfold check. by destruct (take_one _ _). Qed.

(** One request inside the interval uses up one of the allowance if it passes,
    and one before the interval leaves at most two windows. *)
Lemma check_allowance t0 t s :
  config s = cfg -> t < t0 + window cfg -> user_ok cfg t (users s !! c) ->
  let '((a, _, _), s') := check (fun _ => t) c s in
  user_ok cfg t (users s' !! c) /\
  (t0 <= t -> (if a then 1 else 0) + allowance cfg t0 (users s' !! c) <= allowance cfg t0 (users s !! c)) /\
  allowance cfg t0 (users s' !! c) <= 2 * max_requests cfg.
Proof.
  intros Hc Ht Hu. unfold check. rewrite Hc. unfold take_one. cbv zeta.
  set (u0 := default _ (users s !! c)).
  assert (Hu0 : 0 <= count u0 <= max_requests cfg /\ window_start u0 <= t).
  { unfold u0. destruct (users s !! c) as [u|]; simpl in *; [done|lia]. }
  assert (Hr : 0 <= count (renew cfg t u0) <= max_requests cfg /\ window_start (renew cfg t u0) <= t /\
               (t0 <= t -> allowance cfg t0 (Some (renew cfg t u0)) <= allowance cfg t0 (users s !! c))).
  { unfold renew, since. destruct (Z.leb_spec (window cfg) (Z.max 0 (t - window_start u0))) as [Hw|Hw]; simpl.
    - split; [lia|]. split; [lia|]. intros Hle. destruct (Z.leb_spec t0 t); [|lia].
      unfold u0 in *. destruct (users s !! c) as [u|]; simpl in *; [|lia].
      destruct (Z.leb_spec t0 (window_start u)); lia.
    - split; [apply Hu0|]. split; [apply Hu0|]. unfold u0 in *. destruct (users s !! c) as [u|]; simpl in *; [lia|].
      intros. destruct (Z.leb_spec t0 t); lia. }
  destruct Hr as (Hr1 & Hr2 & Hr3). set (u1 := renew cfg t u0) in *. simpl.
  rewrite !lookup_insert_eq. simpl in *.
  destruct (Z.ltb_spec (count u1) (max_requests cfg)); simpl;
    (split; [lia|]); (split; [intros Hle; specialize (Hr3 Hle)|]);
    destruct (Z.leb_spec t0 (window_start u1)); lia.
Qed.

#[local] Opaque check.
Lemma passed_bound t0 reqs t s :
  config s = cfg -> user_ok cfg t (users s !! c) -> monotone t reqs ->
  (t0 <= t -> passed c t0 (t0 + window cfg) reqs (fst (check_all reqs s)) <= allowance cfg t0 (users s !! c)) /\
  passed c t0 (t0 + window cfg) reqs (fst (check_all reqs s)) <= 2 * max_requests cfg.
Proof.
  revert t s. induction reqs as [|[c' t'] reqs IH]; intros t s Hc Hu Hm.
  { split; [|simpl; lia]. intros _. simpl. destruct (users s !! c) as [u|]; simpl in *; [|lia].
    destruct (t0 <=? window_start u); lia. }
  destruct Hm as [Ht Hm]. simpl.
  pose proof (check_config (fun _ => t') c' s) as Hcfg.
  assert (Hu' : user_ok cfg t' (users s !! c)).
  { destruct (users s !! c) as [u|]; simpl in *; [|done]. destruct Hu. split; [done|lia]. }
  destruct (Z.ltb_spec t' (t0 + window cfg)) as [Hin|Hout].
  2: { destruct (check _ c' s) as [[[a r] z] s1]. destruct (check_all reqs s1) as [rest s2]. simpl.
       rewrite (passed_later t0 _ t' reqs rest) by (done || lia).
       rewrite andb_false_r. split; [|lia]. intros _. destruct (users s !! c) as [u|]; simpl in *; [|lia].
       destruct (t0 <=? window_start u); lia. }
  destruct (decide (c' = c)) as [->|Hne].
  - pose proof (check_allowance t0 t' s Hc Hin Hu') as Hstep.
    destruct (check _ c s) as [[[a r] z] s1]. destruct Hstep as (Hok & Huse & Htwo). simpl in Hcfg.
    destruct (IH t' s1 ltac:(congruence) Hok Hm) as [IH1 IH2].
    destruct (check_all reqs s1) as [rest s2]. simpl in *. rewrite String.eqb_refl, andb_true_r, andb_true_r.
    destruct (Z.leb_spec t0 t'); rewrite ?andb_true_r, ?andb_false_r.
    + specialize (IH1 ltac:(lia)). specialize (Huse ltac:(lia)).
      assert (Hall : allowance cfg t0 (users s !! c) <= 2 * max_requests cfg).
      { destruct (users s !! c) as [u|]; simpl in *; [|lia]. destruct (t0 <=? window_start u); lia. }
      destruct a; split; intros; lia.
    + split; intros; lia.
  - pose proof (check_other (fun _ => t') c' s Hne) as Hsame.
    destruct (check _ c' s) as [[[a r] z] s1]. simpl in Hcfg, Hsame. rewrite <- Hsame in *.
    destruct (IH t' s1 ltac:(congruence) Hu' Hm) as [IH1 IH2].
    destruct (check_all reqs s1) as [rest s2]. simpl in *.
    destruct (String.eqb_spec c' c); [done|]. rewrite andb_false_r. simpl.
    split; [intros; apply IH1; lia|lia].
Qed.

(** C29: whatever the requests, of a client's in any stretch of time as long as
    the window at most twice [max_requests] pass. *)
Theorem rate_limit_bound t0 t reqs :
  monotone t reqs ->
  passed c t0 (t0 + window cfg) reqs (fst (check_all reqs (new cfg))) <= 2 * max_requests cfg.
Proof. intros Hm. apply (passed_bound t0 reqs t (new cfg)); [done| |done]. simpl. by rewrite lookup_empty. Qed.
End Bound.
#[local] Transparent check.

(** The bound is reached: two bursts around the end of a window. *)
Example rate_limit_bound_reached :
  let cfg := {| max_requests := 2; window := 10; headers := default_headers |} in
  let reqs := [("a", 0); ("a", 9); ("a", 10); ("a", 11); ("a", 12)] in
  passed "a" 9 19 reqs (fst (check_all reqs (new cfg))) = 3 /\
  fst (check_all reqs (new cfg)) = [true; true; true; true; false].
Proof. vm_compute. done. Qed.

Section MiddlewareSpec.
Context (hash_str : string -> Z) (to_json : string -> string -> option string).
Context {W : Type} (next : Request -> W -> Response * W).

Lemma add_headers_keeps cfg n z r :
  status (add_headers cfg n z r) = status r /\ body (add_headers cfg n z r) = body r.
Proof. unfold add_headers. by destruct (h_limit _), (h_remaining _), (h_reset _). Qed.

Lemma add_headers_remaining cfg n z r :
  h_remaining (headers cfg) = true ->
  header_map (add_headers cfg n z r) !! "x-rate-limit-remaining"%string = Some (to_string n).
Proof.
  intros Hh. unfold add_headers, set_header. rewrite Hh. destruct (h_reset _); simpl.
  - rewrite lookup_insert_ne by done. by rewrite lookup_insert_eq.
  - by rewrite lookup_insert_eq.
Qed.

(** The middleware on every branch. *)
Lemma middleware_run now request s w :
  has_limiter request = true ->
  let id := get_client_id hash_str request in
  let u := renew (config s) (now 0%nat)
             (default {| count := 0; window_start := now 0%nat |} (users s !! id)) in
  let '(response, (s', w')) := rate_limit_middleware hash_str to_json next now request (s, w) in
  w' = snd (next request w) /\
  (count u < max_requests (config s) ->
     status response = status (fst (next request w)) /\ body response = body (fst (next request w)) /\
     users s' !! id = Some {| count := count u + 1; window_start := window_start u |} /\
     (h_remaining (headers (config s)) = true ->
      header_map response !! "x-rate-limit-remaining"%string
      = Some (to_string (max_requests (config s) - count u)))) /\
  (max_requests (config s) <= count u ->
     status response = 429 /\ users s' !! id = Some u /\
     (h_remaining (headers (config s)) = true ->
      header_map response !! "x-rate-limit-remaining"%string = Some (to_string 0)) /\
     exists message, body response = default "" (to_json "RateLimitExceeded" message)).
Proof.
  intros Hlim id u. unfold rate_limit_middleware. rewrite Hlim. cbn [fst snd]. fold id.
  unfold check. fold u. unfold take_one. cbv zeta.
  destruct (next request w) as [response w'].
  destruct (Z.ltb_spec (count u) (max_requests (config s))) as [Hlt|Hge]; cbn [fst snd status body header_map config users].
  - split; [done|]. split; [|lia]. intros _. rewrite !(proj1 (add_headers_keeps _ _ _ _)), !(proj2 (add_headers_keeps _ _ _ _)).
    split; [done|]. split; [done|]. rewrite lookup_insert_eq. split; [done|].
    intros Hh. rewrite add_headers_remaining by done. do 2 f_equal. unfold saturating_sub. lia.
  - split; [done|]. split; [lia|]. intros _. rewrite (proj1 (add_headers_keeps _ _ _ _)).
    split; [done|]. rewrite lookup_insert_eq. split; [done|]. split; [|by eexists].
    intros Hh. by rewrite add_headers_remaining.
Qed.

(** C37: the request behind the limiter is carried out in every case; over the
    limit its response is replaced by a 429.  A request that passes is told the
    number that was left before it, one more than is left for the next. *)
Theorem rate_limit_middleware_spec now request s w :
  has_limiter request = true ->
  let id := get_client_id hash_str request in
  let u := renew (config s) (now 0%nat)
             (default {| count := 0; window_start := now 0%nat |} (users s !! id)) in
  let '(response, (s', w')) := rate_limit_middleware hash_str to_json next now request (s, w) in
  w' = snd (next request w) /\
  (count u < max_requests (config s) ->
     status response = status (fst (next request w)) /\ body response = body (fst (next request w)) /\
     users s' !! id = Some {| count := count u + 1; window_start := window_start u |} /\
     (h_remaining (headers (config s)) = true ->
      header_map response !! "x-rate-limit-remaining"%string
      = Some (to_string (max_requests (config s) - count u)))) /\
  (max_requests (config s) <= count u ->
     status response = 429 /\ users s' !! id = Some u /\
     (h_remaining (headers (config s)) = true ->
      header_map response !! "x-rate-limit-remaining"%string = Some (to_string 0))).
Proof.
  intros Hlim id u. pose proof (middleware_run now request s w Hlim) as Hrun. cbv zeta in Hrun. fold id in Hrun.
  fold u in Hrun. destruct (rate_limit_middleware _ _ _ _ _ _) as [response [s' w']].
  destruct Hrun as (H1 & H2 & H3). split; [done|]. split; [done|]. intros Hge.
  by destruct (H3 Hge) as (? & ? & ? & _).
Qed.
End MiddlewareSpec.

(** ** Witnesses *)

Definition two_per_ten : RateLimitConfig := {| max_requests := 2; window := 10; headers := default_headers |}.

Lemma rate_limit_bound_witness :
  passed "a" 9 19 [("a", 0); ("a", 9); ("a", 10); ("a", 11); ("a", 12)]
    (fst (check_all [("a", 0); ("a", 9); ("a", 10); ("a", 11); ("a", 12)] (new two_per_ten))) <= 4.
Proof. apply (rate_limit_bound two_per_ten "a" ltac:(simpl; lia) 9 0). simpl. lia. Defined.

(** A limiter with nothing left, and a handler that counts its runs. *)
Definition spent : RateLimiter :=
  {| users := {[ "default" := {| count := 2; window_start := 0 |} ]}; config := two_per_ten |}.
Definition plain_request : Request :=
  {| has_limiter := true; x_api_key := None; authorization := None; remote_ip := None |}.
Definition counting (_ : Request) (n : nat) : Response * nat :=
  ({| status := 200; header_map := ∅; body := "" |}, S n).

Lemma rate_limit_middleware_spec_witness :
  let '(response, (_, runs)) :=
    rate_limit_middleware str_len (fun _ _ => None) counting (fun _ => 5) plain_request (spent, 0%nat) in
  runs = 1%nat /\ status response = 429.
Proof.
  pose proof (rate_limit_middleware_spec str_len (fun _ _ => None) counting (fun _ => 5) plain_request
                spent 0%nat eq_refl) as H.
  destruct (rate_limit_middleware _ _ _ _ _ _) as [response [s' runs]].
  destruct H as (H1 & _ & H2). split; [exact H1|]. apply H2. vm_compute. discriminate.
Defined.
