(* ===== verification/StatCache.v ===== *)
(** * StatCache: the server's cache of stat answers
    ([crates/racfs-server/src/stat_cache.rs])

    [get_or_fetch] holds the lock twice, before and after the fetch: the two
    sections are definitions of their own, so that other tasks can run between
    them.  Instants are nanoseconds of the monotonic clock. *)

From S2P Require Import Prelude Text RPath FsError Metadata.
From Stdlib Require Strings.String.

(* src: crates/racfs-server/src/stat_cache.rs 15-15 DEFAULT_TTL_SECS *)
Definition DEFAULT_TTL_SECS : Z := 2.

(* src: crates/racfs-server/src/stat_cache.rs 18-24 StatCache *)
Record StatCache := {
  entries : PathMap (FileMetadata * Z);
  ttl : Z;
  hits : Z;
  misses : Z;
  evictions : Z
}.

(** The Prometheus counters are handed in at zero. *)
(* src: crates/racfs-server/src/stat_cache.rs 43-56 StatCache::new_with_ttl *)
Definition new_with_ttl (d : Z) : StatCache :=
  {| entries := ∅; ttl := d; hits := 0; misses := 0; evictions := 0 |}.

(* src: crates/racfs-server/src/stat_cache.rs 33-40 StatCache::new *)
Definition new : StatCache := new_with_ttl (DEFAULT_TTL_SECS * 10 ^ 9).

(* src: crates/racfs-server/src/stat_cache.rs 59-61 StatCache::set_ttl *)
Definition set_ttl (d : Z) (s : StatCache) : StatCache :=
  {| entries := entries s; ttl := d; hits := hits s; misses := misses s; evictions := evictions s |}.

Definition set_entries e (s : StatCache) : StatCache :=
  {| entries := e; ttl := ttl s; hits := hits s; misses := misses s; evictions := evictions s |}.
Definition count_hit (s : StatCache) : StatCache :=
  {| entries := entries s; ttl := ttl s; hits := hits s + 1; misses := misses s; evictions := evictions s |}.
Definition count_miss (s : StatCache) : StatCache :=
  {| entries := entries s; ttl := ttl s; hits := hits s; misses := misses s + 1; evictions := evictions s |}.
Definition count_eviction (s : StatCache) : StatCache :=
  {| entries := entries s; ttl := ttl s; hits := hits s; misses := misses s; evictions := evictions s + 1 |}.

(** Before the fetch: the cached answer, or the time to live to store with. *)
(* src: crates/racfs-server/src/stat_cache.rs 69-83 StatCache::get_or_fetch *)
Definition begin_fetch (now : Now) (p : Path) (s : StatCache) : (FileMetadata + Z) * StatCache :=
  match pm_get p (entries s) with
  | Some (meta, expires) =>
    if now 0%nat <? expires then (inl meta, count_hit s)
    else (inr (ttl s), count_miss (count_eviction (set_entries (pm_remove p (entries s)) s)))
  | None => (inr (ttl s), count_miss s)
  end.

(** After it. *)
(* src: crates/racfs-server/src/stat_cache.rs 85-87 StatCache::get_or_fetch *)
Definition finish_fetch {E} (now : Now) (p : Path) (d : Z) (meta : FileMetadata) (s : StatCache)
  : outcome E FileMetadata * StatCache :=
  match instant_add (now 0%nat) d with
  | Ok expires => (Ok meta, set_entries (pm_insert p (meta, expires) (entries s)) s)
  | Err e => (Err e, s)
  | Panic => (Panic, s)
  | Diverge => (Diverge, s)
  end.

(** The fetch works on the state [W] of the filesystem behind the cache. *)
(* src: crates/racfs-server/src/stat_cache.rs 64-88 StatCache::get_or_fetch *)
Definition get_or_fetch {E W} (now : Now) (p : Path) (fetch : M W E FileMetadata)
  : M (StatCache * W) E FileMetadata := fun '(s, w) =>
  match begin_fetch now p s with
  | (inl meta, s1) => (Ok meta, (s1, w))
  | (inr d, s1) =>
    match fetch w with
    | (Ok meta, w') => let '(r, s2) := finish_fetch (now_from 1 now) p d meta s1 in (r, (s2, w'))
    | (Err e, w') => (Err e, (s1, w'))
    | (Panic, w') => (Panic, (s1, w'))
    | (Diverge, w') => (Diverge, (s1, w'))
    end
  end.

(* src: crates/racfs-server/src/stat_cache.rs 91-97 StatCache::invalidate *)
Definition invalidate (p : Path) (s : StatCache) : StatCache :=
  let e := pm_remove p (entries s) in
  set_entries (match parent p with Some q => pm_remove q e | None => e end) s.

(* src: crates/racfs-server/src/stat_cache.rs 100-103 StatCache::invalidate_rename *)
Definition invalidate_rename (p q : Path) (s : StatCache) : StatCache := invalidate q (invalidate p s).

(** ** The cache is transparent to requests one after another *)

Section Transparent.
Context {W : Type} (stat : W -> Path -> outcome FSError FileMetadata).
Hypothesis stat_path : forall w p q, components p = components q -> stat w p = stat w q.
Implicit Types (w : W) (p q : Path) (s : StatCache).

Implicit Types (now : Now).

(** A request: the stat of a path, or a change of the filesystem that the
    handler follows with an invalidation. *)
Inductive Req :=
| Get (now : Now) (p : Path)
| Change (p : Path) (w : W)
| Rename (p q : Path) (w : W)
| SetTtl (d : Z).

Definition fetch_stat p : M W FSError FileMetadata := fun w => (stat w p, w).

Definition serve (r : Req) (sw : StatCache * W) : option (outcome FSError FileMetadata) * (StatCache * W) :=
  match r with
  | Get now p => let '(o, sw') := get_or_fetch now p (fetch_stat p) sw in (Some o, sw')
  | Change p w' => (None, (invalidate p (fst sw), w'))
  | Rename p q w' => (None, (invalidate_rename p q (fst sw), w'))
  | SetTtl d => (None, (set_ttl d (fst sw), snd sw))
  end.

(** The same without a cache. *)
Definition serve_uncached (r : Req) w : option (outcome FSError FileMetadata) * W :=
  match r with
  | Get _ p => (Some (stat w p), w)
  | Change _ w' | Rename _ _ w' => (None, w')
  | SetTtl _ => (None, w)
  end.

(** Is [q] the path or its parent directory? *)
Definition near p q : Prop :=
  components q = components p \/ exists pp, parent p = Some pp /\ components q = components pp.

(** A change that shows at the path and its parent only. *)
Definition local_to (P : Path -> Prop) w w' : Prop := forall q, ~ P q -> stat w' q = stat w q.

Definition req_ok (d : Z) (r : Req) w : Prop :=
  match r with
  | Get now _ => now 1%nat + d <= instant_max
  | Change p w' => local_to (near p) w w'
  | Rename p q w' => local_to (fun x => near p x \/ near q x) w w'
  | SetTtl _ => True
  end.

(** Every request of a run is, in the state it meets. *)
Fixpoint reqs_ok (d : Z) (rs : list Req) w : Prop :=
  match rs with
  | [] => True
  | r :: rs' => req_ok d r w /\
                reqs_ok (match r with SetTtl d' => d' | _ => d end) rs' (snd (serve_uncached r w))
  end.

Definition coherent s w : Prop := forall p m x, pm_get p (entries s) = Some (m, x) -> stat w p = Ok m.

Lemma pm_get_remove_Some {V} p q (m : PathMap V) v :
  pm_get q (pm_remove p m) = Some v -> components p <> components q /\ pm_get q m = Some v.
Proof.
  intros Hg. destruct (decide (components p = components q)) as [He|Hne].
  - rewrite (pm_get_congr q p _ (eq_sym He)), pm_get_remove in Hg. done.
  - by rewrite pm_get_remove_ne in Hg.
Qed.

Lemma invalidate_Some p q s v :
  pm_get q (entries (invalidate p s)) = Some v -> ~ near p q /\ pm_get q (entries s) = Some v.
Proof.
  unfold invalidate, near. destruct (parent p) as [pp|] eqn:E; simpl.
  - intros [H1 [H2 H3]%pm_get_remove_Some]%pm_get_remove_Some. split; [|done].
    intros [He|(x & Hx & He)]; simplify_eq; congruence.
  - intros [H1 H2]%pm_get_remove_Some. split; [|done]. intros [He|(x & Hx & _)]; congruence.
Qed.

Lemma get_or_fetch_coherent now p s w :
  coherent s w -> now 1%nat + ttl s <= instant_max ->
  exists s', get_or_fetch now p (fetch_stat p) (s, w) = (stat w p, (s', w)) /\
             coherent s' w /\ ttl s' = ttl s.
Proof.
  intros Hc Ht. unfold get_or_fetch, begin_fetch, fetch_stat.
  assert (Hput : forall s1, coherent s1 w -> ttl s1 = ttl s -> exists s',
    match (stat w p, w) with
    | (Ok meta, w') => let '(r, s2) := finish_fetch (now_from 1 now) p (ttl s) meta s1 in (r, (s2, w'))
    | (Err e, w') => (Err e, (s1, w'))
    | (Panic, w') => (Panic, (s1, w'))
    | (Diverge, w') => (Diverge, (s1, w'))
    end = (stat w p, (s', w)) /\ coherent s' w /\ ttl s' = ttl s).
  { intros s1 Hs1 Htl. destruct (stat w p) as [m|e| |] eqn:E; [|by eexists..].
    unfold finish_fetch, instant_add, now_from. simpl.
    destruct (Z.ltb_spec instant_max (now 1%nat + ttl s)); [lia|]. eexists. split; [reflexivity|].
    split; [|done]. intros q m' x. simpl.
    destruct (decide (components p = components q)) as [He|Hne].
    - rewrite (pm_get_congr q p _ (eq_sym He)), pm_get_insert. intros; simplify_eq.
      by rewrite <- (stat_path w p q He).
    - rewrite pm_get_insert_ne by done. apply Hs1. }
  destruct (pm_get p (entries s)) as [[m x]|] eqn:E.
  - destruct (now 0%nat <? x).
    + exists (count_hit s). rewrite (Hc _ _ _ E). done.
    + apply Hput; [|done]. intros q m' x'. simpl. intros [_ Hg]%pm_get_remove_Some. by eapply Hc.
  - by apply Hput.
Qed.

Lemma coherent_after_change P s s' w w' :
  coherent s w -> local_to P w w' ->
  (forall q v, pm_get q (entries s') = Some v -> ~ P q /\ pm_get q (entries s) = Some v) -> coherent s' w'.
Proof. intros Hc Hl Hs q m x Hg. apply Hs in Hg as [Hn Hg]. rewrite Hl by done. by eapply Hc. Qed.

Lemma serve_refines r s w :
  coherent s w -> req_ok (ttl s) r w ->
  exists s', serve r (s, w) = (fst (serve_uncached r w), (s', snd (serve_uncached r w))) /\
             coherent s' (snd (serve_uncached r w)) /\
             ttl s' = match r with SetTtl d => d | _ => ttl s end.
Proof.
  intros Hc Hr. destruct r as [now p|p w'|p q w'|d]; cbn [serve serve_uncached fst snd req_ok] in *.
  - destruct (get_or_fetch_coherent now p s w Hc Hr) as (s' & -> & Hs' & Ht). by exists s'.
  - eexists. split; [reflexivity|]. split; [|done].
    apply (coherent_after_change (near p) s _ w w'); [done|done|intros x v; apply invalidate_Some].
  - eexists. split; [reflexivity|]. split; [|done].
    apply (coherent_after_change (fun x => near p x \/ near q x) s _ w w'); [done|done|].
    intros x v [Hq [Hp Hg]%invalidate_Some]%invalidate_Some. split; [tauto|done].
  - eexists. split; [reflexivity|]. done.
Qed.

(** C30: requests that are served one after another get the answers they would
    get without the cache, whatever is cached or has expired, as long as a
    change shows at no path but the one that is invalidated and its parent. *)
Theorem stat_cache_transparent rs d w :
  reqs_ok d rs w ->
  fst (run_all serve rs (new_with_ttl d, w)) = fst (run_all serve_uncached rs w).
Proof.
  intros Hok.
  enough (Hgen : forall s, coherent s w -> ttl s = d ->
    fst (run_all serve rs (s, w)) = fst (run_all serve_uncached rs w)).
  { apply Hgen; [|done]. intros p m x Hg. unfold pm_get in Hg. simpl in Hg. unfold PathMap in Hg.
    by rewrite lookup_empty in Hg. }
  revert d w Hok. induction rs as [|r rs IH]; intros d w Hok s Hc Ht; [done|].
  destruct Hok as [Hr Hok]. subst d. destruct (serve_refines r s w Hc Hr) as (s' & Hs & Hc' & Ht').
  specialize (IH _ _ Hok s' Hc' Ht'). cbn [run_all]. rewrite Hs.
  destruct (serve_uncached r w) as [a w1]. cbn [fst snd] in *.
  destruct (run_all serve rs (s', w1)), (run_all serve_uncached rs w1). simpl in *. by subst.
Qed.
End Transparent.

(** ** Where it is not *)

Section Stale.
Context {E W : Type}.
Implicit Types (p q : Path) (s : StatCache).

(** A change that another task makes and invalidates while a stat is being
    fetched is lost: the old answer is stored after the invalidation and served
    until it expires, without asking the filesystem. *)
Theorem stat_cache_race (now now2 now3 : Now) p m s (fetch : M W E FileMetadata) w :
  pm_get p (entries s) = None -> now2 0%nat + ttl s <= instant_max -> now3 0%nat < now2 0%nat + ttl s ->
  let s1 := snd (begin_fetch now p s) in
  let s2 := invalidate p s1 in
  let s3 := snd (@finish_fetch E now2 p (ttl s) m s2) in
  fst (begin_fetch now p s) = inr (ttl s) /\
  get_or_fetch now3 p fetch (s3, w) = (Ok m, (count_hit s3, w)).
Proof.
  intros Hp Hmax Hlt. unfold begin_fetch. rewrite Hp. cbn [fst snd]. split; [done|].
  unfold finish_fetch, instant_add. destruct (Z.ltb_spec instant_max (now2 0%nat + ttl s)); [lia|].
  unfold get_or_fetch, begin_fetch. cbn [snd set_entries entries]. rewrite pm_get_insert.
  destruct (Z.ltb_spec (now3 0%nat) (now2 0%nat + ttl s)); [done|lia].
Qed.

(** A rename invalidates the two paths and their parents and keeps everything
    else, what is below a renamed directory included. *)
Theorem invalidate_rename_keeps p q x s :
  ~ near p x -> ~ near q x ->
  pm_get x (entries (invalidate_rename p q s)) = pm_get x (entries s).
Proof.
  assert (Hone : forall y s, ~ near y x -> pm_get x (entries (invalidate y s)) = pm_get x (entries s)).
  { intros y s0 Hn. unfold invalidate, near in *. destruct (parent y) as [z|] eqn:Ey; simpl.
    - rewrite pm_get_remove_ne by (intros Heq; apply Hn; right; by exists z).
      apply pm_get_remove_ne. intros Heq. apply Hn. by left.
    - apply pm_get_remove_ne. intros Heq. apply Hn. by left. }
  intros Hp Hq. unfold invalidate_rename. by rewrite !Hone.
Qed.
End Stale.

(** ** Witnesses *)

(** A filesystem with one file, whose metadata is the state. *)
Definition one_stat (w : FileMetadata) (p : Path) : outcome FSError FileMetadata :=
  if decide (components p = components "/a/b") then Ok w else Err (NotFound "").

Definition meta_of (n : Z) : FileMetadata := Metadata.file (fun _ => 0) "/a/b" n.

Lemma one_stat_path w p q : components p = components q -> one_stat w p = one_stat w q.
Proof. unfold one_stat. by intros ->. Qed.

Definition some_reqs : list (Req (W := FileMetadata)) :=
  [Get (fun _ => 5) "/a/b"; Get (fun _ => 6) "/a//b"; Change "/a/b/" (meta_of 2);
   Get (fun _ => 7) "/a/b"; Get (fun _ => 8) "/c"].

Lemma some_reqs_ok : reqs_ok one_stat 10 some_reqs (meta_of 1).
Proof.
  repeat split; try (vm_compute; congruence).
  intros q Hq. unfold one_stat. case_decide as Hd; [|done]. exfalso. apply Hq. left. exact Hd.
Qed.

Lemma stat_cache_transparent_witness :
  fst (run_all (serve one_stat) some_reqs (new_with_ttl 10, meta_of 1))
  = [Some (Ok (meta_of 1)); Some (Ok (meta_of 1)); None; Some (Ok (meta_of 2)); Some (Err (NotFound ""))].
Proof. exact (stat_cache_transparent one_stat one_stat_path some_reqs 10 (meta_of 1) some_reqs_ok). Defined.

Lemma stat_cache_race_witness :
  let s1 := snd (begin_fetch (fun _ => 0) "/a/b" (new_with_ttl 10)) in
  let s2 := invalidate "/a/b" s1 in
  let s3 := snd (@finish_fetch FSError (fun _ => 1) "/a/b" 10 (meta_of 1) s2) in
  get_or_fetch (fun _ => 2) "/a/b" (fetch_stat one_stat "/a/b") (s3, meta_of 2)
  = (Ok (meta_of 1), (count_hit s3, meta_of 2)).
Proof.
  refine (proj2 (stat_cache_race (fun _ => 0) (fun _ => 1) (fun _ => 2) "/a/b" (meta_of 1) (new_with_ttl 10)
                   (fetch_stat one_stat "/a/b") (meta_of 2) _ _ _)).
  - reflexivity.
  - vm_compute. discriminate.
  - vm_compute. reflexivity.
Defined.
