(* ===== verification/Auth.v ===== *)
(** * Auth: logins, tokens and API keys of the server
    ([crates/racfs-server/src/auth/], [crates/racfs-server/src/api/auth_api.rs])

    The crates behind it are parameters: [bcrypt] hashes and verifies passwords,
    [jsonwebtoken] signs claims, [uuid] makes identifiers.  A fresh state is
    made of the identifiers and hashes that they answered while it was built. *)

From S2P Require Import Prelude Text Metadata Json Http.
From Stdlib Require Import Strings.Ascii.
From Stdlib Require Strings.String.

(** ** Models *)

(* src: crates/racfs-server/src/auth/models.rs 23-31 Role *)
Inductive Role := Admin | User_ | Readonly.

#[global] Instance Role_eq_dec : EqDecision Role.
Proof. solve_decision. Defined.

(** [#[default]] *)
Definition default_role : Role := User_.

(** [rename_all = "lowercase"] *)
#[global] Instance Role_Serialize : Serialize Role := fun r =>
  JStr (match r with Admin => "admin" | User_ => "user" | Readonly => "readonly" end).

(* src: crates/racfs-server/src/auth/models.rs 7-18 Claims *)
Record Claims := { sub : string; claims_username : string; claims_role : Role; exp : Z; iat : Z }.

(* src: crates/racfs-server/src/auth/models.rs 35-44 User *)
Record User := { user_id : string; user_username : string; password_hash : string; user_role : Role }.

(* src: crates/racfs-server/src/auth/models.rs 48-53 LoginRequest *)
Record LoginRequest := { login_username : string; login_password : string }.

#[global] Instance LoginRequest_Deserialize : Deserialize LoginRequest := fun v =>
  u ← get_field "username" from_json v;
  p ← get_field "password" from_json v;
  Some {| login_username := u; login_password := p |}.

(* src: crates/racfs-server/src/auth/models.rs 57-66 LoginResponse *)
Record LoginResponse := {
  access_token : string;
  token_type : string;
  expires_in : Z;
  refresh_token : option string
}.

#[global] Instance LoginResponse_Serialize : Serialize LoginResponse := fun r =>
  JObj [("access_token"%string, JStr (access_token r));
  ("token_type"%string, JStr (token_type r));
  ("expires_in"%string, JNum (expires_in r));
  ("refresh_token"%string, to_json (refresh_token r))].

(* src: crates/racfs-server/src/auth/models.rs 70-81 ApiKey *)
Record ApiKey := {
  key_id : string;
  key_hash : string;
  key_user_id : string;
  key_name : string;
  active : bool
}.

(** ** Errors *)

(** The sources of two of the errors are their texts. *)
(* src: crates/racfs-server/src/auth/error.rs 13-53 AuthError *)
Inductive AuthError :=
| InvalidCredentials
| InvalidToken
| TokenValidation (source : string)
| PasswordMismatch
| UserNotFound
| UserAlreadyExists
| InvalidApiKey
| AuthUnauthorized
| AuthForbidden
| AuthInternal (source : string).

(** The status and the message. *)
(* src: crates/racfs-server/src/auth/error.rs 58-74 AuthError::into_response *)
Definition auth_error_status (e : AuthError) : Z * string :=
  match e with
  | InvalidCredentials => (401, "Invalid credentials")
  | InvalidToken => (401, "Invalid or expired token")
  | TokenValidation _ => (401, "Token validation failed")
  | PasswordMismatch => (401, "Invalid credentials")
  | UserNotFound => (404, "User not found")
  | UserAlreadyExists => (409, "User already exists")
  | InvalidApiKey => (401, "Invalid API key")
  | AuthUnauthorized => (401, "Unauthorized")
  | AuthForbidden => (403, "Forbidden: insufficient permissions")
  | AuthInternal _ => (500, "Internal server error")
  end%string.

(* src: crates/racfs-server/src/auth/error.rs 56-79 AuthError::into_response *)
Definition auth_error_response `{JsonText} (e : AuthError) : Response :=
  let '(st, error_message) := auth_error_status e in
  respond st (json_to_string (JObj [("error"%string, JStr error_message)])).

(** ** JWT *)

(* src: crates/racfs-server/src/auth/jwt.rs 16-28 JwtConfig *)
Record JwtConfig := { secret : string; expiration : Z; issuer : string; config_algorithm : string }.

(* src: crates/racfs-server/src/auth/jwt.rs 30-32 default_expiration *)
Definition default_expiration : Z := 3600.
(* src: crates/racfs-server/src/auth/jwt.rs 34-36 default_issuer *)
Definition default_issuer : string := "racfs".
(* src: crates/racfs-server/src/auth/jwt.rs 38-40 default_algorithm *)
Definition default_algorithm : string := "HS256".

(** With a fresh identifier as the secret. *)
(* src: crates/racfs-server/src/auth/jwt.rs 43-50 JwtConfig::default *)
Definition default_jwt (uuid : string) : JwtConfig :=
  {| secret := uuid; expiration := default_expiration; issuer := default_issuer;
     config_algorithm := default_algorithm |}.

(** [jsonwebtoken::Algorithm], as far as it is used. *)
Inductive Algorithm := HS256 | HS384 | HS512.

(* src: crates/racfs-server/src/auth/jwt.rs 66-71 JwtAuth::new *)
Definition parse_algorithm (s : string) : Algorithm :=
  let u := to_uppercase s in
  if String.eqb u "HS256" then HS256
  else if String.eqb u "HS384" then HS384
  else if String.eqb u "HS512" then HS512
  else HS256.

(** The encoding key is the secret. *)
(* src: crates/racfs-server/src/auth/jwt.rs 55-61 JwtAuth *)
Record JwtAuth := {
  jwt_config : JwtConfig;
  jwt_users : list User;
  algorithm : Algorithm;
  encoding_key : string
}.

(* src: crates/racfs-server/src/auth/api_key.rs 14-19 ApiKeyAuth *)
Record ApiKeyAuth := { keys : list ApiKey; key_users : list User }.

(* src: crates/racfs-server/src/api/auth_api.rs 20-23 AuthApiState *)
Record AuthApiState := { jwt : JwtAuth; api_key : ApiKeyAuth }.

(** [bcrypt::verify], an error or a verdict. *)
Class Bcrypt := { verify : string -> string -> option bool }.

(** [jsonwebtoken::encode], an error's text or a token. *)
Class JwtEncode := { encode_token : Algorithm -> Claims -> string -> string + string }.

(** The identifiers are drawn in the order of the code; a password that cannot
    be hashed leaves the empty hash. *)
(* src: crates/racfs-server/src/auth/jwt.rs 65-101 JwtAuth::new *)
Definition new_jwt (config : JwtConfig) (admin_id user_id' : string)
    (admin_hash user_hash : option string) : JwtAuth :=
  {| jwt_config := config;
     jwt_users :=
       [{| user_id := admin_id; user_username := "admin"; password_hash := default "" admin_hash;
           user_role := Admin |};
        {| user_id := user_id'; user_username := "user"; password_hash := default "" user_hash;
           user_role := User_ |}];
     algorithm := parse_algorithm (config_algorithm config);
     encoding_key := secret config |}.

(* src: crates/racfs-server/src/auth/api_key.rs 23-47 ApiKeyAuth::new *)
Definition new_api_key (kid : string) (hash : option string) : ApiKeyAuth :=
  {| keys := [{| key_id := kid; key_hash := default "" hash; key_user_id := "default-user";
                 key_name := "Default API Key"; active := true |}];
     key_users := [{| user_id := "default-user"; user_username := "api_user"; password_hash := "";
                      user_role := User_ |}] |}.

(* src: crates/racfs-server/src/api/auth_api.rs 26-31 AuthApiState::new *)
Definition new_auth (config : JwtConfig) (admin_id user_id' kid : string)
    (admin_hash user_hash k_hash : option string) : AuthApiState :=
  {| jwt := new_jwt config admin_id user_id' admin_hash user_hash; api_key := new_api_key kid k_hash |}.

Section Logins.
Context `{BuildProfile} `{Bcrypt} `{JwtEncode}.
Implicit Types (now : Now).

Abbreviation AuthRes := (outcome AuthError).

(** The system clock is read once, in seconds. *)
(* src: crates/racfs-server/src/auth/jwt.rs 124-149 JwtAuth::generate_token *)
Definition generate_token now (s : JwtAuth) (u : User) : AuthRes LoginResponse :=
  _ ← (if now 0%nat <? 0 then Err (AuthInternal "second time provided was later than self") else Ok ());
  let t := now 0%nat / 10 ^ 9 in
  e ← u64_add t (expiration (jwt_config s));
  let claims := {| sub := user_id u; claims_username := user_username u; claims_role := user_role u;
                   exp := e; iat := t |} in
  token ← match encode_token (algorithm s) claims (encoding_key s) with
          | inl err => Err (TokenValidation err)
          | inr tok => Ok tok
          end;
  Ok {| access_token := token; token_type := "Bearer"; expires_in := expiration (jwt_config s);
        refresh_token := None |}.

(* src: crates/racfs-server/src/auth/jwt.rs 104-121 JwtAuth::authenticate *)
Definition authenticate now (s : JwtAuth) (r : LoginRequest) : AuthRes LoginResponse :=
  u ← ok_or (List.find (fun u => String.eqb (user_username u) (login_username r)) (jwt_users s))
            InvalidCredentials;
  valid ← ok_or (verify (login_password r) (password_hash u)) InvalidCredentials;
  if negb valid then Err InvalidCredentials else generate_token now s u.

(** The first active key that the text verifies against decides. *)
(* src: crates/racfs-server/src/auth/api_key.rs 53-68 ApiKeyAuth::validate_key *)
Fixpoint find_key (text : string) (users : list User) (ks : list ApiKey) : AuthRes User :=
  match ks with
  | [] => Err InvalidApiKey
  | k :: ks =>
    if negb (active k) then find_key text users ks
    else if default false (verify text (key_hash k)) then
      ok_or (List.find (fun u => String.eqb (user_id u) (key_user_id k)) users) UserNotFound
    else find_key text users ks
  end.

(* src: crates/racfs-server/src/auth/api_key.rs 50-69 ApiKeyAuth::validate_key *)
Definition validate_key (s : ApiKeyAuth) (text : string) : AuthRes User :=
  find_key text (key_users s) (keys s).

(* src: crates/racfs-server/src/api/auth_api.rs 63-78 login *)
Definition login now (s : AuthApiState) (use_api_key : bool) (payload : LoginRequest) : AuthRes LoginResponse :=
  if use_api_key then
    u ← validate_key (api_key s) (login_password payload);
    generate_token now (jwt s) u
  else authenticate now (jwt s) payload.
End Logins.

(** ** The user of a request *)

(* src: crates/racfs-server/src/auth/middleware.rs 11-18 AuthUser *)
Record AuthUser := { auth_user_id : string; auth_username : string; auth_role : Role }.

#[global] Instance AuthUser_Serialize : Serialize AuthUser := fun u =>
  JObj [("user_id"%string, JStr (auth_user_id u)); ("username"%string, JStr (auth_username u));
  ("role"%string, to_json (auth_role u))].

(** What a middleware has put into the request's extensions. *)
(* src: crates/racfs-server/src/auth/middleware.rs 26-33 AuthUser::from_request_parts *)
Definition from_request_parts (extension : option AuthUser) : AuthUser + AuthError :=
  match extension with Some u => inl u | None => inr AuthUnauthorized end.

Section Endpoints.
Context `{JsonText}.

(* src: crates/racfs-server/src/api/auth_api.rs 83-90 logout *)
Definition logout (extension : option AuthUser) : Response :=
  match from_request_parts extension with
  | inl _ => respond 200 (json_to_string (JObj [("message"%string, JStr "Logged out successfully")]))
  | inr e => auth_error_response e
  end.

(* src: crates/racfs-server/src/api/auth_api.rs 93-95 me *)
Definition me (extension : option AuthUser) : Response :=
  match from_request_parts extension with
  | inl u => respond 200 (json_to_string (to_json u))
  | inr e => auth_error_response e
  end.

(* src: crates/racfs-server/src/api/auth_api.rs 98-105 refresh *)
Definition refresh : Response :=
  respond 501 (json_to_string (JObj [("error"%string, JStr "Not implemented")])).
End Endpoints.

(** ** What a login takes *)

Section Spec.
Context `{BuildProfile} `{Bcrypt} `{JwtEncode}.
Implicit Types (now : Now).

(** The claims of a user at a time, and the answer that carries a token. *)
Definition claims_of (s : JwtAuth) (t : Z) (u : User) : Claims :=
  {| sub := user_id u; claims_username := user_username u; claims_role := user_role u;
     exp := t + expiration (jwt_config s); iat := t |}.

Definition bearer (s : JwtAuth) (token : string) : LoginResponse :=
  {| access_token := token; token_type := "Bearer"; expires_in := expiration (jwt_config s);
     refresh_token := None |}.

(** The clock and the lifetime are in range. *)
Definition clock_fits now (s : JwtAuth) : Prop :=
  0 <= now 0%nat /\ 0 <= expiration (jwt_config s) /\ now 0%nat / 10 ^ 9 + expiration (jwt_config s) <= u64_max.

Lemma generate_token_run now s u :
  clock_fits now s ->
  generate_token now s u =
    match encode_token (algorithm s) (claims_of s (now 0%nat / 10 ^ 9) u) (encoding_key s) with
    | inl err => Err (TokenValidation err)
    | inr tok => Ok (bearer s tok)
    end.
Proof.
  intros (Hn & He & Hf). unfold generate_token. destruct (Z.ltb_spec (now 0%nat) 0); [lia|].
  assert (0 <= now 0%nat / 10 ^ 9) by (apply Z.div_pos; lia). cbv zeta. simpl.
  rewrite (unsigned_add_ok (now 0%nat / 10 ^ 9)) by lia. simpl.
  by destruct (encode_token _ _ _).
Qed.

(** The key that decides: the first active one that the text verifies against. *)
Definition key_matches (text : string) (k : ApiKey) : bool :=
  active k && default false (verify text (key_hash k)).

Lemma find_key_run text users ks :
  find_key text users ks =
    match List.find (key_matches text) ks with
    | Some k => ok_or (List.find (fun u => String.eqb (user_id u) (key_user_id k)) users) UserNotFound
    | None => Err InvalidApiKey
    end.
Proof.
  induction ks as [|k ks IH]; [done|]. simpl. unfold key_matches at 1.
  destruct (active k); simpl; [|done]. by destruct (default false _).
Qed.

(** C32: a login answers a token exactly when the first user of the name has a
    hash that the password verifies against, or, with the API-key flag, when
    the first active key that the password verifies against has a user; the
    claims of the token are that user's, and it ends with the configured
    lifetime.  Every other login is refused with 401, or 404 for a key without
    a user. *)
Theorem login_spec now s (use_key : bool) r :
  clock_fits now (jwt s) ->
  let who :=
    if use_key then
      match List.find (key_matches (login_password r)) (keys (api_key s)) with
      | Some k => List.find (fun u => String.eqb (user_id u) (key_user_id k)) (key_users (api_key s))
      | None => None
      end
    else
      match List.find (fun u => String.eqb (user_username u) (login_username r)) (jwt_users (jwt s)) with
      | Some u => match verify (login_password r) (password_hash u) with Some true => Some u | _ => None end
      | None => None
      end in
  match who with
  | Some u =>
    match encode_token (algorithm (jwt s)) (claims_of (jwt s) (now 0%nat / 10 ^ 9) u) (encoding_key (jwt s)) with
    | inr tok => login now s use_key r = Ok (bearer (jwt s) tok)
    | inl err => login now s use_key r = Err (TokenValidation err)
    end
  | None => exists e, login now s use_key r = Err e /\ (fst (auth_error_status e) = 401 \/ e = UserNotFound)
  end.
Proof.
  intros Hc who. subst who. unfold login. destruct use_key.
  - unfold validate_key. rewrite find_key_run. destruct (List.find (key_matches _) _) as [k|]; simpl.
    + destruct (List.find _ (key_users _)) as [u|]; simpl; [|eexists; split; [done|by right]].
      rewrite generate_token_run by done. by destruct (encode_token _ _ _).
    + eexists. split; [done|by left].
  - unfold authenticate. destruct (List.find _ _) as [u|]; simpl; [|eexists; split; [done|by left]].
    destruct (verify _ _) as [[]|]; simpl; [|eexists; split; [done|by left]..].
    rewrite generate_token_run by done. by destruct (encode_token _ _ _).
Qed.

(** A token is answered for whoever knows the two passwords of the code: every
    fresh state has the user [admin] with the password [admin], an
    administrator. *)
Lemma fresh_admin config i1 i2 i3 h2 h3 hash now tok :
  let s := new_auth config i1 i2 i3 (Some hash) h2 h3 in
  clock_fits now (jwt s) -> verify "admin" hash = Some true ->
  encode_token (algorithm (jwt s))
    {| sub := i1; claims_username := "admin"; claims_role := Admin;
       exp := now 0%nat / 10 ^ 9 + expiration config; iat := now 0%nat / 10 ^ 9 |} (secret config) = inr tok ->
  login now s false {| login_username := "admin"; login_password := "admin" |} = Ok (bearer (jwt s) tok).
Proof.
  intros s Hc Hv He. unfold login, authenticate. simpl. rewrite Hv. simpl.
  rewrite generate_token_run by done. unfold claims_of. subst s. simpl in *. by rewrite He.
Qed.
End Spec.

(** ** Witnesses *)

(** Hashes that are the passwords behind a letter, and tokens that name the
    subject. *)
Definition plain_bcrypt : Bcrypt := {| verify p h := Some (String.eqb (String "h"%char p) h) |}.
Definition plain_jwt : JwtEncode := {| encode_token _ c _ := inr ("token-" +:+ sub c) |}.

Definition demo_auth : AuthApiState :=
  new_auth (default_jwt "secret") "id-1" "id-2" "key-1" (Some "hadmin"%string) (Some "hpassword"%string)
    (Some "hracfs-api-key-12345"%string).

Lemma login_spec_witness :
  @login debug_profile plain_bcrypt plain_jwt (fun _ => 5 * 10 ^ 9) demo_auth false
    {| login_username := "user"; login_password := "password" |}
  = Ok (bearer (jwt demo_auth) "token-id-2").
Proof.
  apply (@login_spec debug_profile plain_bcrypt plain_jwt (fun _ => 5 * 10 ^ 9) demo_auth false
           {| login_username := "user"; login_password := "password" |}).
  repeat split; vm_compute; discriminate.
Defined.
