(* ===== verification/ServerTypes.v ===== *)
(** * ServerTypes: what the handlers read and answer
    ([crates/racfs-server/src/api/])

    The structs of the API with the conversions that serde derives for them:
    request bodies and query strings are deserialised, responses serialised. *)

From S2P Require Import Prelude Text RPath Metadata Json.
From Stdlib Require Strings.String.

(** ** Query strings *)

(** A field of a query string; one that comes twice is an error. *)
Definition query_field (k : string) (q : list (string * string)) : option string :=
  match List.filter (fun kv => String.eqb (fst kv) k) q with [kv] => Some (snd kv) | _ => None end.

(** [FileQuery], [DirectoryQuery], [StatQuery] and [XattrListQuery] have the one
    field. *)
(* src: crates/racfs-server/src/api/files.rs 20-22 FileQuery *)
Definition path_query (q : list (string * string)) : option string := query_field "path" q.

(* src: crates/racfs-server/src/api/xattr.rs 21-24 XattrQuery *)
Record XattrQuery := { xq_path : string; xq_name : string }.

Definition xattr_query (q : list (string * string)) : option XattrQuery :=
  p ← query_field "path" q;
  n ← query_field "name" q;
  Some {| xq_path := p; xq_name := n |}.

(** A boolean of a query string, false when it is missing. *)
Definition bool_field (k : string) (q : list (string * string)) : option bool :=
  match List.filter (fun kv => String.eqb (fst kv) k) q with
  | [] => Some false
  | [kv] => if String.eqb (snd kv) "true" then Some true
            else if String.eqb (snd kv) "false" then Some false else None
  | _ => None
  end.

(** The field [use_api_key], in camel case. *)
(* src: crates/racfs-server/src/api/auth_api.rs 45-49 LoginQuery *)
Definition login_query (q : list (string * string)) : option bool := bool_field "useApiKey" q.

(** ** Request bodies *)

(* src: crates/racfs-server/src/api/files.rs 25-29 WriteRequest *)
Record WriteRequest := {
  wr_path : string;
  wr_data : string;
  wr_offset : option Z
}.

#[global] Instance WriteRequest_Deserialize : Deserialize WriteRequest := fun v =>
  x0 ← get_field "path" from_json v;
  x1 ← get_field "data" from_json v;
  x2 ← opt_field "offset" (int_from in_i64) v;
  Some {| wr_path := x0; wr_data := x1; wr_offset := x2 |}.

(* src: crates/racfs-server/src/api/directories.rs 26-29 CreateDirectoryRequest *)
Record CreateDirectoryRequest := {
  cd_path : string;
  cd_perm : option Z
}.

#[global] Instance CreateDirectoryRequest_Deserialize : Deserialize CreateDirectoryRequest := fun v =>
  x0 ← get_field "path" from_json v;
  x1 ← opt_field "perm" (int_from in_u32) v;
  Some {| cd_path := x0; cd_perm := x1 |}.

(* src: crates/racfs-server/src/api/metadata.rs 25-28 RenameRequest *)
Record RenameRequest := {
  rr_old_path : string;
  rr_new_path : string
}.

#[global] Instance RenameRequest_Deserialize : Deserialize RenameRequest := fun v =>
  x0 ← get_field "old_path" from_json v;
  x1 ← get_field "new_path" from_json v;
  Some {| rr_old_path := x0; rr_new_path := x1 |}.

(* src: crates/racfs-server/src/api/metadata.rs 31-34 ChmodRequest *)
Record ChmodRequest := {
  cr_path : string;
  cr_mode : Z
}.

#[global] Instance ChmodRequest_Deserialize : Deserialize ChmodRequest := fun v =>
  x0 ← get_field "path" from_json v;
  x1 ← get_field "mode" (int_from in_u32) v;
  Some {| cr_path := x0; cr_mode := x1 |}.

(* src: crates/racfs-server/src/api/metadata.rs 37-40 TruncateRequest *)
Record TruncateRequest := {
  tr_path : string;
  tr_size : Z
}.

#[global] Instance TruncateRequest_Deserialize : Deserialize TruncateRequest := fun v =>
  x0 ← get_field "path" from_json v;
  x1 ← get_field "size" (int_from in_u64) v;
  Some {| tr_path := x0; tr_size := x1 |}.

(* src: crates/racfs-server/src/api/metadata.rs 43-46 SymlinkRequest *)
Record SymlinkRequest := {
  sr_target : string;
  sr_link_path : string
}.

#[global] Instance SymlinkRequest_Deserialize : Deserialize SymlinkRequest := fun v =>
  x0 ← get_field "target" from_json v;
  x1 ← get_field "link_path" from_json v;
  Some {| sr_target := x0; sr_link_path := x1 |}.

(* src: crates/racfs-server/src/api/xattr.rs 32-37 SetXattrRequest *)
Record SetXattrRequest := {
  xr_path : string;
  xr_name : string;
  xr_value : string
}.

#[global] Instance SetXattrRequest_Deserialize : Deserialize SetXattrRequest := fun v =>
  x0 ← get_field "path" from_json v;
  x1 ← get_field "name" from_json v;
  x2 ← get_field "value" from_json v;
  Some {| xr_path := x0; xr_name := x1; xr_value := x2 |}.

(** ** Responses *)

(* src: crates/racfs-server/src/api/files.rs 32-34 FileResponse *)
Record FileResponse := {
  fr_message : string
}.

#[global] Instance FileResponse_Serialize : Serialize FileResponse := fun r => JObj [("message"%string, JStr (fr_message r))].

(* src: crates/racfs-server/src/api/directories.rs 32-34 DirectoryResponse *)
Record DirectoryResponse := {
  dr_message : string
}.

#[global] Instance DirectoryResponse_Serialize : Serialize DirectoryResponse := fun r => JObj [("message"%string, JStr (dr_message r))].

(* src: crates/racfs-server/src/api/directories.rs 42-49 DirectoryEntry *)
Record DirectoryEntry := {
  de_permissions : string;
  de_size : Z;
  de_modified : option string;
  de_path : string;
  de_file_type : string
}.

#[global] Instance DirectoryEntry_Serialize : Serialize DirectoryEntry := fun r => JObj [("permissions"%string, JStr (de_permissions r));
  ("size"%string, JNum (de_size r));
  ("modified"%string, to_json (de_modified r));
  ("path"%string, JStr (de_path r));
  ("file_type"%string, JStr (de_file_type r))].

(* src: crates/racfs-server/src/api/directories.rs 37-39 DirectoryListResponse *)
Record DirectoryListResponse := {
  dl_entries : list DirectoryEntry
}.

#[global] Instance DirectoryListResponse_Serialize : Serialize DirectoryListResponse := fun r => JObj [("entries"%string, to_json (dl_entries r))].

(* src: crates/racfs-server/src/api/metadata.rs 49-57 MetadataResponse *)
Record MetadataResponse := {
  mr_file_type : string;
  mr_permissions : string;
  mr_size : Z;
  mr_modified : option string;
  mr_path : string;
  mr_symlink_target : option string
}.

#[global] Instance MetadataResponse_Serialize : Serialize MetadataResponse := fun r => JObj [("file_type"%string, JStr (mr_file_type r));
  ("permissions"%string, JStr (mr_permissions r));
  ("size"%string, JNum (mr_size r));
  ("modified"%string, to_json (mr_modified r));
  ("path"%string, JStr (mr_path r));
  ("symlink_target"%string, to_json (mr_symlink_target r))].

(* src: crates/racfs-server/src/api/metadata.rs 60-62 ActionResponse *)
Record ActionResponse := {
  ar_message : string
}.

#[global] Instance ActionResponse_Serialize : Serialize ActionResponse := fun r => JObj [("message"%string, JStr (ar_message r))].

(* src: crates/racfs-server/src/api/xattr.rs 40-42 XattrListResponse *)
Record XattrListResponse := {
  xl_names : list string
}.

#[global] Instance XattrListResponse_Serialize : Serialize XattrListResponse := fun r => JObj [("names"%string, to_json (xl_names r))].

(* src: crates/racfs-server/src/api/xattr.rs 45-48 XattrValueResponse *)
Record XattrValueResponse := {
  xv_value : string
}.

#[global] Instance XattrValueResponse_Serialize : Serialize XattrValueResponse := fun r => JObj [("value"%string, JStr (xv_value r))].

(* src: crates/racfs-server/src/api/health.rs 7-10 HealthResponse *)
Record HealthResponse := {
  hr_status : string;
  hr_version : string
}.

#[global] Instance HealthResponse_Serialize : Serialize HealthResponse := fun r => JObj [("status"%string, JStr (hr_status r));
  ("version"%string, JStr (hr_version r))].

(** ** Metadata on the wire

    [fmt_minutes] is chrono's formatting of a timestamp with ["%Y-%m-%d %H:%M"]. *)

Section FromMetadata.
Context (fmt_minutes : DateTime -> string).

(* src: crates/racfs-server/src/api/directories.rs 52-62 DirectoryEntry::from *)
Definition entry_from (m : FileMetadata) : DirectoryEntry :=
  {| de_permissions := to_octal (permissions m); de_size := Metadata.size m;
     de_modified := fmt_minutes <$> Metadata.modified m; de_path := Metadata.path m;
     de_file_type := Metadata.file_type m |}.

(* src: crates/racfs-server/src/api/metadata.rs 91-103 stat *)
Definition metadata_response (m : FileMetadata) : MetadataResponse :=
  {| mr_file_type := Metadata.file_type m; mr_permissions := to_octal (permissions m);
     mr_size := Metadata.size m; mr_modified := fmt_minutes <$> Metadata.modified m;
     mr_path := Metadata.path m; mr_symlink_target := Metadata.symlink_target m |}.
End FromMetadata.
