(* ===== verification/ServerApi.v ===== *)
(** * ServerApi: the handlers of the REST interface and their router
    ([crates/racfs-server/src/api/], [state.rs], [main.rs])

    A handler runs on the application state: the filesystem (any [FileSystem],
    in [main.rs] the [MountableFS]), the stat cache, the counters and the login
    state.  [handle] finds the handler of a request, decodes what the extractors
    decode and encodes the answer.  What [axum] answers to a request that no
    handler takes, or that an extractor refuses, is a parameter, as are base64
    and the formatting of timestamps. *)

From S2P Require Import Prelude Text RPath FsError Metadata Flags FileSystem.
From S2P Require Import Json Http HttpError Validation Metrics StatCache Auth ServerTypes.
From Stdlib Require Strings.String.

(* src: crates/racfs-server/src/state.rs 14-25 AppState *)
Record AppState (V : Type) := {
  vfs : V;
  metrics_registry : Registry V;
  vfs_metrics : VfsMetrics;
  stat_cache : StatCache;
  auth : AuthApiState
}.
Arguments vfs {V}.
Arguments metrics_registry {V}.
Arguments vfs_metrics {V}.
Arguments stat_cache {V}.
Arguments auth {V}.

(** The loop over the plugins, which goes on when one cannot register. *)
(* src: crates/racfs-server/src/state.rs 38-42 AppState::new *)
Fixpoint register_plugins {V} (plugins : list (PluginMetrics V)) : M (Registry V * V) string () :=
  match plugins with
  | [] => mret ()
  | provider :: plugins => attempt provider ;; register_plugins plugins
  end.

(** The state at the start, with a registry. *)
Definition with_registry {V} (v : V) (r : Registry V) (m : VfsMetrics) (auth_state : AuthApiState) (ttl : Z) : AppState V :=
  {| vfs := v; metrics_registry := r; vfs_metrics := m; stat_cache := new_with_ttl (ttl * 10 ^ 9); auth := auth_state |}.

(** The login state is made of what its crates answer. *)
(* src: crates/racfs-server/src/state.rs 28-60 AppState::new *)
Definition new `{Prometheus} {V} (v : V) (auth_state : AuthApiState) (stat_cache_ttl_secs : Z)
    (plugin_metrics : list (PluginMetrics V)) : outcome string (AppState V) :=
  m ← new_metrics;
  let '(registered, r) := register [] in
  registered ;;
  let '(plugins, (r, v)) := register_plugins plugin_metrics (r, v) in
  plugins ;;
  Ok (with_registry v r m auth_state stat_cache_ttl_secs).

Definition set_vfs {V} v (s : AppState V) : AppState V :=
  {| vfs := v; metrics_registry := metrics_registry s; vfs_metrics := vfs_metrics s; stat_cache := stat_cache s; auth := auth s |}.
Definition set_metrics {V} m (s : AppState V) : AppState V :=
  {| vfs := vfs s; metrics_registry := metrics_registry s; vfs_metrics := m; stat_cache := stat_cache s; auth := auth s |}.
Definition set_cache {V} c (s : AppState V) : AppState V :=
  {| vfs := vfs s; metrics_registry := metrics_registry s; vfs_metrics := vfs_metrics s; stat_cache := c; auth := auth s |}.

(** What [Registry::gather] reads. *)
Definition sample {V} (s : AppState V) (src : Source V) : Sample :=
  match src with
  | OfServer CacheHits => Value (hits (stat_cache s))
  | OfServer CacheMisses => Value (misses (stat_cache s))
  | OfServer CacheEvictions => Value (evictions (stat_cache s))
  | OfServer RequestDuration => Observations (request_duration_seconds (vfs_metrics s))
  | OfServer m => Value (counts (vfs_metrics s) m)
  | OfPlugin read => read (vfs s)
  end.
Definition gather {V} (s : AppState V) : list (Desc * Sample) :=
  map (fun '(d, src) => (d, sample s src)) (metrics_registry s).

(** base64, and chrono's formatting of timestamps. *)
Class Encodings := {
  b64_encode : bytes -> string;
  b64_decode : string -> option bytes;
  fmt_minutes : DateTime -> string
}.

(** ** Handlers *)

Section Handlers.
Context {V : Type} `{FileSystem V} `{Encodings}.
Implicit Types (now mono : Now).
Abbreviation Op := (M (AppState V) HttpErrorResponse).

(** A call of the filesystem, with the context of its errors. *)
Definition call_vfs {A} (operation : string) (p : Path) (m : FsOp V A) : Op A := fun s =>
  (map_err (fun e => map_fs_error_with_context e (Some operation) (Some p)) (fst (m (vfs s))),
   set_vfs (snd (m (vfs s))) s).

Definition invalidated (p : Path) : Op () := modify (fun s => set_cache (StatCache.invalidate p (stat_cache s)) s).
Definition count (c : ServerMetric) : Op () := modify (fun s => set_metrics (inc c (vfs_metrics s)) s).

(* src: crates/racfs-server/src/api/files.rs 48-66 read_file *)
Definition read_file now (path : string) : Op string :=
  lift (validate_path path) ;;
  data ← call_vfs "read" path (fs_read now path 0 (-1));
  count FileReads ;;
  mret (from_utf8_lossy data).

(* src: crates/racfs-server/src/api/files.rs 79-99 create_file *)
Definition create_file now (path : string) : Op FileResponse :=
  lift (validate_path path) ;;
  call_vfs "create" path (fs_create now path) ;;
  invalidated path ;;
  count FileWrites ;;
  mret {| fr_message := "Created file: " +:+ path |}.

(* src: crates/racfs-server/src/api/files.rs 112-135 write_file *)
Definition write_file now (b : WriteRequest) : Op FileResponse :=
  lift (validate_path (wr_path b)) ;;
  lift (validate_write_data_len (str_len (wr_data b))) ;;
  let offset := default 0 (wr_offset b) in
  written ← call_vfs "write" (wr_path b)
              (fs_write now (wr_path b) (as_bytes (wr_data b)) offset WriteFlags.none);
  invalidated (wr_path b) ;;
  count FileWrites ;;
  mret {| fr_message := "Wrote " +:+ to_string written +:+ " bytes" |}.

(* src: crates/racfs-server/src/api/files.rs 148-168 delete_file *)
Definition delete_file now (path : string) : Op FileResponse :=
  lift (validate_path path) ;;
  call_vfs "remove" path (fs_remove now path) ;;
  invalidated path ;;
  count FileDeletes ;;
  mret {| fr_message := "Deleted: " +:+ path |}.

(* src: crates/racfs-server/src/api/directories.rs 76-97 list_directory *)
Definition list_directory now (path : string) : Op DirectoryListResponse :=
  lift (validate_path path) ;;
  l ← call_vfs "read_dir" path (fs_read_dir now path);
  count DirectoryLists ;;
  mret {| dl_entries := map (entry_from fmt_minutes) l |}.

(* src: crates/racfs-server/src/api/directories.rs 110-131 create_directory *)
Definition create_directory now (b : CreateDirectoryRequest) : Op DirectoryResponse :=
  lift (validate_path (cd_path b)) ;;
  let perm := default (octal 755) (cd_perm b) in
  call_vfs "mkdir" (cd_path b) (fs_mkdir now (cd_path b) perm) ;;
  invalidated (cd_path b) ;;
  count DirectoryCreates ;;
  mret {| dr_message := "Created directory: " +:+ cd_path b |}.

(** The filesystem is asked behind the cache; the two read different clocks. *)
(* src: crates/racfs-server/src/api/metadata.rs 82-87 stat *)
Definition cached_stat now mono (p : Path) : Op FileMetadata := fun s =>
  let '(r, (c, v)) := get_or_fetch mono p (fs_stat now p) (stat_cache s, vfs s) in
  (map_err (fun e => map_fs_error_with_context e (Some "stat"%string) (Some p)) r, set_cache c (set_vfs v s)).

(* src: crates/racfs-server/src/api/metadata.rs 75-104 stat *)
Definition stat now mono (path : string) : Op MetadataResponse :=
  lift (validate_path path) ;;
  metadata ← cached_stat now mono path;
  count StatOperations ;;
  mret (metadata_response fmt_minutes metadata).

(* src: crates/racfs-server/src/api/metadata.rs 117-139 rename *)
Definition rename now (b : RenameRequest) : Op ActionResponse :=
  lift (validate_path (rr_old_path b)) ;;
  lift (validate_path (rr_new_path b)) ;;
  call_vfs "rename" (rr_old_path b) (fs_rename now (rr_old_path b) (rr_new_path b)) ;;
  modify (fun s => set_cache (invalidate_rename (rr_old_path b) (rr_new_path b) (stat_cache s)) s) ;;
  count RenameOperations ;;
  mret {| ar_message := "Renamed " +:+ rr_old_path b +:+ " to " +:+ rr_new_path b |}.

(* src: crates/racfs-server/src/api/metadata.rs 152-173 chmod *)
Definition chmod now (b : ChmodRequest) : Op ActionResponse :=
  lift (validate_path (cr_path b)) ;;
  lift (validate_mode (cr_mode b)) ;;
  call_vfs "chmod" (cr_path b) (fs_chmod now (cr_path b) (cr_mode b)) ;;
  invalidated (cr_path b) ;;
  count ChmodOperations ;;
  mret {| ar_message := "Changed permissions of " +:+ cr_path b +:+ " to " +:+ to_octal (cr_mode b) |}.

(* src: crates/racfs-server/src/api/metadata.rs 187-208 truncate *)
Definition truncate now (b : TruncateRequest) : Op ActionResponse :=
  lift (validate_path (tr_path b)) ;;
  lift (validate_truncate_size (tr_size b)) ;;
  call_vfs "truncate" (tr_path b) (fs_truncate now (tr_path b) (tr_size b)) ;;
  invalidated (tr_path b) ;;
  count StatOperations ;;
  mret {| ar_message := "Truncated " +:+ tr_path b +:+ " to " +:+ to_string (tr_size b) +:+ " bytes" |}.

(* src: crates/racfs-server/src/api/metadata.rs 222-244 symlink *)
Definition symlink now (b : SymlinkRequest) : Op ActionResponse :=
  lift (validate_path (sr_target b)) ;;
  lift (validate_path (sr_link_path b)) ;;
  call_vfs "symlink" (sr_link_path b) (fs_symlink now (sr_target b) (sr_link_path b)) ;;
  invalidated (sr_link_path b) ;;
  count StatOperations ;;
  mret {| ar_message := "Symlink " +:+ sr_link_path b +:+ " -> " +:+ sr_target b |}.

(* src: crates/racfs-server/src/api/xattr.rs 64-81 get_xattr *)
Definition get_xattr now (q : XattrQuery) : Op XattrValueResponse :=
  lift (validate_path (xq_path q)) ;;
  value ← call_vfs "get_xattr" (xq_path q) (fs_get_xattr now (xq_path q) (xq_name q));
  mret {| xv_value := b64_encode value |}.

(* src: crates/racfs-server/src/api/xattr.rs 95-117 set_xattr *)
Definition set_xattr now (b : SetXattrRequest) : Op ActionResponse :=
  lift (validate_path (xr_path b)) ;;
  value ← lift (ok_or (b64_decode (xr_value b)) (bad_request "Invalid base64 value"));
  call_vfs "set_xattr" (xr_path b) (fs_set_xattr now (xr_path b) (xr_name b) value) ;;
  invalidated (xr_path b) ;;
  mret {| ar_message := "Set xattr " +:+ xr_name b +:+ " on " +:+ xr_path b |}.

(* src: crates/racfs-server/src/api/xattr.rs 131-150 remove_xattr *)
Definition remove_xattr now (q : XattrQuery) : Op ActionResponse :=
  lift (validate_path (xq_path q)) ;;
  call_vfs "remove_xattr" (xq_path q) (fs_remove_xattr now (xq_path q) (xq_name q)) ;;
  invalidated (xq_path q) ;;
  mret {| ar_message := "Removed xattr " +:+ xq_name q +:+ " from " +:+ xq_path q |}.

(* src: crates/racfs-server/src/api/xattr.rs 164-179 list_xattr *)
Definition list_xattr now (path : string) : Op XattrListResponse :=
  lift (validate_path path) ;;
  names ← call_vfs "list_xattr" path (fs_list_xattr now path);
  mret {| xl_names := names |}.
End Handlers.

(* src: crates/racfs-server/src/api/health.rs 20-25 health_check *)
Definition health_check (version : string) : HealthResponse :=
  {| hr_status := "ok"; hr_version := version |}.

(** ** Routing *)

(** [axum]: the answer to a request that no route takes, the bodies that the
    [Json] extractor refuses unread (the size limit), and the answer to a
    request that an extractor refuses. *)
Class Axum := {
  fallback : HttpRequest -> Response;
  body_refused : string -> bool;
  rejection : HttpRequest -> Response;
  crate_version : string
}.

Section Router.
Context `{BuildProfile} {V : Type} `{FileSystem V} `{Encodings} `{JsonText} `{Axum} `{Prometheus} `{Bcrypt} `{JwtEncode}.
Implicit Types (now mono : Now) (r : HttpRequest).

(** A handler behind the router always answers with a response, if it answers. *)
Abbreviation Served := (M (AppState V) Empty_set Response).

Definition json_response {A} `{Serialize A} (a : A) : Response := respond 200 (json_to_string (to_json a)).

Definition answer {A} `{Serialize A} (m : M (AppState V) HttpErrorResponse A) : Served := fun s =>
  match m s with
  | (Ok a, s') => (Ok (json_response a), s')
  | (Err e, s') => (Ok (into_response e), s')
  | (Panic, s') => (Panic, s')
  | (Diverge, s') => (Diverge, s')
  end.

(** The extractors [Query<T>] and [Json<T>]. *)
Definition with_query {Q} (decode : list (string * string) -> option Q) r (k : Q -> Served) : Served :=
  match decode (query r) with Some q => k q | None => mret (rejection r) end.

Definition decode_body {B} `{Deserialize B} r : option B :=
  text ← request_body r;
  if body_refused text then None else v ← json_from_str text; from_json v.

Definition with_body {B} `{Deserialize B} r (k : B -> Served) : Served :=
  match decode_body r with Some b => k b | None => mret (rejection r) end.

(* src: crates/racfs-server/src/api/metrics.rs 21-40 metrics *)
Definition metrics : Served := fun s =>
  (Ok (match text_encode (gather s) with
       | Some text =>
         {| status := 200; body := text;
            header_map := {[ "content-type" := "text/plain; version=0.0.4; charset=utf-8" ]} |}
       | None => respond 500 "Failed to encode metrics"
       end), s).

Definition login_response (o : outcome AuthError LoginResponse) : outcome Empty_set Response :=
  match o with
  | Ok l => Ok (json_response l)
  | Err e => Ok (auth_error_response e)
  | Panic => Panic
  | Diverge => Diverge
  end.

(** No middleware of the server sets the user of a request. *)
(* src: crates/racfs-server/src/api/auth_api.rs 52-58 routes *)
Definition auth_routes now r : option Served :=
  match method r, uri_path r with
  | POST, "/api/v1/auth/login" =>
    Some (with_query login_query r (fun use_api_key => with_body r (fun payload s =>
      (login_response (login now (auth s) use_api_key payload), s))))
  | POST, "/api/v1/auth/logout" => Some (mret (logout None))
  | GET, "/api/v1/auth/me" => Some (mret (me None))
  | POST, "/api/v1/auth/refresh" => Some (mret refresh)
  | _, _ => None
  end%string.

(* src: crates/racfs-server/src/main.rs 315-333 run *)
Definition api_routes now mono r : option Served :=
  match method r, uri_path r with
  | GET, "/api/v1/health" => Some (mret (json_response (health_check crate_version)))
  | GET, "/metrics" => Some metrics
  | GET, "/api/v1/files" => Some (with_query path_query r (fun q => answer (read_file now q)))
  | POST, "/api/v1/files" => Some (with_query path_query r (fun q => answer (create_file now q)))
  | PUT, "/api/v1/files" => Some (with_body r (fun b => answer (write_file now b)))
  | DELETE, "/api/v1/files" => Some (with_query path_query r (fun q => answer (delete_file now q)))
  | GET, "/api/v1/directories" => Some (with_query path_query r (fun q => answer (list_directory now q)))
  | POST, "/api/v1/directories" => Some (with_body r (fun b => answer (create_directory now b)))
  | GET, "/api/v1/stat" => Some (with_query path_query r (fun q => answer (stat now mono q)))
  | POST, "/api/v1/rename" => Some (with_body r (fun b => answer (rename now b)))
  | POST, "/api/v1/chmod" => Some (with_body r (fun b => answer (chmod now b)))
  | POST, "/api/v1/truncate" => Some (with_body r (fun b => answer (truncate now b)))
  | POST, "/api/v1/symlink" => Some (with_body r (fun b => answer (symlink now b)))
  | GET, "/api/v1/xattr" => Some (with_query xattr_query r (fun q => answer (get_xattr now q)))
  | POST, "/api/v1/xattr" => Some (with_body r (fun b => answer (set_xattr now b)))
  | DELETE, "/api/v1/xattr" => Some (with_query xattr_query r (fun q => answer (remove_xattr now q)))
  | GET, "/api/v1/xattr/list" => Some (with_query path_query r (fun q => answer (list_xattr now q)))
  | _, _ => None
  end%string.

(* src: crates/racfs-server/src/main.rs 335-340 run *)
Definition route now mono r : Served :=
  match api_routes now mono r with
  | Some h => h
  | None => match auth_routes now r with Some h => h | None => mret (fallback r) end
  end.

(* src: crates/racfs-server/src/middleware.rs 14-30 operation_from_request *)
Definition operation_from_request (m : Method) (path : string) : string :=
  match m, path with
  | GET, "/api/v1/files" => "read_file"
  | POST, "/api/v1/files" => "create_file"
  | PUT, "/api/v1/files" => "write_file"
  | DELETE, "/api/v1/files" => "delete_file"
  | GET, "/api/v1/directories" => "list_directory"
  | POST, "/api/v1/directories" => "create_directory"
  | GET, "/api/v1/stat" => "stat"
  | POST, "/api/v1/rename" => "rename"
  | POST, "/api/v1/chmod" => "chmod"
  | POST, "/api/v1/truncate" => "truncate"
  | GET, "/api/v1/health" => "health"
  | GET, "/metrics" => "metrics"
  | _, _ => "other"
  end%string.

(** The readings of the monotonic clock before and after the request. *)
(* src: crates/racfs-server/src/middleware.rs 34-51 latency_middleware *)
Definition latency_middleware (start stop : Z) r (next : Served) : Served :=
  response ← next;
  modify (fun s => set_metrics (observe (operation_from_request (method r) (uri_path r))
                                  (saturating_sub stop start) (vfs_metrics s)) s) ;;
  mret response.

(** The routes behind the latency middleware; the limiter is in front of it.  A
    handler reads the monotonic clock twice at most. *)
(* src: crates/racfs-server/src/main.rs 338-347 run *)
Definition handle now mono r : Served :=
  latency_middleware (mono 0%nat) (mono 3%nat) r (route now (now_from 1 mono) r).
End Router.

(** ** Metrics that count nothing *)

Section Unused.
Context `{BuildProfile} {V : Type} `{FileSystem V} `{Encodings} `{JsonText} `{Axum} `{Prometheus} `{Bcrypt} `{JwtEncode}.
Context (m : ServerMetric).

(** An operation after which the metric has the value it had. *)
Definition leaves {E A} (f : M (AppState V) E A) : Prop :=
  forall s, counts (vfs_metrics (snd (f s))) m = counts (vfs_metrics s) m.

Lemma leaves_ret {E A} (a : A) : leaves (E := E) (mret a).
Proof. by intros s. Qed.
Lemma leaves_lift {E A} (o : outcome E A) : leaves (lift o).
Proof. by intros s. Qed.
Lemma leaves_bind {E A B} (f : M (AppState V) E A) (g : A -> M (AppState V) E B) :
  leaves f -> (forall a, leaves (g a)) -> leaves (f ≫= g).
Proof.
  intros Hf Hg s. rewrite run_bind. specialize (Hf s). destruct (f s) as [[a|e| |] s']; [|done..].
  rewrite (Hg a s'). exact Hf.
Qed.
Lemma leaves_call {A} op p (f : FsOp V A) : leaves (call_vfs op p f).
Proof. by intros s. Qed.
Lemma leaves_invalidated p : leaves (invalidated p).
Proof. by intros s. Qed.
Lemma leaves_cached_stat now mono p : leaves (cached_stat now mono p).
Proof. intros s. unfold cached_stat. by destruct (get_or_fetch _ _ _ _) as [r [c v]]. Qed.
Lemma leaves_renamed p q : leaves (E := HttpErrorResponse) (modify (fun s => set_cache (invalidate_rename p q (stat_cache s)) s)).
Proof. by intros s. Qed.
Lemma leaves_count c : c <> m -> leaves (count c).
Proof. intros Hc s. simpl. by rewrite decide_False. Qed.
Lemma leaves_answer {A} `{Serialize A} (f : M (AppState V) HttpErrorResponse A) : leaves f -> leaves (answer f).
Proof. intros Hf s. specialize (Hf s). unfold answer. by destruct (f s) as [[a|e| |] s']. Qed.

#[local] Hint Resolve leaves_ret leaves_lift leaves_bind leaves_call leaves_invalidated leaves_cached_stat leaves_renamed
  leaves_answer : core.

Lemma leaves_query {Q} (decode : list (string * string) -> option Q) r k : (forall q, leaves (k q)) -> leaves (with_query decode r k).
Proof. intros Hk. unfold with_query. destruct (decode (query r)); auto. Qed.
Lemma leaves_body {B} `{Deserialize B} r (k : B -> M (AppState V) Empty_set Response) : (forall b, leaves (k b)) -> leaves (with_body r k).
Proof. intros Hk. unfold with_body. destruct (decode_body r); auto. Qed.
#[local] Hint Resolve leaves_query leaves_body : core.

(** Through the tests of a path, character by character. *)
#[local] Ltac walk_path :=
  repeat (match goal with |- context [match ?x with _ => _ end] => is_var x; destruct x end; try exact I).

(** The connections, requests and errors that are registered as metrics are
    never counted: whatever is served, they stay what they were. *)
Theorem unused_metrics now mono r s :
  m ∈ [ActiveConnections; HttpRequests; HttpErrors] ->
  counts (vfs_metrics (snd (handle now mono r s))) m = counts (vfs_metrics s) m.
Proof.
  intros Hm.
  assert (Hc : forall c, c ∈ [FileReads; FileWrites; FileDeletes; DirectoryLists; DirectoryCreates; StatOperations; RenameOperations;
                              ChmodOperations] -> leaves (count c)).
  { intros c Hc. apply leaves_count. intros ->. revert Hc Hm. rewrite !elem_of_cons, elem_of_nil. by destruct m; intuition. }
  assert (Ha : from_option leaves True (api_routes now (now_from 1 mono) r)).
  { unfold api_routes. destruct (method r), (uri_path r); try exact I; walk_path; cbn [from_option];
      unfold read_file, create_file, write_file, delete_file, list_directory, create_directory, stat, rename, chmod, truncate, symlink,
        get_xattr, set_xattr, remove_xattr, list_xattr, metrics;
      repeat first [apply Hc; by repeat constructor | progress auto | apply leaves_bind; [|intros ?] | apply leaves_query; intros ?
                   | apply leaves_body; intros ? | apply leaves_answer | case_match | by intros s']. }
  assert (Hu : from_option leaves True (auth_routes now r)).
  { unfold auth_routes. destruct (method r), (uri_path r); try exact I; walk_path; cbn [from_option]; auto 6;
      apply leaves_query; intros ?; apply leaves_body; by intros ? s'. }
  unfold handle, latency_middleware.
  enough (Hl : leaves (route now (now_from 1 mono) r)).
  { refine (leaves_bind _ _ Hl _ s). intros a. apply leaves_bind; [by intros s'|auto]. }
  unfold route. destruct (api_routes _ _ r); [exact Ha|]. destruct (auth_routes _ r); [exact Hu|auto].
Qed.
End Unused.
