(* ===== verification/ClientTypes.v ===== *)
(** * ClientTypes: what the HTTP client sends and reads
    ([crates/racfs-client/src/types.rs])

    The structs with the conversions that serde derives for them: requests are
    serialised, responses deserialised. *)

From S2P Require Import Prelude Text Json.
From Stdlib Require Strings.String.

(** ** Responses *)

(* src: crates/racfs-client/src/types.rs 7-10 HealthResponse *)
Record HealthResponse := {
  h_status : string;
  h_version : string
}.

#[global] Instance HealthResponse_Deserialize : Deserialize HealthResponse := fun v =>
  x0 ← get_field "status" from_json v;
  x1 ← get_field "version" from_json v;
  Some {| h_status := x0; h_version := x1 |}.

(* src: crates/racfs-client/src/types.rs 14-18 CapabilitiesResponse *)
Record CapabilitiesResponse := {
  features : list string;
  max_file_size : Z
}.

#[global] Instance CapabilitiesResponse_Deserialize : Deserialize CapabilitiesResponse := fun v =>
  x0 ← get_field "features" from_json v;
  x1 ← get_field "max_file_size" (int_from in_u64) v;
  Some {| features := x0; max_file_size := x1 |}.

(* src: crates/racfs-client/src/types.rs 22-31 FileMetadataResponse *)
Record FileMetadataResponse := {
  file_type : string;
  permissions : string;
  size : Z;
  modified : option string;
  path : string;
  symlink_target : option string
}.

#[global] Instance FileMetadataResponse_Deserialize : Deserialize FileMetadataResponse := fun v =>
  x0 ← get_field "file_type" from_json v;
  x1 ← get_field "permissions" from_json v;
  x2 ← get_field "size" (int_from in_u64) v;
  x3 ← opt_field "modified" from_json v;
  x4 ← get_field "path" from_json v;
  x5 ← opt_field "symlink_target" from_json v;
  Some {| file_type := x0; permissions := x1; size := x2; modified := x3; path := x4; symlink_target := x5 |}.

(* src: crates/racfs-client/src/types.rs 35-43 DirectoryEntry *)
Record DirectoryEntry := {
  d_permissions : string;
  d_size : Z;
  d_modified : option string;
  d_path : string;
  d_file_type : option string
}.

#[global] Instance DirectoryEntry_Deserialize : Deserialize DirectoryEntry := fun v =>
  x0 ← get_field "permissions" from_json v;
  x1 ← get_field "size" (int_from in_u64) v;
  x2 ← opt_field "modified" from_json v;
  x3 ← get_field "path" from_json v;
  x4 ← opt_field "file_type" from_json v;
  Some {| d_permissions := x0; d_size := x1; d_modified := x2; d_path := x3; d_file_type := x4 |}.

(* src: crates/racfs-client/src/types.rs 47-49 DirectoryListResponse *)
Record DirectoryListResponse := {
  entries : list DirectoryEntry
}.

#[global] Instance DirectoryListResponse_Deserialize : Deserialize DirectoryListResponse := fun v =>
  x0 ← get_field "entries" from_json v;
  Some {| entries := x0 |}.

(* src: crates/racfs-client/src/types.rs 53-55 MessageResponse *)
Record MessageResponse := {
  message : string
}.

#[global] Instance MessageResponse_Deserialize : Deserialize MessageResponse := fun v =>
  x0 ← get_field "message" from_json v;
  Some {| message := x0 |}.

(* src: crates/racfs-client/src/types.rs 132-134 XattrListResponse *)
Record XattrListResponse := {
  names : list string
}.

#[global] Instance XattrListResponse_Deserialize : Deserialize XattrListResponse := fun v =>
  x0 ← get_field "names" from_json v;
  Some {| names := x0 |}.

(* src: crates/racfs-client/src/types.rs 138-140 XattrValueResponse *)
Record XattrValueResponse := {
  x_value : string
}.

#[global] Instance XattrValueResponse_Deserialize : Deserialize XattrValueResponse := fun v =>
  x0 ← get_field "value" from_json v;
  Some {| x_value := x0 |}.

(* src: crates/racfs-client/src/types.rs 153-158 LoginResponse *)
Record LoginResponse := {
  access_token : string;
  token_type : string;
  expires_in : Z;
  refresh_token : option string
}.

#[global] Instance LoginResponse_Deserialize : Deserialize LoginResponse := fun v =>
  x0 ← get_field "access_token" from_json v;
  x1 ← get_field "token_type" from_json v;
  x2 ← get_field "expires_in" (int_from in_u64) v;
  x3 ← opt_field "refresh_token" from_json v;
  Some {| access_token := x0; token_type := x1; expires_in := x2; refresh_token := x3 |}.

(* src: crates/racfs-client/src/types.rs 162-166 UserResponse *)
Record UserResponse := {
  user_id : string;
  user_name : string;
  user_role : string
}.

#[global] Instance UserResponse_Deserialize : Deserialize UserResponse := fun v =>
  x0 ← get_field "id" from_json v;
  x1 ← get_field "username" from_json v;
  x2 ← get_field "role" from_json v;
  Some {| user_id := x0; user_name := x1; user_role := x2 |}.

(** ** Requests *)

(* src: crates/racfs-client/src/types.rs 65-69 WriteRequest *)
Record WriteRequest := {
  w_path : string;
  w_data : string;
  w_offset : option Z
}.

#[global] Instance WriteRequest_Serialize : Serialize WriteRequest := fun r => JObj [("path"%string, JStr (w_path r));
  ("data"%string, JStr (w_data r));
  ("offset"%string, opt_num (w_offset r))].

(* src: crates/racfs-client/src/types.rs 73-76 CreateDirectoryRequest *)
Record CreateDirectoryRequest := {
  c_path : string;
  c_perm : option Z
}.

#[global] Instance CreateDirectoryRequest_Serialize : Serialize CreateDirectoryRequest := fun r => JObj [("path"%string, JStr (c_path r));
  ("perm"%string, opt_num (c_perm r))].

(* src: crates/racfs-client/src/types.rs 80-85 RenameRequest *)
Record RenameRequest := {
  old_path : string;
  new_path : string
}.

#[global] Instance RenameRequest_Serialize : Serialize RenameRequest := fun r => JObj [("old_path"%string, JStr (old_path r));
  ("new_path"%string, JStr (new_path r))].

(* src: crates/racfs-client/src/types.rs 89-92 ChmodRequest *)
Record ChmodRequest := {
  m_path : string;
  m_mode : Z
}.

#[global] Instance ChmodRequest_Serialize : Serialize ChmodRequest := fun r => JObj [("path"%string, JStr (m_path r));
  ("mode"%string, JNum (m_mode r))].

(* src: crates/racfs-client/src/types.rs 96-99 TruncateRequest *)
Record TruncateRequest := {
  t_path : string;
  t_size : Z
}.

#[global] Instance TruncateRequest_Serialize : Serialize TruncateRequest := fun r => JObj [("path"%string, JStr (t_path r));
  ("size"%string, JNum (t_size r))].

(* src: crates/racfs-client/src/types.rs 103-107 SymlinkRequest *)
Record SymlinkRequest := {
  s_target : string;
  s_link_path : string
}.

#[global] Instance SymlinkRequest_Serialize : Serialize SymlinkRequest := fun r => JObj [("target"%string, JStr (s_target r));
  ("link_path"%string, JStr (s_link_path r))].

(* src: crates/racfs-client/src/types.rs 124-128 SetXattrRequest *)
Record SetXattrRequest := {
  x_path : string;
  x_name : string;
  x_base64 : string
}.

#[global] Instance SetXattrRequest_Serialize : Serialize SetXattrRequest := fun r => JObj [("path"%string, JStr (x_path r));
  ("name"%string, JStr (x_name r));
  ("value"%string, JStr (x_base64 r))].

(* src: crates/racfs-client/src/types.rs 146-149 LoginRequest *)
Record LoginRequest := {
  username : string;
  password : string
}.

#[global] Instance LoginRequest_Serialize : Serialize LoginRequest := fun r => JObj [("username"%string, JStr (username r));
  ("password"%string, JStr (password r))].
