(* ===== verification/FuseInodes.v ===== *)
(** * FuseInodes: the numbers the kernel knows the paths by
    ([crates/racfs-fuse/src/inode_manager.rs])

    The two maps are concurrent ones without a lock around both: every access
    is a step of its own.  The operations are the steps in their order;
    [alloc_step] lets the steps of several callers interleave. *)

From S2P Require Import Prelude Text RPath.
From Stdlib Require Strings.String.

(* src: crates/racfs-fuse/src/inode_manager.rs 10-10 ROOT_INODE *)
Definition ROOT_INODE : Z := 1.

(* src: crates/racfs-fuse/src/inode_manager.rs 13-20 InodeManager *)
Record InodeManager := {
  inode_to_path : gmap Z Path;
  path_to_inode : PathMap Z;
  next_inode : Z
}.

Definition set_paths m (s : InodeManager) : InodeManager :=
  {| inode_to_path := m; path_to_inode := path_to_inode s; next_inode := next_inode s |}.
Definition set_inodes m (s : InodeManager) : InodeManager :=
  {| inode_to_path := inode_to_path s; path_to_inode := m; next_inode := next_inode s |}.

(* src: crates/racfs-fuse/src/inode_manager.rs 24-36 InodeManager::new *)
Definition new : InodeManager :=
  {| inode_to_path := {[ ROOT_INODE := "/"%string ]}; path_to_inode := pm_insert "/" ROOT_INODE ∅;
     next_inode := ROOT_INODE + 1 |}.

(** [next_inode.fetch_add(1)], which wraps around. *)
(* src: crates/racfs-fuse/src/inode_manager.rs 46-46 InodeManager::allocate *)
Definition draw (s : InodeManager) : Z * InodeManager :=
  (next_inode s, {| inode_to_path := inode_to_path s; path_to_inode := path_to_inode s;
                    next_inode := u64_wrap (next_inode s + 1) |}).

(* src: crates/racfs-fuse/src/inode_manager.rs 47-47 InodeManager::allocate *)
Definition record_path (i : Z) (p : Path) (s : InodeManager) : InodeManager :=
  set_paths (<[i := p]> (inode_to_path s)) s.
(* src: crates/racfs-fuse/src/inode_manager.rs 48-48 InodeManager::allocate *)
Definition record_inode (i : Z) (p : Path) (s : InodeManager) : InodeManager :=
  set_inodes (pm_insert p i (path_to_inode s)) s.

(* src: crates/racfs-fuse/src/inode_manager.rs 39-51 InodeManager::allocate *)
Definition allocate (p : Path) (s : InodeManager) : Z * InodeManager :=
  match pm_get p (path_to_inode s) with
  | Some i => (i, s)
  | None => let '(i, s1) := draw s in (i, record_inode i p (record_path i p s1))
  end.

(* src: crates/racfs-fuse/src/inode_manager.rs 54-56 InodeManager::get_path *)
Definition get_path (i : Z) (s : InodeManager) : option Path := inode_to_path s !! i.
(* src: crates/racfs-fuse/src/inode_manager.rs 59-61 InodeManager::get_inode *)
Definition get_inode (p : Path) (s : InodeManager) : option Z := pm_get p (path_to_inode s).

(* src: crates/racfs-fuse/src/inode_manager.rs 64-68 InodeManager::remove *)
Definition remove (i : Z) (s : InodeManager) : InodeManager :=
  match inode_to_path s !! i with
  | Some p => set_inodes (pm_remove p (path_to_inode s)) (set_paths (delete i (inode_to_path s)) s)
  | None => s
  end.

(* src: crates/racfs-fuse/src/inode_manager.rs 71-75 InodeManager::remove_path *)
Definition remove_path (p : Path) (s : InodeManager) : InodeManager :=
  match pm_get p (path_to_inode s) with
  | Some i => set_paths (delete i (inode_to_path s)) (set_inodes (pm_remove p (path_to_inode s)) s)
  | None => s
  end.

(** ** One caller *)

(** The maps are inverse to each other, and the numbers were drawn before. *)
Record inodes_ok (s : InodeManager) : Prop := {
  io_next : 2 <= next_inode s <= u64_max;
  io_paths : forall i p, inode_to_path s !! i = Some p ->
             pm_get p (path_to_inode s) = Some i /\ 1 <= i < next_inode s;
  io_inodes : forall p i, pm_get p (path_to_inode s) = Some i ->
              exists q, inode_to_path s !! i = Some q /\ components q = components p
}.

Inductive InodeOp := Allocate (p : Path) | Remove (i : Z) | RemovePath (p : Path).

(** The answer is the number that [allocate] returns. *)
Definition run_inode_op (o : InodeOp) (s : InodeManager) : option Z * InodeManager :=
  match o with
  | Allocate p => let '(i, s') := allocate p s in (Some i, s')
  | Remove i => (None, remove i s)
  | RemovePath p => (None, remove_path p s)
  end.

Lemma inodes_ok_new : inodes_ok new.
Proof.
  split; simpl.
  - unfold u64_max, ROOT_INODE. lia.
  - intros i p [<- <-]%lookup_singleton_Some. split; [by rewrite pm_get_insert|unfold ROOT_INODE; lia].
  - intros p i Hp. destruct (decide (components "/" = components p)) as [He|Hne].
    + rewrite <- (pm_get_congr "/" p _ He), pm_get_insert in Hp. simplify_eq.
      exists "/"%string. split; [apply lookup_singleton_eq|done].
    + rewrite pm_get_insert_ne in Hp by done. unfold pm_get, PathMap in Hp. by rewrite lookup_empty in Hp.
Qed.

Lemma inodes_ok_forget s i p q :
  inodes_ok s -> inode_to_path s !! i = Some p -> components q = components p ->
  inodes_ok (set_inodes (pm_remove q (path_to_inode s)) (set_paths (delete i (inode_to_path s)) s)).
Proof.
  intros [Hn H1 H2] Hi Hq. split; simpl; [done| |].
  - intros j r. rewrite lookup_delete. case_decide as Hij; [done|]. intros Hj.
    destruct (H1 _ _ Hj) as [Hg Hb]. split; [|done]. rewrite pm_get_remove_ne; [done|].
    intros He. destruct (H1 _ _ Hi) as [Hg' _]. rewrite <- (pm_get_congr r p) in Hg' by congruence. congruence.
  - intros r j Hr. assert (Hne : components q <> components r).
    { intros He. rewrite (pm_get_congr r q _ (eq_sym He)), pm_get_remove in Hr. done. }
    rewrite pm_get_remove_ne in Hr by done. destruct (H2 _ _ Hr) as (x & Hx & Hc).
    exists x. split; [|done]. rewrite lookup_delete_ne; [done|]. intros ->. congruence.
Qed.

Lemma allocate_spec p s :
  inodes_ok s -> next_inode s < u64_max ->
  let '(i, s') := allocate p s in
  inodes_ok s' /\ get_inode p s' = Some i /\
  match get_inode p s with
  | Some j => s' = s /\ i = j
  | None => i = next_inode s /\ next_inode s' = i + 1 /\ get_path i s' = Some p /\ get_path i s = None
  end.
Proof.
  intros Hok Hmax. unfold allocate, get_inode, get_path.
  destruct (pm_get p (path_to_inode s)) as [j|] eqn:E; [by split_and!|].
  assert (Hw : u64_wrap (next_inode s + 1) = next_inode s + 1).
  { unfold u64_wrap, u64_max in *. apply Z.mod_small. destruct Hok as [[? ?] _ _]. lia. }
  assert (Hfree : inode_to_path s !! next_inode s = None).
  { destruct (inode_to_path s !! next_inode s) as [q|] eqn:Eq; [|done].
    destruct (io_paths _ Hok _ _ Eq). lia. }
  destruct Hok as [Hn H1 H2]. simpl. rewrite Hw, pm_get_insert, lookup_insert_eq.
  split; [|done]. split; simpl; rewrite ?Hw; [lia| |].
  - intros i q. rewrite lookup_insert. case_decide as Hi.
    + intros; simplify_eq. rewrite pm_get_insert. split; [done|lia].
    + intros Hq. destruct (H1 _ _ Hq) as [Hg Hb]. split; [|lia].
      rewrite pm_get_insert_ne; [done|]. intros He. rewrite (pm_get_congr q p) in Hg by done. congruence.
  - intros q i. destruct (decide (components p = components q)) as [He|Hne].
    + rewrite <- (pm_get_congr p q _ He), pm_get_insert. intros; simplify_eq.
      exists p. by rewrite lookup_insert_eq.
    + rewrite pm_get_insert_ne by done. intros Hg. destruct (H2 _ _ Hg) as (x & Hx & Hc).
      exists x. split; [|done]. rewrite lookup_insert_ne; [done|]. intros <-. congruence.
Qed.

Lemma run_inode_op_ok o s :
  inodes_ok s -> next_inode s < u64_max ->
  inodes_ok (snd (run_inode_op o s)) /\ next_inode s <= next_inode (snd (run_inode_op o s)) <= next_inode s + 1.
Proof.
  intros Hok Hmax. destruct o as [p|i|p]; simpl.
  - pose proof (allocate_spec p s Hok Hmax) as Ha. destruct (allocate p s) as [i s'].
    destruct Ha as (Ha & _ & Hc). split; [done|]. simpl. destruct (get_inode p s).
    + destruct Hc as [-> _]. lia.
    + destruct Hc as (? & ? & _). lia.
  - unfold remove. destruct (inode_to_path s !! i) as [p|] eqn:E; [|split; [done|lia]].
    split; [|simpl; lia]. by apply inodes_ok_forget with (p := p).
  - unfold remove_path. destruct (pm_get p (path_to_inode s)) as [i|] eqn:E; [|split; [done|lia]].
    split; [|simpl; lia]. destruct (io_inodes _ Hok _ _ E) as (q & Hq & Hc).
    exact (inodes_ok_forget s i q p Hok Hq (eq_sym Hc)).
Qed.

Lemma run_inode_ops_ok ops s0 :
  inodes_ok s0 -> next_inode s0 + Z.of_nat (length ops) < u64_max ->
  let s := snd (run_all run_inode_op ops s0) in
  inodes_ok s /\ next_inode s0 <= next_inode s < u64_max /\
  forall i, Some i ∈ fst (run_all run_inode_op ops s0) -> i < next_inode s.
Proof.
  revert s0. induction ops as [|o ops IH]; intros s0 Hok Hmax; simpl in *.
  - split; [done|]. split; [lia|]. intros i Hi. by apply elem_of_nil in Hi.
  - destruct (run_inode_op_ok o s0 Hok ltac:(lia)) as [Hok1 Hn1].
    assert (Hans1 : forall i, fst (run_inode_op o s0) = Some i -> i < next_inode (snd (run_inode_op o s0))).
    { intros i Hi. destruct o as [q|j|q]; simpl in *; [|done..].
      pose proof (allocate_spec q s0 Hok ltac:(lia)) as Ha. destruct (allocate q s0) as [i' s'].
      simpl in *. simplify_eq. destruct Ha as (Ha & Hg & _). destruct (io_inodes _ Ha _ _ Hg) as (r & Hr & _).
      destruct (io_paths _ Ha _ _ Hr). lia. }
    destruct (run_inode_op o s0) as [a s1]. simpl in *.
    destruct (IH s1 Hok1 ltac:(lia)) as (H1 & H2 & H3).
    destruct (run_all run_inode_op ops s1) as [rest s2]. simpl in *.
    split; [done|]. split; [lia|]. intros i [Hi|Hi]%elem_of_cons; [|by apply H3].
    specialize (Hans1 i (eq_sym Hi)). lia.
Qed.

(** *** A path keeps its number *)

Lemma allocate_keeps p q i m : get_inode q m = Some i -> get_inode q (snd (allocate p m)) = Some i.
Proof.
  unfold get_inode, allocate. intros Hq. destruct (pm_get p (path_to_inode m)) as [j|] eqn:E; [done|].
  cbn [snd draw fst]. change (pm_get q (pm_insert p (next_inode m) (path_to_inode m)) = Some i).
  rewrite pm_get_insert_ne; [done|]. intros He. rewrite (pm_get_congr p q) in E by done. congruence.
Qed.

Lemma allocate_other p q m : components q <> components p -> get_inode q (snd (allocate p m)) = get_inode q m.
Proof.
  unfold get_inode, allocate. intros Hne. destruct (pm_get p (path_to_inode m)); [done|].
  cbn [snd draw fst]. change (pm_get q (pm_insert p (next_inode m) (path_to_inode m)) = pm_get q (path_to_inode m)).
  by apply pm_get_insert_ne.
Qed.

(** Does the operation leave the path [q], with the number [i], alone? *)
Definition spares (i : Z) (q : Path) (o : InodeOp) : Prop :=
  match o with Allocate _ => True | Remove j => j <> i | RemovePath p => components p <> components q end.

Lemma forget_spares s i j p q r :
  inodes_ok s -> inode_to_path s !! j = Some p -> components r = components p -> j <> i -> get_inode q s = Some i ->
  pm_get q (pm_remove r (path_to_inode s)) = Some i /\ delete j (inode_to_path s) !! i = inode_to_path s !! i.
Proof.
  intros Hok Hj Hr Hne Hq. split; [|by apply lookup_delete_ne]. rewrite pm_get_remove_ne; [done|].
  intros He. destruct (io_paths _ Hok _ _ Hj) as [Hp _]. unfold get_inode in Hq.
  rewrite (pm_get_congr q p) in Hq by congruence. congruence.
Qed.

Lemma run_inode_op_spares o i q s :
  inodes_ok s -> next_inode s < u64_max -> spares i q o -> get_inode q s = Some i ->
  get_inode q (snd (run_inode_op o s)) = Some i /\ get_path i (snd (run_inode_op o s)) = get_path i s.
Proof.
  intros Hok Hmax Ho Hq. destruct o as [p|j|p]; simpl in *.
  - pose proof (allocate_keeps p q i s Hq) as Hk. pose proof (allocate_spec p s Hok Hmax) as Ha.
    destruct (io_inodes _ Hok _ _ Hq) as (r & Hr & _). destruct (io_paths _ Hok _ _ Hr) as [_ Hlt].
    unfold allocate, get_inode in *. destruct (pm_get p (path_to_inode s)); [done|]. simpl in *. split; [done|].
    unfold get_path. simpl. rewrite lookup_insert_ne; [done|lia].
  - unfold remove. destruct (inode_to_path s !! j) as [p|] eqn:E; [|done]. by apply (forget_spares s i j p).
  - unfold remove_path. destruct (pm_get p (path_to_inode s)) as [j|] eqn:E; [|done].
    destruct (io_inodes _ Hok _ _ E) as (r & Hr & Hc). apply (forget_spares s i j r); [done..| |done].
    intros ->. destruct (io_inodes _ Hok _ _ Hq) as (r' & Hr' & Hc'). congruence.
Qed.

Lemma run_inode_ops_next ops s :
  inodes_ok s -> next_inode s + Z.of_nat (length ops) < u64_max ->
  inodes_ok (snd (run_all run_inode_op ops s)) /\
  next_inode (snd (run_all run_inode_op ops s)) <= next_inode s + Z.of_nat (length ops).
Proof.
  revert s. induction ops as [|o ops IH]; intros s Hok Hmax; cbn [length run_all] in *; [split; [done|simpl; lia]|].
  destruct (run_inode_op_ok o s Hok ltac:(lia)) as [Hok1 Hn1]. destruct (run_inode_op o s) as [a s1]. cbn [snd] in *.
  destruct (IH s1 Hok1 ltac:(lia)) as [Hok2 Hn2]. destruct (run_all run_inode_op ops s1). cbn [snd] in *.
  split; [done|lia].
Qed.

Lemma run_inode_ops_spare ops i q s :
  inodes_ok s -> next_inode s + Z.of_nat (length ops) < u64_max -> Forall (spares i q) ops -> get_inode q s = Some i ->
  let s' := snd (run_all run_inode_op ops s) in get_inode q s' = Some i /\ get_path i s' = get_path i s.
Proof.
  intros Hok Hmax Hops. revert s Hok Hmax. induction Hops as [|o ops Ho _ IH]; intros s Hok Hmax Hq; [done|].
  cbn [length run_all] in *. destruct (run_inode_op_ok o s Hok ltac:(lia)) as [Hok1 Hn1].
  destruct (run_inode_op_spares o i q s Hok ltac:(lia) Ho Hq) as [Hq1 Hp1].
  destruct (run_inode_op o s) as [a s1]. cbn [snd] in *. destruct (IH s1 Hok1 ltac:(lia) Hq1) as [Hq2 Hp2].
  destruct (run_all run_inode_op ops s1). cbn [snd] in *. by rewrite Hp2.
Qed.

(** C25: whatever one caller allocates and removes, the paths and the numbers
    stay in bijection, and an allocation of a path changes nothing when the path
    has a number, which it answers; otherwise it gives the path, and no other,
    a number that was never handed out before.  A path keeps its number through
    all operations that do not remove the path or the number; so does the root,
    which has the number 1 from the start and is not protected from removal. *)
Theorem inodes_bijective ops later p :
  Z.of_nat (length ops) + Z.of_nat (length later) < u64_max - 2 ->
  let s := snd (run_all run_inode_op ops new) in
  let s2 := snd (run_all run_inode_op later s) in
  (forall q i, get_inode q s = Some i <-> exists r, get_path i s = Some r /\ components r = components q) /\
  (let '(i, s') := allocate p s in
   get_inode p s' = Some i /\ (forall q, components q <> components p -> get_inode q s' = get_inode q s) /\
   match get_inode p s with
   | Some j => i = j /\ s' = s
   | None => ~ Some i ∈ fst (run_all run_inode_op ops new) /\ i <> ROOT_INODE
   end) /\
  (forall q i, get_inode q s = Some i -> Forall (spares i q) later ->
     get_inode q s2 = Some i /\ get_path i s2 = get_path i s) /\
  (Forall (spares ROOT_INODE "/") ops -> get_inode "/" s = Some ROOT_INODE /\ get_path ROOT_INODE s = Some "/"%string).
Proof.
  intros Hlen s s2.
  destruct (run_inode_ops_ok ops new inodes_ok_new ltac:(simpl; unfold ROOT_INODE; lia)) as (Hok & Hn & Hans).
  fold s in Hok, Hn, Hans. split; [|split; [|split]].
  - intros q i. split; [apply (io_inodes _ Hok)|]. intros (r & Hr & Hc).
    destruct (io_paths _ Hok _ _ Hr) as [Hg _]. unfold get_inode. by rewrite <- (pm_get_congr r q _ Hc).
  - pose proof (allocate_spec p s Hok (proj2 Hn)) as Ha. pose proof (fun q => allocate_other p q s) as Hother.
    destruct (allocate p s) as [i s']. destruct Ha as (_ & Hg & Hc). split; [done|]. split; [exact Hother|].
    destruct (get_inode p s); [by destruct Hc|]. destruct Hc as (-> & _). destruct (io_next _ Hok).
    unfold ROOT_INODE. split; [|lia]. intros Hin%Hans. lia.
  - intros q i Hq Hl. apply run_inode_ops_spare; [done| |done|done].
    destruct (run_inode_ops_next ops new inodes_ok_new) as [_ Hle]; [simpl; unfold ROOT_INODE; lia|].
    fold s in Hle. simpl in Hle. unfold ROOT_INODE in Hle. lia.
  - intros Hl. destruct (run_inode_ops_spare ops ROOT_INODE "/" new inodes_ok_new) as [Hq Hp];
      [simpl; unfold ROOT_INODE; lia|done|simpl; apply pm_get_insert|].
    split; [exact Hq|]. etransitivity; [exact Hp|reflexivity].
Qed.

(** ** Several callers *)

(** Where a caller of [allocate] is, between its steps. *)
Inductive alloc_pc :=
| Looking (p : Path)
| Drawing (p : Path)
| Drawn (p : Path) (i : Z)
| Recorded (p : Path) (i : Z)
| Returned (p : Path) (i : Z).

(** The next step of a caller. *)
Definition alloc_next (pc : alloc_pc) (s : InodeManager) : alloc_pc * InodeManager :=
  match pc with
  | Looking p => (match get_inode p s with Some i => Returned p i | None => Drawing p end, s)
  | Drawing p => let '(i, s') := draw s in (Drawn p i, s')
  | Drawn p i => (Recorded p i, record_path i p s)
  | Recorded p i => (Returned p i, record_inode i p s)
  | Returned p i => (pc, s)
  end.

Inductive alloc_step : InodeManager * list alloc_pc -> InodeManager * list alloc_pc -> Prop :=
| alloc_at s pcs k pc :
    pcs !! k = Some pc ->
    alloc_step (s, pcs) (snd (alloc_next pc s), <[k := fst (alloc_next pc s)]> pcs).

(** A caller that runs alone goes through [allocate]. *)
Lemma alloc_next_allocate p s :
  exists n, Nat.iter n (fun x => alloc_next (fst x) (snd x)) (Looking p, s)
            = (Returned p (fst (allocate p s)), snd (allocate p s)).
Proof.
  unfold allocate. destruct (pm_get p (path_to_inode s)) as [i|] eqn:E.
  - exists 1%nat. simpl. unfold get_inode. by rewrite E.
  - exists 4%nat. simpl. unfold get_inode. by rewrite E.
Qed.


(** The caller has not drawn a number yet. *)
Definition undrawn (pc : alloc_pc) : bool :=
  match pc with Looking _ | Drawing _ => true | _ => false end.

Definition leads_to (s : InodeManager) (i : Z) (p : Path) : Prop :=
  exists q, get_path i s = Some q /\ components q = components p.

(** What holds of a caller between its steps. *)
Definition pc_ok (s : InodeManager) (pc : alloc_pc) : Prop :=
  match pc with
  | Looking _ | Drawing _ => True
  | Drawn p i => i < next_inode s /\ get_path i s = None
  | Recorded p i | Returned p i => leads_to s i p
  end.

Record callers_ok (s : InodeManager) (pcs : list alloc_pc) : Prop := {
  co_room : next_inode s + Z.of_nat (length (List.filter undrawn pcs)) <= u64_max;
  co_pos : 0 <= next_inode s;
  co_used : forall i p, get_path i s = Some p -> i < next_inode s;
  co_inodes : forall p i, get_inode p s = Some i -> leads_to s i p;
  co_pcs : forall k pc, pcs !! k = Some pc -> pc_ok s pc;
  co_drawn : forall k k' p p' i, pcs !! k = Some (Drawn p i) -> pcs !! k' = Some (Drawn p' i) -> k = k'
}.

Lemma leads_to_record s i p j q :
  get_path i s = None -> leads_to s j q -> leads_to (record_path i p s) j q.
Proof.
  intros Hi (r & Hr & Hc). exists r. split; [|done]. unfold get_path in *. simpl.
  rewrite lookup_insert_ne; [done|]. intros ->. congruence.
Qed.

(** A step of the caller at [k] keeps what the others rely on. *)
Lemma callers_ok_put s s' pcs k pc pc' :
  callers_ok s pcs -> pcs !! k = Some pc ->
  next_inode s <= next_inode s' ->
  next_inode s' + (if undrawn pc' then 1 else 0) <= next_inode s + (if undrawn pc then 1 else 0) ->
  (forall i p, get_path i s' = Some p -> i < next_inode s') ->
  (forall p i, get_inode p s' = Some i -> leads_to s' i p) ->
  (forall j q, leads_to s j q -> leads_to s' j q) ->
  pc_ok s' pc' ->
  (forall k' p i, k' <> k -> pcs !! k' = Some (Drawn p i) ->
     get_path i s' = None /\ (forall q, pc' <> Drawn q i)) ->
  callers_ok s' (<[k := pc']> pcs).
Proof.
  intros [H1 H2 H3 H4 H5 H6] Hk Hn Hroom Hused Hin Hlead Hpc Hothers.
  assert (Hlk : forall k' x, <[k := pc']> pcs !! k' = Some x -> (k' = k /\ x = pc') \/ (k' <> k /\ pcs !! k' = Some x)).
  { intros k' x Hx. apply list_lookup_insert_Some in Hx as [(-> & -> & _)|[? ?]]; auto. }
  split; [|lia|done|done| |].
  - rewrite (filter_insert_length _ _ _ _ pc' Hk). lia.
  - intros k' x [[-> ->]|[Hne Hx]]%Hlk; [done|]. specialize (H5 _ _ Hx).
    destruct x as [p|p|p i|p i|p i]; simpl in *; auto.
    destruct (Hothers k' p i Hne Hx). split; [lia|done].
  - intros a b p p' i [[-> Ha]|[Hna Ha]]%Hlk [[-> Hb]|[Hnb Hb]]%Hlk; [done| | |by eapply H6].
    + destruct (Hothers b p' i Hnb Hb) as [_ Hno]. by destruct (Hno p).
    + destruct (Hothers a p i Hna Ha) as [_ Hno]. by destruct (Hno p').
Qed.

Lemma leads_to_draw s j q : leads_to (snd (draw s)) j q <-> leads_to s j q.
Proof. done. Qed.

Lemma alloc_step_ok c c' : alloc_step c c' -> callers_ok (fst c) (snd c) -> callers_ok (fst c') (snd c').
Proof.
  intros [s pcs k pc Hk]. cbn [fst snd]. intros Hok. pose proof Hok as [H1 H2 H3 H4 H5 H6].
  pose proof (H5 _ _ Hk) as Hpc.
  destruct pc as [p|p|p i|p i|p i]; cbn [alloc_next fst snd].
  - apply (callers_ok_put s s pcs k (Looking p)); try done; try lia.
    + destruct (get_inode p s); simpl; lia.
    + destruct (get_inode p s) eqn:E; [by apply H4|done].
    + intros k' q i Hne Hd. split; [by apply (H5 _ _ Hd)|]. by destruct (get_inode p s).
  - assert (Hroom : next_inode s < u64_max).
    { assert (Hp : (0 < length (List.filter undrawn pcs))%nat); [|lia].
      assert (Hin : Drawing p ∈ List.filter undrawn pcs); [|destruct (List.filter undrawn pcs); simpl; [by apply elem_of_nil in Hin|lia]].
      apply list_elem_of_In, filter_In. split; [|done]. apply list_elem_of_In. by eapply list_elem_of_lookup_2. }
    assert (Hw : u64_wrap (next_inode s + 1) = next_inode s + 1)
      by (unfold u64_wrap, u64_max in *; apply Z.mod_small; lia).
    unfold draw. rewrite Hw.
    apply (callers_ok_put s _ pcs k (Drawing p)); simpl; try done; try lia.
    + intros i q Hq. specialize (H3 i q Hq). lia.
    + split; [lia|]. destruct (get_path (next_inode s) s) as [q|] eqn:E; [specialize (H3 _ _ E); lia|done].
    + intros k' q i Hne Hd. specialize (H5 _ _ Hd). simpl in H5. split; [apply H5|].
      intros q' Heq. simplify_eq. lia.
  - simpl in Hpc. destruct Hpc as [Hlt Hfree].
    apply (callers_ok_put s _ pcs k (Drawn p i)); simpl; try done; try lia.
    + intros j q. unfold get_path. simpl. rewrite lookup_insert. case_decide; [by intros; subst|apply H3].
    + intros q j Hq. apply leads_to_record; [done|by apply H4].
    + intros j q. by apply leads_to_record.
    + exists p. unfold get_path. simpl. by rewrite lookup_insert_eq.
    + intros k' q j Hne Hd. split; [|done]. specialize (H5 _ _ Hd). simpl in H5.
      unfold get_path. simpl. rewrite lookup_insert_ne; [apply H5|]. intros ->. apply Hne. by eapply H6.
  - apply (callers_ok_put s _ pcs k (Recorded p i)); simpl; try done; try lia.
    + intros q j. unfold get_inode. simpl. destruct (decide (components p = components q)) as [He|Hne].
      * rewrite <- (pm_get_congr p q _ He), pm_get_insert. intros; simplify_eq.
        destruct Hpc as (r & Hr & Hc). exists r. split; [done|congruence].
      * rewrite pm_get_insert_ne by done. apply H4.
    + intros k' q j Hne Hd. split; [|done]. specialize (H5 _ _ Hd). by apply H5.
  - by rewrite list_insert_id.
Qed.

(** C26: callers that allocate at the same time, step by step: every number one
    of them gets back leads to its path, so no number is given to two paths;
    and a number that the index holds for a path leads to it. *)
Theorem inodes_concurrent_sound s0 ps s pcs :
  inodes_ok s0 -> next_inode s0 + Z.of_nat (length ps) <= u64_max ->
  rtc alloc_step (s0, map Looking ps) (s, pcs) ->
  (forall k p i, pcs !! k = Some (Returned p i) -> leads_to s i p) /\
  (forall k k' p q i, pcs !! k = Some (Returned p i) -> pcs !! k' = Some (Returned q i) ->
     components p = components q) /\
  (forall p i, get_inode p s = Some i -> leads_to s i p).
Proof.
  intros Hok Hroom Hsteps.
  assert (H0 : callers_ok s0 (map Looking ps)).
  { assert (Hlk : forall k pc, map Looking ps !! k = Some pc -> exists p, pc = Looking p).
    { intros k pc Hpc. change (map Looking ps) with (Looking <$> ps) in Hpc.
      rewrite list_lookup_fmap in Hpc. destruct (ps !! k); simpl in Hpc; simplify_eq. eauto. }
    split.
    - replace (length (List.filter undrawn (map Looking ps))) with (length ps); [done|].
      clear. induction ps as [|p ps IH]; simpl; [done|]. by rewrite IH.
    - destruct (io_next _ Hok). lia.
    - intros i p Hp. by destruct (io_paths _ Hok _ _ Hp) as [_ [_ ?]].
    - apply (io_inodes _ Hok).
    - intros k pc Hpc. by destruct (Hlk k pc Hpc) as [p ->].
    - intros k k' p p' i Hpc. by destruct (Hlk k _ Hpc). }
  assert (Hfin : callers_ok s pcs).
  { change (callers_ok (fst (s, pcs)) (snd (s, pcs))).
    change (callers_ok (fst (s0, map Looking ps)) (snd (s0, map Looking ps))) in H0.
    induction Hsteps as [x|x y z Hxy _ IH]; [done|]. apply IH. by eapply alloc_step_ok. }
  assert (Hret : forall k p i, pcs !! k = Some (Returned p i) -> leads_to s i p).
  { intros k p i Hk. exact (co_pcs _ _ Hfin _ _ Hk). }
  split; [exact Hret|]. split; [|apply (co_inodes _ _ Hfin)].
  intros k k' p q i Hp%Hret Hq%Hret. destruct Hp as (r & Hr & Hc), Hq as (r' & Hr' & Hc'). congruence.
Qed.

(** But a path can get two numbers, and then dropping the first one makes the
    path unknown while the second still leads to it. *)
Theorem inodes_race :
  exists s, rtc alloc_step (new, [Looking "/f"; Looking "/f"]) (s, [Returned "/f" 2; Returned "/f" 3]) /\
            get_path 2 s = Some "/f"%string /\ get_path 3 s = Some "/f"%string /\
            get_inode "/f" (remove 2 s) = None /\ get_path 3 (remove 2 s) = Some "/f"%string.
Proof.
  eexists. split.
  - eapply rtc_l; [apply (alloc_at _ _ 0 (Looking "/f")); reflexivity|].
    eapply rtc_l; [apply (alloc_at _ _ 1 (Looking "/f")); reflexivity|].
    eapply rtc_l; [apply (alloc_at _ _ 0 (Drawing "/f")); reflexivity|].
    eapply rtc_l; [apply (alloc_at _ _ 1 (Drawing "/f")); reflexivity|].
    eapply rtc_l; [apply (alloc_at _ _ 0 (Drawn "/f" 2)); reflexivity|].
    eapply rtc_l; [apply (alloc_at _ _ 1 (Drawn "/f" 3)); reflexivity|].
    eapply rtc_l; [apply (alloc_at _ _ 0 (Recorded "/f" 2)); reflexivity|].
    eapply rtc_l; [apply (alloc_at _ _ 1 (Recorded "/f" 3)); reflexivity|].
    apply rtc_refl.
  - vm_compute. done.
Qed.

(** ** Witnesses *)

Lemma inodes_bijective_witness :
  let s := snd (run_all run_inode_op [Allocate "/a"; Remove 2; Allocate "/b"] new) in
  get_inode "/a" (snd (allocate "/a" s)) = Some 4 /\
  get_inode "/b" (snd (run_all run_inode_op [RemovePath "/a"; Allocate "/c"] s)) = Some 3 /\
  get_inode "/" s = Some ROOT_INODE.
Proof.
  destruct (inodes_bijective [Allocate "/a"; Remove 2; Allocate "/b"] [RemovePath "/a"; Allocate "/c"] "/a"
    ltac:(vm_compute; done)) as (_ & Ha & Hk & Hr).
  split; [exact (proj1 Ha)|]. split; [|apply Hr; repeat constructor; vm_compute; discriminate].
  apply (Hk "/b" 3); [vm_compute; reflexivity|]. repeat constructor. vm_compute. discriminate.
Defined.

Lemma inodes_concurrent_sound_witness :
  leads_to (snd (allocate "/f" new)) 2 "/f".
Proof.
  refine (proj1 (inodes_concurrent_sound new ["/f"%string] (snd (allocate "/f" new)) [Returned "/f" 2]
            inodes_ok_new _ _) 0%nat "/f"%string 2 eq_refl).
  - vm_compute. done.
  - eapply rtc_l; [apply (alloc_at _ _ 0 (Looking "/f")); reflexivity|].
    eapply rtc_l; [apply (alloc_at _ _ 0 (Drawing "/f")); reflexivity|].
    eapply rtc_l; [apply (alloc_at _ _ 0 (Drawn "/f" 2)); reflexivity|].
    eapply rtc_l; [apply (alloc_at _ _ 0 (Recorded "/f" 2)); reflexivity|].
    apply rtc_refl.
Defined.
