(* ===== verification/FileLocks.v ===== *)
(** * FileLocks: the advisory locks of the FUSE filesystem
    ([crates/racfs-fuse/src/advanced.rs])

    The locks of an inode are ranges with a type and an owner.  [set_lock]
    looks for a conflict under the read lock and inserts under the write lock:
    the two halves are definitions of their own. *)

From S2P Require Import Prelude.

(* src: crates/racfs-fuse/src/advanced.rs 36-36 MULTI_MOUNT_PLACEHOLDER *)
Definition MULTI_MOUNT_PLACEHOLDER : Z := 2.
(* src: crates/racfs-fuse/src/advanced.rs 40-40 FUSE_PROTOCOL_VERSION *)
Definition FUSE_PROTOCOL_VERSION : Z := 7.
(* src: crates/racfs-fuse/src/advanced.rs 47-47 F_RDLCK *)
Definition F_RDLCK : Z := 0.
(* src: crates/racfs-fuse/src/advanced.rs 48-48 F_WRLCK *)
Definition F_WRLCK : Z := 1.
(* src: crates/racfs-fuse/src/advanced.rs 49-49 F_UNLCK *)
Definition F_UNLCK : Z := 2.

(* src: crates/racfs-fuse/src/advanced.rs 52-58 LockEntry *)
Record LockEntry := { lock_start : Z; lock_end : Z; typ : Z; pid : Z; owner : Z }.

#[global] Instance LockEntry_eq_dec : EqDecision LockEntry.
Proof. solve_decision. Defined.

(* src: crates/racfs-fuse/src/advanced.rs 62-65 FileLockState *)
Record FileLockState := { locks : gmap Z (list LockEntry) }.

(* src: crates/racfs-fuse/src/advanced.rs 68-72 FileLockState::new *)
Definition new : FileLockState := {| locks := ∅ |}.

(** [fuser::Errno], as far as it is used. *)
Inductive LockErrno := EAGAIN.

Implicit Types (ino o start stop : Z) (s : FileLockState) (e : LockEntry).

Definition overlaps start stop e : bool := (start <=? lock_end e) && (lock_start e <=? stop).

(** The test of the loop of [get_conflict]. *)
Definition conflicts start stop ty o e : bool :=
  negb (owner e =? o) && overlaps start stop e && ((ty =? F_WRLCK) || (typ e =? F_WRLCK)).

(* src: crates/racfs-fuse/src/advanced.rs 75-99 FileLockState::get_conflict *)
Definition get_conflict ino start stop ty o s : option (Z * Z * Z * Z) :=
  entries ← locks s !! ino;
  e ← List.find (conflicts start stop ty o) entries;
  Some (lock_start e, lock_end e, typ e, pid e).

(** The locks that stay when the owner's in the range go. *)
Definition retained o start stop (l : list LockEntry) : list LockEntry :=
  List.filter (fun e => negb (owner e =? o) || (lock_end e <? start) || (stop <? lock_start e)) l.

(* src: crates/racfs-fuse/src/advanced.rs 141-149 FileLockState::unlock *)
Definition unlock ino o start stop s : FileLockState :=
  match locks s !! ino with
  | Some entries =>
    match retained o start stop entries with
    | [] => {| locks := delete ino (locks s) |}
    | rest => {| locks := <[ino := rest]> (locks s) |}
    end
  | None => s
  end.

(** The half of [set_lock] behind the write lock. *)
(* src: crates/racfs-fuse/src/advanced.rs 126-137 FileLockState::set_lock *)
Definition insert_lock ino o start stop ty p s : FileLockState :=
  let entries := default [] (locks s !! ino) in
  {| locks := <[ino := retained o start stop entries
        ++ [{| lock_start := start; lock_end := stop; typ := ty; pid := p; owner := o |}]]> (locks s) |}.

(* src: crates/racfs-fuse/src/advanced.rs 103-138 FileLockState::set_lock *)
Definition set_lock ino o start stop ty p (sleep : bool) s : outcome LockErrno () * FileLockState :=
  if ty =? F_UNLCK then (Ok (), unlock ino o start stop s)
  else match get_conflict ino start stop ty o s with
       | Some _ => if negb sleep then (Err EAGAIN, s) else (Err EAGAIN, s)
       | None => (Ok (), insert_lock ino o start stop ty p s)
       end.

(* src: crates/racfs-fuse/src/advanced.rs 152-158 FileLockState::remove_owner *)
Definition remove_owner o s : FileLockState :=
  {| locks := filter (fun kv => snd kv <> [])
       ((fun l => List.filter (fun e => negb (owner e =? o)) l) <$> locks s) |}.

(** ** Exclusion *)

(** Two locks that may be held at once. *)
Definition compatible e1 e2 : bool :=
  (owner e1 =? owner e2) || negb (overlaps (lock_start e1) (lock_end e1) e2)
  || (negb (typ e1 =? F_WRLCK) && negb (typ e2 =? F_WRLCK)).

Definition all_compatible (l : list LockEntry) : Prop :=
  forall e1 e2, e1 ∈ l -> e2 ∈ l -> compatible e1 e2 = true.

(** No two locks of an inode exclude each other, and no inode has an empty list. *)
Definition exclusive s : Prop := forall ino l, locks s !! ino = Some l -> l <> [] /\ all_compatible l.

Inductive LockOp :=
| SetLock (ino o start stop ty p : Z) (sleep : bool)
| Unlock (ino o start stop : Z)
| RemoveOwner (o : Z).

Definition run_lock (op : LockOp) s : outcome LockErrno () * FileLockState :=
  match op with
  | SetLock ino o start stop ty p sleep => set_lock ino o start stop ty p sleep s
  | Unlock ino o start stop => (Ok (), unlock ino o start stop s)
  | RemoveOwner o => (Ok (), remove_owner o s)
  end.

Lemma compatible_sym e1 e2 : compatible e1 e2 = compatible e2 e1.
Proof. unfold compatible, overlaps. rewrite (Z.eqb_sym (owner e1)). bool_lia. Qed.

Lemma all_compatible_sub l k : (forall e, e ∈ k -> e ∈ l) -> all_compatible l -> all_compatible k.
Proof. intros Hsub Hl e1 e2 H1 H2. apply Hl; auto. Qed.

Lemma elem_of_filter_list (f : LockEntry -> bool) l e : e ∈ List.filter f l <-> e ∈ l /\ f e = true.
Proof. by rewrite !list_elem_of_In, List.filter_In. Qed.

Lemma exclusive_unlock ino o start stop s : exclusive s -> exclusive (unlock ino o start stop s).
Proof.
  intros Hs i l. unfold unlock. destruct (locks s !! ino) as [entries|] eqn:E; [|apply Hs].
  destruct (retained o start stop entries) as [|e rest] eqn:Er; simpl.
  - rewrite lookup_delete_Some. intros [_ H]. by apply (Hs i).
  - rewrite lookup_insert_Some. intros [[<- <-]|[_ H]]; [|by apply (Hs i)]. split; [done|].
    rewrite <- Er. apply (all_compatible_sub entries); [|by apply (Hs ino)].
    intros x Hx. by apply elem_of_filter_list in Hx as [? _].
Qed.

Lemma get_conflict_None ino start stop ty o s :
  get_conflict ino start stop ty o s = None <->
  forall e, e ∈ default [] (locks s !! ino) -> conflicts start stop ty o e = false.
Proof.
  unfold get_conflict. destruct (locks s !! ino) as [l|]; simpl.
  - split.
    + intros Hf e He. destruct (List.find _ l) eqn:E; [done|]. apply (List.find_none _ _ E). by apply list_elem_of_In.
    + intros Hall. destruct (List.find _ l) as [e|] eqn:E; [|done].
      apply List.find_some in E as [Hin Hc]. rewrite Hall in Hc; [done|by apply list_elem_of_In].
  - split; [|done]. intros _ e He. by apply elem_of_nil in He.
Qed.

Lemma exclusive_insert ino o start stop ty p s :
  exclusive s -> get_conflict ino start stop ty o s = None -> exclusive (insert_lock ino o start stop ty p s).
Proof.
  intros Hs Hc i l. unfold insert_lock. simpl. rewrite lookup_insert_Some. intros [[<- <-]|[_ H]]; [|by apply (Hs i)].
  split; [by destruct (retained _ _ _ _)|]. rewrite get_conflict_None in Hc.
  set (n := {| lock_start := start; lock_end := stop; typ := ty; pid := p; owner := o |}).
  set (old := default [] (locks s !! ino)) in *.
  assert (Hold : all_compatible old).
  { unfold old. destruct (locks s !! ino) eqn:E; [by apply (Hs ino)|]. intros e1 e2 H1. by apply elem_of_nil in H1. }
  assert (Hnew : forall e, e ∈ old -> compatible n e = true).
  { intros e He. specialize (Hc e He). revert Hc. unfold conflicts, compatible, n. simpl.
    rewrite (Z.eqb_sym o). destruct (owner e =? o), (overlaps start stop e), (ty =? F_WRLCK), (typ e =? F_WRLCK); done. }
  assert (Hself : compatible n n = true) by (unfold compatible; by rewrite Z.eqb_refl).
  intros e1 e2 H1 H2.
  apply elem_of_app in H1 as [[H1 _]%elem_of_filter_list| ->%list_elem_of_singleton];
    apply elem_of_app in H2 as [[H2 _]%elem_of_filter_list| ->%list_elem_of_singleton]; auto.
  rewrite compatible_sym. auto.
Qed.

Lemma exclusive_remove_owner o s : exclusive s -> exclusive (remove_owner o s).
Proof.
  intros Hs i l. unfold remove_owner. simpl. rewrite map_lookup_filter_Some. intros [H Hne]. split; [done|].
  rewrite lookup_fmap_Some in H. destruct H as (l' & <- & H). apply (all_compatible_sub l'); [|by apply (Hs i)].
  intros x Hx. by apply elem_of_filter_list in Hx as [? _].
Qed.

Lemma exclusive_run op s : exclusive s -> exclusive (snd (run_lock op s)).
Proof.
  intros Hs. destruct op as [ino o start stop ty p sleep|ino o start stop|o]; simpl.
  - unfold set_lock. destruct (ty =? F_UNLCK); [by apply exclusive_unlock|].
    destruct (get_conflict ino start stop ty o s) eqn:E; [by destruct sleep|by apply exclusive_insert].
  - by apply exclusive_unlock.
  - by apply exclusive_remove_owner.
Qed.

Lemma exclusive_run_all ops s : exclusive s -> exclusive (snd (run_all run_lock ops s)).
Proof.
  revert s. induction ops as [|op ops IH]; intros s Hs; [done|]. simpl.
  pose proof (exclusive_run op s Hs) as H1. destruct (run_lock op s) as [r s1]. specialize (IH s1 H1).
  by destruct (run_all run_lock ops s1).
Qed.

(** C28: whatever locks are set and given back one after another, no two owners
    hold overlapping locks of an inode of which one is for writing.  A request
    for a lock is refused, with nothing changed, exactly when the lock would
    break this, whether or not the caller offers to wait; otherwise the lock is
    held and every lock of another owner stays. *)
Theorem locks_exclusive ops ino o start stop ty p sleep :
  ty <> F_UNLCK ->
  let s := snd (run_all run_lock ops new) in
  let n := {| lock_start := start; lock_end := stop; typ := ty; pid := p; owner := o |} in
  let '(r, s') := set_lock ino o start stop ty p sleep s in
  exclusive s /\
  ((exists e, e ∈ default [] (locks s !! ino) /\ compatible n e = false) -> r = Err EAGAIN /\ s' = s) /\
  ((forall e, e ∈ default [] (locks s !! ino) -> compatible n e = true) ->
   r = Ok () /\ n ∈ default [] (locks s' !! ino) /\
   forall e, owner e <> o -> (e ∈ default [] (locks s' !! ino) <-> e ∈ default [] (locks s !! ino))).
Proof.
  intros Hty s n.
  assert (Hcon : forall e, conflicts start stop ty o e = negb (compatible n e)).
  { intros e. unfold conflicts, compatible, n. simpl. rewrite (Z.eqb_sym o).
    destruct (owner e =? o), (overlaps start stop e), (ty =? F_WRLCK), (typ e =? F_WRLCK); done. }
  assert (Hs : exclusive s) by (apply exclusive_run_all; intros i l H; unfold new in H; simpl in H; by rewrite lookup_empty in H).
  unfold set_lock. rewrite (proj2 (Z.eqb_neq ty F_UNLCK) Hty).
  pose proof (get_conflict_None ino start stop ty o s) as Hnone.
  destruct (get_conflict ino start stop ty o s) as [c|].
  - destruct sleep; simpl; (split; [done|]; split; [done|]; intros Hall; exfalso);
      (assert (Hn : Some c = None) by (apply Hnone; intros e He; by rewrite Hcon, Hall)); done.
  - split; [done|]. split.
    + intros (e & He & Hc). pose proof (proj1 Hnone eq_refl e He) as Hf. rewrite Hcon, Hc in Hf. done.
    + intros _. split; [done|]. unfold insert_lock. simpl. rewrite lookup_insert_eq. simpl. split.
      * apply elem_of_app. right. by apply list_elem_of_singleton.
      * intros e Ho. rewrite elem_of_app, list_elem_of_singleton. unfold retained. rewrite elem_of_filter_list.
        rewrite (proj2 (Z.eqb_neq (owner e) o) Ho). simpl. split; [intros [[? _]| ->]; [done|by destruct Ho]|by left].
Qed.

(** ** Where locks are lost *)

(** Giving back a part of a lock gives back the whole lock: POSIX keeps the
    rest of the range. *)
Lemma unlock_part_frees_all ino o start stop ty p a b s :
  locks s !! ino = None -> ty <> F_UNLCK -> start <= b -> a <= stop ->
  unlock ino o a b (snd (set_lock ino o start stop ty p false s)) = {| locks := delete ino (locks s) |}.
Proof.
  intros Hn Hty H1 H2. unfold set_lock. rewrite (proj2 (Z.eqb_neq ty F_UNLCK) Hty).
  unfold get_conflict. rewrite Hn. simpl. unfold unlock, insert_lock. simpl. rewrite lookup_insert_eq, Hn. simpl.
  rewrite Z.eqb_refl. simpl. destruct (Z.ltb_spec stop a); [lia|]. destruct (Z.ltb_spec b start); [lia|]. simpl.
  by rewrite delete_insert_eq.
Qed.

(** Two callers that both look before either inserts both hold a lock for
    writing on the same bytes. *)
Lemma lock_race ino start stop o1 o2 p1 p2 s :
  locks s !! ino = None -> o1 <> o2 -> start <= stop ->
  get_conflict ino start stop F_WRLCK o1 s = None /\ get_conflict ino start stop F_WRLCK o2 s = None /\
  ~ exclusive (insert_lock ino o2 start stop F_WRLCK p2 (insert_lock ino o1 start stop F_WRLCK p1 s)).
Proof.
  intros Hn Hne Hle. unfold get_conflict. rewrite Hn. split; [done|]. split; [done|]. intros Hex.
  specialize (Hex ino). unfold insert_lock in Hex. simpl in Hex. rewrite !lookup_insert_eq, Hn in Hex. simpl in Hex.
  rewrite (proj2 (Z.eqb_neq o1 o2) Hne) in Hex. simpl in Hex. destruct (Hex _ eq_refl) as [_ Hc].
  specialize (Hc {| lock_start := start; lock_end := stop; typ := F_WRLCK; pid := p1; owner := o1 |}
                 {| lock_start := start; lock_end := stop; typ := F_WRLCK; pid := p2; owner := o2 |}
                 ltac:(by left) ltac:(by right; left)).
  revert Hc. unfold compatible, overlaps. simpl. rewrite (proj2 (Z.eqb_neq o1 o2) Hne).
  rewrite (proj2 (Z.leb_le start stop) Hle). done.
Qed.

(** ** Witness *)

Lemma locks_exclusive_witness :
  fst (set_lock 7 2 5 9 F_RDLCK 100 true (snd (run_all run_lock [SetLock 7 1 0 10 F_WRLCK 99 false] new))) = Err EAGAIN.
Proof.
  pose proof (locks_exclusive [SetLock 7 1 0 10 F_WRLCK 99 false] 7 2 5 9 F_RDLCK 100 true ltac:(done)) as H.
  cbv zeta in H. destruct (set_lock _ _ _ _ _ _ _ _) as [r s']. destruct H as (_ & H & _). apply H.
  exists {| lock_start := 0; lock_end := 10; typ := F_WRLCK; pid := 99; owner := 1 |}. split; [by left|reflexivity].
Defined.
