(* ===== verification/FuseCache.v ===== *)
(** * FuseCache: what the FUSE client keeps of the server's answers, and the
    writes it has not sent yet
    ([crates/racfs-fuse/src/cache.rs], and [merge_write_segments] of
    [crates/racfs-fuse/src/async_fs.rs])

    Instants and durations are in nanoseconds.  Each map is a concurrent one;
    an operation here is one caller's. *)

From S2P Require Import Prelude Text RPath Metadata.
From S2P Require Export ClientTypes.
From Stdlib Require Strings.String.

(* src: crates/racfs-fuse/src/cache.rs 21-21 DEFAULT_TTL_SECS *)
Definition DEFAULT_TTL_SECS : Z := 1.
(* src: crates/racfs-fuse/src/cache.rs 24-24 DEFAULT_WRITE_BACK_MAX_CHUNK *)
Definition DEFAULT_WRITE_BACK_MAX_CHUNK : Z := 64 * 1024.
(* src: crates/racfs-fuse/src/cache.rs 27-27 DEFAULT_WRITE_BACK_FLUSH_SIZE *)
Definition DEFAULT_WRITE_BACK_FLUSH_SIZE : Z := 256 * 1024.

(* src: crates/racfs-fuse/src/cache.rs 31-34 CacheEntry *)
Record CacheEntry (T : Type) := { value : T; expires_at : Z }.
Arguments value {T}.
Arguments expires_at {T}.

(* src: crates/racfs-fuse/src/cache.rs 37-42 CacheEntry::new *)
Definition cache_entry {E T} (now : Now) (v : T) (ttl : Z) : outcome E (CacheEntry T) :=
  t ← instant_add (now 0%nat) ttl; Ok {| value := v; expires_at := t |}.

(* src: crates/racfs-fuse/src/cache.rs 44-46 CacheEntry::is_valid *)
Definition is_valid {T} (now : Now) (e : CacheEntry T) : bool := now 0%nat <? expires_at e.

(** A write that has not been sent: its offset and its bytes. *)
Abbreviation Segment := (Z * bytes)%type.

(* src: crates/racfs-fuse/src/cache.rs 50-53 WriteBackEntry *)
Record WriteBackEntry := { segments : list Segment; total_bytes : Z }.

(* src: crates/racfs-fuse/src/cache.rs 56-61 WriteBackEntry::push *)
Definition push (offset : Z) (data : bytes) (e : WriteBackEntry) : Z * WriteBackEntry :=
  (total_bytes e + len data,
   {| segments := segments e ++ [(offset, data)]; total_bytes := total_bytes e + len data |}).

(* src: crates/racfs-fuse/src/cache.rs 63-66 WriteBackEntry::take_segments *)
Definition take_segments (e : WriteBackEntry) : list Segment * WriteBackEntry :=
  (segments e, {| segments := []; total_bytes := 0 |}).

(* src: crates/racfs-fuse/src/cache.rs 70-80 FuseCache *)
Record FuseCache := {
  ttl : Z;
  stat_cache : PathMap (CacheEntry FileMetadataResponse);
  readdir_cache : PathMap (CacheEntry DirectoryListResponse);
  file_content_cache : PathMap bytes;
  write_back : PathMap WriteBackEntry;
  hits : Z;
  misses : Z
}.

Section Ops.
Context {E : Type}.
Implicit Types (now : Now) (p : Path) (s : FuseCache).
Abbreviation Op := (M FuseCache E).

Definition set_stat m s : FuseCache :=
  {| ttl := ttl s; stat_cache := m; readdir_cache := readdir_cache s;
     file_content_cache := file_content_cache s; write_back := write_back s; hits := hits s; misses := misses s |}.
Definition set_readdir m s : FuseCache :=
  {| ttl := ttl s; stat_cache := stat_cache s; readdir_cache := m;
     file_content_cache := file_content_cache s; write_back := write_back s; hits := hits s; misses := misses s |}.
Definition set_content m s : FuseCache :=
  {| ttl := ttl s; stat_cache := stat_cache s; readdir_cache := readdir_cache s;
     file_content_cache := m; write_back := write_back s; hits := hits s; misses := misses s |}.
Definition set_write_back m s : FuseCache :=
  {| ttl := ttl s; stat_cache := stat_cache s; readdir_cache := readdir_cache s;
     file_content_cache := file_content_cache s; write_back := m; hits := hits s; misses := misses s |}.
Definition count_hit s : FuseCache :=
  {| ttl := ttl s; stat_cache := stat_cache s; readdir_cache := readdir_cache s;
     file_content_cache := file_content_cache s; write_back := write_back s; hits := hits s + 1; misses := misses s |}.
Definition count_miss s : FuseCache :=
  {| ttl := ttl s; stat_cache := stat_cache s; readdir_cache := readdir_cache s;
     file_content_cache := file_content_cache s; write_back := write_back s; hits := hits s; misses := misses s + 1 |}.

(* src: crates/racfs-fuse/src/cache.rs 84-94 FuseCache::new *)
Definition new (d : Z) : FuseCache :=
  {| ttl := d; stat_cache := ∅; readdir_cache := ∅; file_content_cache := ∅; write_back := ∅;
     hits := 0; misses := 0 |}.
(* src: crates/racfs-fuse/src/cache.rs 97-99 FuseCache::with_default_ttl *)
Definition with_default_ttl : FuseCache := new (DEFAULT_TTL_SECS * 10 ^ 9).

(* src: crates/racfs-fuse/src/cache.rs 102-120 FuseCache::get_stat *)
Definition get_stat now p : Op (option FileMetadataResponse) :=
  s ← get;
  match pm_get p (stat_cache s) with
  | None => modify count_miss ;; mret None
  | Some e =>
    if is_valid now e then modify count_hit ;; mret (Some (value e))
    else modify (fun s => count_miss (set_stat (pm_remove p (stat_cache s)) s)) ;; mret None
  end.

(* src: crates/racfs-fuse/src/cache.rs 123-126 FuseCache::get_stat_stale *)
Definition get_stat_stale p : Op (option FileMetadataResponse) :=
  gets (fun s => value <$> pm_get p (stat_cache s)).

(* src: crates/racfs-fuse/src/cache.rs 129-133 FuseCache::put_stat *)
Definition put_stat now p (m : FileMetadataResponse) : Op () :=
  s ← get; e ← lift (cache_entry now m (ttl s)); put (set_stat (pm_insert p e (stat_cache s)) s).

(* src: crates/racfs-fuse/src/cache.rs 136-154 FuseCache::get_readdir *)
Definition get_readdir now p : Op (option DirectoryListResponse) :=
  s ← get;
  match pm_get p (readdir_cache s) with
  | None => modify count_miss ;; mret None
  | Some e =>
    if is_valid now e then modify count_hit ;; mret (Some (value e))
    else modify (fun s => count_miss (set_readdir (pm_remove p (readdir_cache s)) s)) ;; mret None
  end.

(* src: crates/racfs-fuse/src/cache.rs 157-160 FuseCache::get_readdir_stale *)
Definition get_readdir_stale p : Op (option DirectoryListResponse) :=
  gets (fun s => value <$> pm_get p (readdir_cache s)).

(* src: crates/racfs-fuse/src/cache.rs 163-167 FuseCache::put_readdir *)
Definition put_readdir now p (l : DirectoryListResponse) : Op () :=
  s ← get; e ← lift (cache_entry now l (ttl s)); put (set_readdir (pm_insert p e (readdir_cache s)) s).

(* src: crates/racfs-fuse/src/cache.rs 170-180 FuseCache::invalidate *)
Definition invalidate p : Op () :=
  modify (fun s => set_stat (pm_remove p (stat_cache s)) s) ;;
  modify (fun s => set_readdir (pm_remove p (readdir_cache s)) s) ;;
  modify (fun s => set_content (pm_remove p (file_content_cache s)) s) ;;
  modify (fun s => set_write_back (pm_remove p (write_back s)) s) ;;
  match parent p with
  | Some q => modify (fun s => set_readdir (pm_remove q (readdir_cache s)) s)
  | None => mret ()
  end.

(* src: crates/racfs-fuse/src/cache.rs 183-193 FuseCache::invalidate_rename *)
Definition invalidate_rename old_path new_path : Op () :=
  invalidate old_path ;;
  invalidate new_path ;;
  match parent new_path with
  | Some q => modify (fun s => set_readdir (pm_remove q (readdir_cache s)) s)
  | None => mret ()
  end ;;
  modify (fun s => set_content (pm_remove old_path (file_content_cache s)) s) ;;
  modify (fun s => set_content (pm_remove new_path (file_content_cache s)) s) ;;
  modify (fun s => set_write_back (pm_remove old_path (write_back s)) s) ;;
  modify (fun s => set_write_back (pm_remove new_path (write_back s)) s).

(* src: crates/racfs-fuse/src/cache.rs 196-199 FuseCache::get_file_content *)
Definition get_file_content p : Op (option bytes) := gets (fun s => pm_get p (file_content_cache s)).

(* src: crates/racfs-fuse/src/cache.rs 202-205 FuseCache::put_file_content *)
Definition put_file_content p (data : bytes) : Op () :=
  modify (fun s => set_content (pm_insert p data (file_content_cache s)) s).

(* src: crates/racfs-fuse/src/cache.rs 208-210 FuseCache::invalidate_file_content *)
Definition invalidate_file_content p : Op () :=
  modify (fun s => set_content (pm_remove p (file_content_cache s)) s).

(* src: crates/racfs-fuse/src/cache.rs 214-227 FuseCache::push_write_back *)
Definition push_write_back p (offset : Z) (data : bytes) : Op Z :=
  s ← get;
  let '(n, e) := push offset data (default {| segments := []; total_bytes := 0 |} (pm_get p (write_back s))) in
  put (set_write_back (pm_insert p e (write_back s)) s) ;; mret n.

(* src: crates/racfs-fuse/src/cache.rs 230-237 FuseCache::take_pending_writes *)
Definition take_pending_writes p : Op (list Segment) :=
  s ← get;
  match pm_get p (write_back s) with
  | Some e => put (set_write_back (pm_remove p (write_back s)) s) ;; mret (fst (take_segments e))
  | None => mret []
  end.
End Ops.

(** ** Merging the writes of a file *)

Definition segment_cmp (a b : Segment) : comparison := Z.compare (fst a) (fst b).

(** One round of the loop: [last] is the run that the result ends with. *)
(* src: crates/racfs-fuse/src/async_fs.rs 27-50 merge_write_segments *)
Definition merge_step `{BuildProfile} {E} (acc : outcome E (list Segment)) (seg : Segment)
  : outcome E (list Segment) :=
  result ← acc;
  match last result with
  | None => Ok [seg]
  | Some (o, d) =>
    last_end ← u64_add o (len d);
    if fst seg <=? last_end then
      let start := saturating_sub (fst seg) o in
      e ← usize_add start (len (snd seg));
      d1 ← (if len d <? e then resize e Byte.x00 d else Ok d);
      d2 ← copy_from_slice start (snd seg) d1;
      Ok (removelast result ++ [(o, d2)])
    else Ok (result ++ [seg])
  end.

(* src: crates/racfs-fuse/src/async_fs.rs 21-52 merge_write_segments *)
Definition merge_write_segments `{BuildProfile} {E} (segs : list Segment) : outcome E (list Segment) :=
  match segs with
  | [] => Ok []
  | _ => fold_left merge_step (sort_by segment_cmp segs) (Ok [])
  end.

(** ** What the merged writes mean *)

(** The byte that a write puts at a position of the file. *)
Definition seg_at (s : Segment) (i : Z) : option u8 :=
  if fst s <=? i then snd s !! Z.to_nat (i - fst s) else None.

(** The byte that the writes leave there, one after the other. *)
Definition content_from (acc : option u8) (segs : list Segment) (i : Z) : option u8 :=
  fold_left (fun acc s => match seg_at s i with Some b => Some b | None => acc end) segs acc.
Definition content (segs : list Segment) (i : Z) : option u8 := content_from None segs i.

(** No two of the writes touch, and they are in the order of the file. *)
Fixpoint separated (segs : list Segment) : Prop :=
  match segs with
  | s :: ((t :: _) as segs') => fst s + len (snd s) < fst t /\ separated segs'
  | _ => True
  end.

(** A write inside the range of file offsets. *)
Definition seg_fits (s : Segment) : Prop := 0 <= fst s /\ fst s + len (snd s) <= isize_max.

(** The writes that touch the same byte arrive in the order of their offsets. *)
Fixpoint in_order (segs : list Segment) : Prop :=
  match segs with
  | [] => True
  | s :: segs' =>
    Forall (fun t => fst s <= fst t \/ forall i, seg_at s i = None \/ seg_at t i = None) segs' /\ in_order segs'
  end.

Section Merge.
Context `{BuildProfile} {E : Type}.
Implicit Types (s t : Segment) (segs runs : list Segment).

Lemma content_snoc segs s i :
  content (segs ++ [s]) i = match seg_at s i with Some b => Some b | None => content segs i end.
Proof. unfold content, content_from. by rewrite fold_left_app. Qed.

Lemma content_app segs segs' i :
  content (segs ++ segs') i = match content segs' i with Some b => Some b | None => content segs i end.
Proof.
  induction segs' as [|s segs' IH] using rev_ind; [by rewrite app_nil_r|].
  rewrite app_assoc, !content_snoc, IH. by destruct (seg_at s i).
Qed.

Lemma in_order_app segs segs' : in_order (segs ++ segs') -> in_order segs /\ in_order segs'.
Proof.
  induction segs as [|s segs IH]; [done|]. simpl. intros [[Hs _]%Forall_app [H1 H2]%IH]. done.
Qed.

Lemma separated_snoc runs s t :
  separated (runs ++ [s]) -> fst s + len (snd s) < fst t -> separated ((runs ++ [s]) ++ [t]).
Proof.
  induction runs as [|r runs IH]; [done|]. destruct runs as [|r' runs]; simpl in *; [tauto|].
  intros [H1 H2] Ht. split; [done|]. by apply IH.
Qed.

Lemma separated_longer runs o d d' : separated (runs ++ [(o, d)]) -> separated (runs ++ [(o, d')]).
Proof.
  induction runs as [|r runs IH]; [done|]. destruct runs as [|r' runs]; simpl in *; [done|].
  intros [H1 H2]. split; [done|]. by apply IH.
Qed.

(** Overlaying a run with a write that starts inside it, or right behind it. *)
Lemma seg_at_overlay o d s i :
  0 <= o -> o <= fst s <= o + len d ->
  seg_at (o, overlay Byte.x00 (fst s - o) (snd s) d) i
  = match seg_at s i with Some b => Some b | None => seg_at (o, d) i end.
Proof.
  intros Ho Hs. unfold seg_at. simpl. pose proof (len_nonneg (snd s)).
  assert (Hlk : forall k : nat, overlay Byte.x00 (fst s - o) (snd s) d !! k
    = if Z.of_nat k <? fst s - o then d !! k
      else if Z.of_nat k <? fst s - o + len (snd s) then snd s !! Z.to_nat (Z.of_nat k - (fst s - o)) else d !! k).
  { intros k. unfold overlay. replace (Z.to_nat (fst s - o - len d)) with 0%nat by lia. simpl.
    unfold ztake, zdrop, len in *. destruct (Z.ltb_spec (Z.of_nat k) (fst s - o)).
    - rewrite lookup_app_l by (rewrite length_take; lia). by rewrite lookup_take_lt by lia.
    - rewrite lookup_app_r by (rewrite length_take; lia). rewrite length_take, Nat.min_l by lia.
      destruct (Z.ltb_spec (Z.of_nat k) (fst s - o + Z.of_nat (length (snd s)))).
      + rewrite lookup_app_l by lia. f_equal. lia.
      + rewrite lookup_app_r by lia. rewrite lookup_drop. f_equal. lia. }
  destruct (Z.leb_spec o i); [|destruct (Z.leb_spec (fst s) i); [lia|done]].
  rewrite Hlk, Z2Nat.id by lia. replace (i - o - (fst s - o)) with (i - fst s) by lia.
  destruct (Z.leb_spec (fst s) i).
  - destruct (Z.ltb_spec (i - o) (fst s - o)); [lia|].
    destruct (Z.ltb_spec (i - o) (fst s - o + len (snd s))) as [Hlt|Hge].
    + unfold len in *. destruct (snd s !! Z.to_nat (i - fst s)) eqn:Es; [done|].
      apply lookup_ge_None in Es. lia.
    + unfold len in *. by rewrite (lookup_ge_None_2 (snd s)) by lia.
  - destruct (Z.ltb_spec (i - o) (fst s - o)); [done|lia].
Qed.

Lemma grow_copy_overlay (a : Z) (data l : bytes) :
  0 <= a <= len l -> a + len data <= isize_max ->
  (l' ← (if len l <? a + len data then @resize E _ (a + len data) Byte.x00 l else Ok l);
   copy_from_slice a data l') = Ok (overlay Byte.x00 a data l).
Proof.
  intros Ha Hm. destruct (Z.leb_spec (len l) (a + len data)).
  - apply resize_copy_overlay; lia.
  - destruct (Z.ltb_spec (len l) (a + len data)); [lia|]. simpl.
    rewrite copy_from_slice_ok by lia. unfold overlay.
    by replace (Z.to_nat (a - len l)) with 0%nat by lia.
Qed.

(** What holds of the runs when the next write, at [o] or later, comes. *)
Record runs_ok (o : Z) (runs : list Segment) : Prop := {
  ro_separated : separated runs;
  ro_fits : Forall seg_fits runs;
  ro_before : forall s, s ∈ runs -> fst s <= o
}.

Lemma merge_step_run runs s :
  runs_ok (fst s) runs -> seg_fits s ->
  exists runs', merge_step (E := E) (Ok runs) s = Ok runs' /\ runs_ok (fst s) runs' /\
    forall i, content runs' i = match seg_at s i with Some b => Some b | None => content runs i end.
Proof.
  intros [H1 H2 H3] [Hs1 Hs2]. unfold merge_step. simpl.
  destruct runs as [|[o d] runs _] using rev_ind.
  { exists [s]. split; [done|]. split; [|done]. split; [done|by repeat constructor|].
    intros t Ht. apply list_elem_of_singleton in Ht as ->. lia. }
  rewrite last_snoc. apply Forall_app in H2 as [H2 Hod]. apply Forall_cons in Hod as [[Ho1 Ho2] _].
  pose proof (H3 (o, d) ltac:(apply elem_of_app; right; by apply list_elem_of_singleton)) as Hle.
  pose proof (len_nonneg d). pose proof (len_nonneg (snd s)). simpl in *.
  assert (Hu : isize_max < u64_max) by done.
  rewrite (unsigned_add_ok o (len d)) by lia. simpl.
  destruct (Z.leb_spec (fst s) (o + len d)) as [Hin|Hout].
  - unfold saturating_sub. rewrite Z.max_r by lia. rewrite usize_add_ok by lia. simpl.
    pose proof (grow_copy_overlay (fst s - o) (snd s) d ltac:(lia) ltac:(lia)) as Hg. simpl in Hg.
    destruct (if len d <? fst s - o + len (snd s) then _ else _) as [d1|e| |]; simpl in *; try done.
    rewrite Hg. simpl. rewrite removelast_last. eexists. split; [reflexivity|]. split.
    + split; [by eapply separated_longer| |].
      * apply Forall_app. split; [done|]. constructor; [|constructor]. split; [done|]. simpl.
        rewrite len_overlay by lia. lia.
      * intros t [Ht|Ht%list_elem_of_singleton]%elem_of_app; [|by subst].
        apply H3. apply elem_of_app. by left.
    + intros i. rewrite !content_snoc, seg_at_overlay by lia. by destruct (seg_at s i).
  - eexists. split; [reflexivity|]. split.
    + split; [by apply separated_snoc| |].
      * apply Forall_app. split; [|by repeat constructor]. apply Forall_app. split; [done|by repeat constructor].
      * intros t [Ht|Ht%list_elem_of_singleton]%elem_of_app; [by apply H3|subst; lia].
    + intros i. by rewrite content_snoc.
Qed.

(** The list is in the order of the offsets, and nothing in it is before [o]. *)
Fixpoint ascending (o : Z) (segs : list Segment) : Prop :=
  match segs with
  | [] => True
  | s :: segs' => o <= fst s /\ ascending (fst s) segs'
  end.

Lemma ascending_insert o s segs : o <= fst s -> ascending o segs -> ascending o (insert_by segment_cmp s segs).
Proof.
  revert o. induction segs as [|t segs IH]; intros o Ho; simpl; [done|]. intros [H1 H2].
  unfold segment_cmp at 1. destruct (Z.compare_spec (fst s) (fst t)); simpl; [split; [lia|]|split; [lia|]|].
  - split; [lia|done].
  - split; [lia|done].
  - split; [done|]. apply IH; [lia|done].
Qed.

Lemma ascending_sort segs : Forall seg_fits segs -> ascending 0 (sort_by segment_cmp segs).
Proof. induction 1 as [|s segs [Hs _] _ IH]; simpl; [done|]. by apply ascending_insert. Qed.

Lemma merge_fold segs runs o :
  ascending o segs -> Forall seg_fits segs -> runs_ok o runs ->
  exists runs', fold_left (merge_step (E := E)) segs (Ok runs) = Ok runs' /\ separated runs' /\
    Forall seg_fits runs' /\
    forall i, content runs' i = content_from (content runs i) segs i.
Proof.
  revert o runs. induction segs as [|s segs IH]; intros o runs Ha Hf Hr.
  - exists runs. split; [done|]. split; [apply Hr|]. split; [apply Hr|done].
  - destruct Ha as [Ha1 Ha2]. apply Forall_cons in Hf as [Hs Hf].
    assert (Hr' : runs_ok (fst s) runs).
    { destruct Hr as [H1 H2 H3]. split; [done|done|]. intros t Ht. specialize (H3 t Ht). lia. }
    destruct (merge_step_run runs s Hr' Hs) as (runs1 & Hm & Hr1 & Hc1). cbn [fold_left]. rewrite Hm.
    destruct (IH (fst s) runs1 Ha2 Hf Hr1) as (runs' & Hm' & Hs' & Hfit' & Hc'). exists runs'.
    split; [done|]. split; [done|]. split; [done|]. intros i. rewrite Hc', Hc1. reflexivity.
Qed.

Lemma merge_sorted segs :
  Forall seg_fits segs ->
  exists runs, merge_write_segments (E := E) segs = Ok runs /\ separated runs /\ Forall seg_fits runs /\
    forall i, content runs i = content (sort_by segment_cmp segs) i.
Proof.
  intros Hf. unfold merge_write_segments. destruct segs as [|s segs]; [exists []; by split_and!|].
  apply (merge_fold (sort_by segment_cmp (s :: segs)) [] 0).
  - by apply ascending_sort.
  - by rewrite sort_by_perm.
  - split; [done|constructor|]. intros t Ht. by apply elem_of_nil in Ht.
Qed.

(** A test that every written byte and the zero byte pass, the merged ones do. *)
Lemma merge_bytes (P : u8 -> Prop) segs runs :
  P Byte.x00 -> Forall (fun s => Forall P (snd s)) segs ->
  merge_write_segments (E := E) segs = Ok runs -> Forall (fun s => Forall P (snd s)) runs.
Proof.
  intros H0 Hf. unfold merge_write_segments. destruct segs as [|s segs]; [by intros [= <-]|].
  rewrite <- (sort_by_perm segment_cmp) in Hf. revert Hf. generalize (sort_by segment_cmp (s :: segs)). clear -H0.
  assert (Hstop : forall l (r : outcome E (list Segment)),
            (forall x, r <> Ok x) -> forall x, fold_left merge_step l r <> Ok x).
  { induction l as [|t l IH]; intros r Hr x; [apply Hr|]. cbn [fold_left]. apply IH.
    intros y. unfold merge_step. destruct r as [z|e| |]; simpl; [by destruct (Hr z)|done..]. }
  assert (Hgen : forall l acc, Forall (fun s => Forall P (snd s)) l -> Forall (fun s => Forall P (snd s)) acc ->
            fold_left (merge_step (E := E)) l (Ok acc) = Ok runs -> Forall (fun s => Forall P (snd s)) runs); [|eauto].
  induction l as [|t l IH]; intros acc Hl Hacc; cbn [fold_left]; [by intros [= <-]|].
  apply Forall_cons in Hl as [Ht Hl]. destruct (merge_step (E := E) (Ok acc) t) as [acc'|e| |] eqn:E1;
    [|intros Hx; by eapply Hstop in Hx..]. apply IH; [done|]. revert E1. unfold merge_step. simpl.
  destruct (last acc) as [[o d]|] eqn:El; [|intros [= <-]; by constructor].
  assert (Hd : Forall P d).
  { apply last_Some in El as [acc0 ->]. apply Forall_app in Hacc as [_ Hd]. by apply Forall_cons in Hd as [? _]. }
  destruct (u64_add o (len d)) as [le|e| |]; simpl; try done.
  destruct (fst t <=? le); [|intros [= <-]; apply Forall_app; by repeat constructor].
  destruct (usize_add _ _) as [e|e| |]; simpl; try done.
  destruct (if len d <? e then _ else _) as [d1|e'| |] eqn:E2; simpl; try done.
  destruct (copy_from_slice _ _ d1) as [d2|e'| |] eqn:E3; simpl; try done. intros [= <-].
  apply Forall_app. split.
  - destruct acc as [|x acc _] using rev_ind; [done|]. rewrite removelast_last. by apply Forall_app in Hacc as [? _].
  - constructor; [|constructor]. simpl. assert (Hd1 : Forall P d1).
    { destruct (len d <? e); [|by simplify_eq]. unfold resize in E2.
      destruct (e <=? len d); [simplify_eq; by apply Forall_take|]. destruct (isize_max <? e); simplify_eq.
      apply Forall_app. split; [done|by apply Forall_replicate]. }
    unfold copy_from_slice in E3. destruct (_ <=? len d1); simplify_eq.
    rewrite !Forall_app. unfold ztake, zdrop. split; [by apply Forall_take|].
    split; [|by apply Forall_drop]. done.
Qed.

(** Moving the first write behind those it does not overlap. *)
Lemma content_insert acc s segs i :
  Forall (fun t => fst s <= fst t \/ forall i, seg_at s i = None \/ seg_at t i = None) segs ->
  content_from acc (insert_by segment_cmp s segs) i = content_from acc (s :: segs) i.
Proof.
  intros Hf. revert acc. induction Hf as [|t segs Ht _ IH]; intros acc; [done|]. simpl.
  unfold segment_cmp at 1. destruct (Z.compare_spec (fst s) (fst t)); try done.
  unfold content_from in *. simpl. rewrite IH. simpl.
  destruct Ht as [Ht|Ht]; [lia|]. destruct (Ht i) as [Hn|Hn]; rewrite Hn; [done|]. done.
Qed.

Lemma in_order_sort segs :
  in_order segs -> forall acc i, content_from acc (sort_by segment_cmp segs) i = content_from acc segs i.
Proof.
  induction segs as [|s segs IH]; [done|]. intros [Hs Ho] acc i. simpl.
  rewrite content_insert; [unfold content_from at 1 2; simpl; apply IH; done|].
  by rewrite sort_by_perm.
Qed.

Lemma merge_in_order segs :
  Forall seg_fits segs -> in_order segs ->
  exists runs, merge_write_segments (E := E) segs = Ok runs /\ Forall seg_fits runs /\
    forall i, content runs i = content segs i.
Proof.
  intros Hf Ho. destruct (merge_sorted segs Hf) as (runs & Hm & _ & Hfit & Hc). exists runs.
  split; [done|]. split; [done|]. intros i. rewrite Hc. by apply in_order_sort.
Qed.

(** C12: the buffered writes of a file merge into separate runs, and sending the
    runs leaves the bytes that the writes would have left one by one, as long as
    writes to the same byte were made in the order of their offsets. *)
Theorem merge_write_segments_spec segs :
  Forall seg_fits segs ->
  exists runs, merge_write_segments (E := E) segs = Ok runs /\ separated runs /\
    (forall i, content runs i = content (sort_by segment_cmp segs) i) /\
    (in_order segs -> forall i, content runs i = content segs i).
Proof.
  intros Hf. destruct (merge_sorted segs Hf) as (runs & Hm & Hs & _ & Hc). exists runs.
  split; [done|]. split; [done|]. split; [done|]. intros Ho i. rewrite Hc. by apply in_order_sort.
Qed.

(** Otherwise the newer write can lose: of two writes that overlap, the
    second one starting before the first, the bytes of the first are sent. *)
Theorem merge_newer_write_lost o1 o2 (d1 d2 : bytes) b :
  seg_fits (o1, d1) -> seg_fits (o2, d2) -> o2 < o1 -> o1 < o2 + len d2 -> d1 !! 0%nat = Some b ->
  exists runs, merge_write_segments (E := E) [(o1, d1); (o2, d2)] = Ok runs /\
    content runs o1 = Some b /\ content [(o1, d1); (o2, d2)] o1 = d2 !! Z.to_nat (o1 - o2).
Proof.
  intros H1 H2 Hlt Hov Hb.
  assert (Hf : Forall seg_fits [(o1, d1); (o2, d2)]) by (by constructor; [|constructor]).
  destruct (merge_sorted _ Hf) as (runs & Hm & _ & _ & Hc).
  exists runs. split; [done|].
  assert (Hat1 : seg_at (o1, d1) o1 = Some b).
  { unfold seg_at. simpl. rewrite Z.leb_refl, Z.sub_diag. done. }
  assert (Hat2 : seg_at (o2, d2) o1 = d2 !! Z.to_nat (o1 - o2)).
  { unfold seg_at. simpl. destruct (Z.leb_spec o2 o1); [done|lia]. }
  split.
  - rewrite Hc. simpl. unfold segment_cmp. simpl. destruct (Z.compare_spec o1 o2); try lia.
    unfold content, content_from. simpl. rewrite Hat1. done.
  - unfold content, content_from. simpl. rewrite Hat1, Hat2.
    destruct (d2 !! Z.to_nat (o1 - o2)) eqn:E2; [done|]. apply lookup_ge_None in E2. unfold len in *. lia.
Qed.
End Merge.

(** ** Witnesses *)

Lemma seg_disjoint s t : fst t + len (snd t) <= fst s -> forall i, seg_at s i = None \/ seg_at t i = None.
Proof.
  intros Hst i. unfold seg_at. destruct (Z.leb_spec (fst s) i); [right|by left].
  destruct (fst t <=? i); [|done]. apply lookup_ge_None_2. unfold len in *. lia.
Qed.

Definition three_writes : list Segment :=
  [(5, [Byte.x43]); (0, [Byte.x41; Byte.x42]); (2, [Byte.x44; Byte.x45])].

Lemma three_writes_fit : Forall seg_fits three_writes.
Proof. repeat (apply Forall_cons; split; [split; vm_compute; discriminate|]). apply Forall_nil_2. Qed.

Lemma three_writes_in_order : in_order three_writes.
Proof.
  split; [apply Forall_cons; split; [|apply Forall_cons; split; [|apply Forall_nil_2]]|split;
    [apply Forall_cons; split; [|apply Forall_nil_2]|split; [apply Forall_nil_2|done]]].
  - right. apply seg_disjoint. vm_compute. discriminate.
  - right. apply seg_disjoint. vm_compute. discriminate.
  - left. vm_compute. discriminate.
Qed.

Lemma merge_write_segments_spec_witness :
  @merge_write_segments debug_profile () three_writes
  = Ok [(0, [Byte.x41; Byte.x42; Byte.x44; Byte.x45]); (5, [Byte.x43])] /\
  exists runs, @merge_write_segments debug_profile () three_writes = Ok runs /\ separated runs /\
               forall i, content runs i = content three_writes i.
Proof.
  split; [vm_compute; reflexivity|].
  destruct (@merge_write_segments_spec debug_profile () three_writes three_writes_fit)
    as (runs & Hm & Hs & _ & Hc).
  exists runs. split; [exact Hm|]. split; [exact Hs|]. exact (Hc three_writes_in_order).
Defined.

Lemma merge_newer_write_lost_witness :
  exists runs, @merge_write_segments debug_profile () [(1, [Byte.x41]); (0, [Byte.x42; Byte.x42])] = Ok runs /\
    content runs 1 = Some Byte.x41.
Proof.
  destruct (@merge_newer_write_lost debug_profile () 1 0 [Byte.x41] [Byte.x42; Byte.x42] Byte.x41)
    as (runs & Hm & Hc & _); try (split; vm_compute; discriminate); try (vm_compute; reflexivity).
  exists runs. split; [exact Hm|exact Hc].
Defined.
