(* ===== verification/ClientCircuit.v ===== *)
(** * ClientCircuit: retries and the circuit breaker of the HTTP client
    ([crates/racfs-client/src/client.rs])

    What the [reqwest] crate answers to one attempt is a parameter: a response,
    or an error with the two tests that the client makes.  Instants are
    nanoseconds of the monotonic clock, backoffs are recorded in milliseconds. *)

From S2P Require Import Prelude Text Metadata.
From Stdlib Require Strings.String.

(** [reqwest::Error], as far as the client looks into it. *)
Record SendError := { is_connect : bool; is_timeout : bool; source : string }.

(* src: crates/racfs-client/src/client.rs 13-32 Error *)
Inductive Error :=
| Http (e : SendError)
| Api (code message : string) (detail : option string)
| CircuitOpen
| NotAuthenticated
| Internal (message : string).

(* src: crates/racfs-client/src/client.rs 35-35 DEFAULT_MAX_RETRIES *)
Definition DEFAULT_MAX_RETRIES : Z := 3.
(* src: crates/racfs-client/src/client.rs 37-37 DEFAULT_INITIAL_BACKOFF_MS *)
Definition DEFAULT_INITIAL_BACKOFF_MS : Z := 100.
(* src: crates/racfs-client/src/client.rs 39-39 DEFAULT_CIRCUIT_FAILURE_THRESHOLD *)
Definition DEFAULT_CIRCUIT_FAILURE_THRESHOLD : Z := 5.
(* src: crates/racfs-client/src/client.rs 41-41 DEFAULT_CIRCUIT_OPEN_DURATION_SECS *)
Definition DEFAULT_CIRCUIT_OPEN_DURATION_SECS : Z := 30.

(* src: crates/racfs-client/src/client.rs 51-54 CircuitState *)
Record CircuitState := { failure_count : Z; open_until : option Z }.

Section Client.
Context `{BuildProfile} {W R : Type} (send : W -> (R + SendError) * W).
Implicit Types (now : Now) (w : W).

(** The breaker, the network, and the backoffs slept so far. *)
Record Client := { circuit : CircuitState; network : W; slept : list Z }.

Abbreviation Op := (M Client Error).

Definition set_circuit c (s : Client) : Client := {| circuit := c; network := network s; slept := slept s |}.

(** [build().send().await] *)
Definition attempt_once : Op (R + SendError) := fun s =>
  (Ok (fst (send (network s))),
   {| circuit := circuit s; network := snd (send (network s)); slept := slept s |}).

Definition sleep_ms (d : Z) : Op () :=
  modify (fun s => {| circuit := circuit s; network := network s; slept := slept s ++ [d] |}).

Definition backoff (attempt : Z) : Z := DEFAULT_INITIAL_BACKOFF_MS * Z.min u64_max (2 ^ attempt).

(* src: crates/racfs-client/src/client.rs 218-225 Client::record_circuit_failure *)
Definition record_circuit_failure now : Op () :=
  s ← get;
  n ← lift (u32_add (failure_count (circuit s)) 1);
  u ← lift (if DEFAULT_CIRCUIT_FAILURE_THRESHOLD <=? n
            then t ← instant_add (now 0%nat) (DEFAULT_CIRCUIT_OPEN_DURATION_SECS * 10 ^ 9); Ok (Some t)
            else Ok (open_until (circuit s)));
  put (set_circuit {| failure_count := n; open_until := u |} s).

(** The breaker is asked first; when the cooldown is over it closes. *)
(* src: crates/racfs-client/src/client.rs 174-185 Client::send_with_retry *)
Definition pass_circuit now : Op () :=
  s ← get;
  match open_until (circuit s) with
  | Some t =>
    fail_if (now 0%nat <? t) CircuitOpen ;;
    put (set_circuit {| failure_count := 0; open_until := None |} s)
  | None => mret ()
  end.

(** The attempts that are left, and the last error. *)
(* src: crates/racfs-client/src/client.rs 187-215 Client::send_with_retry *)
Fixpoint retry now (attempts : list Z) (last_err : option SendError) : Op R :=
  match attempts with
  | [] =>
    match last_err with
    | Some e => record_circuit_failure now ;; fail (Http e)
    | None => fail (Internal "retry loop exited without capturing error")
    end
  | attempt :: rest =>
    r ← attempt_once;
    match r with
    | inl response =>
      modify (fun s => set_circuit {| failure_count := 0; open_until := open_until (circuit s) |} s) ;;
      mret response
    | inr e =>
      if (is_connect e || is_timeout e) && (attempt <? DEFAULT_MAX_RETRIES) then
        sleep_ms (backoff attempt) ;;
        retry now rest (Some e)
      else record_circuit_failure now ;; fail (Http e)
    end
  end.

(** [0..=DEFAULT_MAX_RETRIES] *)
Definition attempts : list Z := seqZ 0 (DEFAULT_MAX_RETRIES + 1).

(* src: crates/racfs-client/src/client.rs 170-216 Client::send_with_retry *)
Definition send_with_retry now : Op R :=
  pass_circuit now ;; retry (now_from 1 now) attempts None.
End Client.

(** ** What a request does *)

Section Spec.
Context `{BuildProfile} {W R : Type} (send : W -> (R + SendError) * W).
Implicit Types (now : Now) (w : W) (s : Client (W := W)).

(** The network after [k] attempts. *)
Fixpoint after (k : nat) w : W := match k with O => w | S k' => after k' (snd (send w)) end.

(** How many of the first [n] attempts meet a connection error or a timeout
    before one does not. *)
Fixpoint transients (n : nat) w : nat :=
  match n with
  | O => O
  | S n' =>
    match fst (send w) with
    | inr e => if is_connect e || is_timeout e then S (transients n' (snd (send w))) else O
    | inl _ => O
    end
  end.

(** The breaker between requests: below the threshold while it is closed. *)
Definition circuit_ok (c : CircuitState) : Prop :=
  0 <= failure_count c <= DEFAULT_CIRCUIT_FAILURE_THRESHOLD /\
  (open_until c = None -> failure_count c < DEFAULT_CIRCUIT_FAILURE_THRESHOLD).

(** The failures counted before a request that is let through. *)
Definition failures_before (c : CircuitState) : Z :=
  match open_until c with Some _ => 0 | None => failure_count c end.

(** The breaker after one more failure, at [t]. *)
Definition after_failure (t : Z) (n : Z) : CircuitState :=
  {| failure_count := n + 1;
     open_until := if DEFAULT_CIRCUIT_FAILURE_THRESHOLD <=? n + 1
                   then Some (t + DEFAULT_CIRCUIT_OPEN_DURATION_SECS * 10 ^ 9) else None |}.

Definition refused now (c : CircuitState) : bool :=
  match open_until c with Some t => now 0%nat <? t | None => false end.

(** What the retry loop leaves when it starts with the attempt [3 - n]. *)
Lemma retry_run now n s last :
  (n <= 3)%nat -> 0 <= failure_count (circuit s) < DEFAULT_CIRCUIT_FAILURE_THRESHOLD ->
  open_until (circuit s) = None -> now 0%nat + DEFAULT_CIRCUIT_OPEN_DURATION_SECS * 10 ^ 9 <= instant_max ->
  let k := transients n (network s) in
  let left := {| circuit := circuit s; network := after (S k) (network s);
                 slept := slept s ++ map backoff (seqZ (3 - Z.of_nat n) (Z.of_nat k)) |} in
  retry send now (seqZ (3 - Z.of_nat n) (Z.of_nat n + 1)) last s =
    match fst (send (after k (network s))) with
    | inl r => (Ok r, set_circuit {| failure_count := 0; open_until := None |} left)
    | inr e => (Err (Http e), set_circuit (after_failure (now 0%nat) (failure_count (circuit s))) left)
    end.
Proof.
  intros Hn Hc Ho Ht. revert s last Hn Hc Ho.
  assert (Hrec : forall s e, 0 <= failure_count (circuit s) < DEFAULT_CIRCUIT_FAILURE_THRESHOLD ->
            open_until (circuit s) = None ->
            (record_circuit_failure now ;; @fail _ _ R (Http e)) s
            = (Err (Http e), set_circuit (after_failure (now 0%nat) (failure_count (circuit s))) s)).
  { intros s e Hc Ho. unfold DEFAULT_CIRCUIT_FAILURE_THRESHOLD in Hc. unfold record_circuit_failure.
    rewrite !run_bind. unfold get. rewrite !run_bind. unfold lift at 1.
    rewrite u32_add_ok by (unfold u32_max; lia). rewrite run_bind. unfold after_failure, instant_add.
    destruct (Z.leb_spec DEFAULT_CIRCUIT_FAILURE_THRESHOLD (failure_count (circuit s) + 1)).
    - destruct (Z.ltb_spec instant_max (now 0%nat + DEFAULT_CIRCUIT_OPEN_DURATION_SECS * 10 ^ 9)); [lia|done].
    - by rewrite Ho. }
  induction n as [|n IH]; intros s last Hn Hc Ho; cbv zeta;
    rewrite (seqZ_cons (3 - Z.of_nat _)) by lia; cbn [retry]; rewrite run_bind; unfold attempt_once at 1.
  - destruct (send (network s)) as [[r|e] w'] eqn:E; cbn [fst snd transients after];
      rewrite E; cbn [fst snd circuit network slept].
    + rewrite run_bind. simpl. by rewrite Ho, app_nil_r.
    + rewrite andb_false_r. rewrite Hrec by done. simpl. by rewrite app_nil_r.
  - destruct (send (network s)) as [[r|e] w'] eqn:E; cbn [fst snd transients after];
      rewrite E; cbn [fst snd circuit network slept].
    + cbn [after]. rewrite E. cbn [fst]. rewrite run_bind. simpl. by rewrite Ho, app_nil_r.
    + replace (3 - Z.of_nat (S n) <? DEFAULT_MAX_RETRIES) with true
        by (symmetry; apply Z.ltb_lt; unfold DEFAULT_MAX_RETRIES; lia).
      rewrite andb_true_r. destruct (is_connect e || is_timeout e) eqn:Et.
      * rewrite run_bind. unfold sleep_ms at 1, modify at 1.
        replace (Z.pred (Z.of_nat (S n) + 1)) with (Z.of_nat n + 1) by lia.
        replace (Z.succ (3 - Z.of_nat (S n))) with (3 - Z.of_nat n) by lia.
        rewrite IH by (done || lia). cbn [circuit network slept after fst snd]. rewrite E. cbn [snd].
        rewrite (seqZ_cons (3 - Z.of_nat (S n)) (Z.of_nat (S _))) by lia.
        replace (Z.pred (Z.of_nat (S (transients n w')))) with (Z.of_nat (transients n w')) by lia.
        replace (Z.succ (3 - Z.of_nat (S n))) with (3 - Z.of_nat n) by lia.
        cbn [map]. rewrite <- app_assoc. done.
      * rewrite Hrec by done. cbn [after]. rewrite E. simpl. by rewrite app_nil_r.
Qed.

Lemma send_with_retry_run now s :
  circuit_ok (circuit s) -> now 1%nat + DEFAULT_CIRCUIT_OPEN_DURATION_SECS * 10 ^ 9 <= instant_max ->
  let k := transients 3 (network s) in
  let n := failures_before (circuit s) in
  send_with_retry send now s =
    if refused now (circuit s) then (Err CircuitOpen, s)
    else
      let left := {| circuit := circuit s; network := after (S k) (network s);
                     slept := slept s ++ take k [100; 200; 400] |} in
      match fst (send (after k (network s))) with
      | inl r => (Ok r, set_circuit {| failure_count := 0; open_until := None |} left)
      | inr e => (Err (Http e), set_circuit (after_failure (now 1%nat) n) left)
      end.
Proof.
  intros [Hc1 Hc2] Ht k n. unfold send_with_retry, pass_circuit, refused, n, failures_before.
  assert (Hk : (k <= 3)%nat).
  { unfold k. generalize (network s). generalize 3%nat. induction n0 as [|m IH]; intros w; simpl; [lia|].
    destruct (fst (send w)); [lia|]. destruct (_ || _); [|lia]. specialize (IH (snd (send w))). lia. }
  assert (Hback : map backoff (seqZ 0 (Z.of_nat k)) = take k [100; 200; 400]).
  { destruct k as [|[|[|[|k]]]]; [done..|lia]. }
  rewrite run_bind, run_bind. unfold get. destruct (open_until (circuit s)) as [t|] eqn:Eo.
  - destruct (now 0%nat <? t); [done|]. rewrite run_bind. simpl fail_if. unfold mret, M_ret, put.
    pose proof (retry_run (now_from 1 now) 3 (set_circuit {| failure_count := 0; open_until := None |} s) None
                  (le_n _) ltac:(simpl; unfold DEFAULT_CIRCUIT_FAILURE_THRESHOLD; lia) eq_refl Ht) as Hr.
    cbv zeta in Hr. cbn [network set_circuit slept circuit] in Hr. fold k in Hr.
    change (3 - Z.of_nat 3) with 0 in Hr. rewrite Hback in Hr. exact Hr.
  - pose proof (retry_run (now_from 1 now) 3 s None (le_n _) ltac:(specialize (Hc2 eq_refl); lia) Eo Ht) as Hr.
    cbv zeta in Hr. fold k in Hr. change (3 - Z.of_nat 3) with 0 in Hr. rewrite Hback in Hr. exact Hr.
Qed.
(** A request that is answered at once. *)
Lemma send_answered now s r w :
  open_until (circuit s) = None -> send (network s) = (inl r, w) ->
  send_with_retry send now s
  = (Ok r, {| circuit := {| failure_count := 0; open_until := None |}; network := w; slept := slept s |}).
Proof.
  intros Ho Hs. unfold send_with_retry. rewrite run_bind.
  assert (Hp : pass_circuit now s = (Ok (), s)) by (unfold pass_circuit; rewrite run_bind; unfold get; by rewrite Ho).
  rewrite Hp. change attempts with [0; 1; 2; 3]. cbn [retry]. rewrite run_bind. unfold attempt_once. rewrite Hs.
  cbn [fst snd]. rewrite run_bind. unfold modify. cbn. by rewrite Ho.
Qed.

(** C31: a request is refused without being sent while the breaker is open.
    Otherwise it is sent until an attempt ends in something else than a
    connection error or a timeout, four times at most, with 100, 200 and 400
    milliseconds between the attempts; the last answer is the request's, and
    the breaker counts it. *)
Theorem send_with_retry_spec now s :
  circuit_ok (circuit s) -> now 1%nat + DEFAULT_CIRCUIT_OPEN_DURATION_SECS * 10 ^ 9 <= instant_max ->
  let k := transients 3 (network s) in
  let n := failures_before (circuit s) in
  send_with_retry send now s =
    if refused now (circuit s) then (Err CircuitOpen, s)
    else
      let left := {| circuit := circuit s; network := after (S k) (network s);
                     slept := slept s ++ take k [100; 200; 400] |} in
      match fst (send (after k (network s))) with
      | inl r => (Ok r, set_circuit {| failure_count := 0; open_until := None |} left)
      | inr e => (Err (Http e), set_circuit (after_failure (now 1%nat) n) left)
      end.
Proof. apply send_with_retry_run. Qed.
End Spec.

(** ** Failures in a row *)

Section Failing.
Context `{BuildProfile} {W R : Type} (send : W -> (R + SendError) * W).
Implicit Types (now : Now) (s : Client (W := W)).

(** Nothing gets through to the server any more. *)
Definition down (w : W) : Prop := forall k, exists e, fst (send (after send k w)) = inr e.

Lemma after_add j k w : after send j (after send k w) = after send (k + j) w.
Proof. revert w. induction k as [|k IH]; intros w; simpl; [done|]. by rewrite IH. Qed.

Lemma down_after k w : down w -> down (after send k w).
Proof. intros Hd j. rewrite after_add. apply Hd. Qed.

Definition fits now : Prop := now 1%nat + DEFAULT_CIRCUIT_OPEN_DURATION_SECS * 10 ^ 9 <= instant_max.

(** One failing request, while the breaker is closed or has cooled down. *)
Lemma failing_request now s :
  circuit_ok (circuit s) -> fits now -> down (network s) -> refused now (circuit s) = false ->
  exists e, fst (send_with_retry send now s) = Err (Http e) /\
    circuit (snd (send_with_retry send now s)) = after_failure (now 1%nat) (failures_before (circuit s)) /\
    down (network (snd (send_with_retry send now s))).
Proof.
  intros Hc Hf Hd Hr. pose proof (send_with_retry_run send now s Hc Hf) as Hs.
  cbv zeta in Hs. rewrite Hr in Hs. destruct (Hd (transients send 3 (network s))) as [e He].
  rewrite He in Hs. rewrite Hs. exists e. split; [done|]. split; [done|].
  apply (down_after (S _)). exact Hd.
Qed.

Lemma failing_requests nows s :
  open_until (circuit s) = None -> 0 <= failure_count (circuit s) ->
  failure_count (circuit s) + Z.of_nat (length nows) <= DEFAULT_CIRCUIT_FAILURE_THRESHOLD ->
  nows <> [] -> Forall fits nows -> down (network s) ->
  let s' := snd (run_all (send_with_retry send) nows s) in
  Forall (fun r => exists e, r = Err (Http e)) (fst (run_all (send_with_retry send) nows s)) /\
  down (network s') /\
  exists now, last nows = Some now /\
    circuit s' = after_failure (now 1%nat) (failure_count (circuit s) + Z.of_nat (length nows) - 1).
Proof.
  revert s. induction nows as [|now nows IH]; intros s Ho Hn Hlen Hne Hf Hd; [done|].
  apply Forall_cons in Hf as [Hf1 Hf]. cbn [length] in Hlen.
  destruct (failing_request now s) as (e & H1 & H2 & H3); [|done|done|by unfold refused; rewrite Ho|].
  { split; [lia|]. intros _. lia. }
  unfold failures_before in H2. rewrite Ho in H2. cbn [run_all].
  destruct (send_with_retry send now s) as [r s1]. cbn [fst snd] in *. subst r.
  destruct nows as [|now2 nows].
  - cbn. split; [constructor; [by exists e|constructor]|]. split; [done|]. exists now. split; [done|].
    rewrite H2. f_equal. lia.
  - assert (Hc1 : failure_count (circuit s1) = failure_count (circuit s) + 1) by by rewrite H2.
    destruct (IH s1) as (G1 & G2 & now' & G3 & G4); try done.
    + rewrite H2. unfold after_failure. simpl. cbn [length] in Hlen.
      destruct (Z.leb_spec DEFAULT_CIRCUIT_FAILURE_THRESHOLD (failure_count (circuit s) + 1)); [lia|done].
    + rewrite Hc1. lia.
    + rewrite Hc1. lia.
    + destruct (run_all (send_with_retry send) (now2 :: nows) s1) as [rs s2]. cbn [fst snd] in *.
      split; [constructor; [by exists e|done]|]. split; [done|]. exists now'. split; [done|].
      rewrite G4, Hc1. f_equal. cbn [length]. lia.
Qed.

(** With the server down, five requests in a row fail and open the breaker:
    for 30 seconds after the fifth one requests are refused and nothing is sent.
    Then requests are sent again, and one that fails does not open it again:
    the count starts from one. *)
Theorem circuit_opens_after_five now1 now2 now3 now4 now5 s :
  circuit s = {| failure_count := 0; open_until := None |} ->
  Forall fits [now1; now2; now3; now4; now5] -> down (network s) ->
  let s' := snd (run_all (send_with_retry send) [now1; now2; now3; now4; now5] s) in
  let limit := now5 1%nat + 30 * 10 ^ 9 in
  Forall (fun r => exists e, r = Err (Http e))
    (fst (run_all (send_with_retry send) [now1; now2; now3; now4; now5] s)) /\
  (forall now, now 0%nat < limit -> send_with_retry send now s' = (Err CircuitOpen, s')) /\
  (forall now, limit <= now 0%nat -> fits now ->
     exists e, fst (send_with_retry send now s') = Err (Http e) /\
       circuit (snd (send_with_retry send now s')) = {| failure_count := 1; open_until := None |}).
Proof.
  intros Hc Hf Hd s' limit.
  destruct (failing_requests [now1; now2; now3; now4; now5] s) as (H1 & H2 & now' & H3 & H4);
    rewrite ?Hc; try done.
  fold s' in H2, H4. injection H3 as <-. rewrite Hc in H4.
  assert (Hc' : circuit s' = {| failure_count := 5; open_until := Some limit |}) by (rewrite H4; reflexivity).
  split; [exact H1|]. split.
  - intros now Hnow. unfold send_with_retry, pass_circuit. rewrite !run_bind. unfold get. rewrite Hc'.
    cbn [open_until]. rewrite run_bind. destruct (Z.ltb_spec (now 0%nat) limit); [done|lia].
  - intros now Hnow Hfit. destruct (failing_request now s') as (e & G1 & G2 & _); rewrite ?Hc'; try done.
    + unfold refused. cbn [open_until]. destruct (Z.ltb_spec (now 0%nat) limit); [lia|done].
    + exists e. split; [done|]. rewrite G2, Hc'. reflexivity.
Qed.
End Failing.

(** ** Witnesses *)

(** A network that answers from a list, and then times out for good. *)
Definition script := list (Z + SendError).
Definition timeout_error : SendError := {| is_connect := false; is_timeout := true; source := "timeout" |}.
Definition scripted (w : script) : (Z + SendError) * script :=
  match w with [] => (inr timeout_error, []) | r :: w' => (r, w') end.

Definition fresh_client (w : script) : Client :=
  {| circuit := {| failure_count := 0; open_until := None |}; network := w; slept := [] |}.

Lemma send_with_retry_spec_witness :
  @send_with_retry debug_profile script Z scripted (fun _ => 0)
    (fresh_client [inr timeout_error; inr timeout_error; inl 200])
  = (Ok 200, {| circuit := {| failure_count := 0; open_until := None |}; network := []; slept := [100; 200] |}).
Proof.
  etransitivity; [apply (@send_with_retry_spec debug_profile script Z scripted (fun _ => 0))|].
  - split; vm_compute; [split; discriminate|reflexivity].
  - vm_compute. discriminate.
  - vm_compute. reflexivity.
Defined.

Lemma circuit_opens_after_five_witness :
  let at_ t := fun _ : nat => t in
  let s' := snd (run_all (@send_with_retry debug_profile script Z scripted)
                   [at_ 0; at_ 1; at_ 2; at_ 3; at_ 4] (fresh_client [])) in
  @send_with_retry debug_profile script Z scripted (at_ 5) s' = (Err CircuitOpen, s').
Proof.
  refine (proj1 (proj2 (@circuit_opens_after_five debug_profile script Z scripted
            (fun _ => 0) (fun _ => 1) (fun _ => 2) (fun _ => 3) (fun _ => 4) (fresh_client []) eq_refl _ _)) _ _).
  - repeat (apply Forall_cons; split; [vm_compute; discriminate|]). apply Forall_nil_2.
  - intros k. exists timeout_error. assert (Hk : after scripted k [] = []) by (induction k; done). simpl. by rewrite Hk.
  - vm_compute. reflexivity.
Defined.
