(* ===== verification/ClientApi.v ===== *)
(** * ClientApi: the methods of the HTTP client
    ([crates/racfs-client/src/client.rs])

    A method builds a request, sends it through the retry loop and the circuit
    breaker of [ClientCircuit], and decodes the response.  What answers one
    attempt is a parameter over a state [W]; so are the texts of statuses and
    the error of a body that does not decode.  The base URL is the path that it
    puts in front of the API's. *)

From S2P Require Import Prelude Text Metadata Json Http HttpError.
From S2P Require Export ClientTypes ClientCircuit.
From Stdlib Require Strings.String.

(* src: crates/racfs-client/src/client.rs 65-70 Client *)
Record ApiClient (W : Type) := {
  base_path : string;
  auth_token : option string;
  http : Client (W := W)
}.
Arguments base_path {W}.
Arguments auth_token {W}.
Arguments http {W}.

(** Over the state of the network, with nothing slept. *)
(* src: crates/racfs-client/src/client.rs 120-127 Client::new *)
Definition new {W} (base : string) (w : W) : ApiClient W :=
  {| base_path := base; auth_token := None;
     http := {| circuit := {| failure_count := 0; open_until := None |}; network := w; slept := [] |} |}.

(** The pool options only tune the HTTP crate. *)
(* src: crates/racfs-client/src/client.rs 74-77 ClientBuilder *)
Record ClientBuilder := { pool_max_idle_per_host : option Z; pool_idle_timeout : option Z }.
(* src: crates/racfs-client/src/client.rs 81-83 ClientBuilder::new *)
Definition builder : ClientBuilder := {| pool_max_idle_per_host := None; pool_idle_timeout := None |}.
(* src: crates/racfs-client/src/client.rs 87-90 ClientBuilder::pool_max_idle_per_host *)
Definition with_max_idle (n : Z) (b : ClientBuilder) : ClientBuilder :=
  {| pool_max_idle_per_host := Some n; pool_idle_timeout := pool_idle_timeout b |}.
(* src: crates/racfs-client/src/client.rs 94-97 ClientBuilder::pool_idle_timeout *)
Definition with_idle_timeout (t : Z) (b : ClientBuilder) : ClientBuilder :=
  {| pool_max_idle_per_host := pool_max_idle_per_host b; pool_idle_timeout := Some t |}.

(** [reqwest] makes the connection pool or fails. *)
(* src: crates/racfs-client/src/client.rs 100-115 ClientBuilder::build *)
Definition build {W} (make : ClientBuilder -> option SendError) (b : ClientBuilder) (base : string) (w : W)
  : outcome Error (ApiClient W) :=
  match make b with Some e => Err (Http e) | None => Ok (new base w) end.

(** The [Display] of the errors, from their [snafu(display)] attributes. *)
(* src: crates/racfs-client/src/client.rs 13-32 Error *)
Definition error_display (e : Error) : string :=
  match e with
  | Http s => "HTTP error: " +:+ source s
  | Api code message detail =>
    "API error (" +:+ code +:+ "): " +:+ message
    +:+ match detail with Some d => " (" +:+ d +:+ ")" | None => "" end
  | CircuitOpen => "Circuit breaker open: backend unavailable until cooldown elapses"
  | NotAuthenticated => "Not authenticated"
  | Internal m => "Internal client error: " +:+ m
  end.

(** ** The token *)

Section Token.
Context {W : Type}.
Implicit Types (c : ApiClient W).

Definition set_auth t c : ApiClient W := {| base_path := base_path c; auth_token := t; http := http c |}.
Definition set_http h c : ApiClient W := {| base_path := base_path c; auth_token := auth_token c; http := h |}.

(* src: crates/racfs-client/src/client.rs 135-138 Client::set_token *)
Definition set_token {E} (t : string) : M (ApiClient W) E () := modify (set_auth (Some t)).
(* src: crates/racfs-client/src/client.rs 141-144 Client::token *)
Definition token c : option string := auth_token c.
(* src: crates/racfs-client/src/client.rs 147-150 Client::is_authenticated *)
Definition is_authenticated c : bool := match auth_token c with Some _ => true | None => false end.
(* src: crates/racfs-client/src/client.rs 153-156 Client::logout *)
Definition logout {E} : M (ApiClient W) E () := modify (set_auth None).
End Token.

Section Methods.
Context `{BuildProfile} `{JsonText} {W : Type} (send : HttpRequest -> W -> (Response + SendError) * W).
Context (status_text : Z -> string) (decode_error : SendError).
Implicit Types (now : Now).
Abbreviation Op := (M (ApiClient W) Error).

(* src: crates/racfs-client/src/client.rs 159-165 Client::build_request *)
Definition build_request (token : option string) (r : HttpRequest) : HttpRequest :=
  match token with
  | Some t =>
    {| method := method r; uri_path := uri_path r; query := query r; request_body := request_body r;
       authorization_header := Some ("Bearer " +:+ t) |}
  | None => r
  end.

(** A request to a path of the API. *)
Definition req (m : Method) (path : string) (q : list (string * string)) (text : option string) : HttpRequest :=
  {| method := m; uri_path := path; query := q; request_body := text; authorization_header := None |}.

(** [.json(&body)] *)
Definition body_text {A} `{Serialize A} (a : A) : string := json_to_string (to_json a).

(** Behind the base URL, with the token when [authorized]. *)
Definition request now (authorized : bool) (r : HttpRequest) : Op Response := fun c =>
  let r := {| method := method r; uri_path := base_path c +:+ uri_path r; query := query r;
              request_body := request_body r; authorization_header := None |} in
  let r := if authorized then build_request (auth_token c) r else r in
  let '(o, h) := send_with_retry (send r) now (http c) in
  (o, set_http h c).

(** The error that a response stands for. *)
(* src: crates/racfs-client/src/client.rs 283-300 Client::handle_response *)
Definition api_error (response : Response) : Error :=
  let e := default (HttpError.new InternalServerError ("HTTP " +:+ status_text (status response) +:+ " error"))
             (v ← json_from_str (body response); from_json v) in
  Api (code_display (err_code e)) (err_message e) (err_detail e).

(* src: crates/racfs-client/src/client.rs 273-301 Client::handle_response *)
Definition handle_response {T} `{Deserialize T} (response : Response) : outcome Error T :=
  if is_success (status response) then
    ok_or (v ← json_from_str (body response); from_json v) (Http decode_error)
  else Err (api_error response).

(* src: crates/racfs-client/src/client.rs 304-329 Client::handle_text_response *)
Definition handle_text_response (response : Response) : outcome Error string :=
  if is_success (status response) then Ok (body response) else Err (api_error response).

(* src: crates/racfs-client/src/client.rs 228-245 Client::login *)
Definition login now (username password : string) : Op LoginResponse :=
  response ← request now false (req POST "/api/v1/auth/login" []
    (Some (body_text {| ClientTypes.username := username; ClientTypes.password := password |})));
  r ← lift (handle_response response);
  set_token (access_token r) ;;
  mret r.

(* src: crates/racfs-client/src/client.rs 248-255 Client::me *)
Definition me now : Op UserResponse :=
  response ← request now true (req GET "/api/v1/auth/me" [] None);
  lift (handle_response response).

(* src: crates/racfs-client/src/client.rs 258-270 Client::refresh *)
Definition refresh now : Op LoginResponse :=
  response ← request now true (req POST "/api/v1/auth/refresh" [] None);
  r ← lift (handle_response response);
  set_token (access_token r) ;;
  mret r.

(* src: crates/racfs-client/src/client.rs 332-339 Client::health *)
Definition health now : Op HealthResponse :=
  response ← request now true (req GET "/api/v1/health" [] None);
  lift (handle_response response).

(* src: crates/racfs-client/src/client.rs 342-349 Client::capabilities *)
Definition capabilities now : Op CapabilitiesResponse :=
  response ← request now true (req GET "/api/v1/capabilities" [] None);
  lift (handle_response response).

(* src: crates/racfs-client/src/client.rs 352-361 Client::read_file *)
Definition read_file now (path : string) : Op string :=
  response ← request now true (req GET "/api/v1/files" [("path", path)]%string None);
  lift (handle_text_response response).

(* src: crates/racfs-client/src/client.rs 364-382 Client::write_file *)
Definition write_file now (path data : string) (offset : option Z) : Op MessageResponse :=
  response ← request now true
    (req PUT "/api/v1/files" [] (Some (body_text {| w_path := path; w_data := data; w_offset := offset |})));
  lift (handle_response response).

(* src: crates/racfs-client/src/client.rs 385-394 Client::create_file *)
Definition create_file now (path : string) : Op MessageResponse :=
  response ← request now true (req POST "/api/v1/files" [("path", path)]%string None);
  lift (handle_response response).

(* src: crates/racfs-client/src/client.rs 397-406 Client::remove *)
Definition remove now (path : string) : Op MessageResponse :=
  response ← request now true (req DELETE "/api/v1/files" [("path", path)]%string None);
  lift (handle_response response).

(* src: crates/racfs-client/src/client.rs 409-421 Client::mkdir *)
Definition mkdir now (path : string) (perm : option Z) : Op MessageResponse :=
  response ← request now true
    (req POST "/api/v1/directories" [] (Some (body_text {| c_path := path; c_perm := perm |})));
  lift (handle_response response).

(* src: crates/racfs-client/src/client.rs 424-433 Client::read_dir *)
Definition read_dir now (path : string) : Op DirectoryListResponse :=
  response ← request now true (req GET "/api/v1/directories" [("path", path)]%string None);
  lift (handle_response response).

(* src: crates/racfs-client/src/client.rs 436-445 Client::stat *)
Definition stat now (path : string) : Op FileMetadataResponse :=
  response ← request now true (req GET "/api/v1/stat" [("path", path)]%string None);
  lift (handle_response response).

(* src: crates/racfs-client/src/client.rs 448-460 Client::rename *)
Definition rename now (from to : string) : Op MessageResponse :=
  response ← request now true
    (req POST "/api/v1/rename" [] (Some (body_text {| old_path := from; new_path := to |})));
  lift (handle_response response).

(* src: crates/racfs-client/src/client.rs 463-475 Client::chmod *)
Definition chmod now (path : string) (mode : Z) : Op MessageResponse :=
  response ← request now true
    (req POST "/api/v1/chmod" [] (Some (body_text {| m_path := path; m_mode := mode |})));
  lift (handle_response response).

(* src: crates/racfs-client/src/client.rs 478-490 Client::truncate *)
Definition truncate now (path : string) (size : Z) : Op MessageResponse :=
  response ← request now true
    (req POST "/api/v1/truncate" [] (Some (body_text {| t_path := path; t_size := size |})));
  lift (handle_response response).

(* src: crates/racfs-client/src/client.rs 494-506 Client::symlink *)
Definition symlink now (target link_path : string) : Op MessageResponse :=
  response ← request now true
    (req POST "/api/v1/symlink" [] (Some (body_text {| s_target := target; s_link_path := link_path |})));
  lift (handle_response response).

(* src: crates/racfs-client/src/client.rs 509-522 Client::get_xattr *)
Definition get_xattr now (path name : string) : Op XattrValueResponse :=
  response ← request now true (req GET "/api/v1/xattr" [("path", path); ("name", name)]%string None);
  lift (handle_response response).

(* src: crates/racfs-client/src/client.rs 525-543 Client::set_xattr *)
Definition set_xattr now (path name value_base64 : string) : Op MessageResponse :=
  response ← request now true
    (req POST "/api/v1/xattr" [] (Some (body_text {| x_path := path; x_name := name; x_base64 := value_base64 |})));
  lift (handle_response response).

(* src: crates/racfs-client/src/client.rs 546-555 Client::list_xattr *)
Definition list_xattr now (path : string) : Op XattrListResponse :=
  response ← request now true (req GET "/api/v1/xattr/list" [("path", path)]%string None);
  lift (handle_response response).

(* src: crates/racfs-client/src/client.rs 558-571 Client::remove_xattr *)
Definition remove_xattr now (path name : string) : Op MessageResponse :=
  response ← request now true (req DELETE "/api/v1/xattr" [("path", path); ("name", name)]%string None);
  lift (handle_response response).
End Methods.
