(* ===== verification/Remote.v ===== *)
(** * Remote: the client and the server together

    The HTTP client's methods over a server that runs the router behind the
    rate limiter ([crates/racfs-server/src/main.rs]).  A request that is sent
    reaches the server; what the client sees of a handler that panics or never
    ends is a parameter.  Each request brings its own clock readings. *)

From S2P Require Import MemFS.
From S2P Require Import Prelude Text RPath FsError Metadata FileSystem Json Http HttpError.
From S2P Require Import Validation Metrics RateLimiter StatCache Auth ServerTypes ServerApi ClientApi.
From Stdlib Require Strings.String.

(** The clocks of a request: the system clock and the monotonic clock of the
    handler, and the reading of the limiter. *)
Record Clocks := { wall : Now; mono : Now; limit : Now }.

Record Server (V : Type) := { limiter : RateLimiter; app : AppState V; served : nat }.
Arguments limiter {V}.
Arguments app {V}.
Arguments served {V}.

(** The two numbers and strings of the limiter's JSON error. *)
(* src: crates/racfs-server/src/ratelimit.rs 201-204 RateLimitErrorResponse *)
Definition rate_limit_error `{JsonText} (code message : string) : option string :=
  Some (json_to_string (JObj [("code"%string, JStr code); ("message"%string, JStr message)])).

(** What the limiter looks at: [main.rs] sets no peer address. *)
Definition limiter_view (r : HttpRequest) : RateLimiter.Request :=
  {| has_limiter := true; x_api_key := None; authorization := Some <$> authorization_header r;
     remote_ip := None |}.

Section World.
Context `{BuildProfile} {V : Type} `{FileSystem V} `{Encodings} `{JsonText} `{Axum} `{Prometheus} `{Bcrypt} `{JwtEncode}.
Context (clocks : nat -> Clocks) (hash_str : string -> Z) (lost : SendError).
Implicit Types (s : Server V) (r : HttpRequest).

(** One request on the server. *)
(* src: crates/racfs-server/src/main.rs 338-347 run *)
Definition serve r s : (Response + SendError) * Server V :=
  let k := clocks (served s) in
  match handle (wall k) (mono k) r (app s) with
  | (Ok response, a) =>
    let '(response, (l, a)) := rate_limit_middleware hash_str rate_limit_error (fun _ _ => (response, a))
                                 (limit k) (limiter_view r) (limiter s, app s) in
    (inl response, {| limiter := l; app := a; served := S (served s) |})
  | (_, a) =>
    (inr lost, {| limiter := snd (check (limit k) (get_client_id hash_str (limiter_view r)) (limiter s));
                  app := a; served := S (served s) |})
  end.
End World.

(** ** The calls of the client *)

Inductive ClientCall :=
| KReadFile (p : string)
| KWriteFile (p data : string) (offset : option Z)
| KCreateFile (p : string)
| KRemove (p : string)
| KMkdir (p : string) (perm : option Z)
| KReadDir (p : string)
| KStat (p : string)
| KRename (from to : string)
| KChmod (p : string) (mode : Z)
| KTruncate (p : string) (size : Z)
| KSymlink (target link : string)
| KGetXattr (p name : string)
| KSetXattr (p name value : string)
| KListXattr (p : string)
| KRemoveXattr (p name : string).

Inductive ClientReply :=
| RText (t : string)
| RMessage (m : string)
| RStat (m : FileMetadataResponse)
| RDir (l : DirectoryListResponse)
| RXattr (v : string)
| RXattrNames (l : list string).

(** The integers have their machine types, and no body is too large to be read. *)
Definition call_body `{JsonText} (k : ClientCall) : option string :=
  match k with
  | KWriteFile p d o => Some (body_text {| w_path := p; w_data := d; w_offset := o |})
  | KMkdir p m => Some (body_text {| c_path := p; c_perm := m |})
  | KRename a b => Some (body_text {| old_path := a; new_path := b |})
  | KChmod p m => Some (body_text {| m_path := p; m_mode := m |})
  | KTruncate p n => Some (body_text {| t_path := p; t_size := n |})
  | KSymlink t l => Some (body_text {| s_target := t; s_link_path := l |})
  | KSetXattr p n v => Some (body_text {| x_path := p; x_name := n; x_base64 := v |})
  | _ => None
  end.

Definition call_ok `{JsonText} `{Axum} (k : ClientCall) : bool :=
  (match k with
   | KWriteFile _ _ o => match o with Some z => in_i64 z | None => true end
   | KMkdir _ m => match m with Some z => in_u32 z | None => true end
   | KChmod _ m => in_u32 m
   | KTruncate _ n => in_u64 n
   | _ => true
   end) && match call_body k with Some t => negb (body_refused t) | None => true end.

(** The request of a call. *)
Definition call_request `{JsonText} (k : ClientCall) : HttpRequest :=
  match k with
  | KReadFile p => req GET "/api/v1/files" [("path", p)] (call_body k)
  | KWriteFile _ _ _ => req PUT "/api/v1/files" [] (call_body k)
  | KCreateFile p => req POST "/api/v1/files" [("path", p)] (call_body k)
  | KRemove p => req DELETE "/api/v1/files" [("path", p)] (call_body k)
  | KMkdir _ _ => req POST "/api/v1/directories" [] (call_body k)
  | KReadDir p => req GET "/api/v1/directories" [("path", p)] (call_body k)
  | KStat p => req GET "/api/v1/stat" [("path", p)] (call_body k)
  | KRename _ _ => req POST "/api/v1/rename" [] (call_body k)
  | KChmod _ _ => req POST "/api/v1/chmod" [] (call_body k)
  | KTruncate _ _ => req POST "/api/v1/truncate" [] (call_body k)
  | KSymlink _ _ => req POST "/api/v1/symlink" [] (call_body k)
  | KGetXattr p n => req GET "/api/v1/xattr" [("path", p); ("name", n)] (call_body k)
  | KSetXattr _ _ _ => req POST "/api/v1/xattr" [] (call_body k)
  | KListXattr p => req GET "/api/v1/xattr/list" [("path", p)] (call_body k)
  | KRemoveXattr p n => req DELETE "/api/v1/xattr" [("path", p); ("name", n)] (call_body k)
  end%string.

Section Calls.
Context `{BuildProfile} `{JsonText} {W : Type} (send : HttpRequest -> W -> (Response + SendError) * W).
Context (status_text : Z -> string) (decode_error : SendError).
Implicit Types (now : Now).

(** The client's methods, by the call. *)
Definition client_call now (k : ClientCall) : M (ApiClient W) Error ClientReply :=
  let msg (m : M (ApiClient W) Error MessageResponse) := r ← m; mret (RMessage (message r)) in
  match k with
  | KReadFile p => RText <$> ClientApi.read_file send status_text now p
  | KWriteFile p d o => msg (ClientApi.write_file send status_text decode_error now p d o)
  | KCreateFile p => msg (ClientApi.create_file send status_text decode_error now p)
  | KRemove p => msg (ClientApi.remove send status_text decode_error now p)
  | KMkdir p m => msg (ClientApi.mkdir send status_text decode_error now p m)
  | KReadDir p => RDir <$> ClientApi.read_dir send status_text decode_error now p
  | KStat p => RStat <$> ClientApi.stat send status_text decode_error now p
  | KRename a b => msg (ClientApi.rename send status_text decode_error now a b)
  | KChmod p m => msg (ClientApi.chmod send status_text decode_error now p m)
  | KTruncate p n => msg (ClientApi.truncate send status_text decode_error now p n)
  | KSymlink t l => msg (ClientApi.symlink send status_text decode_error now t l)
  | KGetXattr p n =>
    r ← ClientApi.get_xattr send status_text decode_error now p n; mret (RXattr (x_value r))
  | KSetXattr p n v => msg (ClientApi.set_xattr send status_text decode_error now p n v)
  | KListXattr p => r ← ClientApi.list_xattr send status_text decode_error now p; mret (RXattrNames (names r))
  | KRemoveXattr p n => msg (ClientApi.remove_xattr send status_text decode_error now p n)
  end.

(** The same as one request and the decoding of its response. *)
Definition decode_reply (k : ClientCall) (response : Response) : outcome Error ClientReply :=
  match k with
  | KReadFile _ => RText <$> handle_text_response status_text response
  | KReadDir _ => RDir <$> handle_response status_text decode_error response
  | KStat _ => RStat <$> handle_response status_text decode_error response
  | KGetXattr _ _ =>
    (fun r : XattrValueResponse => RXattr (x_value r)) <$> handle_response status_text decode_error response
  | KListXattr _ =>
    (fun r : XattrListResponse => RXattrNames (names r)) <$> handle_response status_text decode_error response
  | _ =>
    (fun r : MessageResponse => RMessage (message r)) <$> handle_response status_text decode_error response
  end.
End Calls.

(** The metadata of the server as the client reads it. *)
Definition stat_reply (m : MetadataResponse) : FileMetadataResponse :=
  {| file_type := mr_file_type m; permissions := mr_permissions m; size := mr_size m;
     modified := mr_modified m; path := mr_path m; symlink_target := mr_symlink_target m |}.
Definition entry_reply (e : ServerTypes.DirectoryEntry) : DirectoryEntry :=
  {| d_permissions := de_permissions e; d_size := de_size e; d_modified := de_modified e;
     d_path := de_path e; d_file_type := Some (de_file_type e) |}.

Section Local.
Context `{BuildProfile} {V : Type} `{FileSystem V} `{Encodings} `{JsonText}.

(** What a call comes to on the server: the handler, and its answer as the
    client reads it.  The content of a file arrives as its JSON text. *)
Definition local_call (now mono : Now) (k : ClientCall) : M (AppState V) HttpErrorResponse ClientReply :=
  match k with
  | KReadFile p => (fun t => RText (json_to_string (JStr t))) <$> ServerApi.read_file now p
  | KWriteFile p d o =>
    (fun r => RMessage (fr_message r)) <$>
      ServerApi.write_file now {| wr_path := p; wr_data := d; wr_offset := o |}
  | KCreateFile p => (fun r => RMessage (fr_message r)) <$> ServerApi.create_file now p
  | KRemove p => (fun r => RMessage (fr_message r)) <$> ServerApi.delete_file now p
  | KMkdir p m =>
    (fun r => RMessage (dr_message r)) <$> ServerApi.create_directory now {| cd_path := p; cd_perm := m |}
  | KReadDir p =>
    (fun r => RDir {| entries := map entry_reply (dl_entries r) |}) <$> ServerApi.list_directory now p
  | KStat p => (fun r => RStat (stat_reply r)) <$> ServerApi.stat now mono p
  | KRename a b =>
    (fun r => RMessage (ar_message r)) <$> ServerApi.rename now {| rr_old_path := a; rr_new_path := b |}
  | KChmod p m => (fun r => RMessage (ar_message r)) <$> ServerApi.chmod now {| cr_path := p; cr_mode := m |}
  | KTruncate p n =>
    (fun r => RMessage (ar_message r)) <$> ServerApi.truncate now {| tr_path := p; tr_size := n |}
  | KSymlink t l =>
    (fun r => RMessage (ar_message r)) <$> ServerApi.symlink now {| sr_target := t; sr_link_path := l |}
  | KGetXattr p n =>
    (fun r => RXattr (xv_value r)) <$> ServerApi.get_xattr now {| xq_path := p; xq_name := n |}
  | KSetXattr p n v =>
    (fun r => RMessage (ar_message r)) <$>
      ServerApi.set_xattr now {| xr_path := p; xr_name := n; xr_value := v |}
  | KListXattr p => (fun r => RXattrNames (xl_names r)) <$> ServerApi.list_xattr now p
  | KRemoveXattr p n =>
    (fun r => RMessage (ar_message r)) <$> ServerApi.remove_xattr now {| xq_path := p; xq_name := n |}
  end.

(** The sizes that a reply carries have their machine type. *)
Definition reply_ok (r : ClientReply) : Prop :=
  match r with
  | RStat m => in_u64 (size m) = true
  | RDir l => Forall (fun e => in_u64 (d_size e) = true) (entries l)
  | _ => True
  end.
End Local.

(** ** Requests arrive as they were sent *)

Section Wire.
Context `{BuildProfile} {V : Type} `{FileSystem V} `{Encodings} `{JsonTextLaws} `{Axum} `{Prometheus} `{Bcrypt} `{JwtEncode}.
Context (status_text : Z -> string) (decode_error : SendError).
#[local] Arguments in_u64 : simpl never.
#[local] Arguments in_u32 : simpl never.
#[local] Arguments in_i64 : simpl never.
Implicit Types (now mono : Now) (a : AppState V).

Lemma decode_body_text {A B} `{Serialize A, Deserialize B} (x : A) r :
  request_body r = Some (body_text x) -> body_refused (body_text x) = false ->
  decode_body (B := B) r = from_json (to_json x).
Proof.
  intros Hb Hr. unfold decode_body. rewrite Hb. simpl. rewrite Hr. unfold body_text.
  by rewrite json_text_roundtrip.
Qed.

Lemma with_body_run {B} `{Deserialize B} r (b : B) (k : B -> M (AppState V) Empty_set Response) :
  decode_body r = Some b -> with_body r k = k b.
Proof. intros Hb. unfold with_body. by rewrite Hb. Qed.

(** The outcome of a handler behind the router, and what the client reads. *)
Definition answers (k : ClientCall) (served : outcome Empty_set Response * AppState V)
    (local : outcome HttpErrorResponse ClientReply * AppState V) : Prop :=
  snd served = snd local /\
  match fst local with
  | Ok rep => reply_ok rep -> exists response, fst served = Ok response /\
      is_success (status response) = true /\ decode_reply status_text decode_error k response = Ok rep
  | Err e => fst served = Ok (into_response e)
  | Panic => fst served = Panic
  | Diverge => fst served = Diverge
  end.

Lemma answer_answers {A} `{Serialize A} k (m : M (AppState V) HttpErrorResponse A) (f : A -> ClientReply) a :
  (forall x, reply_ok (f x) -> decode_reply status_text decode_error k (json_response x) = Ok (f x)) ->
  answers k (answer m a) ((f <$> m) a).
Proof.
  intros Hf. unfold answers, answer, fmap, M_fmap.
  destruct (m a) as [[x|e| |] a']; simpl; (split; [done|]); try done.
  intros Hx. exists (json_response x). split; [done|]. split; [done|]. by apply Hf.
Qed.

Lemma handle_response_ok {A T} `{Serialize A, Deserialize T} (x : A) :
  handle_response status_text decode_error (json_response x)
  = ok_or (from_json (to_json x)) (Http decode_error) :> outcome Error T.
Proof. unfold handle_response. simpl. by rewrite json_text_roundtrip. Qed.

(** The response of a call's handler. *)
Definition served_call now mono (k : ClientCall) : M (AppState V) Empty_set Response :=
  match k with
  | KReadFile p => answer (ServerApi.read_file now p)
  | KWriteFile p d o => answer (ServerApi.write_file now {| wr_path := p; wr_data := d; wr_offset := o |})
  | KCreateFile p => answer (ServerApi.create_file now p)
  | KRemove p => answer (ServerApi.delete_file now p)
  | KMkdir p m => answer (ServerApi.create_directory now {| cd_path := p; cd_perm := m |})
  | KReadDir p => answer (ServerApi.list_directory now p)
  | KStat p => answer (ServerApi.stat now mono p)
  | KRename f t => answer (ServerApi.rename now {| rr_old_path := f; rr_new_path := t |})
  | KChmod p m => answer (ServerApi.chmod now {| cr_path := p; cr_mode := m |})
  | KTruncate p n => answer (ServerApi.truncate now {| tr_path := p; tr_size := n |})
  | KSymlink t l => answer (ServerApi.symlink now {| sr_target := t; sr_link_path := l |})
  | KGetXattr p n => answer (ServerApi.get_xattr now {| xq_path := p; xq_name := n |})
  | KSetXattr p n v => answer (ServerApi.set_xattr now {| xr_path := p; xr_name := n; xr_value := v |})
  | KListXattr p => answer (ServerApi.list_xattr now p)
  | KRemoveXattr p n => answer (ServerApi.remove_xattr now {| xq_path := p; xq_name := n |})
  end.

(** The body that a handler gets is the one that was sent. *)
Lemma body_run {A B C} `{Serialize A, Deserialize B, Serialize C} (x : A) (b : B)
    (h : B -> M (AppState V) HttpErrorResponse C) r a :
  request_body r = Some (body_text x) -> negb (body_refused (body_text x)) = true ->
  from_json (to_json x) = Some b -> with_body r (fun b => answer (h b)) a = answer (h b) a.
Proof.
  intros Hb Hr Hj. rewrite (with_body_run r b); [done|]. rewrite (decode_body_text x); [done|done|].
  by apply negb_true_iff.
Qed.

(** Every call of the client reaches its handler, with the arguments that it
    was made with. *)
Lemma route_served now mono k r a :
  call_ok k = true -> method r = method (call_request k) -> uri_path r = uri_path (call_request k) ->
  query r = query (call_request k) -> request_body r = call_body k ->
  route now mono r a = served_call now mono k a.
Proof.
  intros [Hint Hbody]%andb_true_iff. destruct r as [m0 u0 q0 b0 tok].
  cbn [method uri_path query request_body]. intros -> -> -> ->.
  destruct k as [p|p d o|p|p|p m|p|p|f t|p m|p n|t l|p n|p n v|p|p n]; simpl in Hint, Hbody; try done.
  - refine (body_run {| w_path := p; w_data := d; w_offset := o |} {| wr_path := p; wr_data := d; wr_offset := o |}
              (ServerApi.write_file now) _ a _ Hbody _); [reflexivity|].
    destruct o as [z|]; [|done]. unfold from_json, WriteRequest_Deserialize, get_field, opt_field, int_from. simpl. by rewrite Hint.
  - refine (body_run {| c_path := p; c_perm := m |} {| cd_path := p; cd_perm := m |}
              (ServerApi.create_directory now) _ a _ Hbody _); [reflexivity|].
    destruct m as [z|]; [|done]. unfold from_json, CreateDirectoryRequest_Deserialize, get_field, opt_field, int_from. simpl. by rewrite Hint.
  - refine (body_run {| old_path := f; new_path := t |} {| rr_old_path := f; rr_new_path := t |}
              (ServerApi.rename now) _ a _ Hbody _); [reflexivity|].
    done.
  - refine (body_run {| m_path := p; m_mode := m |} {| cr_path := p; cr_mode := m |}
              (ServerApi.chmod now) _ a _ Hbody _); [reflexivity|].
    unfold from_json, ChmodRequest_Deserialize, get_field, opt_field, int_from. simpl. by rewrite Hint.
  - refine (body_run {| t_path := p; t_size := n |} {| tr_path := p; tr_size := n |}
              (ServerApi.truncate now) _ a _ Hbody _); [reflexivity|].
    unfold from_json, TruncateRequest_Deserialize, get_field, opt_field, int_from. simpl. by rewrite Hint.
  - refine (body_run {| s_target := t; s_link_path := l |} {| sr_target := t; sr_link_path := l |}
              (ServerApi.symlink now) _ a _ Hbody _); [reflexivity|].
    done.
  - refine (body_run {| x_path := p; x_name := n; x_base64 := v |} {| xr_path := p; xr_name := n; xr_value := v |}
              (ServerApi.set_xattr now) _ a _ Hbody _); [reflexivity|].
    done.
Qed.

Lemma metadata_read (m : MetadataResponse) :
  in_u64 (mr_size m) = true -> from_json (to_json m) = Some (stat_reply m).
Proof.
  intros Hm. destruct m as [ft pe sz mo pa sy]. simpl in Hm. unfold from_json, FileMetadataResponse_Deserialize, get_field, opt_field, int_from.
  simpl. rewrite Hm. simpl. by destruct mo, sy.
Qed.

Lemma entry_read (e : ServerTypes.DirectoryEntry) :
  in_u64 (de_size e) = true -> from_json (to_json e) = Some (entry_reply e).
Proof.
  intros Hm. destruct e as [pe sz mo pa ft]. simpl in Hm. unfold from_json, DirectoryEntry_Deserialize, get_field, opt_field, int_from.
  simpl. rewrite Hm. simpl. by destruct mo.
Qed.

Lemma listing_read (l : ServerTypes.DirectoryListResponse) :
  Forall (fun e => in_u64 (d_size e) = true) (map entry_reply (dl_entries l)) ->
  from_json (to_json l) = Some {| entries := map entry_reply (dl_entries l) |}.
Proof.
  destruct l as [es]. simpl. intros Hl. unfold from_json, DirectoryListResponse_Deserialize, get_field, opt_field, int_from. simpl.
  unfold from_json, to_json, list_Deserialize, list_Serialize.
  enough (Hm : mapM from_json (map to_json es) = Some (map entry_reply es)) by (simpl in *; by rewrite Hm).
  apply Forall_fmap in Hl. induction Hl as [|e es He _ IH]; [done|]. simpl in *.
  rewrite (entry_read e He). simpl. by rewrite IH.
Qed.

Lemma names_read (l : list string) : from_json (to_json l) = Some l.
Proof.
  transitivity (Some (map (fun x : string => x) l)); [|by rewrite map_id].
  by apply from_to_list.
Qed.

Lemma names_response (r : ServerTypes.XattrListResponse) : from_json (to_json r) = Some {| names := xl_names r |}.
Proof.
  destruct r as [l]. unfold from_json, XattrListResponse_Deserialize.
  change (get_field "names" from_json (to_json {| xl_names := l |})) with (from_json (A := list string) (to_json l)).
  by rewrite names_read.
Qed.

(** The reply that a handler's answer decodes to. *)
Ltac replied :=
  intros x Hx; simpl; rewrite handle_response_ok; simpl in Hx;
  first [ done | by rewrite metadata_read by done | by rewrite listing_read by done
        | by rewrite names_response ].

(** What the handler answers is read back by the client. *)
Lemma served_answers now mono k a : answers k (served_call now mono k a) (local_call now mono k a).
Proof.
  destruct k; cbn [served_call local_call]; apply answer_answers; [done|replied..].
Qed.

(** C40: a call of the API is served in the same way with a token, with a wrong
    one and without one; and the two routes that ask for a user refuse every
    request with 401, whatever token it carries. *)
Theorem api_needs_no_token now mono k tok a :
  call_ok k = true ->
  route now mono (build_request tok (call_request k)) a = route now mono (call_request k) a /\
  forall r, method r = GET /\ uri_path r = "/api/v1/auth/me"%string \/
            method r = POST /\ uri_path r = "/api/v1/auth/logout"%string ->
    exists response, route now mono r a = (Ok response, a) /\ status response = 401.
Proof.
  intros Hok. split.
  - rewrite (route_served now mono k (call_request k)) by (done || by destruct k).
    apply route_served; [done|destruct tok; by destruct k..].
  - intros [m u q b t]. simpl. intros [[-> ->]|[-> ->]]; by eexists.
Qed.
End Wire.

(** ** From the client's method to its answer *)

Section EndToEnd.
Context `{BuildProfile} {V : Type} `{FileSystem V} `{Encodings} `{JsonTextLaws} `{Axum} `{Prometheus} `{Bcrypt} `{JwtEncode}.
Context (clocks : nat -> Clocks) (hash_str : string -> Z) (lost : SendError).
Context (status_text : Z -> string) (decode_error : SendError).
Implicit Types (now : Now) (s : Server V) (c : ApiClient (Server V)).

Abbreviation network_send := (serve clocks hash_str lost).
Abbreviation call_client := (client_call network_send status_text decode_error).

(** The latency is recorded after the route has answered. *)
Lemma handle_route now mono r (a : AppState V) :
  fst (handle now mono r a) = fst (route now (now_from 1 mono) r a) /\
  vfs (snd (handle now mono r a)) = vfs (snd (route now (now_from 1 mono) r a)) /\
  stat_cache (snd (handle now mono r a)) = stat_cache (snd (route now (now_from 1 mono) r a)) /\
  auth (snd (handle now mono r a)) = auth (snd (route now (now_from 1 mono) r a)).
Proof.
  unfold handle, latency_middleware. rewrite run_bind.
  by destruct (route now (now_from 1 mono) r a) as [[resp|e| |] a'].
Qed.

(** A request that the breaker lets through and that is answered at once. *)
Lemma request_answered {W} (send : HttpRequest -> W -> (Response + SendError) * W) now (authorized : bool) r (d : ApiClient W) resp w :
  open_until (circuit (http d)) = None -> base_path d = "" ->
  send (build_request (if authorized then auth_token d else None) (req (method r) (uri_path r) (query r) (request_body r)))
    (network (http d)) = (inl resp, w) ->
  exists h, request send now authorized r d = (Ok resp, set_http h d) /\ network h = w /\ open_until (circuit h) = None.
Proof.
  intros Ho Hb Hs. unfold request. rewrite Hb. change ("" +:+ uri_path r) with (uri_path r).
  set (r' := if authorized then _ else _).
  assert (Hr : send r' (network (http d)) = (inl resp, w)) by (rewrite <- Hs; by destruct authorized).
  rewrite (send_answered (send r') now (http d) resp w Ho Hr). by eexists.
Qed.

Lemma decode_reply_ext k (r r' : Response) :
  status r = status r' -> body r = body r' ->
  decode_reply status_text decode_error k r = decode_reply status_text decode_error k r'.
Proof.
  intros Hs Hb. unfold decode_reply, handle_response, handle_text_response, api_error. by rewrite Hs, Hb.
Qed.

(** An error response decodes to the API error that it carries. *)
Lemma decode_reply_error k e (r : Response) :
  status r = status_code (err_code e) -> body r = json_to_string (to_json e) ->
  decode_reply status_text decode_error k r
  = Err (Api (code_display (err_code e)) (err_message e) (err_detail e)).
Proof.
  intros Hs Hb.
  assert (He : api_error status_text r = Api (code_display (err_code e)) (err_message e) (err_detail e)).
  { unfold api_error. rewrite Hb, json_text_roundtrip. simpl. by rewrite error_response_roundtrip. }
  unfold decode_reply, handle_response, handle_text_response.
  rewrite Hs, status_code_error, He. by destruct k.
Qed.

(** A 429 is no [HttpErrorResponse]: its code is none of them. *)
Lemma decode_reply_limited k m (r : Response) :
  status r = 429 -> body r = default "" (rate_limit_error "RateLimitExceeded" m) ->
  decode_reply status_text decode_error k r
  = Err (Api "InternalServerError" ("HTTP " +:+ status_text 429 +:+ " error") None).
Proof.
  intros Hs Hb.
  assert (He : api_error status_text r = Api "InternalServerError" ("HTTP " +:+ status_text 429 +:+ " error") None).
  { unfold api_error. rewrite Hb, Hs. unfold rate_limit_error. simpl default.
    by rewrite json_text_roundtrip. }
  unfold decode_reply, handle_response, handle_text_response. rewrite Hs, He. by destruct k.
Qed.

Lemma client_call_run {W} (send : HttpRequest -> W -> (Response + SendError) * W) now k (d : ApiClient W) :
  client_call send status_text decode_error now k d =
    (response ← request send now true (call_request k); lift (decode_reply status_text decode_error k response)) d.
Proof.
  destruct k; cbn [client_call call_request call_body decode_reply];
  unfold fmap, M_fmap, mbind, M_bind, lift;
  unfold ClientApi.read_file, ClientApi.write_file, ClientApi.create_file, ClientApi.remove, ClientApi.mkdir,
    ClientApi.read_dir, ClientApi.stat, ClientApi.rename, ClientApi.chmod, ClientApi.truncate, ClientApi.symlink,
    ClientApi.get_xattr, ClientApi.set_xattr, ClientApi.list_xattr, ClientApi.remove_xattr, mbind, M_bind, lift.
  all: destruct (request send now true _ d) as [[resp|e| |] d']; simpl; try done.
  all: by destruct (handle_response status_text decode_error resp).
Qed.
End EndToEnd.

(** ** What a call does *)

Section Spec.
Context `{BuildProfile} {V : Type} `{FileSystem V} `{Encodings} `{JsonTextLaws} `{Axum} `{Prometheus} `{Bcrypt} `{JwtEncode}.
Context (clocks : nat -> Clocks) (hash_str : string -> Z) (lost : SendError).
Context (status_text : Z -> string) (decode_error : SendError).
Implicit Types (now : Now) (s : Server V) (c : ApiClient (Server V)).

Abbreviation call_client := (client_call (serve clocks hash_str lost) status_text decode_error).

(** The client is ready to send: no path in front of the API's, and the breaker
    is closed. *)
Definition ready c : Prop := base_path c = "" /\ open_until (circuit (http c)) = None.

(** The request of a call, with the client's token. *)
Definition sent_request c (k : ClientCall) : HttpRequest := build_request (auth_token c) (call_request k).

(** The requests of the client's identity that the limiter has let through in
    the current window. *)
Definition requests_used c (k : ClientCall) s : Z :=
  let cl := limit (clocks (served s)) in
  RateLimiter.count (renew (config (limiter s)) (cl 0%nat)
    (default {| RateLimiter.count := 0; window_start := cl 0%nat |}
       (users (limiter s) !! get_client_id hash_str (limiter_view (sent_request c k))))).

(** The handler's run for the next request. *)
Definition local_run (k : ClientCall) s : outcome HttpErrorResponse ClientReply * AppState V :=
  let cl := clocks (served s) in local_call (wall cl) (now_from 1 (mono cl)) k (app s).

(** The error that the client makes of a handler's. *)
Definition as_api_error (e : HttpErrorResponse) : Error :=
  Api (code_display (err_code e)) (err_message e) (err_detail e).

Lemma sent_request_call c k :
  method (sent_request c k) = method (call_request k) /\ uri_path (sent_request c k) = uri_path (call_request k) /\
  query (sent_request c k) = query (call_request k) /\ request_body (sent_request c k) = call_body k.
Proof. unfold sent_request. destruct (auth_token c); by destruct k. Qed.

(** The server on the request of a call whose handler ends. *)
Lemma serve_call c k s :
  call_ok k = true -> returned (fst (local_run k s)) = true ->
  (forall rep, fst (local_run k s) = Ok rep -> reply_ok rep) ->
  exists response s', serve clocks hash_str lost (sent_request c k) s = (inl response, s') /\
    vfs (app s') = vfs (snd (local_run k s)) /\ stat_cache (app s') = stat_cache (snd (local_run k s)) /\
    served s' = S (served s) /\
    decode_reply status_text decode_error k response =
      if requests_used c k s <? max_requests (config (limiter s))
      then map_err as_api_error (fst (local_run k s))
      else Err (Api "InternalServerError" ("HTTP " +:+ status_text 429 +:+ " error") None).
Proof.
  intros Hok Hret Hrep. unfold serve. set (cl := clocks (served s)).
  destruct (sent_request_call c k) as (Hm & Hu & Hq & Hb).
  pose proof (route_served (wall cl) (now_from 1 (mono cl)) k _ (app s) Hok Hm Hu Hq Hb) as Hroute.
  pose proof (served_answers status_text decode_error (wall cl) (now_from 1 (mono cl)) k (app s)) as [Hst Hans].
  rewrite <- Hroute in Hst, Hans.
  change (local_call (wall cl) (now_from 1 (mono cl)) k (app s)) with (local_run k s) in Hst, Hans.
  destruct (handle_route (wall cl) (mono cl) (sent_request c k) (app s)) as (Ho & Hv & Hc & _).
  destruct (handle (wall cl) (mono cl) (sent_request c k) (app s)) as [o a'] eqn:Eh. cbn [fst snd] in Ho, Hv, Hc.
  rewrite Hst in Hv, Hc.
  assert (Hresp : exists response, o = Ok response /\
    decode_reply status_text decode_error k response = map_err as_api_error (fst (local_run k s))).
  { rewrite Ho. destruct (fst (local_run k s)) as [rep|e| |] eqn:El; try done.
    - destruct (Hans (Hrep rep eq_refl)) as (response & -> & _ & Hd). by exists response.
    - exists (into_response e). split; [done|]. by apply decode_reply_error. }
  destruct Hresp as (response & -> & Hdec).
  pose proof (middleware_run hash_str rate_limit_error (fun _ _ => (response, a')) (limit cl)
                (limiter_view (sent_request c k)) (limiter s) (app s) eq_refl) as Hlim.
  cbv zeta in Hlim. destruct (rate_limit_middleware _ _ _ _ _ _) as [response' [l' a'']].
  destruct Hlim as (-> & Hpass & Hover). exists response'. eexists. split; [reflexivity|]. cbn [app vfs stat_cache served].
  split; [done|]. split; [done|]. split; [done|].
  destruct (Z.ltb_spec (requests_used c k s) (max_requests (config (limiter s)))) as [Hlt|Hge].
  - destruct (Hpass Hlt) as (Hs & Hbody & _). rewrite <- Hdec. by apply decode_reply_ext.
  - destruct (Hover Hge) as (Hs & _ & _ & m & Hbody). by apply (decode_reply_limited _ _ _ m).
Qed.

(** The whole call. *)
Lemma call_served now k c :
  let s := network (http c) in
  ready c -> call_ok k = true -> returned (fst (local_run k s)) = true ->
  (forall rep, fst (local_run k s) = Ok rep -> reply_ok rep) ->
  exists h, call_client now k c =
    (if requests_used c k s <? max_requests (config (limiter s))
     then map_err as_api_error (fst (local_run k s))
     else Err (Api "InternalServerError" ("HTTP " +:+ status_text 429 +:+ " error") None), set_http h c) /\
    open_until (circuit h) = None /\ vfs (app (network h)) = vfs (snd (local_run k s)) /\
    stat_cache (app (network h)) = stat_cache (snd (local_run k s)) /\
    served (network h) = S (served s) /\
    network h = snd (serve clocks hash_str lost (sent_request c k) s).
Proof.
  intros s [Hb Ho] Hok Hret Hrep.
  destruct (serve_call c k s Hok Hret Hrep) as (response & s' & Hs & Hv & Hc & Hn & Hd).
  destruct (request_answered (serve clocks hash_str lost) now true (call_request k) c response s' Ho Hb)
    as (h & Hr & <- & Hopen).
  { rewrite <- Hs. unfold sent_request. by destruct k. }
  exists h. rewrite client_call_run, run_bind, Hr. cbn [fst snd]. unfold lift. rewrite Hd.
  split_and!; [done..|by fold s; rewrite Hs].
Qed.

(** C6: a call of the client whose handler ends is carried out on the server
    exactly as the handler does it on the filesystem and the stat cache, and
    the client gets the handler's answer: its reply, or an API error with the
    code, the message and the detail of its error.  Over the rate limit the
    call is carried out all the same, and the client is told of an internal
    error. *)
Theorem remote_call_spec now k c :
  let s := network (http c) in
  ready c -> call_ok k = true -> returned (fst (local_run k s)) = true ->
  (forall rep, fst (local_run k s) = Ok rep -> reply_ok rep) ->
  let '(answer, c') := call_client now k c in
  let s' := network (http c') in
  vfs (app s') = vfs (snd (local_run k s)) /\
  stat_cache (app s') = stat_cache (snd (local_run k s)) /\
  served s' = S (served s) /\ ready c' /\ auth_token c' = auth_token c /\
  answer = if requests_used c k s <? max_requests (config (limiter s))
           then map_err as_api_error (fst (local_run k s))
           else Err (Api "InternalServerError" ("HTTP " +:+ status_text 429 +:+ " error") None).
Proof.
  intros s Hready Hok Hret Hrep.
  destruct (call_served now k c Hready Hok Hret Hrep) as (h & -> & Ho & Hv & Hc & Hn & _).
  destruct Hready as [Hb _]. by repeat split.
Qed.

(** C38: what the client reads of a file is the JSON text of its content, in
    quotes: never the content, whatever it is. *)
Theorem remote_read_quoted now p c data v :
  let s := network (http c) in
  ready c -> validate_path p = Ok () ->
  fs_read (wall (clocks (served s))) p 0 (-1) (vfs (app s)) = (Ok data, v) ->
  requests_used c (KReadFile p) s < max_requests (config (limiter s)) ->
  let content := from_utf8_lossy data in
  fst (call_client now (KReadFile p) c) = Ok (RText (json_to_string (JStr content))) /\
  json_to_string (JStr content) <> content /\
  (String.length content + 2 <= String.length (json_to_string (JStr content)))%nat.
Proof.
  intros s Hready Hval Hread Hlim content.
  assert (Hlocal : fst (local_run (KReadFile p) s) = Ok (RText (json_to_string (JStr content)))).
  { unfold local_run. cbn [local_call]. unfold fmap, M_fmap. unfold ServerApi.read_file.
    rewrite run_bind. unfold lift. rewrite Hval. rewrite run_bind. unfold call_vfs. by rewrite Hread. }
  assert (Hlong := json_string_longer content).
  split; [|split; [intros He; rewrite He in Hlong; lia|done]].
  destruct (call_served now (KReadFile p) c Hready eq_refl) as (h & -> & _).
  { fold s. by rewrite Hlocal. }
  { fold s. intros rep. rewrite Hlocal. by intros [= <-]. }
  fold s. rewrite Hlocal. cbn [fst].
  by destruct (Z.ltb_spec (requests_used c (KReadFile p) s) (max_requests (config (limiter s)))); [|lia].
Qed.
End Spec.

(** ** A server with a filesystem in memory *)

Section Witnesses.

Definition still : Now := fun _ => 7 * 10 ^ 9.
Definition still_clocks : nat -> Clocks := fun _ => {| wall := still; mono := still; limit := still |}.
Definition plain_encodings : Encodings :=
  {| b64_encode := from_bytes; b64_decode s := Some (as_bytes s); fmt_minutes _ := "2024-01-01 00:00"%string |}.
Definition plain_axum : Axum :=
  {| fallback _ := respond 404 ""; body_refused _ := false; rejection _ := respond 422 "";
     crate_version := "0.1.0" |}.
Definition no_error : SendError := {| is_connect := false; is_timeout := false; source := "closed" |}.

Definition demo_server (max : Z) : Server MemFS :=
  {| limiter := RateLimiter.new {| max_requests := max; window := 60 * 10 ^ 9; headers := default_headers |};
     app := ServerApi.with_registry MemFS.demo server_families zero_metrics demo_auth 2; served := 0 |}.

Definition demo_client (max : Z) : ApiClient (Server MemFS) := ClientApi.new "" (demo_server max).

#[local] Existing Instance debug_profile.
#[local] Existing Instance plain_encodings.
#[local] Existing Instance binary_json.
#[local] Existing Instance binary_json_laws.
#[local] Existing Instance plain_axum.
#[local] Existing Instance small_prometheus.
#[local] Existing Instance plain_bcrypt.
#[local] Existing Instance plain_jwt.

Definition demo_write : ClientCall := KWriteFile "/d/f" "hi" (Some 2).

Lemma demo_write_run max : fst (local_run still_clocks demo_write (demo_server max)) = Ok (RMessage "Wrote 2 bytes").
Proof. vm_compute. reflexivity. Qed.

Lemma demo_write_returns max :
  returned (fst (local_run still_clocks demo_write (demo_server max))) = true /\
  forall rep, fst (local_run still_clocks demo_write (demo_server max)) = Ok rep -> reply_ok rep.
Proof. rewrite demo_write_run. split; [done|]. by intros rep [= <-]. Qed.

Lemma api_needs_no_token_witness :
  route still still (build_request (Some "stolen"%string) (call_request (KRemove "/d/f"))) (app (demo_server 100))
  = route still still (call_request (KRemove "/d/f")) (app (demo_server 100)).
Proof. apply (api_needs_no_token still still (KRemove "/d/f") (Some "stolen"%string) (app (demo_server 100)) eq_refl). Defined.

(** A write that passes the limiter, and one that does not and is done too. *)
Lemma remote_call_spec_witness :
  let call max := client_call (serve still_clocks str_len no_error) to_string no_error still demo_write (demo_client max) in
  fst (call 100) = Ok (RMessage "Wrote 2 bytes") /\
  fst (call 0) = Err (Api "InternalServerError" "HTTP 429 error" None) /\
  vfs (app (network (http (snd (call 0))))) = snd (MemFS.write still "/d/f" (as_bytes "hi") 2 0 MemFS.demo).
Proof.
  assert (Hcall : forall max, let c' := client_call (serve still_clocks str_len no_error) to_string no_error still
      demo_write (demo_client max) in
    vfs (app (network (http (snd c')))) = vfs (snd (local_run still_clocks demo_write (demo_server max))) /\
    fst c' = if requests_used still_clocks str_len (demo_client max) demo_write (demo_server max) <? max
             then Ok (RMessage "Wrote 2 bytes") else Err (Api "InternalServerError" "HTTP 429 error" None)).
  { intros max c'. destruct (demo_write_returns max) as [Hret Hrep].
    pose proof (remote_call_spec still_clocks str_len no_error to_string no_error still
                  demo_write (demo_client max) (conj eq_refl eq_refl) eq_refl Hret Hrep) as Hspec.
    change (client_call _ _ _ _ _ (demo_client max)) with c' in Hspec. destruct c' as [a c'].
    destruct Hspec as (Hv & _ & _ & _ & _ & ->). split; [exact Hv|]. cbn [fst].
    change (network (http (demo_client max))) with (demo_server max). by rewrite demo_write_run. }
  intros call. destruct (Hcall 100) as [_ H1], (Hcall 0) as [Hv0 H0]. subst call. cbv beta.
  rewrite H1, H0, Hv0. split; [vm_compute; reflexivity|]. split; [vm_compute; reflexivity|].
  vm_compute. reflexivity.
Defined.

Lemma remote_read_quoted_witness :
  fst (client_call (serve still_clocks str_len no_error) to_string no_error still
         (KReadFile "/d/f") (demo_client 100)) = Ok (RText (quoted "abc")).
Proof.
  destruct (remote_read_quoted still_clocks str_len no_error to_string no_error still "/d/f" (demo_client 100)
              (as_bytes "abc") MemFS.demo (conj eq_refl eq_refl) eq_refl) as (H1 & _ & _).
  - vm_compute. reflexivity.
  - vm_compute. reflexivity.
  - exact H1.
Defined.
End Witnesses.
