(* ===== verification/ProxyFS.v ===== *)
(** * ProxyFS: a filesystem on another server ([crates/racfs-plugin-proxyfs])

    Every call is one HTTP request to a base URL; what answers it is a parameter
    over a state [W], in which a request or the reading of its answer may fail.
    The base URL is the path that it puts in front of the API's, and the query
    is the list of its pairs.  The second half puts the server of [Remote] behind
    it. *)

From S2P Require Import MemFS.
From S2P Require Import Prelude Text RPath FsError Metadata FileSystem Json Http HttpError.
From S2P Require Import Metrics RateLimiter StatCache Auth ServerTypes ServerApi.
From S2P Require Import ClientCircuit.
From S2P Require ClientTypes ClientApi.
From S2P Require Import Remote.
From Stdlib Require Strings.String.

(** ** Texts *)

(** [str::split_whitespace]: the runs of characters that are not white space. *)
Fixpoint words (run : bytes) (items : list utf8_item) : list bytes :=
  match items with
  | [] => match run with [] => [] | _ => [run] end
  | i :: items =>
    if ws_item i then match run with [] => words [] items | _ => run :: words [] items end
    else words (run ++ item_bytes i) items
  end.
Definition split_whitespace (s : string) : list string := map from_bytes (words [] (utf8_items (as_bytes s))).

Definition newline : Ascii.ascii := Ascii.ascii_of_nat 10.
Definition return_str : string := String (Ascii.ascii_of_nat 13) EmptyString.

(** [str::lines]: a last line that is empty is none, and a return at the end of a
    line goes with its newline. *)
Fixpoint lines_of (parts : list string) : list string :=
  match parts with
  | [] => []
  | [last] => if String.eqb last "" then [] else [last]
  | l :: rest => default l (strip_suffix_str l return_str) :: lines_of rest
  end.
Definition lines (s : string) : list string := lines_of (split_char newline s).

(** [str::parse::<u32>] *)
Definition parse_u32 (s : string) : option Z :=
  match parse_u64 s with Some n => if in_u32 n then Some n else None | None => None end.

(** ** Requests *)

(* src: crates/racfs-plugin-proxyfs/src/fs/mod.rs 15-18 ProxyFS *)
Record ProxyFS (W : Type) := { base_url : string; network : W }.
Arguments base_url {W}.
Arguments network {W}.

(* src: crates/racfs-plugin-proxyfs/src/fs/mod.rs 52-57 ProxyFS::new *)
Definition new {W} (base : string) (w : W) : ProxyFS W := {| base_url := base; network := w |}.

(* src: crates/racfs-plugin-proxyfs/src/fs/mod.rs 21-23 FileQuery *)
Definition FileQuery (path : Path) : list (string * string) := [("path"%string, path)].

(* src: crates/racfs-plugin-proxyfs/src/fs/mod.rs 26-30 WriteRequest *)
Record WriteRequest := { wq_path : string; wq_data : string; wq_offset : option Z }.
#[global] Instance WriteRequest_Serialize : Serialize WriteRequest := fun r =>
  JObj [("path"%string, JStr (wq_path r)); ("data"%string, JStr (wq_data r)); ("offset"%string, opt_num (wq_offset r))].

(* src: crates/racfs-plugin-proxyfs/src/fs/mod.rs 33-36 RenameRequest *)
Record RenameRequest := { rq_old_path : string; rq_new_path : string }.
#[global] Instance RenameRequest_Serialize : Serialize RenameRequest := fun r =>
  JObj [("old_path"%string, JStr (rq_old_path r)); ("new_path"%string, JStr (rq_new_path r))].

(* src: crates/racfs-plugin-proxyfs/src/fs/mod.rs 39-42 ChmodRequest *)
Record ChmodRequest := { cq_path : string; cq_mode : Z }.
#[global] Instance ChmodRequest_Serialize : Serialize ChmodRequest := fun r =>
  JObj [("path"%string, JStr (cq_path r)); ("mode"%string, JNum (cq_mode r))].

(* src: crates/racfs-plugin-proxyfs/src/fs/mod.rs 45-48 CreateDirectoryRequest *)
Record CreateDirectoryRequest := { dq_path : string; dq_perm : option Z }.
#[global] Instance CreateDirectoryRequest_Serialize : Serialize CreateDirectoryRequest := fun r =>
  JObj [("path"%string, JStr (dq_path r)); ("perm"%string, opt_num (dq_perm r))].

(** ** The calls *)

Section Ops.
Context `{BuildProfile} `{JsonText} {W : Type} (send : HttpRequest -> W -> (Response + SendError) * W).
Implicit Types (now : Now) (p : Path) (s : ProxyFS W).
Abbreviation Op := (FsOp (ProxyFS W)).

(** [self.client.<method>(&url)....send().await.map_err(..)?] *)
Definition request (m : Method) (path : string) (q : list (string * string)) (text : option string) : Op Response := fun s =>
  let r := {| method := m; uri_path := base_url s +:+ path; query := q; request_body := text;
              authorization_header := None |} in
  let '(answer, w) := send r (network s) in
  (match answer with inl response => Ok response | inr e => Err (Io (source e)) end,
   {| base_url := base_url s; network := w |}).

Definition json_body {A} `{Serialize A} (a : A) : option string := Some (json_to_string (to_json a)).

(* src: crates/racfs-plugin-proxyfs/src/fs/read.rs 10-46 ProxyFS::read *)
Definition read now p (offset size : Z) : Op bytes :=
  response ← request GET "/api/v1/files" (FileQuery p) None;
  lift (read_range (as_bytes (body response)) offset size).

(** What the words of a line say, with the path at a place of its own. *)
Definition parsed_metadata (parts : list string) (path_at : nat) : FileMetadata :=
  {| path := nth path_at parts ""%string;
     size := default 0 (parse_u64 (nth 2 parts ""%string));
     mode := default (octal 644) (parse_u32 (nth 1 parts ""%string));
     created := None; modified := None; accessed := None;
     is_symlink_flag := false; symlink_target := None |}.

(* src: crates/racfs-plugin-proxyfs/src/fs/read.rs 48-91 ProxyFS::stat *)
Definition stat now p : Op FileMetadata :=
  response ← request GET "/api/v1/stat" (FileQuery p) None;
  let parts := split_whitespace (body response) in
  if (5 <=? length parts)%nat then mret (parsed_metadata parts 4)
  else fail (Io "Invalid stat response").

(* src: crates/racfs-plugin-proxyfs/src/fs/write.rs 10-27 ProxyFS::create *)
Definition create now p : Op () :=
  request POST "/api/v1/files" (FileQuery p) None ;; mret ().

(* src: crates/racfs-plugin-proxyfs/src/fs/write.rs 29-54 ProxyFS::write *)
Definition write now p (data : bytes) (offset _flags : Z) : Op Z :=
  request PUT "/api/v1/files" []
    (json_body {| wq_path := p; wq_data := from_utf8_lossy data; wq_offset := Some offset |}) ;;
  mret (len data).

(* src: crates/racfs-plugin-proxyfs/src/fs/dir.rs 10-28 ProxyFS::mkdir *)
Definition mkdir now p (perm : Z) : Op () :=
  request POST "/api/v1/directories" [] (json_body {| dq_path := p; dq_perm := Some perm |}) ;; mret ().

(** The entry of a line, which takes three readings of the clock if it has no
    other words. *)
Fixpoint read_lines (k : nat) now (ls : list string) : list FileMetadata :=
  match ls with
  | [] => []
  | l :: ls =>
    let parts := split_whitespace l in
    if (4 <=? length parts)%nat then parsed_metadata parts 3 :: read_lines k now ls
    else file (now_from k now) l 0 :: read_lines (3 + k) now ls
  end.

(* src: crates/racfs-plugin-proxyfs/src/fs/dir.rs 30-79 ProxyFS::read_dir *)
Definition read_dir now p : Op (list FileMetadata) :=
  response ← request GET "/api/v1/directories" (FileQuery p) None;
  mret (read_lines 0 now (List.filter (fun l => negb (String.eqb l "")) (lines (body response)))).

(* src: crates/racfs-plugin-proxyfs/src/fs/dir.rs 81-98 ProxyFS::remove *)
Definition remove now p : Op () :=
  request DELETE "/api/v1/files" (FileQuery p) None ;; mret ().

(* src: crates/racfs-plugin-proxyfs/src/fs/dir.rs 100-102 ProxyFS::remove_all *)
Definition remove_all now p : Op () := remove now p.

(* src: crates/racfs-plugin-proxyfs/src/fs/dir.rs 104-122 ProxyFS::rename *)
Definition rename now (old_path new_path : Path) : Op () :=
  request POST "/api/v1/rename" [] (json_body {| rq_old_path := old_path; rq_new_path := new_path |}) ;; mret ().

(* src: crates/racfs-plugin-proxyfs/src/fs/chmod.rs 10-28 ProxyFS::chmod *)
Definition chmod now p (md : Z) : Op () :=
  request POST "/api/v1/chmod" [] (json_body {| cq_path := p; cq_mode := md |}) ;; mret ().

Definition proxyfs_filesystem : FileSystem (ProxyFS W) := {|
  fs_read := read; fs_stat := stat; fs_create := create; fs_write := write;
  fs_mkdir := mkdir; fs_read_dir := read_dir; fs_remove := remove;
  fs_remove_all := remove_all; fs_rename := rename; fs_chmod := chmod;
  fs_truncate := default_truncate; fs_touch := default_touch; fs_readlink := default_readlink;
  fs_symlink := default_symlink; fs_get_xattr := default_get_xattr; fs_set_xattr := default_set_xattr;
  fs_remove_xattr := default_remove_xattr; fs_list_xattr := default_list_xattr
|}.
End Ops.

(** ** Another server of this program behind it *)

(** The calls that change something, as the calls of the client that send the
    same request; flags are not sent, and a content arrives as UTF-8. *)
Definition proxied (c : FsCall) : option ClientCall :=
  match c with
  | CCreate p => Some (KCreateFile p)
  | CWrite p data offset _ => Some (KWriteFile p (from_utf8_lossy data) (Some offset))
  | CMkdir p perm => Some (KMkdir p (Some perm))
  | CRemove p | CRemoveAll p => Some (KRemove p)
  | CRename p q => Some (KRename p q)
  | CChmod p md => Some (KChmod p md)
  | _ => None
  end.

Definition proxied_reply (c : FsCall) : FsReply :=
  match c with CWrite _ data _ _ => RCount (len data) | _ => RUnit end.

Section OverServer.
Context `{BuildProfile} {V : Type} `{FileSystem V} `{Encodings} `{JsonTextLaws} `{Axum} `{Prometheus} `{Bcrypt} `{JwtEncode}.
Context (clocks : nat -> Clocks) (hash_str : string -> Z) (lost : SendError).
Implicit Types (now : Now) (s : Server V) (f : ProxyFS (Server V)).

Abbreviation send := (serve clocks hash_str lost).
Abbreviation proxy_call := (run_call (H := proxyfs_filesystem send)).

(** What reaches the server, and what it answers. *)
Lemma request_served k f :
  base_url f = "" -> call_ok k = true -> returned (fst (local_run clocks k (network f))) = true ->
  (forall rep, fst (local_run clocks k (network f)) = Ok rep -> reply_ok rep) ->
  exists response s',
    request send (method (call_request k)) (uri_path (call_request k)) (query (call_request k)) (call_body k) f =
      (Ok response, {| base_url := ""; network := s' |}) /\
    vfs (app s') = vfs (snd (local_run clocks k (network f))) /\
    stat_cache (app s') = stat_cache (snd (local_run clocks k (network f))) /\ served s' = S (served (network f)) /\
    decode_reply to_string lost k response =
      if requests_used clocks hash_str (ClientApi.new "" (network f)) k (network f) <?
         max_requests (config (limiter (network f)))
      then map_err as_api_error (fst (local_run clocks k (network f)))
      else Err (Api "InternalServerError" ("HTTP " +:+ to_string 429 +:+ " error") None).
Proof.
  intros Hb Hok Hret Hrep.
  destruct (serve_call clocks hash_str lost to_string lost (ClientApi.new "" (network f)) k (network f) Hok Hret Hrep)
    as (response & s' & Hs & Hv & Hc & Hn & Hd).
  exists response, s'. split; [|done].
  unfold sent_request in Hs. cbn [ClientApi.auth_token ClientApi.new ClientApi.build_request] in Hs.
  unfold request. rewrite Hb.
  assert (Hr : {| method := method (call_request k); uri_path := "" +:+ uri_path (call_request k);
                  query := query (call_request k); request_body := call_body k; authorization_header := None |}
               = call_request k) by (by destruct k).
  rewrite Hr, Hs. done.
Qed.

Lemma message_reply {A E : Type} (m : outcome E A) (g : A -> string) rep :
  (fun r => RMessage (g r)) <$> m = Ok rep -> reply_ok rep.
Proof. destruct m; try done. by intros [= <-]. Qed.

Lemma proxied_reply_ok c k s rep :
  proxied c = Some k -> fst (local_run clocks k s) = Ok rep -> reply_ok rep.
Proof. destruct c; intros [= <-]; apply message_reply. Qed.

Lemma unit_then {S E A B} (m : M S E A) (b : B) (s : S) : ((m ;; mret ()) ;; mret b) s = (m ;; mret b) s.
Proof. rewrite !run_bind. by destruct (m s) as [[]]. Qed.

Lemma fmap_then {S E A B C} (g : B -> C) (m : M S E A) (b : B) (s : S) : (g <$> (m ;; mret b)) s = (m ;; mret (g b)) s.
Proof. unfold fmap, M_fmap. rewrite !run_bind. by destruct (m s) as [[]]. Qed.

(** A change is one request, whose answer is not looked at. *)
Lemma proxied_run now c k f :
  proxied c = Some k ->
  proxy_call now c f =
    (request send (method (call_request k)) (uri_path (call_request k)) (query (call_request k)) (call_body k) ;;
     mret (proxied_reply c)) f.
Proof.
  intros Hk. destruct c; try discriminate Hk; injection Hk as <-;
    first [apply unit_then | exact (fmap_then RCount _ (len data) f)].
Qed.

(** C8: A change through ProxyFS over another server is carried out there as the
    handler does it, and answers Ok whatever the handler answered: a missing
    file, a refused path and the rate limit are not told. *)
Theorem proxyfs_changes_unchecked now c k f :
  base_url f = "" -> proxied c = Some k -> call_ok k = true ->
  returned (fst (local_run clocks k (network f))) = true ->
  fst (proxy_call now c f) = Ok (proxied_reply c) /\
  (let f' := snd (proxy_call now c f) in
   base_url f' = "" /\ vfs (app (network f')) = vfs (snd (local_run clocks k (network f))) /\
   stat_cache (app (network f')) = stat_cache (snd (local_run clocks k (network f))) /\
   served (network f') = S (served (network f))).
Proof.
  intros Hb Hk Hok Hret.
  destruct (request_served k f Hb Hok Hret (fun rep => proxied_reply_ok c k (network f) rep Hk))
    as (response & s' & Hr & Hv & Hc & Hn & _). rewrite (proxied_run now c k f Hk), (bind_ok _ _ _ _ _ Hr). by split.
Qed.

(** The requests of the proxy that the limiter has let through. *)
Definition proxy_used k f : Z := requests_used clocks hash_str (ClientApi.new "" (network f)) k (network f).

(** Reading through ProxyFS over another server never fails: a range of some
    text is answered, for a missing file that of the error.  When the file is
    read and the limit is not met, the text is the content in its JSON form,
    with quotes, and not the content. *)
Theorem proxyfs_read_text now p offset size f :
  base_url f = "" -> returned (fst (local_run clocks (KReadFile p) (network f))) = true ->
  exists text,
    fst (proxy_call now (CRead p offset size) f) = RBytes <$> read_range (as_bytes text) offset size /\
    (forall t, fst (local_run clocks (KReadFile p) (network f)) = Ok (RText t) ->
      proxy_used (KReadFile p) f < max_requests (config (limiter (network f))) ->
      text = t /\ exists content, t = json_to_string (JStr content) /\
        (String.length content + 2 <= String.length t)%nat).
Proof.
  intros Hb Hret.
  assert (Htext : forall rep, fst (local_run clocks (KReadFile p) (network f)) = Ok rep ->
    exists content, rep = RText (json_to_string (JStr content))).
  { unfold local_run. cbn [local_call]. unfold fmap at 1, M_fmap. cbn [fst].
    destruct (fst (ServerApi.read_file _ p _)) as [content| | |]; try done. intros rep [= <-]. by exists content. }
  destruct (request_served (KReadFile p) f Hb eq_refl Hret) as (response & s' & Hr & _ & _ & _ & Hd).
  { intros rep Hrep. by destruct (Htext rep Hrep) as [content ->]. }
  exists (body response). split.
  - cbn [run_call fs_read proxyfs_filesystem]. unfold fmap at 1, M_fmap. cbn [fst].
    unfold read. change (request send GET "/api/v1/files" (FileQuery p) None f) with
      (request send (method (call_request (KReadFile p))) (uri_path (call_request (KReadFile p)))
        (query (call_request (KReadFile p))) (call_body (KReadFile p)) f) in *.
    rewrite (bind_ok _ _ f _ response Hr). reflexivity.
  - intros t Ht Hlim. unfold proxy_used in Hlim.
    replace (_ <? _) with true in Hd by (symmetry; apply Z.ltb_lt; exact Hlim). rewrite Ht in Hd.
    cbn [decode_reply map_err] in Hd. unfold ClientApi.handle_text_response in Hd.
    destruct (is_success (status response)); [|discriminate]. injection Hd as Hbody. split; [done|].
    destruct (Htext (RText t) Ht) as (content & [= Hc]). exists content. split; [done|].
    rewrite Hc. apply json_string_longer.
Qed.
End OverServer.

(** ** On a small instance *)

Section Witnesses.
#[local] Existing Instances debug_profile plain_encodings binary_json binary_json_laws plain_axum small_prometheus plain_bcrypt plain_jwt.

Abbreviation proxy_demo := (run_call (H := proxyfs_filesystem (serve still_clocks str_len no_error)) still).

(** Removing what is not there is answered with Ok. *)
Lemma proxyfs_changes_unchecked_witness :
  fst (local_run still_clocks (KRemove "/nowhere") (demo_server 100)) <> Ok (RMessage "Deleted: /nowhere") /\
  fst (proxy_demo (CRemove "/nowhere") (new "" (demo_server 100))) = Ok RUnit.
Proof.
  split; [vm_compute; intros [=]|].
  destruct (proxyfs_changes_unchecked still_clocks str_len no_error still (CRemove "/nowhere") (KRemove "/nowhere")
    (new "" (demo_server 100))) as [Hr _].
  - reflexivity.
  - reflexivity.
  - reflexivity.
  - vm_compute. reflexivity.
  - exact Hr.
Defined.

Lemma proxyfs_read_text_witness :
  fst (proxy_demo (CRead "/d/f" 0 3) (new "" (demo_server 100))) = Ok (RBytes (as_bytes (dquote +:+ "ab"))).
Proof.
  destruct (proxyfs_read_text still_clocks str_len no_error still "/d/f" 0 3 (new "" (demo_server 100)))
    as (text & Hr & Ht).
  - reflexivity.
  - vm_compute. reflexivity.
  - destruct (Ht (quoted "abc")) as [-> _].
    + vm_compute. reflexivity.
    + vm_compute. reflexivity.
    + rewrite Hr. vm_compute. reflexivity.
Defined.

(** What [serde_json] writes for the answer of [/api/v1/stat], whose one blank is
    in the time: two words, where [stat] wants five. *)
Definition quote_marks (s : string) : string :=
  from_bytes (map (fun b => if Byte.eqb b Byte.x27 then Byte.x22 else b) (as_bytes s)).

Definition stat_text : string := quote_marks
  "{'file_type':'file','permissions':'rw-r--r--','size':3,'modified':'2024-01-01 00:00','path':'/d/f','symlink_target':null}".

Definition answering (text : string) (r : HttpRequest) (w : ()) : (Response + SendError) * () := (inl (respond 200 text), w).

Lemma proxyfs_stat_fails :
  fst (stat (answering stat_text) still "/d/f" (new "" ())) = Err (Io "Invalid stat response").
Proof. vm_compute. reflexivity. Qed.

(** A listing is one line, which becomes one entry, whatever is in it. *)
Definition list_text : string := quote_marks
  "{'entries':[{'permissions':'rw-r--r--','size':3,'modified':null,'path':'/d/f','file_type':'file'},{'permissions':'rw-r--r--','size':0,'modified':null,'path':'/d/g','file_type':'file'}]}".

Lemma proxyfs_listing_is_one_entry :
  fst (read_dir (answering list_text) still "/d" (new "" ())) = Ok [file still list_text 0].
Proof. vm_compute. reflexivity. Qed.
End Witnesses.
