(* ===== verification/FuseFs.v ===== *)
(** * FuseFs: the FUSE filesystem on top of the HTTP client
    ([crates/racfs-fuse/src/async_fs.rs])

    The client's methods are an interface, the class [RacfsClient] over the
    state [C] of the client and of the server behind it; base64 is a crate's.
    The names that the kernel passes are raw bytes, which the code reads
    lossily; log lines are left out. *)

From S2P Require Import Prelude Text RPath Metadata ClientCircuit FuseInodes FuseCache.
From Stdlib Require Strings.String.

(** The methods of [racfs_client::Client] that the filesystem calls. *)
Class RacfsClient (C : Type) := {
  cl_stat : string -> M C Error FileMetadataResponse;
  cl_read_file : string -> M C Error string;
  cl_read_dir : string -> M C Error DirectoryListResponse;
  cl_create_file : string -> M C Error ();
  cl_mkdir : string -> option Z -> M C Error ();
  cl_write_file : string -> string -> option Z -> M C Error ();
  cl_remove : string -> M C Error ();
  cl_rename : string -> string -> M C Error ();
  cl_chmod : string -> Z -> M C Error ();
  cl_truncate : string -> Z -> M C Error ();
  cl_symlink : string -> string -> M C Error ();
  cl_get_xattr : string -> string -> M C Error string;
  cl_set_xattr : string -> string -> string -> M C Error ();
  cl_list_xattr : string -> M C Error (list string);
  cl_remove_xattr : string -> string -> M C Error ()
}.

(** [fuser::Errno], as far as it is used. *)
Inductive Errno := ENOENT | EIO | EINVAL | ENOATTR.

Inductive FileType := Directory | Symlink | RegularFile.

#[global] Instance FileType_eq_dec : EqDecision FileType.
Proof. solve_decision. Defined.

(** [fuser::FileAttr]; times are in seconds since the epoch. *)
Record FileAttr := {
  ino : Z;
  attr_size : Z;
  blocks : Z;
  atime : Z;
  mtime : Z;
  ctime : Z;
  crtime : Z;
  kind : FileType;
  perm : Z;
  nlink : Z;
  uid : Z;
  gid : Z;
  rdev : Z;
  blksize : Z;
  attr_flags : Z
}.

(* src: crates/racfs-fuse/src/async_fs.rs 18-18 TTL *)
Definition TTL : Z := 10 ^ 9.

(** ** Attributes *)

Definition char_is (c : Z) (i : option utf8_item) : bool :=
  match i with Some (Char cp _) => cp =? c | _ => false end.

(* src: crates/racfs-fuse/src/async_fs.rs 89-127 RacfsAsyncFs::parse_permissions *)
Definition parse_permissions (perms : string) : Z :=
  let chars := utf8_items (as_bytes perms) in
  if 9 <=? len chars then
    let bit (i : nat) (c : Z) (m : Z) (mode : Z) := if char_is c (chars !! i) then Z.lor mode m else mode in
    let r := 114 in let w := 119 in let x := 120 in
    bit 8%nat x (octal 1) (bit 7%nat w (octal 2) (bit 6%nat r (octal 4)
      (bit 5%nat x (octal 10) (bit 4%nat w (octal 20) (bit 3%nat r (octal 40)
        (bit 2%nat x (octal 100) (bit 1%nat w (octal 200) (bit 0%nat r (octal 400) 0))))))))
  else 0.

(** Every timestamp is read as the epoch. *)
(* src: crates/racfs-fuse/src/async_fs.rs 130-133 RacfsAsyncFs::parse_timestamp *)
Definition parse_timestamp (_ : string) : Z := 0.

(* src: crates/racfs-fuse/src/async_fs.rs 136-175 RacfsAsyncFs::metadata_to_attr *)
Definition metadata_to_attr (inode : Z) (m : FileMetadataResponse) : FileAttr :=
  let k := if String.eqb (file_type m) "directory" then Directory
           else if String.eqb (file_type m) "symlink" then Symlink else RegularFile in
  let t := default 0 (parse_timestamp <$> modified m) in
  {| ino := inode; attr_size := size m; blocks := (size m + 511) / 512;
     atime := t; mtime := t; ctime := t; crtime := t; kind := k;
     perm := parse_permissions (permissions m);
     nlink := if decide (k = Directory) then 2 else 1; uid := 1000; gid := 1000; rdev := 0;
     blksize := 4096; attr_flags := 0 |}.

(* src: crates/racfs-fuse/src/async_fs.rs 55-62 RacfsAsyncFs *)
Record RacfsAsyncFs (C : Type) := { client : C; inodes : InodeManager; cache : FuseCache }.
Arguments client {C}.
Arguments inodes {C}.
Arguments cache {C}.

(* src: crates/racfs-fuse/src/async_fs.rs 75-81 RacfsAsyncFs::with_cache *)
Definition with_cache {C} (c : C) (k : FuseCache) : RacfsAsyncFs C :=
  {| client := c; inodes := FuseInodes.new; cache := k |}.

(* src: crates/racfs-fuse/src/async_fs.rs 66-72 RacfsAsyncFs::new *)
Definition new {C} (c : C) : RacfsAsyncFs C := with_cache c with_default_ttl.

Section Fs.
Context `{BuildProfile} {C : Type} `{RacfsClient C}.
Context (b64_encode : bytes -> string) (b64_decode : string -> option bytes).
Implicit Types (now : Now) (p : Path).
Abbreviation Op := (M (RacfsAsyncFs C) Errno).

(** ** Access to the three parts *)

Definition on_cache {A} (m : M FuseCache Errno A) : Op A := fun s =>
  (fst (m (cache s)), {| client := client s; inodes := inodes s; cache := snd (m (cache s)) |}).

Definition on_inodes {A} (f : InodeManager -> A * InodeManager) : Op A := fun s =>
  (Ok (fst (f (inodes s))), {| client := client s; inodes := snd (f (inodes s)); cache := cache s |}).

(** A call of the client, and [match] on its result. *)
Definition call {A} (m : M C Error A) : Op (A + Error) := fun s =>
  (match fst (m (client s)) with
   | Ok a => Ok (inl a)
   | Err e => Ok (inr e)
   | Panic => Panic
   | Diverge => Diverge
   end,
   {| client := snd (m (client s)); inodes := inodes s; cache := cache s |}).

(** [.await.map_err(|_| errno)?] *)
Definition call_or {A} (errno : Errno) (m : M C Error A) : Op A :=
  r ← call m; match r with inl a => mret a | inr _ => fail errno end.

(** [self.inodes.get_path(ino).ok_or(Errno::ENOENT)?] *)
Definition path_of (i : Z) : Op Path :=
  s ← get; lift (ok_or (get_path i (inodes s)) ENOENT).

Definition lossy (name : string) : string := from_utf8_lossy (as_bytes name).

(** The path of a directory entry. *)
Definition child_path (parent : Z) (name : string) : Op Path :=
  d ← path_of parent; mret (join d (lossy name)).

Definition unreachable_error (e : Error) : bool :=
  match e with CircuitOpen | Http _ => true | _ => false end.

(** ** Sending the buffered writes *)

(** The loop over the merged runs. *)
(* src: crates/racfs-fuse/src/async_fs.rs 186-195 RacfsAsyncFs::flush_write_back *)
Fixpoint send_runs (path : string) (runs : list Segment) : Op () :=
  match runs with
  | [] => mret ()
  | (offset, data) :: rest =>
    call_or EIO (cl_write_file path (from_utf8_lossy data) (Some (i64_wrap offset))) ;;
    send_runs path rest
  end.

(* src: crates/racfs-fuse/src/async_fs.rs 179-198 RacfsAsyncFs::flush_write_back *)
Definition flush_write_back p : Op () :=
  segs ← on_cache (take_pending_writes p);
  match segs with
  | [] => mret ()
  | _ =>
    merged ← lift (merge_write_segments segs);
    send_runs p merged ;;
    on_cache (invalidate p)
  end.

(** [let _ = ...]: an error is dropped, a panic is not. *)
Definition ignore_error (m : Op ()) : Op () := fun s =>
  match m s with (Err _, s') => (Ok (), s') | r => r end.

(* src: crates/racfs-fuse/src/async_fs.rs 202-207 RacfsAsyncFs::release_async *)
Definition release_async (i : Z) : Op () :=
  s ← get;
  match get_path i (inodes s) with
  | Some p => ignore_error (flush_write_back p)
  | None => mret ()
  end.

(** ** The operations *)

(* src: crates/racfs-fuse/src/async_fs.rs 311-353 RacfsAsyncFs::lookup_async *)
Definition lookup_async now (parent : Z) (name : string) : Op (Z * FileAttr * Z) :=
  p ← child_path parent name;
  cached ← on_cache (get_stat now p);
  let answer m := inode ← on_inodes (allocate p); mret (TTL, metadata_to_attr inode m, 0) in
  match cached with
  | Some m => answer m
  | None =>
    r ← call (cl_stat p);
    match r with
    | inl m => on_cache (put_stat (now_from 1 now) p m) ;; answer m
    | inr e =>
      if unreachable_error e then
        stale ← on_cache (get_stat_stale p);
        match stale with Some m => answer m | None => fail ENOENT end
      else fail ENOENT
    end
  end.

(* src: crates/racfs-fuse/src/async_fs.rs 356-387 RacfsAsyncFs::getattr_async *)
Definition getattr_async now (i : Z) : Op (Z * FileAttr) :=
  p ← path_of i;
  cached ← on_cache (get_stat now p);
  match cached with
  | Some m => mret (TTL, metadata_to_attr i m)
  | None =>
    r ← call (cl_stat p);
    match r with
    | inl m => on_cache (put_stat (now_from 1 now) p m) ;; mret (TTL, metadata_to_attr i m)
    | inr e =>
      if unreachable_error e then
        stale ← on_cache (get_stat_stale p);
        match stale with Some m => mret (TTL, metadata_to_attr i m) | None => fail ENOENT end
      else fail ENOENT
    end
  end.

(** The part of the content that a read asks for. *)
(* src: crates/racfs-fuse/src/async_fs.rs 411-418 RacfsAsyncFs::read_async *)
Definition content_range (offset size : Z) (content : bytes) : outcome Errno bytes :=
  e ← usize_add offset size;
  let e := Z.min e (len content) in
  if offset <? len content then slice offset e content else Ok [].

(* src: crates/racfs-fuse/src/async_fs.rs 390-425 RacfsAsyncFs::read_async *)
Definition read_async (i offset size : Z) : Op bytes :=
  p ← path_of i;
  cached ← on_cache (get_file_content p);
  match cached with
  | Some content => lift (content_range offset size content)
  | None =>
    text ← call_or EIO (cl_read_file p);
    let content := as_bytes text in
    on_cache (put_file_content p content) ;;
    lift (content_range offset size content)
  end.

Definition entry_kind (e : DirectoryEntry) : FileType :=
  match d_file_type e with
  | Some t => if String.eqb t "directory" then Directory
              else if String.eqb t "symlink" then Symlink
              else if ends_with (d_path e) "/" then Directory else RegularFile
  | None => if ends_with (d_path e) "/" then Directory else RegularFile
  end.

(** The loop over the listing. *)
(* src: crates/racfs-fuse/src/async_fs.rs 474-496 RacfsAsyncFs::readdir_async *)
Fixpoint list_entries (es : list DirectoryEntry) : Op (list (Z * FileType * string)) :=
  match es with
  | [] => mret []
  | e :: rest =>
    inode ← on_inodes (allocate (d_path e));
    l ← list_entries rest;
    mret ((inode, entry_kind e, default "" (file_name (d_path e))) :: l)
  end.

(* src: crates/racfs-fuse/src/async_fs.rs 428-500 RacfsAsyncFs::readdir_async *)
Definition readdir_async now (i offset : Z) : Op (list (Z * FileType * string)) :=
  p ← path_of i;
  cached ← on_cache (get_readdir now p);
  dir_list ← match cached with
             | Some l => mret l
             | None =>
               r ← call (cl_read_dir p);
               match r with
               | inl l => on_cache (put_readdir (now_from 1 now) p l) ;; mret l
               | inr e =>
                 if unreachable_error e then
                   stale ← on_cache (get_readdir_stale p);
                   match stale with Some l => mret l | None => fail EIO end
                 else fail EIO
               end
             end;
  l ← list_entries (entries dir_list);
  mret (zdrop offset ((i, Directory, "."%string) :: (i, Directory, ".."%string) :: l)).

(** What [create], [mkdir] and [symlink] end with. *)
Definition entry_made p : Op (Z * FileAttr * Z) :=
  on_cache (invalidate p) ;;
  m ← call_or EIO (cl_stat p);
  inode ← on_inodes (allocate p);
  mret (TTL, metadata_to_attr inode m, 0).

(* src: crates/racfs-fuse/src/async_fs.rs 503-532 RacfsAsyncFs::create_async *)
Definition create_async (parent : Z) (name : string) (_mode _umask : Z) : Op (Z * FileAttr * Z) :=
  p ← child_path parent name; call_or EIO (cl_create_file p) ;; entry_made p.

(* src: crates/racfs-fuse/src/async_fs.rs 535-567 RacfsAsyncFs::mkdir_async *)
Definition mkdir_async (parent : Z) (name : string) (mode _umask : Z) : Op (Z * FileAttr * Z) :=
  p ← child_path parent name; call_or EIO (cl_mkdir p (Some mode)) ;; entry_made p.

(* src: crates/racfs-fuse/src/async_fs.rs 730-763 RacfsAsyncFs::symlink_async *)
Definition symlink_async (parent : Z) (name : string) (target : bytes) : Op (Z * FileAttr * Z) :=
  p ← child_path parent name; call_or EIO (cl_symlink (from_utf8_lossy target) p) ;; entry_made p.

(* src: crates/racfs-fuse/src/async_fs.rs 570-601 RacfsAsyncFs::write_async *)
Definition write_async (i offset : Z) (data : bytes) : Op Z :=
  p ← path_of i;
  let n := u32_wrap (len data) in
  if len data <=? DEFAULT_WRITE_BACK_MAX_CHUNK then
    total ← on_cache (push_write_back p offset data);
    (if DEFAULT_WRITE_BACK_FLUSH_SIZE <=? total then flush_write_back p else mret ()) ;;
    mret n
  else
    flush_write_back p ;;
    call_or EIO (cl_write_file p (from_utf8_lossy data) (Some (i64_wrap offset))) ;;
    on_cache (invalidate p) ;;
    mret n.

(** [if let Some(ino) = self.inodes.get_inode(&path) { self.inodes.remove(ino) }] *)
Definition forget_path p : Op () :=
  on_inodes (fun m => ((), match get_inode p m with Some i => FuseInodes.remove i m | None => m end)).

(* src: crates/racfs-fuse/src/async_fs.rs 604-619 RacfsAsyncFs::unlink_async *)
Definition unlink_async (parent : Z) (name : string) : Op () :=
  p ← child_path parent name;
  forget_path p ;;
  on_cache (invalidate p) ;;
  call_or EIO (cl_remove p).

(* src: crates/racfs-fuse/src/async_fs.rs 622-637 RacfsAsyncFs::rmdir_async *)
Definition rmdir_async (parent : Z) (name : string) : Op () :=
  p ← child_path parent name;
  forget_path p ;;
  on_cache (invalidate p) ;;
  call_or EIO (cl_remove p).

(* src: crates/racfs-fuse/src/async_fs.rs 640-671 RacfsAsyncFs::rename_async *)
Definition rename_async (parent : Z) (name : string) (newparent : Z) (newname : string) : Op () :=
  d ← path_of parent;
  d' ← path_of newparent;
  let old_path := join d (lossy name) in
  let new_path := join d' (lossy newname) in
  call_or EIO (cl_rename old_path new_path) ;;
  on_cache (invalidate_rename old_path new_path) ;;
  forget_path old_path ;;
  on_inodes (allocate new_path) ;;
  mret ().

(* src: crates/racfs-fuse/src/async_fs.rs 674-689 RacfsAsyncFs::chmod_async *)
Definition chmod_async (i mode : Z) : Op (Z * FileAttr) :=
  p ← path_of i;
  call_or EIO (cl_chmod p mode) ;;
  m ← call_or EIO (cl_stat p);
  mret (TTL, metadata_to_attr i m).

(* src: crates/racfs-fuse/src/async_fs.rs 692-713 RacfsAsyncFs::truncate_async *)
Definition truncate_async (i n : Z) : Op (Z * FileAttr) :=
  p ← path_of i;
  call_or EIO (cl_truncate p n) ;;
  on_cache (invalidate p) ;;
  m ← call_or EIO (cl_stat p);
  mret (TTL, metadata_to_attr i m).

(* src: crates/racfs-fuse/src/async_fs.rs 716-727 RacfsAsyncFs::readlink_async *)
Definition readlink_async (i : Z) : Op bytes :=
  p ← path_of i;
  m ← call_or EIO (cl_stat p);
  t ← lift (ok_or (symlink_target m) EINVAL);
  mret (as_bytes t).

(* src: crates/racfs-fuse/src/async_fs.rs 766-782 RacfsAsyncFs::getxattr_async *)
Definition getxattr_async (i : Z) (name : string) (_size : Z) : Op bytes :=
  p ← path_of i;
  v ← call_or ENOATTR (cl_get_xattr p (lossy name));
  lift (ok_or (b64_decode v) EIO).

(* src: crates/racfs-fuse/src/async_fs.rs 785-807 RacfsAsyncFs::setxattr_async *)
Definition setxattr_async (i : Z) (name : string) (value : bytes) (_flags _position : Z) : Op () :=
  p ← path_of i;
  call_or EIO (cl_set_xattr p (lossy name) (b64_encode value)) ;;
  on_cache (invalidate p).

(** The names, each with a zero byte behind it. *)
(* src: crates/racfs-fuse/src/async_fs.rs 810-825 RacfsAsyncFs::listxattr_async *)
Definition listxattr_async (i _size : Z) : Op bytes :=
  p ← path_of i;
  names ← call_or EIO (cl_list_xattr p);
  mret (concat (map (fun n => as_bytes n ++ [Byte.x00]) names)).

(* src: crates/racfs-fuse/src/async_fs.rs 828-845 RacfsAsyncFs::removexattr_async *)
Definition removexattr_async (i : Z) (name : string) : Op () :=
  p ← path_of i;
  call_or ENOATTR (cl_remove_xattr p (lossy name)) ;;
  on_cache (invalidate p).
End Fs.

(** ** Buffered writes *)

Section WriteBack.
Context `{BuildProfile} {C : Type} `{RacfsClient C}.
Implicit Types (p : Path) (s : RacfsAsyncFs C).

(** The writes of a path that have not been sent. *)
Definition pending p s : list Segment := from_option segments [] (pm_get p (write_back (cache s))).

Lemma on_cache_run {A} (m : M FuseCache Errno A) s :
  on_cache m s = (fst (m (cache s)), {| client := client s; inodes := inodes s; cache := snd (m (cache s)) |}).
Proof. done. Qed.

Lemma invalidate_run p (k : FuseCache) :
  exists k', invalidate (E := Errno) p k = (Ok (), k') /\ write_back k' = pm_remove p (write_back k).
Proof. unfold invalidate. munfold. destruct (parent p); eexists; (split; [reflexivity|done]). Qed.

Lemma take_pending_run p (k : FuseCache) :
  exists k', take_pending_writes (E := Errno) p k
             = (Ok (from_option segments [] (pm_get p (write_back k))), k') /\
             pm_get p (write_back k') = None /\
             (forall q, components p <> components q -> pm_get q (write_back k') = pm_get q (write_back k)).
Proof.
  unfold take_pending_writes. munfold. destruct (pm_get p (write_back k)) as [e|] eqn:E; simpl.
  - eexists. split; [reflexivity|]. simpl. split; [apply pm_get_remove|].
    intros q Hq. by apply pm_get_remove_ne.
  - eexists. split; [reflexivity|]. done.
Qed.

Lemma path_of_run i p s : get_path i (inodes s) = Some p -> path_of i s = (Ok p, s).
Proof. intros Hp. unfold path_of. munfold. by rewrite Hp. Qed.

(** The writes the client makes for the runs, until one fails. *)
Fixpoint send_all p (runs : list Segment) : M C Error () :=
  match runs with
  | [] => mret ()
  | (o, d) :: rest => cl_write_file p (from_utf8_lossy d) (Some (i64_wrap o)) ;; send_all p rest
  end.

Definition as_eio {A} (o : outcome Error A) : outcome Errno A := map_err (fun _ => EIO) o.

Lemma send_runs_run p runs s :
  send_runs p runs s =
    (as_eio (fst (send_all p runs (client s))),
     {| client := snd (send_all p runs (client s)); inodes := inodes s; cache := cache s |}).
Proof.
  revert s. induction runs as [|[o d] runs IH]; intros s; simpl; [by destruct s|].
  unfold call_or, call. rewrite !run_bind.
  destruct (cl_write_file p (from_utf8_lossy d) (Some (i64_wrap o)) (client s)) as [[[]|e| |] c]; try done.
  simpl. rewrite IH. done.
Qed.

(** A flush takes all buffered writes of the path out of the buffer, merges
    them and sends the runs in the order of the file.  When one cannot be sent,
    the flush fails and the rest is gone; on [release] even the error is. *)
Theorem fuse_flush_spec i p s :
  get_path i (inodes s) = Some p -> pending p s <> [] -> Forall seg_fits (pending p s) ->
  exists runs, merge_write_segments (E := Errno) (pending p s) = Ok runs /\
    let sent := send_all p runs (client s) in
    fst (flush_write_back p s) = as_eio (fst sent) /\
    client (snd (flush_write_back p s)) = snd sent /\ pending p (snd (flush_write_back p s)) = [] /\
    fst (release_async i s) = match fst sent with Ok _ | Err _ => Ok () | Panic => Panic | Diverge => Diverge end /\
    client (snd (release_async i s)) = snd sent /\ pending p (snd (release_async i s)) = [].
Proof.
  intros Hi Hne Hf. destruct (merge_sorted (E := Errno) _ Hf) as (runs & Hm & _ & _ & _).
  exists runs. split; [done|]. cbv zeta.
  enough (Hflush : fst (flush_write_back p s) = as_eio (fst (send_all p runs (client s))) /\
    client (snd (flush_write_back p s)) = snd (send_all p runs (client s)) /\
    pending p (snd (flush_write_back p s)) = []).
  { split; [apply Hflush|]. split; [apply Hflush|]. split; [apply Hflush|].
    unfold release_async. rewrite run_bind. unfold get. rewrite Hi. unfold ignore_error.
    destruct Hflush as (H1 & H2 & H3). destruct (flush_write_back p s) as [[[]|e| |] s']; simpl in *;
      destruct (fst (send_all p runs (client s))) as [[]|e'| |]; simpl in H1; simplify_eq; done. }
  unfold flush_write_back. rewrite run_bind, on_cache_run.
  destruct (take_pending_run p (cache s)) as (k & -> & Hk & _). cbn [fst snd].
  fold (pending p s). destruct (pending p s) as [|g segs] eqn:Ep; [done|].
  rewrite run_bind. unfold lift. rewrite Hm. rewrite run_bind, send_runs_run. cbn [client inodes cache].
  destruct (send_all p runs (client s)) as [[[]|e| |] c']; cbn [fst snd as_eio map_err].
  - rewrite on_cache_run. cbn [cache client inodes]. destruct (invalidate_run p k) as (k' & -> & Hk').
    cbn [fst snd cache client].
    split; [done|]. split; [done|]. unfold pending. cbn [cache]. rewrite Hk'. by rewrite pm_get_remove.
  - split; [done|]. split; [done|]. unfold pending. cbn [cache]. by rewrite Hk.
  - split; [done|]. split; [done|]. unfold pending. cbn [cache]. by rewrite Hk.
  - split; [done|]. split; [done|]. unfold pending. cbn [cache]. by rewrite Hk.
Qed.

(** ** The writes of a file reach the server *)














(** ** Where the buffer shows *)

Lemma read_async_congr i o n s s' :
  inodes s' = inodes s -> client s' = client s ->
  file_content_cache (cache s') = file_content_cache (cache s) ->
  fst (read_async i o n s') = fst (read_async i o n s).
Proof.
  intros Hi Hc Hf. unfold read_async, path_of. rewrite !run_bind. unfold get, lift.
  rewrite Hi. destruct (get_path i (inodes s)) as [p|]; cbn [ok_or]; [|done].
  rewrite !run_bind, !on_cache_run. unfold get_file_content, gets. cbn [fst snd].
  rewrite Hf. destruct (pm_get p (file_content_cache (cache s))); [done|].
  unfold call_or, call. rewrite !run_bind. cbn [client]. rewrite Hc.
  by destruct (cl_read_file p (client s)) as [[t|e| |] c].
Qed.

(** A write that goes into the buffer is answered as done and seen by no
    read: reads answer from the cached content, or from the server's, as they
    would have before it. *)
Theorem fuse_read_misses_buffered_write i p off (data : bytes) s o n :
  get_path i (inodes s) = Some p -> len data <= DEFAULT_WRITE_BACK_MAX_CHUNK ->
  default 0 (total_bytes <$> pm_get p (write_back (cache s))) + len data < DEFAULT_WRITE_BACK_FLUSH_SIZE ->
  fst (write_async i off data s) = Ok (len data) /\
  pending p (snd (write_async i off data s)) = pending p s ++ [(off, data)] /\
  client (snd (write_async i off data s)) = client s /\
  fst (read_async i o n (snd (write_async i off data s))) = fst (read_async i o n s).
Proof.
  intros Hi Hlen Htot. pose proof (len_nonneg data) as Hpos.
  assert (Hw : write_async i off data s =
    (Ok (len data), {| client := client s; inodes := inodes s;
       cache := snd (push_write_back (E := Errno) p off data (cache s)) |})).
  { unfold write_async. rewrite run_bind, (path_of_run i p s Hi). cbv zeta.
    destruct (Z.leb_spec (len data) DEFAULT_WRITE_BACK_MAX_CHUNK); [|lia].
    assert (Hn : u32_wrap (len data) = len data).
    { unfold u32_wrap. apply Z.mod_small. unfold DEFAULT_WRITE_BACK_MAX_CHUNK in *. lia. }
    rewrite Hn, run_bind, on_cache_run. unfold push_write_back. rewrite run_bind. unfold get.
    set (e0 := default _ (pm_get p (write_back (cache s)))). cbn [push]. rewrite run_bind. unfold put.
    unfold mret at 1, M_ret at 1. cbn [fst]. rewrite run_bind.
    assert (He : total_bytes e0 = default 0 (total_bytes <$> pm_get p (write_back (cache s))))
      by (unfold e0; by destruct (pm_get p (write_back (cache s)))).
    destruct (Z.leb_spec DEFAULT_WRITE_BACK_FLUSH_SIZE (total_bytes e0 + len data)); [lia|done]. }
  rewrite Hw. cbn [fst snd]. split; [done|]. split; [|split; [done|]].
  - unfold pending, push_write_back. munfold. rewrite pm_get_insert. simpl.
    by destruct (pm_get p (write_back (cache s))).
  - by apply read_async_congr.
Qed.

(** Setting an attribute of a file throws its buffered writes away: the
    server sees the attribute only, then and at the release of the file. *)
Theorem fuse_setxattr_drops_writes (b64 : bytes -> string) i p name value fl pos s :
  get_path i (inodes s) = Some p ->
  fst (cl_set_xattr p (lossy name) (b64 value) (client s)) = Ok () ->
  let s1 := snd (setxattr_async b64 i name value fl pos s) in
  fst (setxattr_async b64 i name value fl pos s) = Ok () /\
  client s1 = snd (cl_set_xattr p (lossy name) (b64 value) (client s)) /\
  fst (release_async i s1) = Ok () /\ client (snd (release_async i s1)) = client s1.
Proof.
  intros Hi Hset.
  assert (Hrun : exists k', setxattr_async b64 i name value fl pos s =
    (Ok (), {| client := snd (cl_set_xattr p (lossy name) (b64 value) (client s)); inodes := inodes s; cache := k' |}) /\
    write_back k' = pm_remove p (write_back (cache s))).
  { unfold setxattr_async. rewrite run_bind, (path_of_run i p s Hi), run_bind. unfold call_or, call.
    rewrite run_bind. rewrite Hset. unfold mret at 1, M_ret at 1. rewrite on_cache_run. cbn [cache client inodes].
    destruct (invalidate_run p (cache s)) as (k' & -> & Hk'). by exists k'. }
  destruct Hrun as (k' & -> & Hk'). cbn [fst snd client]. split; [done|]. split; [done|].
  unfold release_async. rewrite run_bind. unfold get. cbn [inodes]. rewrite Hi. unfold ignore_error.
  unfold flush_write_back. rewrite run_bind, on_cache_run. cbn [cache client inodes].
  destruct (take_pending_run p k') as (k'' & -> & _ & _). cbn [fst snd].
  rewrite Hk', pm_get_remove. done.
Qed.
End WriteBack.

(** ** Witnesses *)

(** A server that accepts what it is sent and writes it down. *)
Record Request := { rq_path : string; rq_text : string; rq_offset : option Z }.

#[local] Instance log_client : RacfsClient (list Request) := {
  cl_stat p := fail (Api "NotFound" p None);
  cl_read_file p := mret "old"%string;
  cl_read_dir p := mret {| entries := [] |};
  cl_create_file p := mret ();
  cl_mkdir p m := mret ();
  cl_write_file p text off := modify (fun log => log ++ [{| rq_path := p; rq_text := text; rq_offset := off |}]);
  cl_remove p := mret ();
  cl_rename p q := mret ();
  cl_chmod p m := mret ();
  cl_truncate p n := mret ();
  cl_symlink t p := mret ();
  cl_get_xattr p x := mret ""%string;
  cl_set_xattr p x v := mret ();
  cl_list_xattr p := mret [];
  cl_remove_xattr p x := mret ()
}.

(** The file [/f] under the inode 2. *)
Definition open_f : RacfsAsyncFs (list Request) :=
  {| client := []; inodes := snd (allocate "/f" FuseInodes.new); cache := FuseCache.new 0 |}.

Definition hi : bytes := [Byte.x68; Byte.x69].

#[local] Instance witness_profile : BuildProfile := release_profile.


Lemma fuse_flush_spec_witness :
  let s1 := snd (write_async 2 0 hi open_f) in
  pending "/f" s1 = [(0, hi)] /\ pending "/f" (snd (release_async 2 s1)) = [].
Proof.
  cbv zeta. split; [vm_compute; reflexivity|].
  destruct (fuse_flush_spec 2 "/f" (snd (write_async 2 0 hi open_f))) as (runs & _ & _ & _ & _ & _ & _ & H).
  - vm_compute. reflexivity.
  - vm_compute. discriminate.
  - change (Forall seg_fits [(0, hi)]). apply Forall_singleton. split; vm_compute; discriminate.
  - exact H.
Defined.

Lemma fuse_read_misses_buffered_write_witness :
  fst (read_async 2 0 10 (snd (write_async 2 0 hi open_f))) = fst (read_async 2 0 10 open_f) /\
  fst (read_async 2 0 10 open_f) = Ok (as_bytes "old").
Proof.
  split; [|vm_compute; reflexivity].
  refine (proj2 (proj2 (proj2 (fuse_read_misses_buffered_write 2 "/f" 0 hi open_f 0 10 _ _ _)))).
  - reflexivity.
  - vm_compute. discriminate.
  - vm_compute. reflexivity.
Defined.

Lemma fuse_setxattr_drops_writes_witness :
  let s0 := snd (write_async 2 0 hi open_f) in
  let s1 := snd (setxattr_async (fun _ => "") 2 "user.a" hi 0 0 s0) in
  pending "/f" s0 = [(0, hi)] /\ fst (release_async 2 s1) = Ok () /\
  client (snd (release_async 2 s1)) = [].
Proof.
  cbv zeta. split; [vm_compute; reflexivity|].
  destruct (fuse_setxattr_drops_writes (fun _ => ""%string) 2 "/f" "user.a" hi 0 0
              (snd (write_async 2 0 hi open_f))) as (_ & H1 & H2 & H3).
  - vm_compute. reflexivity.
  - vm_compute. reflexivity.
  - split; [exact H2|]. rewrite H3, H1. vm_compute. reflexivity.
Defined.
