(* ===== verification/BlockingAdapter.v ===== *)
(** * BlockingAdapter: the requests of the kernel
    ([crates/racfs-fuse/src/blocking_adapter.rs])

    The adapter runs one request at a time on the asynchronous filesystem of
    [FuseFs], or on the locks of [FileLocks], and replies.  A request is a value
    of [FuseRequest], a reply one of [FuseReply]; [reply.error] is [Err].  The
    buffer that [fuser] collects a listing in is a parameter: it says of an entry
    whether it still fits behind those that are in it. *)

From S2P Require Import Prelude Text RPath Metadata FuseInodes FileLocks ClientCircuit FuseCache FuseFs.
From Stdlib Require Strings.String.

(** [fuser::Errno], as far as it is used. *)
Inductive ReplyErrno := FsErrno (e : Errno) | LockRefused (e : LockErrno) | ERANGE.

(** ** Requests and replies *)

Inductive FuseRequest :=
| Lookup (parent : Z) (name : string)
| Getattr (i : Z)
| Readdir (i offset : Z)
| Read (i offset size : Z)
| Create (parent : Z) (name : string) (mode umask : Z)
| Mkdir (parent : Z) (name : string) (mode umask : Z)
| Write (i offset : Z) (data : bytes)
| Unlink (parent : Z) (name : string)
| Rmdir (parent : Z) (name : string)
| Rename (parent : Z) (name : string) (newparent : Z) (newname : string)
| Release (i : Z) (lock_owner : option Z)
| Setattr (i : Z) (mode size : option Z)
| Readlink (i : Z)
| Symlink_ (parent : Z) (link_name : string) (target : string)
| Getxattr (i : Z) (name : string) (size : Z)
| Setxattr (i : Z) (name : string) (value : bytes) (flags position : Z)
| Listxattr (i size : Z)
| Removexattr (i : Z) (name : string)
| Getlk (i lock_owner start stop ty : Z)
| Setlk (i lock_owner start stop ty pid : Z) (sleep : bool).

(** An entry of a listing, with the offset of the one behind it. *)
Record DirReply := { de_ino : Z; de_next : Z; de_kind : FileType; de_name : string }.

Inductive FuseReply :=
| REntry (ttl : Z) (attr : FileAttr) (generation : Z)
| RAttr (ttl : Z) (attr : FileAttr)
| RDirectory (l : list DirReply)
| RData (d : bytes)
| RCreated (ttl : Z) (attr : FileAttr) (generation fh : Z)
| RWritten (n : Z)
| ROk
| RSize (n : Z)
| RLocked (start stop ty pid : Z).

(** ** The adapter *)

(* src: crates/racfs-fuse/src/blocking_adapter.rs 20-24 BlockingAdapter *)
Record BlockingAdapter (C : Type) := { async_fs : RacfsAsyncFs C; lock_state : FileLockState }.
Arguments async_fs {C}.
Arguments lock_state {C}.

(* src: crates/racfs-fuse/src/blocking_adapter.rs 27-38 BlockingAdapter::new *)
Definition new {C} (c : C) : BlockingAdapter C := {| async_fs := FuseFs.new c; lock_state := FileLocks.new |}.

Section Adapter.
Context `{BuildProfile} {C : Type} `{RacfsClient C}.
Context (b64_encode : bytes -> string) (b64_decode : string -> option bytes).
Context (fits : list DirReply -> DirReply -> bool).
Implicit Types (now : Now) (i : Z).
Abbreviation Op := (M (BlockingAdapter C) ReplyErrno).

(** [self.runtime.block_on(..)]: the request runs to its end. *)
Definition block_on {A} (m : M (RacfsAsyncFs C) Errno A) : Op A := fun s =>
  (map_err FsErrno (fst (m (async_fs s))), {| async_fs := snd (m (async_fs s)); lock_state := lock_state s |}).

Definition on_locks (f : FileLockState -> outcome LockErrno () * FileLockState) : Op () := fun s =>
  (map_err LockRefused (fst (f (lock_state s))),
   {| async_fs := async_fs s; lock_state := snd (f (lock_state s)) |}).

Definition reply_entry (r : Z * FileAttr * Z) : FuseReply := let '(ttl, attr, g) := r in REntry ttl attr g.
Definition reply_attr (r : Z * FileAttr) : FuseReply := let '(ttl, attr) := r in RAttr ttl attr.

(* src: crates/racfs-fuse/src/blocking_adapter.rs 42-55 BlockingAdapter::lookup *)
Definition lookup now (parent : Z) (name : string) : Op FuseReply :=
  reply_entry <$> block_on (lookup_async now parent name).

(* src: crates/racfs-fuse/src/blocking_adapter.rs 57-69 BlockingAdapter::getattr *)
Definition getattr now i : Op FuseReply := reply_attr <$> block_on (getattr_async now i).

(** The loop that fills the buffer, up to the entry that does not fit. *)
(* src: crates/racfs-fuse/src/blocking_adapter.rs 88-93 BlockingAdapter::readdir *)
Fixpoint fill (offset k : Z) (es : list (Z * FileType * string)) (buf : list DirReply) : outcome ReplyErrno (list DirReply) :=
  match es with
  | [] => Ok buf
  | (inode, kind, name) :: rest =>
    a ← usize_add offset k;
    next ← usize_add a 1;
    let d := {| de_ino := inode; de_next := next; de_kind := kind; de_name := name |} in
    if fits buf d then fill offset (k + 1) rest (buf ++ [d]) else Ok buf
  end.

(* src: crates/racfs-fuse/src/blocking_adapter.rs 71-98 BlockingAdapter::readdir *)
Definition readdir now i (offset : Z) : Op FuseReply :=
  es ← block_on (readdir_async now i offset);
  RDirectory <$> lift (fill offset 0 es []).

(* src: crates/racfs-fuse/src/blocking_adapter.rs 100-124 BlockingAdapter::read *)
Definition read i (offset size : Z) : Op FuseReply := RData <$> block_on (read_async i offset size).

(** The mode of the request is not the one that is passed on. *)
(* src: crates/racfs-fuse/src/blocking_adapter.rs 126-150 BlockingAdapter::create *)
Definition create (parent : Z) (name : string) (_mode _umask : Z) : Op FuseReply :=
  '(ttl, attr, g) ← block_on (create_async parent name (octal 644) (octal 22));
  mret (RCreated ttl attr g 0).

(* src: crates/racfs-fuse/src/blocking_adapter.rs 152-173 BlockingAdapter::mkdir *)
Definition mkdir (parent : Z) (name : string) (mode umask : Z) : Op FuseReply :=
  reply_entry <$> block_on (mkdir_async parent name mode umask).

(* src: crates/racfs-fuse/src/blocking_adapter.rs 175-199 BlockingAdapter::write *)
Definition write i (offset : Z) (data : bytes) : Op FuseReply := RWritten <$> block_on (write_async i offset data).

(* src: crates/racfs-fuse/src/blocking_adapter.rs 201-214 BlockingAdapter::unlink *)
Definition unlink (parent : Z) (name : string) : Op FuseReply :=
  block_on (unlink_async parent name) ;; mret ROk.

(* src: crates/racfs-fuse/src/blocking_adapter.rs 216-229 BlockingAdapter::rmdir *)
Definition rmdir (parent : Z) (name : string) : Op FuseReply :=
  block_on (rmdir_async parent name) ;; mret ROk.

(* src: crates/racfs-fuse/src/blocking_adapter.rs 231-257 BlockingAdapter::rename *)
Definition rename (parent : Z) (name : string) (newparent : Z) (newname : string) : Op FuseReply :=
  block_on (rename_async parent name newparent newname) ;; mret ROk.

(* src: crates/racfs-fuse/src/blocking_adapter.rs 259-281 BlockingAdapter::release *)
Definition release i (lock_owner : option Z) : Op FuseReply :=
  match lock_owner with
  | Some o => on_locks (fun l => (Ok (), remove_owner o l))
  | None => mret ()
  end ;;
  block_on (release_async i) ;; mret ROk.

(** Times, owners and flags are passed by the kernel and not looked at. *)
(* src: crates/racfs-fuse/src/blocking_adapter.rs 283-341 BlockingAdapter::setattr *)
Definition setattr now i (mode size : option Z) : Op FuseReply :=
  match size with
  | Some n => reply_attr <$> block_on (truncate_async i n)
  | None =>
    match mode with
    | Some m => reply_attr <$> block_on (chmod_async i m)
    | None => reply_attr <$> block_on (getattr_async now i)
    end
  end.

(* src: crates/racfs-fuse/src/blocking_adapter.rs 343-355 BlockingAdapter::readlink *)
Definition readlink i : Op FuseReply := RData <$> block_on (readlink_async i).

(* src: crates/racfs-fuse/src/blocking_adapter.rs 357-378 BlockingAdapter::symlink *)
Definition symlink (parent : Z) (link_name target : string) : Op FuseReply :=
  let target_bytes := as_bytes (from_utf8_lossy (as_bytes target)) in
  reply_entry <$> block_on (symlink_async parent link_name target_bytes).

(** The size of an attribute, or the attribute when it fits. *)
Definition reply_xattr (size : Z) (d : bytes) : Op FuseReply :=
  if size =? 0 then mret (RSize (u32_wrap (len d)))
  else if len d <=? size then mret (RData d)
  else fail ERANGE.

(* src: crates/racfs-fuse/src/blocking_adapter.rs 380-401 BlockingAdapter::getxattr *)
Definition getxattr i (name : string) (size : Z) : Op FuseReply :=
  d ← block_on (getxattr_async b64_decode i name size); reply_xattr size d.

(* src: crates/racfs-fuse/src/blocking_adapter.rs 403-428 BlockingAdapter::setxattr *)
Definition setxattr i (name : string) (value : bytes) (flags position : Z) : Op FuseReply :=
  block_on (setxattr_async b64_encode i name value flags position) ;; mret ROk.

(* src: crates/racfs-fuse/src/blocking_adapter.rs 430-450 BlockingAdapter::listxattr *)
Definition listxattr i (size : Z) : Op FuseReply :=
  d ← block_on (listxattr_async i size); reply_xattr size d.

(* src: crates/racfs-fuse/src/blocking_adapter.rs 452-465 BlockingAdapter::removexattr *)
Definition removexattr i (name : string) : Op FuseReply :=
  block_on (removexattr_async i name) ;; mret ROk.

(* src: crates/racfs-fuse/src/blocking_adapter.rs 467-486 BlockingAdapter::getlk *)
Definition getlk i (lock_owner start stop ty : Z) : Op FuseReply :=
  s ← get;
  mret (match get_conflict i start stop ty lock_owner (lock_state s) with
        | Some (a, b, t, p) => RLocked a b t p
        | None => RLocked start stop F_UNLCK 0
        end).

(* src: crates/racfs-fuse/src/blocking_adapter.rs 488-508 BlockingAdapter::setlk *)
Definition setlk i (lock_owner start stop ty pid : Z) (sleep : bool) : Op FuseReply :=
  on_locks (set_lock i lock_owner start stop ty pid sleep) ;; mret ROk.

(* src: crates/racfs-fuse/src/blocking_adapter.rs 41-41 Filesystem for BlockingAdapter *)
Definition dispatch now (r : FuseRequest) : Op FuseReply :=
  match r with
  | Lookup d n => lookup now d n
  | Getattr i => getattr now i
  | Readdir i o => readdir now i o
  | Read i o n => read i o n
  | Create d n m u => create d n m u
  | Mkdir d n m u => mkdir d n m u
  | Write i o b => write i o b
  | Unlink d n => unlink d n
  | Rmdir d n => rmdir d n
  | Rename d n d' n' => rename d n d' n'
  | Release i o => release i o
  | Setattr i m n => setattr now i m n
  | Readlink i => readlink i
  | Symlink_ d n t => symlink d n t
  | Getxattr i n k => getxattr i n k
  | Setxattr i n v f p => setxattr i n v f p
  | Listxattr i k => listxattr i k
  | Removexattr i n => removexattr i n
  | Getlk i o a b t => getlk i o a b t
  | Setlk i o a b t p w => setlk i o a b t p w
  end.
End Adapter.

(** ** Sessions *)

(** Requests one after another, each with its readings of the clock. *)
Definition run_session `{BuildProfile} {C} `{RacfsClient C} b64_encode b64_decode fits
    (rs : list (Now * FuseRequest)) (s : BlockingAdapter C) : list (outcome ReplyErrno FuseReply) * BlockingAdapter C :=
  run_all (fun r => dispatch b64_encode b64_decode fits (fst r) (snd r)) rs s.

Section Session.
Context `{BuildProfile} {C : Type} `{RacfsClient C}.
Context (b64_encode : bytes -> string) (b64_decode : string -> option bytes) (fits : list DirReply -> DirReply -> bool).
Implicit Types (now : Now) (p : Path) (f : RacfsAsyncFs C) (s : BlockingAdapter C) (k : nat).

Lemma run_all_app {O S R} (step : O -> S -> R * S) (l k : list O) (s : S) :
  snd (run_all step (l ++ k) s) = snd (run_all step k (snd (run_all step l s))).
Proof.
  revert s. induction l as [|o l IH]; intros s; [done|]. simpl. destruct (step o s) as [r s1].
  specialize (IH s1). destruct (run_all step (l ++ k) s1), (run_all step l s1). simpl in *. exact IH.
Qed.

(** No listing that the server sends is longer than [N], and none that is kept. *)
Context (N : nat).
Hypothesis listings_short : forall p (c : C) l, fst (cl_read_dir p c) = Ok l -> (length (entries l) <= N)%nat.

Definition short (c : FuseCache) : Prop :=
  pm_all (fun _ e => (length (entries (value e)) <= N)%nat) (readdir_cache c).

(** What a call does to the numbers is at most [k] operations of the inode
    manager's own. *)
Definition traced k {A} (m : M (RacfsAsyncFs C) Errno A) : Prop :=
  forall f, short (cache f) -> short (cache (snd (m f))) /\
    exists ops, (length ops <= k)%nat /\ inodes (snd (m f)) = snd (run_all run_inode_op ops (inodes f)).

(** A call that leaves the numbers alone. *)
Definition untraced {A} (m : M (RacfsAsyncFs C) Errno A) : Prop :=
  forall f, short (cache f) -> short (cache (snd (m f))) /\ inodes (snd (m f)) = inodes f.

Lemma untraced_traced k {A} (m : M (RacfsAsyncFs C) Errno A) : untraced m -> traced k m.
Proof. intros Hm f Hf. destruct (Hm f Hf) as [Hs Hi]. split; [done|]. exists []. split; [simpl; lia|done]. Qed.

Lemma traced_le j k {A} (m : M (RacfsAsyncFs C) Errno A) : (j <= k)%nat -> traced j m -> traced k m.
Proof.
  intros Hle Hm f Hf. destruct (Hm f Hf) as (Hs & ops & Hlen & Hops). split; [done|]. exists ops. split; [lia|done].
Qed.

Lemma traced_bind j k {A B} (m : M (RacfsAsyncFs C) Errno A) (g : A -> M (RacfsAsyncFs C) Errno B) :
  traced j m -> (forall a, traced k (g a)) -> traced (j + k) (m ≫= g).
Proof.
  intros Hm Hg f Hf. rewrite run_bind. destruct (Hm f Hf) as (Hs & ops & Hlen & Hops).
  destruct (m f) as [[a|e| |] f']; simpl in *; try (split; [done|]; exists ops; split; [lia|done]).
  destruct (Hg a f' Hs) as (Hs' & ops' & Hlen' & Hops'). split; [done|]. exists (ops ++ ops').
  split; [rewrite length_app; lia|]. by rewrite run_all_app, <- Hops.
Qed.

Lemma traced_bind0 k {A B} (m : M (RacfsAsyncFs C) Errno A) (g : A -> M (RacfsAsyncFs C) Errno B) :
  untraced m -> (forall a, traced k (g a)) -> traced k (m ≫= g).
Proof. intros Hm. apply (traced_bind 0 k), untraced_traced, Hm. Qed.

Lemma untraced_bind {A B} (m : M (RacfsAsyncFs C) Errno A) (g : A -> M (RacfsAsyncFs C) Errno B) :
  untraced m -> (forall a, untraced (g a)) -> untraced (m ≫= g).
Proof.
  intros Hm Hg f Hf. rewrite run_bind. destruct (Hm f Hf) as [Hs Hi].
  destruct (m f) as [[a|e| |] f']; simpl in *; try done. destruct (Hg a f' Hs) as [Hs' Hi']. by rewrite Hi'.
Qed.

(** The parts that calls are made of. *)
Lemma untraced_same {A} (m : M (RacfsAsyncFs C) Errno A) : (forall f, snd (m f) = f) -> untraced m.
Proof. intros Hm f Hf. by rewrite Hm. Qed.

Lemma untraced_cache {A} (m : M FuseCache Errno A) : (forall c, short c -> short (snd (m c))) -> untraced (on_cache m).
Proof. intros Hm f Hf. split; [by apply Hm|done]. Qed.

Lemma untraced_call {A} (m : M C Error A) : untraced (call m).
Proof. by intros f Hf. Qed.

Lemma untraced_call_or {A} e (m : M C Error A) : untraced (call_or e m).
Proof. apply untraced_bind; [apply untraced_call|]. intros [a|x]; by apply untraced_same. Qed.

Lemma untraced_send p runs : untraced (send_runs p runs).
Proof. induction runs as [|[o d] runs IH]; [by apply untraced_same|]. apply untraced_bind; [apply untraced_call_or|done]. Qed.

Lemma untraced_ignore (m : M (RacfsAsyncFs C) Errno ()) : untraced m -> untraced (ignore_error m).
Proof. intros Hm f Hf. specialize (Hm f Hf). unfold ignore_error. by destruct (m f) as [[]]. Qed.

Lemma traced_allocate p : traced 1 (on_inodes (allocate p)).
Proof. intros f Hf. split; [done|]. exists [Allocate p]. split; [done|]. simpl. by destruct (allocate p (inodes f)). Qed.

Lemma traced_forget p : traced 1 (forget_path p).
Proof.
  intros f Hf. split; [done|]. unfold forget_path, on_inodes. simpl.
  destruct (get_inode p (inodes f)) as [i|]; [exists [Remove i]|exists []]; (split; [simpl; lia|done]).
Qed.

(** The cache's own operations. *)
Ltac short_cache := intros c Hc; munfold; repeat case_match; simpl; unfold short in *; simpl; auto with racfs.

Lemma short_get_stat now p c : short c -> short (snd (get_stat (E := Errno) now p c)).
Proof. revert c. unfold get_stat. short_cache. Qed.
Lemma short_put_stat now p m c : short c -> short (snd (put_stat (E := Errno) now p m c)).
Proof. revert c. unfold put_stat, cache_entry, instant_add. short_cache. Qed.
Lemma short_get_readdir now p c : short c -> short (snd (get_readdir (E := Errno) now p c)).
Proof. revert c. unfold get_readdir. short_cache. Qed.
Lemma short_put_readdir now p l c : (length (entries l) <= N)%nat ->
  short c -> short (snd (put_readdir (E := Errno) now p l c)).
Proof.
  intros Hl Hc. unfold put_readdir, cache_entry, instant_add. munfold. destruct (instant_max <? _); simpl; [done|].
  by apply pm_all_insert.
Qed.
Lemma short_invalidate p c : short c -> short (snd (invalidate (E := Errno) p c)).
Proof. revert c. unfold invalidate. short_cache. Qed.
Lemma short_bind {A B} (m : M FuseCache Errno A) (g : A -> M FuseCache Errno B) :
  (forall c, short c -> short (snd (m c))) -> (forall a c, short c -> short (snd (g a c))) ->
  forall c, short c -> short (snd ((m ≫= g) c)).
Proof. intros Hm Hg c Hc. rewrite run_bind. specialize (Hm c Hc). destruct (m c) as [[]]; simpl in *; auto. Qed.
Lemma short_invalidate_rename p q c : short c -> short (snd (invalidate_rename (E := Errno) p q c)).
Proof.
  revert c. unfold invalidate_rename. repeat (apply short_bind; [|intros ?]); intros c Hc;
    try (by apply short_invalidate); repeat case_match; simpl; unfold short in *; simpl; auto with racfs.
Qed.
Lemma short_push_write_back p o d c : short c -> short (snd (push_write_back (E := Errno) p o d c)).
Proof. revert c. unfold push_write_back. short_cache. Qed.
Lemma short_take p c : short c -> short (snd (take_pending_writes (E := Errno) p c)).
Proof. revert c. unfold take_pending_writes. short_cache. Qed.
Lemma short_put_content p d c : short c -> short (snd (put_file_content (E := Errno) p d c)).
Proof. done. Qed.

Ltac untraced_base := first
  [ apply untraced_call_or | apply untraced_call | apply untraced_send
  | apply untraced_cache; intros ? ?; first
      [ by apply short_get_stat | by apply short_put_stat | by apply short_invalidate
      | by apply short_invalidate_rename | by apply short_push_write_back | by apply short_take
      | by apply short_put_content | done ]
  | by apply untraced_same ].
Ltac untraced := repeat first [ untraced_base | apply untraced_ignore | apply untraced_bind; [|intros ?] | case_match ].

Lemma untraced_flush p : untraced (flush_write_back p).
Proof. unfold flush_write_back. untraced. Qed.

(** A call in which the number changes at its last steps. *)
Ltac traced := repeat first
  [ apply traced_allocate | apply traced_forget
  | apply untraced_traced; first [apply untraced_flush | by untraced]
  | apply traced_bind0; [first [apply untraced_flush | by untraced]|intros ?]
  | case_match ].

Lemma traced_entries es : traced (length es) (list_entries es).
Proof.
  induction es as [|e es IH]; simpl; [traced|]. apply (traced_bind 1 (length es)); [apply traced_allocate|]. intros i.
  rewrite <- (Nat.add_0_r (length es)). apply traced_bind; [done|]. intros l. traced.
Qed.

Lemma traced_entry_made p : traced 1 (entry_made p).
Proof.
  unfold entry_made. apply traced_bind0; [untraced|]. intros []. apply traced_bind0; [untraced|]. intros m.
  apply (traced_bind 1 0); [apply traced_allocate|]. intros i. traced.
Qed.

Lemma short_listing now p f l : short (cache f) ->
  fst (get_readdir (E := Errno) now p (cache f)) = Ok (Some l) -> (length (entries l) <= N)%nat.
Proof.
  intros Hs. unfold get_readdir. munfold. destruct (pm_get p (readdir_cache (cache f))) as [e|] eqn:E; [|done].
  destruct (is_valid now e); [|done]. intros [= <-]. exact (pm_all_get _ p _ _ Hs E).
Qed.

Lemma short_stale p f l : short (cache f) ->
  fst (get_readdir_stale (E := Errno) p (cache f)) = Ok (Some l) -> (length (entries l) <= N)%nat.
Proof.
  intros Hs. unfold get_readdir_stale. munfold. destruct (pm_get p (readdir_cache (cache f))) as [e|] eqn:E; [|done].
  intros [= <-]. exact (pm_all_get _ p _ _ Hs E).
Qed.

(** A call that answers a listing, and which one. *)
Definition short_answer (m : M (RacfsAsyncFs C) Errno DirectoryListResponse) : Prop :=
  forall f, short (cache f) -> short (cache (snd (m f))) /\ inodes (snd (m f)) = inodes f /\
    forall l, fst (m f) = Ok l -> (length (entries l) <= N)%nat.

Lemma traced_listing k m (g : DirectoryListResponse -> M (RacfsAsyncFs C) Errno (list (Z * FileType * string))) :
  short_answer m -> (forall l, (length (entries l) <= N)%nat -> traced k (g l)) -> traced k (m ≫= g).
Proof.
  intros Hm Hg f Hf. rewrite run_bind. destruct (Hm f Hf) as (Hs & Hi & Hl).
  destruct (m f) as [[l|e| |] f']; simpl in *;
    try (split; [done|]; exists []; split; [simpl; lia|done]).
  rewrite <- Hi. apply (Hg l); auto.
Qed.

(** The listing, from the cache, the server, or the cache once more. *)
Lemma listing_short now p :
  short_answer (cached ← on_cache (get_readdir now p);
    match cached with
    | Some l => mret l
    | None =>
      r ← call (cl_read_dir p);
      match r with
      | inl l => on_cache (put_readdir (now_from 1 now) p l) ;; mret l
      | inr e =>
        if unreachable_error e then
          stale ← on_cache (get_readdir_stale p);
          match stale with Some l => mret l | None => fail EIO end
        else fail EIO
      end
    end).
Proof.
  intros f Hf. rewrite run_bind. unfold on_cache.
  pose proof (short_get_readdir now p _ Hf) as Hs. pose proof (short_listing now p f) as Hl.
  destruct (get_readdir now p (cache f)) as [[[l|]|e| |] c]; cbn [fst snd] in *; try done.
  { split; [done|]. split; [done|]. intros l' [= <-]. auto. }
  rewrite run_bind. unfold call. cbn [client].
  pose proof (listings_short p (client f)) as Hsrv.
  destruct (cl_read_dir p (client f)) as [[l|e| |] c']; cbn [fst snd] in *; try done.
  - rewrite run_bind. cbn [cache].
    pose proof (short_put_readdir (now_from 1 now) p l c (Hsrv l eq_refl) Hs) as Hp.
    destruct (put_readdir (now_from 1 now) p l c) as [[[]|e| |] c'']; cbn [fst snd cache] in *; try done.
    split; [done|]. split; [done|]. intros l' [= <-]. auto.
  - destruct (unreachable_error e); [|done]. rewrite run_bind. cbn [cache].
    pose proof (short_stale p {| client := c'; inodes := inodes f; cache := c |}) as Hst.
    unfold get_readdir_stale, gets in *. cbn [fst snd cache] in *.
    destruct (value <$> pm_get p (readdir_cache c)) as [l|]; (split; [done|]; split; [done|]); [|done].
    intros l' [= <-]. auto.
Qed.

Lemma bind_assoc {S E A B D} (m : M S E A) (g : A -> M S E B) (h : B -> M S E D) (s : S) :
  ((m ≫= g) ≫= h) s = (m ≫= (fun a => g a ≫= h)) s.
Proof. rewrite !run_bind. by destruct (m s) as [[]]. Qed.

Lemma traced_assoc k {A B D} (m : M (RacfsAsyncFs C) Errno A) (g : A -> M (RacfsAsyncFs C) Errno B)
    (h : B -> M (RacfsAsyncFs C) Errno D) :
  traced k ((m ≫= g) ≫= h) -> traced k (m ≫= (fun a => g a ≫= h)).
Proof. intros Hm f. rewrite <- bind_assoc. apply Hm. Qed.

Lemma traced_readdir now i o : traced N (readdir_async now i o).
Proof.
  unfold readdir_async. apply traced_bind0; [untraced|]. intros p.
  apply traced_assoc, traced_listing; [apply listing_short|].
  intros l Hl. apply (traced_le (length (entries l)) N); [done|]. rewrite <- (Nat.add_0_r (length (entries l))).
  apply traced_bind; [apply traced_entries|]. intros es. traced.
Qed.

(** The other calls. *)
Lemma traced_step k {A B} (m : M (RacfsAsyncFs C) Errno A) (g : A -> M (RacfsAsyncFs C) Errno B) :
  traced 1 m -> (forall a, traced k (g a)) -> traced (S k) (m ≫= g).
Proof. apply traced_bind. Qed.

Ltac traced_call := repeat first
  [ apply traced_entry_made | apply traced_allocate | apply traced_forget
  | apply untraced_traced; first [apply untraced_flush | apply untraced_ignore, untraced_flush | by untraced]
  | apply traced_bind0; [first [apply untraced_flush | by untraced]|intros ?]
  | apply traced_step; [first [apply traced_allocate | apply traced_forget]|intros ?]
  | case_match ].

Lemma traced_lookup now d n : traced 1 (lookup_async now d n).
Proof. unfold lookup_async, child_path. traced_call. Qed.
Lemma traced_create d n m u : traced 1 (create_async d n m u).
Proof. unfold create_async, child_path. traced_call. Qed.
Lemma traced_rename d n d' n' : traced 2 (rename_async d n d' n').
Proof. unfold rename_async. traced_call. Qed.

(** The same for what the adapter does; the locks change by their own operations. *)
Definition tracked k {A} (m : M (BlockingAdapter C) ReplyErrno A) : Prop :=
  forall s, short (cache (async_fs s)) -> short (cache (async_fs (snd (m s)))) /\
    (exists ops, (length ops <= k)%nat /\
      inodes (async_fs (snd (m s))) = snd (run_all run_inode_op ops (inodes (async_fs s)))) /\
    (exists ops, lock_state (snd (m s)) = snd (run_all run_lock ops (lock_state s))).

Lemma tracked_block_on k {A} (m : M (RacfsAsyncFs C) Errno A) : traced k m -> tracked k (block_on m).
Proof. intros Hm s Hs. destruct (Hm _ Hs) as [H1 H2]. split; [done|]. split; [done|by exists []]. Qed.

Lemma tracked_same {A} (m : M (BlockingAdapter C) ReplyErrno A) : (forall s, snd (m s) = s) -> tracked 0 m.
Proof.
  intros Hm s Hs. rewrite Hm. split; [done|]. split; [exists []; split; [simpl; lia|done]|by exists []].
Qed.

Lemma tracked_on_locks (op : LockOp) : tracked 0 (on_locks (run_lock op)).
Proof.
  intros s Hs. split; [done|]. split; [exists []; split; [simpl; lia|done]|]. exists [op]. simpl.
  by destruct (run_lock op (lock_state s)).
Qed.

Lemma tracked_bind j k {A B} (m : M (BlockingAdapter C) ReplyErrno A) (g : A -> M (BlockingAdapter C) ReplyErrno B) :
  tracked j m -> (forall a, tracked k (g a)) -> tracked (j + k) (m ≫= g).
Proof.
  intros Hm Hg s Hs. rewrite run_bind. destruct (Hm s Hs) as (Hs1 & (ops & Hlen & Hops) & los & Hlos).
  destruct (m s) as [[a|e| |] s1]; simpl in *;
    try (split; [done|]; split; [exists ops; split; [lia|done]|by exists los]).
  destruct (Hg a s1 Hs1) as (Hs2 & (ops' & Hlen' & Hops') & los' & Hlos'). split; [done|].
  rewrite Hops in Hops'. rewrite Hlos in Hlos'. split.
  - exists (ops ++ ops'). split; [rewrite length_app; lia|]. by rewrite run_all_app.
  - exists (los ++ los'). by rewrite run_all_app.
Qed.

Lemma tracked_then k {A B} (m : M (BlockingAdapter C) ReplyErrno A) (g : A -> M (BlockingAdapter C) ReplyErrno B) :
  tracked k m -> (forall a s, snd (g a s) = s) -> tracked k (m ≫= g).
Proof. intros Hm Hg. rewrite <- (Nat.add_0_r k). apply tracked_bind; [done|]. intros a. by apply tracked_same. Qed.

Lemma tracked_le j k {A} (m : M (BlockingAdapter C) ReplyErrno A) : (j <= k)%nat -> tracked j m -> tracked k m.
Proof.
  intros Hle Hm s Hs. destruct (Hm s Hs) as (H1 & (ops & Hlen & Hops) & H3). split; [done|]. split; [|done].
  exists ops. split; [lia|done].
Qed.

Lemma tracked_call k {A B} (h : A -> B) (m : M (RacfsAsyncFs C) Errno A) :
  (k <= 2 + N)%nat -> traced k m -> tracked (2 + N) (h <$> block_on m).
Proof. intros Hk Hm. apply (tracked_le k); [done|]. intros s. by apply tracked_block_on. Qed.

Lemma tracked_call_then k {A B} (m : M (RacfsAsyncFs C) Errno A) (g : A -> M (BlockingAdapter C) ReplyErrno B) :
  (k <= 2 + N)%nat -> traced k m -> (forall a s, snd (g a s) = s) -> tracked (2 + N) (block_on m ≫= g).
Proof. intros Hk Hm Hg. apply (tracked_le k); [done|]. by apply tracked_then; [apply tracked_block_on|]. Qed.

Lemma reply_xattr_same n d s : snd (reply_xattr n d s) = s.
Proof. unfold reply_xattr. by repeat case_match. Qed.

Ltac call_of k := first
  [ apply (tracked_call k); [lia|]
  | apply (tracked_call_then k); [lia| |intros ? ?; first [apply reply_xattr_same | by repeat case_match]] ].

Lemma dispatch_tracked now r : tracked (2 + N) (dispatch b64_encode b64_decode fits now r).
Proof.
  destruct r; unfold dispatch.
  - call_of 1%nat. apply traced_lookup.
  - call_of 0%nat. unfold getattr_async. traced_call.
  - call_of N. apply traced_readdir.
  - call_of 0%nat. unfold read_async. traced_call.
  - call_of 1%nat. apply traced_create.
  - call_of 1%nat. unfold mkdir_async, child_path. traced_call.
  - call_of 0%nat. unfold write_async. traced_call.
  - call_of 1%nat. unfold unlink_async, child_path. traced_call.
  - call_of 1%nat. unfold rmdir_async, child_path. traced_call.
  - call_of 2%nat. apply traced_rename.
  - unfold release. apply (tracked_le (0 + 0)); [lia|]. apply tracked_bind.
    + destruct lock_owner as [o|]; [apply (tracked_on_locks (RemoveOwner o))|by apply tracked_same].
    + intros []. apply tracked_then; [|done]. apply tracked_block_on. unfold release_async. traced_call.
  - unfold setattr. destruct size as [n|]; [|destruct mode as [m|]]; call_of 0%nat;
      unfold truncate_async, chmod_async, getattr_async; traced_call.
  - call_of 0%nat. unfold readlink_async. traced_call.
  - call_of 1%nat. unfold symlink_async, child_path. traced_call.
  - call_of 0%nat. unfold getxattr_async. traced_call.
  - call_of 0%nat. unfold setxattr_async. traced_call.
  - call_of 0%nat. unfold listxattr_async. traced_call.
  - call_of 0%nat. unfold removexattr_async. traced_call.
  - apply (tracked_le 0); [lia|]. by apply tracked_same.
  - apply (tracked_le 0); [lia|]. apply tracked_then; [|done].
    apply (tracked_on_locks (SetLock i lock_owner start stop ty pid sleep)).
Qed.

Lemma session_tracked rs s : short (cache (async_fs s)) ->
  let s' := snd (run_session b64_encode b64_decode fits rs s) in
  (exists ops, (length ops <= length rs * (2 + N))%nat /\
     inodes (async_fs s') = snd (run_all run_inode_op ops (inodes (async_fs s)))) /\
  (exists ops, lock_state s' = snd (run_all run_lock ops (lock_state s))).
Proof.
  unfold run_session. revert s. induction rs as [|[now r] rs IH]; intros s Hs.
  { split; [by exists []|by exists []]. }
  cbn [run_all fst snd]. destruct (dispatch_tracked now r s Hs) as (Hs1 & (ops & Hlen & Hops) & los & Hlos).
  destruct (dispatch b64_encode b64_decode fits now r s) as [a s1]. specialize (IH s1 Hs1).
  destruct (run_all _ rs s1) as [as_ s2]. cbn [snd] in *. destruct IH as [(ops' & Hlen' & Hops') (los' & Hlos')].
  rewrite Hops in Hops'. rewrite Hlos in Hlos'. split.
  - exists (ops ++ ops'). split; [rewrite length_app; cbn [length]; lia|]. by rewrite run_all_app.
  - exists (los ++ los'). by rewrite run_all_app.
Qed.
End Session.

Section SessionProperties.
Context `{BuildProfile} {C : Type} `{RacfsClient C}.
Context (b64_encode : bytes -> string) (b64_decode : string -> option bytes) (fits : list DirReply -> DirReply -> bool).
Implicit Types (now : Now).

(** C10: whatever the kernel asks for, and whatever the server answers, as long
    as its listings have at most [N] entries: no two owners ever hold
    conflicting locks, and while the numbers last (each request draws at most
    [N + 2] of the 2^64) paths and numbers stay in bijection. *)
Theorem fuse_session_invariant N rs (c : C) :
  (forall p (c : C) l, fst (cl_read_dir p c) = Ok l -> (length (entries l) <= N)%nat) ->
  Z.of_nat (length rs * (2 + N)) < u64_max - 2 ->
  let s := snd (run_session b64_encode b64_decode fits rs (new c)) in
  exclusive (lock_state s) /\ inodes_ok (inodes (async_fs s)).
Proof.
  intros Hshort Hlen s.
  destruct (session_tracked b64_encode b64_decode fits N Hshort rs (new c)) as [(ops & Hops & Hi) (los & Hl)].
  { apply pm_all_empty. }
  fold s in Hi, Hl. split.
  - rewrite Hl. apply exclusive_run_all. intros i l Hil. simpl in Hil. by rewrite lookup_empty in Hil.
  - rewrite Hi. apply run_inode_ops_ok; [apply inodes_ok_new|]. simpl. unfold ROOT_INODE. lia.
Qed.

(** *** The numbers of entries *)

(** Where a request looks up or makes an entry, and the entry of a reply. *)
Definition entry_place (r : FuseRequest) : option (Z * string) :=
  match r with
  | Lookup d n | Create d n _ _ | Mkdir d n _ _ | Symlink_ d n _ => Some (d, n)
  | _ => None
  end.
Definition entry_attr (r : FuseReply) : option FileAttr :=
  match r with REntry _ a _ | RCreated _ a _ _ => Some a | _ => None end.

(** A call whose answer carries the number of [p]. *)
Definition numbers (p : Path) (m : M (RacfsAsyncFs C) Errno (Z * FileAttr * Z)) : Prop :=
  forall f ttl a g, fst (m f) = Ok (ttl, a, g) -> get_inode p (inodes (snd (m f))) = Some (ino a).

Lemma numbers_bind {A} p (m : M (RacfsAsyncFs C) Errno A) (h : A -> M (RacfsAsyncFs C) Errno (Z * FileAttr * Z)) :
  (forall a, numbers p (h a)) -> numbers p (m ≫= h).
Proof. intros Hh f ttl a g. rewrite run_bind. destruct (m f) as [[x|e| |] f']; try done. apply Hh. Qed.

Lemma numbers_fail p e : numbers p (fail e).
Proof. done. Qed.

Lemma numbers_allocate p m : numbers p (inode ← on_inodes (allocate p); mret (TTL, metadata_to_attr inode m, 0)).
Proof.
  intros f ttl a g. rewrite run_bind. unfold on_inodes. cbn [fst snd]. intros [= _ <- _]. cbn [snd inodes ino metadata_to_attr].
  unfold get_inode, allocate. destruct (pm_get p (path_to_inode (inodes f))) as [i|] eqn:E; [exact E|].
  cbn [snd draw fst]. apply pm_get_insert.
Qed.

Ltac numbers := repeat first [ apply numbers_fail | apply numbers_allocate | apply numbers_bind; intros ? | case_match ].

(** The call that answers for the entry [n] of the directory [d]. *)
Definition places (d : Z) (n : string) (m : M (RacfsAsyncFs C) Errno (Z * FileAttr * Z)) : Prop :=
  forall f ttl a g, fst (m f) = Ok (ttl, a, g) ->
    exists p, get_path d (inodes f) = Some p /\ get_inode (join p (lossy n)) (inodes (snd (m f))) = Some (ino a).

Lemma places_child d n (h : Path -> M (RacfsAsyncFs C) Errno (Z * FileAttr * Z)) :
  (forall p, numbers p (h p)) -> places d n (p ← child_path d n; h p).
Proof.
  intros Hh f ttl a g. rewrite run_bind. unfold child_path. rewrite run_bind.
  destruct (get_path d (inodes f)) as [p|] eqn:Ep.
  - rewrite (path_of_run d p f Ep). intros Hr. exists p. split; [done|]. by eapply Hh.
  - unfold path_of. munfold. by rewrite Ep.
Qed.

Lemma numbers_entry_made p : numbers p (entry_made p).
Proof. unfold entry_made. numbers. Qed.

Lemma places_entry r d n : entry_place r = Some (d, n) -> forall now, exists m, places d n m /\
  forall s rep a, fst (dispatch b64_encode b64_decode fits now r s) = Ok rep -> entry_attr rep = Some a ->
    (exists ttl g, fst (m (async_fs s)) = Ok (ttl, a, g)) /\
    async_fs (snd (dispatch b64_encode b64_decode fits now r s)) = snd (m (async_fs s)).
Proof.
  intros Hr now.
  assert (Hentry : forall (m : M (RacfsAsyncFs C) Errno (Z * FileAttr * Z)) s rep a,
    fst ((reply_entry <$> block_on m) s) = Ok rep -> entry_attr rep = Some a ->
    (exists ttl g, fst (m (async_fs s)) = Ok (ttl, a, g)) /\
    async_fs (snd ((reply_entry <$> block_on m) s)) = snd (m (async_fs s))).
  { intros m s rep a. unfold fmap, M_fmap, block_on. cbn [fst snd async_fs].
    destruct (fst (m (async_fs s))) as [[[ttl a'] g]|e| |]; try done. intros [= <-] [= ->]. eauto. }
  destruct r; try done; injection Hr as -> ->; cbn [dispatch].
  - exists (lookup_async now d n). split; [|apply Hentry]. apply places_child. intros p. numbers.
  - exists (create_async d n (octal 644) (octal 22)). split.
    + apply places_child. intros p. apply numbers_bind. intros []. apply numbers_entry_made.
    + intros s rep a. unfold create. rewrite run_bind. unfold block_on. cbn [fst snd async_fs].
      destruct (create_async d n (octal 644) (octal 22) (async_fs s)) as [[[[ttl a'] g]|e| |] f']; try done.
      cbn. intros [= <-] [= ->]. eauto.
  - exists (mkdir_async d n mode umask). split; [|apply Hentry]. apply places_child. intros p.
    apply numbers_bind. intros []. apply numbers_entry_made.
  - eexists. split; [|apply Hentry]. apply places_child. intros p. apply numbers_bind. intros []. apply numbers_entry_made.
Qed.

(** C27: the number in the reply to a lookup, or to the making of an entry, is the
    one that the path of the entry has from then on, and leads back to it. *)
Theorem fuse_entry_number now r s d n rep a :
  entry_place r = Some (d, n) ->
  fst (dispatch b64_encode b64_decode fits now r s) = Ok rep -> entry_attr rep = Some a ->
  let s' := snd (dispatch b64_encode b64_decode fits now r s) in
  exists p, get_path d (inodes (async_fs s)) = Some p /\
    get_inode (join p (lossy n)) (inodes (async_fs s')) = Some (ino a) /\
    (inodes_ok (inodes (async_fs s')) ->
     exists q, get_path (ino a) (inodes (async_fs s')) = Some q /\ components q = components (join p (lossy n))).
Proof.
  intros Hplace Hrep Ha s'.
  destruct (places_entry r d n Hplace now) as (m & Hm & Hrun). destruct (Hrun s rep a Hrep Ha) as [(ttl & g & Hok) Hs'].
  destruct (Hm _ _ _ _ Hok) as (p & Hp & Hi).
  exists p. unfold s'. rewrite Hs'. split; [done|]. split; [done|]. intros Hinv. by apply (io_inodes _ Hinv).
Qed.
End SessionProperties.

(** ** Reading a directory

    The kernel asks for a listing in pages: the next request starts at the
    offset of the last entry that it was given. *)

Section Listing.
Context `{BuildProfile} {C : Type} `{RacfsClient C}.
Context (fits : list DirReply -> DirReply -> bool).
Implicit Types (f : RacfsAsyncFs C) (s : BlockingAdapter C) (es : list DirectoryEntry) (m : InodeManager).

Fixpoint list_dir (fuel k : nat) (nows : nat -> Now) (i offset : Z) : M (BlockingAdapter C) ReplyErrno (list DirReply) :=
  match fuel with
  | O => lift Diverge
  | S fuel =>
    r ← readdir fits (nows k) i offset;
    match r with
    | RDirectory l =>
      match last l with
      | None => mret []
      | Some d => rest ← list_dir fuel (S k) nows i (de_next d); mret (l ++ rest)
      end
    | _ => lift Panic
    end
  end.

(** The entries of a listing with the offsets behind them. *)
Fixpoint numbered (o : Z) (es : list (Z * FileType * string)) : list DirReply :=
  match es with
  | [] => []
  | (i, kind, name) :: rest => {| de_ino := i; de_next := o + 1; de_kind := kind; de_name := name |} :: numbered (o + 1) rest
  end.

Lemma length_dir_numbered o l : length (numbered o l) = length l.
Proof. revert o. induction l as [|[[i kd] n] l IH]; intros o; simpl; [done|]. by rewrite IH. Qed.

Lemma numbered_drop o n l : drop n (numbered o l) = numbered (o + Z.of_nat n) (drop n l).
Proof.
  revert o l. induction n as [|n IH]; intros o l; [by rewrite Z.add_0_r|].
  destruct l as [|[[i kd] nm] l]; [done|]. simpl. rewrite IH. f_equal. lia.
Qed.

Lemma numbered_last o l d : last (numbered o l) = Some d -> de_next d = o + Z.of_nat (length l).
Proof.
  revert o. induction l as [|[[i kd] nm] l IH]; intros o; [done|]. destruct l as [|x l].
  - simpl. intros [= <-]. simpl. lia.
  - destruct x as [[i2 kd2] nm2]. set (x := (i2, kd2, nm2)) in *.
    change (last (numbered o ((i, kd, nm) :: x :: l))) with (last (numbered (o + 1) (x :: l))).
    intros Hl. rewrite (IH _ Hl). simpl length. lia.
Qed.

(** The buffer takes the first entries. *)
Lemma fill_spec offset k l buf : 0 <= offset -> 0 <= k -> offset + k + len l <= u64_max ->
  exists n, fill fits offset k l buf = Ok (buf ++ take n (numbered (offset + k) l)) /\
    (buf = [] -> (forall d, fits [] d = true) -> l <> [] -> (0 < n)%nat).
Proof.
  revert k buf. induction l as [|[[i kd] nm] l IH]; intros k buf Ho Hk Hmax.
  - exists 0%nat. simpl. by rewrite app_nil_r.
  - unfold len in Hmax. cbn [length] in Hmax. cbn [fill]. rewrite usize_add_ok by lia. cbn [mbind outcome_bind].
    rewrite usize_add_ok by lia. cbn [mbind outcome_bind].
    set (d := {| de_ino := i; de_next := offset + k + 1; de_kind := kd; de_name := nm |}).
    destruct (fits buf d) eqn:Ef.
    + destruct (IH (k + 1) (buf ++ [d]) ltac:(lia) ltac:(lia) ltac:(unfold len; lia)) as (n & -> & _).
      exists (S n). split; [|intros; lia]. cbn [numbered take]. fold d. rewrite <- app_assoc. simpl.
      by replace (offset + (k + 1)) with (offset + k + 1) by lia.
    + exists 0%nat. split; [by rewrite app_nil_r|]. intros -> Hf. congruence.
Qed.

(** *** The numbers of the entries *)

Fixpoint allocate_all es m : list Z * InodeManager :=
  match es with
  | [] => ([], m)
  | e :: es => let '(i, m1) := allocate (d_path e) m in let '(is_, m2) := allocate_all es m1 in (i :: is_, m2)
  end.

Definition listed es (ids : list Z) : list (Z * FileType * string) :=
  zip_with (fun e i => (i, entry_kind e, default "" (file_name (d_path e)))) es ids.

Lemma list_entries_run es f :
  list_entries es f = (Ok (listed es (fst (allocate_all es (inodes f)))),
    {| client := client f; inodes := snd (allocate_all es (inodes f)); cache := cache f |}).
Proof.
  revert f. induction es as [|e es IH]; intros f; [by destruct f|]. cbn [list_entries allocate_all].
  rewrite run_bind. unfold on_inodes. destruct (allocate (d_path e) (inodes f)) as [i m1]. cbn [fst snd].
  rewrite run_bind, IH. cbn [inodes client cache]. by destruct (allocate_all es m1).
Qed.

Definition known es ids m : Prop := Forall2 (fun e i => get_inode (d_path e) m = Some i) es ids.

Lemma allocate_known p i m : get_inode p m = Some i -> allocate p m = (i, m).
Proof. unfold get_inode, allocate. by intros ->. Qed.

Lemma allocate_all_known es ids m : known es ids m -> allocate_all es m = (ids, m).
Proof. induction 1 as [|e i es ids Hi _ IH]; [done|]. cbn [allocate_all]. by rewrite (allocate_known _ _ _ Hi), IH. Qed.

Lemma allocate_all_keeps q i es m : get_inode q m = Some i -> get_inode q (snd (allocate_all es m)) = Some i.
Proof.
  revert m. induction es as [|e es IH]; intros m Hq; [done|]. cbn [allocate_all].
  pose proof (allocate_keeps (d_path e) q i m Hq) as H1. destruct (allocate (d_path e) m) as [j m1].
  specialize (IH m1 H1). by destruct (allocate_all es m1).
Qed.

Lemma allocate_recorded p m : get_inode p (snd (allocate p m)) = Some (fst (allocate p m)).
Proof.
  unfold get_inode, allocate. destruct (pm_get p (path_to_inode m)) as [i|] eqn:E; [done|]. apply pm_get_insert.
Qed.

Lemma allocate_all_recorded es m : known es (fst (allocate_all es m)) (snd (allocate_all es m)).
Proof.
  revert m. induction es as [|e es IH]; intros m; [constructor|]. cbn [allocate_all].
  pose proof (allocate_recorded (d_path e) m) as H1. destruct (allocate (d_path e) m) as [i m1].
  specialize (IH m1). pose proof (allocate_all_keeps (d_path e) i es m1 H1) as H2.
  destruct (allocate_all es m1). by constructor.
Qed.

Lemma allocate_all_paths i p es m :
  inodes_ok m -> next_inode m + Z.of_nat (length es) < u64_max -> get_path i m = Some p ->
  get_path i (snd (allocate_all es m)) = Some p.
Proof.
  revert m. induction es as [|e es IH]; intros m Hok Hn Hi; [done|]. cbn [allocate_all length] in *.
  pose proof (allocate_spec (d_path e) m Hok ltac:(lia)) as Ha. unfold allocate, get_inode in *.
  destruct (pm_get (d_path e) (path_to_inode m)) as [j|].
  - specialize (IH m Hok ltac:(lia) Hi). by destruct (allocate_all es m).
  - cbn [draw] in *. destruct Ha as (Hok1 & _ & _ & Hnext & _ & Hfree).
    specialize (IH _ Hok1 ltac:(lia)). destruct (allocate_all es _) as [is_ m2]. cbn [snd] in *. apply IH.
    unfold get_path in *. simpl. rewrite lookup_insert_ne; [done|]. intros <-. congruence.
Qed.

(** *** Pages *)

(** The whole listing of a directory. *)
Definition full_listing (i : Z) es ids : list (Z * FileType * string) :=
  (i, Directory, ".") :: (i, Directory, "..") :: listed es ids.

(** The server lists [p] as [l] whenever it is asked, what the cache keeps of the
    directory, valid or not, is the same, and the clock does not overflow. *)
Record listed_as (nows : nat -> Now) p (l : DirectoryListResponse) s : Prop := {
  la_server : forall n, fst (cl_read_dir p (Nat.iter n (fun c => snd (cl_read_dir p c)) (client (async_fs s)))) = Ok l;
  la_cached : forall e, pm_get p (readdir_cache (cache (async_fs s))) = Some e -> value e = l;
  la_clock : forall k, nows k 1%nat + ttl (cache (async_fs s)) <= instant_max
}.

Lemma listed_as_ext nows p l s s' :
  client (async_fs s') = client (async_fs s) \/ client (async_fs s') = snd (cl_read_dir p (client (async_fs s))) ->
  (forall e, pm_get p (readdir_cache (cache (async_fs s'))) = Some e -> value e = l) ->
  ttl (cache (async_fs s')) = ttl (cache (async_fs s)) -> listed_as nows p l s -> listed_as nows p l s'.
Proof.
  intros Hc He Ht [Hs _ Hk]. split; [|exact He|by rewrite Ht].
  intros n. destruct Hc as [->| ->]; [apply Hs|]. specialize (Hs (S n)). by rewrite Nat.iter_succ_r in Hs.
Qed.

Definition numbers_of (l : DirectoryListResponse) s : list Z := fst (allocate_all (entries l) (inodes (async_fs s))).

(** A look into the cache keeps what it has or forgets it. *)
Lemma get_readdir_listed nows k p l s : listed_as nows p l s ->
  exists o c, get_readdir (E := Errno) (nows k) p (cache (async_fs s)) = (Ok o, c) /\
    (o = Some l \/ o = None) /\ ttl c = ttl (cache (async_fs s)) /\
    (forall e, pm_get p (readdir_cache c) = Some e -> value e = l).
Proof.
  intros [_ He _]. unfold get_readdir. munfold.
  destruct (pm_get p (readdir_cache (cache (async_fs s)))) as [e|] eqn:E; simpl.
  - specialize (He e eq_refl). destruct (is_valid (nows k) e); simpl; eexists _, _; (split; [reflexivity|]).
    + split; [left; by rewrite He|]. split; [done|]. simpl. intros e' He'. congruence.
    + split; [by right|]. split; [done|]. simpl. intros e'. by rewrite pm_get_remove.
  - eexists _, _. split; [reflexivity|]. split; [by right|]. split; [done|]. simpl. intros e'. by rewrite E.
Qed.

(** One page, from the cache or fetched. *)
Lemma readdir_page nows k i p l s o : get_path i (inodes (async_fs s)) = Some p -> listed_as nows p l s ->
  exists s', readdir fits (nows k) i o s =
      (RDirectory <$> fill fits o 0 (zdrop o (full_listing i (entries l) (numbers_of l s))) [], s') /\
    listed_as nows p l s' /\ inodes (async_fs s') = snd (allocate_all (entries l) (inodes (async_fs s))).
Proof.
  intros Hp Hl. destruct (get_readdir_listed nows k p l s Hl) as (found & c & Hget & Hfound & Ht & He).
  unfold readdir, block_on, readdir_async. rewrite run_bind, (bind_ok _ _ _ _ _ (path_of_run i p _ Hp)).
  rewrite (bind_ok (on_cache _) _ (async_fs s)
    {| client := client (async_fs s); inodes := inodes (async_fs s); cache := c |} found)
    by (unfold on_cache; by rewrite Hget).
  assert (Hend : forall c' k', client (async_fs s) = c' \/ snd (cl_read_dir p (client (async_fs s))) = c' ->
      ttl k' = ttl (cache (async_fs s)) -> (forall e, pm_get p (readdir_cache k') = Some e -> value e = l) ->
      let s' := {| async_fs := {| client := c'; inodes := snd (allocate_all (entries l) (inodes (async_fs s))); cache := k' |};
                   lock_state := lock_state s |} in
      listed_as nows p l s' /\ inodes (async_fs s') = snd (allocate_all (entries l) (inodes (async_fs s)))).
  { intros c' k' Hc Hk He'. split; [|done]. apply (listed_as_ext _ _ _ s); [simpl; destruct Hc; auto|done..]. }
  destruct Hfound as [->| ->].
  - rewrite (bind_ok (mret l) _ _ _ l eq_refl), (bind_ok _ _ _ _ _ (list_entries_run (entries l) _)).
    cbn [fst snd inodes client cache mret M_ret map_err]. unfold fmap, M_fmap, lift.
    eexists. split; [reflexivity|]. apply Hend; auto.
  - pose proof (la_server _ _ _ _ Hl 0%nat) as Hsrv. change (Nat.iter 0 _ ?c0) with c0 in Hsrv. pose proof (la_clock _ _ _ _ Hl k) as Hk.
    set (k' := set_readdir (pm_insert p {| value := l; expires_at := nows k 1%nat + ttl c |} (readdir_cache c)) c).
    rewrite (bind_ok _ _ _ {| client := snd (cl_read_dir p (client (async_fs s))); inodes := inodes (async_fs s); cache := k' |} l).
    2: { rewrite run_bind. unfold call. cbn [client inodes cache]. rewrite Hsrv. rewrite run_bind, on_cache_run.
         cbn [client inodes cache]. unfold put_readdir, cache_entry, instant_add. munfold.
         change (now_from 1 (nows k) 0%nat) with (nows k 1%nat).
         destruct (Z.ltb_spec instant_max (nows k 1%nat + ttl c)); [lia|]. done. }
    rewrite (bind_ok _ _ _ _ _ (list_entries_run (entries l) _)).
    cbn [fst snd inodes client cache mret M_ret map_err]. unfold fmap, M_fmap, lift.
    eexists. split; [reflexivity|]. apply Hend; [auto|done|]. unfold k'. simpl. intros e. rewrite pm_get_insert. by intros [= <-].
Qed.

Lemma numbered_take n o l : take n (numbered o l) = numbered o (take n l).
Proof. revert o l. induction n as [|n IH]; intros o [|[[i kd] nm] l]; try done. simpl. by rewrite IH. Qed.

(** One turn of the kernel's loop. *)
Lemma list_dir_step nows fuel k i p l s j :
  get_path i (inodes (async_fs s)) = Some p -> listed_as nows p l s -> (forall d, fits [] d = true) ->
  let full := full_listing i (entries l) (numbers_of l s) in
  (j <= length full)%nat -> len full <= u64_max ->
  exists n s', ((j < length full)%nat -> (0 < n)%nat) /\ (j + n <= length full)%nat /\
    listed_as nows p l s' /\ inodes (async_fs s') = snd (allocate_all (entries l) (inodes (async_fs s))) /\
    list_dir (S fuel) k nows i (Z.of_nat j) s =
      if (n =? 0)%nat then (Ok [], s')
      else (rest ← list_dir fuel (S k) nows i (Z.of_nat (j + n));
            mret (take n (drop j (numbered 0 full)) ++ rest)) s'.
Proof.
  intros Hp Hl Hfits full Hj Hmax.
  destruct (readdir_page nows k i p l s (Z.of_nat j) Hp Hl) as (s' & Hpage & Hl' & Hi').
  cbn [list_dir]. rewrite run_bind, Hpage. clear Hpage. fold full.
  clearbody full. unfold zdrop. rewrite Nat2Z.id. unfold len in Hmax.
  assert (Hrest : length (drop j full) = (length full - j)%nat) by apply length_drop.
  destruct (fill_spec (Z.of_nat j) 0 (drop j full) [] ltac:(lia) ltac:(lia) ltac:(unfold len; lia)) as (n & -> & Hn).
  set (n' := Nat.min n (length full - j)).
  assert (Hpage : take n (numbered (Z.of_nat j + 0) (drop j full)) = take n' (drop j (numbered 0 full))).
  { rewrite numbered_drop, Z.add_0_r. unfold n'. rewrite <- Hrest, <- (length_dir_numbered (0 + Z.of_nat j)).
    destruct (Nat.min_spec n (length (numbered (0 + Z.of_nat j) (drop j full)))) as [[_ ->]|[Hge ->]]; [done|].
    rewrite firstn_all. by rewrite take_ge. }
  rewrite Hpage. cbn [app]. exists n', s'. split.
  { intros Hlt. assert (0 < n)%nat; [|lia]. apply Hn; [done..|]. intros E. rewrite E in Hrest. simpl in Hrest. lia. }
  split; [lia|]. split; [exact Hl'|]. split; [exact Hi'|]. unfold fmap, outcome_fmap.
  assert (Hlen : length (take n' (drop j full)) = n') by (rewrite length_take; lia).
  assert (Heq : take n' (drop j (numbered 0 full)) = numbered (Z.of_nat j) (take n' (drop j full))).
  { by rewrite numbered_drop, numbered_take. }
  rewrite Heq. pose proof (numbered_last (Z.of_nat j) (take n' (drop j full))) as Hlast.
  destruct (last (numbered (Z.of_nat j) (take n' (drop j full)))) as [d|] eqn:E.
  - rewrite (Hlast d eq_refl), Hlen, <- Nat2Z.inj_add. destruct (Nat.eqb_spec n' 0) as [Hz|_]; [|done].
    rewrite Hz in E. done.
  - apply last_None in E. apply (f_equal length) in E. rewrite length_dir_numbered, Hlen in E. simpl in E. by rewrite E.
Qed.

(** Once the entries have their numbers every page leaves them. *)
Lemma list_dir_settled nows fuel k i p l s j :
  get_path i (inodes (async_fs s)) = Some p -> listed_as nows p l s -> (forall d, fits [] d = true) ->
  let full := full_listing i (entries l) (numbers_of l s) in
  known (entries l) (numbers_of l s) (inodes (async_fs s)) ->
  (j <= length full)%nat -> len full <= u64_max -> (length full - j < fuel)%nat ->
  exists s', list_dir fuel k nows i (Z.of_nat j) s = (Ok (drop j (numbered 0 full)), s') /\
    inodes (async_fs s') = inodes (async_fs s).
Proof.
  revert k s j. induction fuel as [|fuel IH]; intros k s j Hp Hl Hfits full Hknown Hj Hmax Hfuel; [lia|].
  destruct (list_dir_step nows fuel k i p l s j Hp Hl Hfits Hj Hmax) as (n & s1 & Hn & Hjn & Hl1 & Hi1 & ->).
  fold full in Hn, Hjn |- *. pose proof (allocate_all_known _ _ _ Hknown) as Hall. rewrite Hall in Hi1. cbn [snd] in Hi1.
  destruct (Nat.eqb_spec n 0) as [->|Hpos].
  - eexists. split; [|exact Hi1]. do 2 f_equal. symmetry. apply nil_length_inv.
    rewrite length_drop, length_dir_numbered. destruct (decide (j < length full)%nat) as [Hlt|Hge]; [specialize (Hn Hlt)|]; lia.
  - assert (Hids : numbers_of l s1 = numbers_of l s) by (unfold numbers_of; by rewrite Hi1).
    specialize (IH (S k) s1 (j + n)%nat). rewrite Hids, Hi1 in IH. fold full in IH.
    destruct (IH Hp Hl1 Hfits Hknown Hjn Hmax ltac:(lia)) as (s' & Hs' & Hi').
    exists s'. rewrite (bind_ok _ _ _ _ _ Hs'). split; [|exact Hi'].
    rewrite <- drop_drop. unfold mret, M_ret. by rewrite take_drop.
Qed.

(** C11: however small the pages are, as long as each has room for an entry, the
    kernel's loop over a directory that the server lists in the same way all the
    while ends, and it has been given every entry exactly once and in order: the
    two dot entries, then those of the listing, with their names, kinds and
    numbers; whether the listing was cached or has to be fetched, and however
    often it expires between two pages. *)
Theorem fuse_listing_complete nows fuel i p l s :
  get_path i (inodes (async_fs s)) = Some p -> listed_as nows p l s -> (forall d, fits [] d = true) ->
  inodes_ok (inodes (async_fs s)) ->
  next_inode (inodes (async_fs s)) + len (entries l) < u64_max -> 2 + len (entries l) <= u64_max ->
  (length (entries l) + 3 < fuel)%nat ->
  exists ids s', list_dir fuel 0 nows i 0 s = (Ok (numbered 0 (full_listing i (entries l) ids)), s') /\
    Forall2 (fun e k => get_inode (d_path e) (inodes (async_fs s')) = Some k) (entries l) ids.
Proof.
  intros Hp Hl Hfits Hok Hroom Hmax Hfuel. set (ids := numbers_of l s).
  pose proof (allocate_all_recorded (entries l) (inodes (async_fs s))) as Hknown.
  assert (Hlen : length (full_listing i (entries l) ids) = (2 + length (entries l))%nat).
  { unfold full_listing, listed. cbn [length]. rewrite length_zip_with, (Forall2_length _ _ _ Hknown : length (entries l) = length ids). lia. }
  destruct fuel as [|fuel]; [lia|].
  destruct (list_dir_step nows fuel 0 i p l s 0 Hp Hl Hfits) as (n & s1 & Hn & Hjn & Hl1 & Hi1 & Hstep);
    [lia|fold ids; unfold len in *; lia|]. fold ids in Hn, Hjn, Hstep.
  change (Z.of_nat 0) with 0 in Hstep. rewrite Hstep. specialize (Hn ltac:(lia)).
  destruct (Nat.eqb_spec n 0) as [|_]; [lia|].
  assert (Hp1 : get_path i (inodes (async_fs s1)) = Some p) by (rewrite Hi1; by apply allocate_all_paths).
  rewrite <- Hi1 in Hknown.
  assert (Hids : numbers_of l s1 = ids) by (unfold numbers_of; by rewrite (allocate_all_known _ _ _ Hknown)).
  pose proof (list_dir_settled nows fuel 1 i p l s1 n Hp1 Hl1 Hfits) as Hrest. rewrite Hids in Hrest.
  destruct (Hrest Hknown ltac:(lia) ltac:(unfold len in *; lia) ltac:(lia)) as (s' & Hs' & Hi').
  exists ids, s'. rewrite (bind_ok _ _ _ _ _ Hs'). split.
  - unfold mret, M_ret. rewrite drop_0. by rewrite take_drop.
  - rewrite Hi'. exact Hknown.
Qed.
End Listing.

(** ** Attributes, locks and modes *)

Section Replies.
Context `{BuildProfile} {C : Type} `{RacfsClient C}.
Context (b64_encode : bytes -> string) (b64_decode : string -> option bytes) (fits : list DirReply -> DirReply -> bool).
Implicit Types (s : BlockingAdapter C).

Lemma reply_xattr_cases size (d : bytes) s rep : fst (reply_xattr size d s) = rep ->
  match rep with
  | Ok (RSize n) => size = 0 /\ n = u32_wrap (len d)
  | Ok (RData d') => d' = d /\ len d <= size
  | Err e => e = ERANGE /\ size < len d
  | _ => False
  end.
Proof.
  unfold reply_xattr. intros <-. pose proof (len_nonneg d).
  destruct (Z.eqb_spec size 0) as [->|Hne]; [done|]. destruct (Z.leb_spec (len d) size); cbn; [done|].
  split; [done|lia].
Qed.

(** The answer to a request for an attribute or for their names never exceeds the
    buffer that the kernel has for it. *)
Lemma xattr_reply_fits now r s d size :
  (exists i n, r = Getxattr i n size) \/ (exists i, r = Listxattr i size) ->
  fst (dispatch b64_encode b64_decode fits now r s) = Ok (RData d) -> len d <= size.
Proof.
  assert (Hx : forall (m : M (RacfsAsyncFs C) Errno bytes) s,
    fst ((x ← block_on m; reply_xattr size x) s) = Ok (RData d) -> len d <= size).
  { intros m s0. rewrite run_bind. unfold block_on. destruct (m (async_fs s0)) as [[x|e| |] f]; try done. cbn.
    intros Hr. apply reply_xattr_cases in Hr as [-> Hle]. exact Hle. }
  intros [(i & n & ->)|(i & ->)]; apply Hx.
Qed.

(** Closing one file gives back the owner's locks on all the others. *)
Lemma release_frees_everywhere i o j s :
  Forall (fun e => owner e <> o) (default [] (locks (lock_state (snd (release i (Some o) s))) !! j)).
Proof.
  assert (Hl : lock_state (snd (release i (Some o) s)) = remove_owner o (lock_state s)).
  { unfold release. rewrite run_bind. unfold on_locks. cbn. unfold block_on. rewrite run_bind. cbn.
    by destruct (release_async i (async_fs s)) as [[]]. }
  rewrite Hl. unfold remove_owner. cbn [locks].
  destruct (filter _ _ !! j) as [l|] eqn:E; [|constructor]. cbn [default from_option].
  apply map_lookup_filter_Some in E as [E _]. rewrite lookup_fmap_Some in E. destruct E as (l' & <- & _).
  apply List.Forall_forall. intros e He. apply List.filter_In in He as [_ He]. by apply negb_true_iff, Z.eqb_neq in He.
Qed.

(** A change of the size and the mode at once changes the size only, and a new
    file never has the mode that was asked for. *)
Lemma setattr_forgets_mode now i n m s : setattr now i (Some m) (Some n) s = setattr now i None (Some n) s.
Proof. done. Qed.

Lemma create_forgets_mode d n m u m' u' s : create d n m u s = create d n m' u' s.
Proof. done. Qed.
End Replies.

(** ** A server with one directory *)

Section Demo.

Definition an_entry (p : string) : DirectoryEntry :=
  {| d_permissions := "644"; d_size := 5; d_modified := None; d_path := p; d_file_type := Some "file" |}.

Definition tree_client : RacfsClient nat := {|
  cl_stat p := mret {| file_type := "file"; permissions := "644"; size := 5; modified := None; path := p;
                       symlink_target := None |};
  cl_read_file p := mret "hello";
  cl_read_dir p := mret {| entries := [an_entry "/a"; an_entry "/b"; an_entry "/c"] |};
  cl_create_file p := mret ();
  cl_mkdir p m := mret ();
  cl_write_file p t o := modify S;
  cl_remove p := mret ();
  cl_rename p q := mret ();
  cl_chmod p m := mret ();
  cl_truncate p n := mret ();
  cl_symlink t p := mret ();
  cl_get_xattr p x := mret "value";
  cl_set_xattr p x v := mret ();
  cl_list_xattr p := mret ["user.a"];
  cl_remove_xattr p x := mret ()
|}.

#[local] Instance demo_profile : BuildProfile := debug_profile.
#[local] Instance demo_client : RacfsClient nat := tree_client.

(** A buffer for two entries. *)
Definition two_fit (l : list DirReply) (_ : DirReply) : bool := len l <? 2.
Definition still : Now := fun _ => 0.

Definition demo_requests : list (Now * FuseRequest) :=
  [(still, Lookup 1 "a"); (still, Setlk 2 7 0 9 F_WRLCK 1 false); (still, Setlk 2 8 5 6 F_RDLCK 2 false);
   (still, Readdir 1 0); (still, Unlink 1 "a"); (still, Release 2 (Some 7))].

Lemma fuse_session_invariant_witness :
  inodes_ok (inodes (async_fs (snd (run_session (fun _ => "") (fun _ => None) two_fit demo_requests (new 0%nat))))).
Proof.
  apply (fuse_session_invariant (fun _ => "") (fun _ => None) two_fit 3 demo_requests 0%nat).
  - intros p c l [= <-]. reflexivity.
  - vm_compute. reflexivity.
Defined.

Lemma fuse_entry_number_witness :
  exists q, get_path 2 (inodes (async_fs (snd (lookup still 1 "a" (new 0%nat))))) = Some q /\ components q = components "/a".
Proof.
  destruct (fuse_entry_number (fun _ => "") (fun _ => None) two_fit still (Lookup 1 "a") (new 0%nat) 1 "a"
    (REntry TTL (metadata_to_attr 2 {| file_type := "file"; permissions := "644"; size := 5; modified := None;
       path := "/a"; symlink_target := None |}) 0)
    (metadata_to_attr 2 {| file_type := "file"; permissions := "644"; size := 5; modified := None;
       path := "/a"; symlink_target := None |})) as (p & Hp & _ & Hq).
  - reflexivity.
  - vm_compute. reflexivity.
  - reflexivity.
  - injection Hp as <-. apply Hq. apply (run_inode_ops_ok [Allocate "/a"] FuseInodes.new inodes_ok_new). vm_compute. reflexivity.
Defined.

(** Every page is fetched: the clock goes on by an hour from one to the next. *)
Definition hourly (k : nat) : Now := fun _ => Z.of_nat k * 3600 * 10 ^ 9.

Lemma fuse_listing_complete_witness :
  exists ids s', list_dir two_fit 7 0 (fun _ => still) 1 0 (new 0%nat) =
    (Ok (numbered 0 (full_listing 1 [an_entry "/a"; an_entry "/b"; an_entry "/c"] ids)), s').
Proof.
  destruct (fuse_listing_complete two_fit (fun _ => still) 7 1 "/"
    {| entries := [an_entry "/a"; an_entry "/b"; an_entry "/c"] |} (new 0%nat)) as (ids & s' & Hs' & Hids).
  - vm_compute. reflexivity.
  - split; [intros n; reflexivity|intros e [=]|intros k; vm_compute; discriminate].
  - reflexivity.
  - exact inodes_ok_new.
  - vm_compute. reflexivity.
  - vm_compute. intros [=].
  - cbn [entries length]. lia.
  - exists ids, s'. exact Hs'.
Defined.

(** So it does when each page is fetched anew. *)
Example listing_expires :
  fst (list_dir two_fit 7 0 hourly 1 0 (new 0%nat)) = fst (list_dir two_fit 7 0 (fun _ => still) 1 0 (new 0%nat)).
Proof. vm_compute. reflexivity. Qed.
End Demo.
