(* ===== verification/FuseMount.v ===== *)
(** * FuseMount: mounting, and the adapter that only reads
    ([crates/racfs-fuse/src/lib.rs, main.rs, error.rs, async_fs.rs])

    [fuser::mount2], which runs a session to its end, is an argument, and so is
    the connection to a server.  A thread of [mount_multi] is what [mount] answers
    in it; the order in which sessions end does not matter to the joins. *)

From S2P Require Import Prelude Text RPath Metadata FuseInodes FileLocks ClientCircuit ClientApi FuseCache FuseFs BlockingAdapter.
From Stdlib Require Strings.String.

(** ** Errors *)

(* src: crates/racfs-fuse/src/error.rs 5-21 Error *)
Inductive MountError :=
| MountFailed (path message : string)
| ClientError (source : ClientCircuit.Error)
| InvalidPath (path : string)
| InodeNotFound (inode : Z)
| IoError (source : string).

(** The [Display] of the errors, from their [snafu(display)] attributes. *)
(* src: crates/racfs-fuse/src/error.rs 7-20 Error *)
Definition mount_error_display (e : MountError) : string :=
  match e with
  | MountFailed path message => "Failed to mount at " +:+ path +:+ ": " +:+ message
  | ClientError source => "Client error: " +:+ error_display source
  | InvalidPath path => "Invalid path: " +:+ path
  | InodeNotFound inode => "Inode not found: " +:+ to_string inode
  | IoError source => "IO error: " +:+ source
  end.

(* src: crates/racfs-fuse/src/error.rs 23-27 Error::from *)
Definition from_client (e : ClientCircuit.Error) : MountError := ClientError e.
(* src: crates/racfs-fuse/src/error.rs 29-33 Error::from *)
Definition from_io (e : string) : MountError := IoError e.

Inductive MountOption := FSName (name : string) | AutoUnmount | RO.

(** ** The adapter that only reads *)

Section Async.
Context `{BuildProfile} {C : Type} `{RacfsClient C} (fits : list DirReply -> DirReply -> bool).
Implicit Types (now : Now) (i : Z).
Abbreviation Op := (M (RacfsAsyncFs C) Errno).

(* src: crates/racfs-fuse/src/async_fs.rs 851-861 RacfsAsyncFs::lookup *)
Definition async_lookup now (parent : Z) (name : string) : Op (Z * FileAttr * Z) := lookup_async now parent name.

(* src: crates/racfs-fuse/src/async_fs.rs 863-871 RacfsAsyncFs::getattr *)
Definition async_getattr now i : Op (Z * FileAttr) := getattr_async now i.

(* src: crates/racfs-fuse/src/async_fs.rs 873-887 RacfsAsyncFs::read *)
Definition async_read i (offset size : Z) (out_data : bytes) : Op bytes :=
  data ← read_async i offset size; lift (extend_from_slice data out_data).

(** The loop over the entries, up to the one that the builder refuses. *)
(* src: crates/racfs-fuse/src/async_fs.rs 898-903 RacfsAsyncFs::readdir *)
Fixpoint add_entries (offset k : Z) (es : list (Z * FileType * string)) (builder : list DirReply) : outcome Errno (list DirReply) :=
  match es with
  | [] => Ok builder
  | (inode, kind, name) :: rest =>
    a ← u64_add offset k;
    next_offset ← u64_add a 1;
    let d := {| de_ino := inode; de_next := next_offset; de_kind := kind; de_name := name |} in
    if fits builder d then add_entries offset (k + 1) rest (builder ++ [d]) else Ok builder
  end.

(* src: crates/racfs-fuse/src/async_fs.rs 889-905 RacfsAsyncFs::readdir *)
Definition async_readdir now i (offset : Z) : Op (list DirReply) :=
  entries ← readdir_async now i offset; lift (add_entries offset 0 entries []).

(** ** It answers as the other adapter *)

(** [block_on] of a call, as the reply that the kernel gets. *)
Definition same_answer {A} (reply : A -> FuseReply) (blocking : M (BlockingAdapter C) ReplyErrno FuseReply) (async : Op A) : Prop :=
  forall s, blocking s = (map_err FsErrno (reply <$> fst (async (async_fs s))),
                          {| async_fs := snd (async (async_fs s)); lock_state := lock_state s |}).

Lemma same_block_on {A} (reply : A -> FuseReply) (m : Op A) : same_answer reply (reply <$> block_on m) m.
Proof.
  intros s. change ((reply <$> block_on m) s) with (reply <$> fst (block_on m s), snd (block_on m s)).
  unfold block_on. by destruct (m (async_fs s)) as [[a|e| |] f].
Qed.

Lemma added_same {X} a b (f : Z -> outcome ReplyErrno X) (g : Z -> outcome Errno X) :
  (forall z, f z = map_err FsErrno (g z)) ->
  (z ← usize_add a b; f z) = map_err FsErrno (z ← u64_add a b; g z).
Proof.
  intros Hfg. unfold usize_add, u64_add, checked_arith.
  destruct (in_u64 (a + b)); [apply Hfg|]. destruct overflow_checks; [done|apply Hfg].
Qed.

Lemma fill_add_entries offset k es buf : fill fits offset k es buf = map_err FsErrno (add_entries offset k es buf).
Proof.
  revert k buf. induction es as [|[[inode kind] name] es IH]; intros k buf; [done|]. cbn [fill add_entries].
  apply added_same. intros a. apply added_same. intros next. destruct (fits buf _); [apply IH|done].
Qed.

(** Every request that the reading adapter serves is answered by both in the same
    way, from the same filesystem; of a read, what is there before stays in
    front. *)
Theorem async_adapter_same now i parent name offset size :
  same_answer reply_entry (BlockingAdapter.lookup now parent name) (async_lookup now parent name) /\
  same_answer reply_attr (BlockingAdapter.getattr now i) (async_getattr now i) /\
  same_answer RDirectory (BlockingAdapter.readdir fits now i offset) (async_readdir now i offset) /\
  same_answer RData (BlockingAdapter.read i offset size) (read_async i offset size).
Proof.
  split; [apply same_block_on|]. split; [apply same_block_on|]. split; [|apply same_block_on].
  intros s. unfold BlockingAdapter.readdir, async_readdir. rewrite !run_bind. unfold block_on at 1.
  destruct (readdir_async now i offset (async_fs s)) as [[l|e| |] f]; try done. cbn [fst snd map_err].
  change ((RDirectory <$> lift (fill fits offset 0 l [])) ?x) with (RDirectory <$> fill fits offset 0 l [], x).
  rewrite fill_add_entries. unfold lift. cbn. by destruct (add_entries offset 0 l []).
Qed.
End Async.

(** ** Mounting *)

Section Mount.
Context {C : Type} (connect : string -> outcome ClientCircuit.Error C).

(** A session of [fuser], with what serves it. *)
Context (mount2 : BlockingAdapter C -> Path -> list MountOption -> outcome string ()).
Context (mount2_async : RacfsAsyncFs C -> Path -> list MountOption -> outcome string ()).

(* src: crates/racfs-fuse/src/lib.rs 61-78 mount *)
Definition mount (server_url : string) (mount_point : Path) : outcome MountError () :=
  c ← map_err from_client (connect server_url);
  map_err (MountFailed mount_point) (mount2 (BlockingAdapter.new c) mount_point [FSName "racfs"; AutoUnmount]).

(* src: crates/racfs-fuse/src/lib.rs 143-164 mount_async *)
Definition mount_async (server_url : string) (mount_point : Path) : outcome MountError () :=
  c ← map_err from_client (connect server_url);
  map_err (MountFailed mount_point) (mount2_async (FuseFs.new c) mount_point [FSName "racfs"; AutoUnmount; RO]).

(** The command line of the executable. *)
(* src: crates/racfs-fuse/src/main.rs 8-19 Cli *)
Record FuseCli := { fuse_mountpoint : Path; fuse_server : string }.

(** The arguments after parsing: one mount point, and the server if it is given. *)
(* src: crates/racfs-fuse/src/main.rs 12-18 Cli *)
Definition fuse_cli (mount_point : Path) (server : option string) : FuseCli :=
  {| fuse_mountpoint := mount_point; fuse_server := default "http://127.0.0.1:8080" server |}.

(** What the executable prints on failure, with the status it ends with. *)
(* src: crates/racfs-fuse/src/main.rs 21-34 main *)
Definition fuse_main (cli : FuseCli) : outcome Empty_set (option string * Z) :=
  match mount (fuse_server cli) (fuse_mountpoint cli) with
  | Ok _ => Ok (None, 0)
  | Err e => Ok (Some ("Failed to mount: " +:+ mount_error_display e), 1)
  | Panic => Panic
  | Diverge => Diverge
  end.

(** The joins; a session that does not end is waited for. *)
(* src: crates/racfs-fuse/src/lib.rs 116-134 mount_multi *)
Fixpoint join_all (handles : list (Path * outcome MountError ())) (first_error : outcome MountError ()) : outcome MountError () :=
  match handles with
  | [] => first_error
  | (path, h) :: handles =>
    match h with
    | Ok _ => join_all handles first_error
    | Err e => join_all handles (if is_ok first_error then Err e else first_error)
    | Panic => join_all handles (if is_ok first_error then Err (MountFailed path "mount thread panicked") else first_error)
    | Diverge => Diverge
    end
  end.

(* src: crates/racfs-fuse/src/lib.rs 96-137 mount_multi *)
Definition mount_multi (mounts : list (string * Path)) : outcome MountError () :=
  if (length mounts =? 0)%nat then Ok ()
  else join_all (map (fun '(url, p) => (p, mount url p)) mounts) (Ok ()).

(** The error of a thread. *)
Definition thread_error (h : Path * outcome MountError ()) : option MountError :=
  match snd h with
  | Err e => Some e
  | Panic => Some (MountFailed (fst h) "mount thread panicked")
  | _ => None
  end.

Lemma join_all_spec handles r :
  Forall (fun h => snd h <> Diverge) handles -> returned r = true ->
  join_all handles r = match r with Err e => Err e | _ => match omap thread_error handles with e :: _ => Err e | [] => Ok () end end.
Proof.
  revert r. induction handles as [|[p h] handles IH]; intros r Hd Hr.
  - by destruct r as [[]| | |].
  - apply Forall_cons in Hd as [Hh Hd]. cbn in Hh. destruct h as [[]|e| |]; [| | |done]; cbn [join_all].
    all: rewrite IH by (done || by destruct r). all: by destruct r.
Qed.

(** Mounting several waits for all of them and answers the first error in the
    order of the arguments, whichever failed first; a thread that panics counts
    as a failure. *)
Theorem mount_multi_spec mounts :
  Forall (fun '(url, p) => mount url p <> Diverge) mounts ->
  mount_multi mounts =
    match omap (fun '(url, p) => thread_error (p, mount url p)) mounts with e :: _ => Err e | [] => Ok () end.
Proof.
  intros Hd. unfold mount_multi. destruct mounts as [|m mounts]; [done|]. cbn [length Nat.eqb].
  rewrite join_all_spec; [|apply Forall_map; eapply Forall_impl; [exact Hd|by intros [url p]]|done].
  assert (Heq : forall l, omap thread_error (map (fun '(url, p) => (p, mount url p)) l) =
    omap (fun '(url, p) => thread_error (p, mount url p)) l).
  { induction l as [|[url p] l IH]; [done|]. cbn. by rewrite IH. }
  by rewrite Heq.
Qed.

(** The executable is [mount_multi] of its one mount point: it ends with status 0
    when that succeeds, and otherwise prints its error, unless the session
    panics, which ends the executable too and is an error of a thread. *)
Lemma fuse_main_multi cli :
  fuse_main cli = Panic \/
  fuse_main cli = match mount_multi [(fuse_server cli, fuse_mountpoint cli)] with
                  | Ok _ => Ok (None, 0)
                  | Err e => Ok (Some ("Failed to mount: " +:+ mount_error_display e), 1)
                  | Panic => Panic
                  | Diverge => Diverge
                  end.
Proof. unfold fuse_main, mount_multi. cbn. destruct (mount _ _) as [[]|e| |]; auto. Qed.
End Mount.
