(* ===== verification/FuseRemote.v ===== *)
(** * FuseRemote: the FUSE filesystem over the real client and server

    [FuseFs] is proved against the interface [RacfsClient]; here the interface is
    implemented by the methods of [ClientApi] over the server of [Remote], and
    the kernel's calls are followed down to the filesystem of the server. *)

From S2P Require Import MemFS.
From S2P Require Import Prelude Text RPath FsError Metadata FileSystem Json Http HttpError.
From S2P Require Import Validation Metrics RateLimiter StatCache Auth ServerTypes ServerApi ClientApi Remote.
From S2P Require Import FuseInodes FuseCache FuseFs.
From Stdlib Require Strings.String.

(** The client with the number of calls it has made; every call brings its own
    readings of the client's clock. *)
Record Clocked (W : Type) := { api : ApiClient W; calls : nat }.
Arguments api {W}.
Arguments calls {W}.

Section Instance_.
Context `{BuildProfile} `{JsonText} {W : Type} (send : HttpRequest -> W -> (Response + SendError) * W).
Context (status_text : Z -> string) (decode_error : SendError) (client_clocks : nat -> Now).

Definition on_api {A} (m : Now -> M (ApiClient W) Error A) : M (Clocked W) Error A := fun s =>
  let '(o, a) := m (client_clocks (calls s)) (api s) in (o, {| api := a; calls := S (calls s) |}).

Definition done_by (m : Now -> M (ApiClient W) Error MessageResponse) : M (Clocked W) Error () :=
  _ ← on_api m; mret ().

Definition api_client : RacfsClient (Clocked W) := {|
  cl_stat p := on_api (fun now => ClientApi.stat send status_text decode_error now p);
  cl_read_file p := on_api (fun now => ClientApi.read_file send status_text now p);
  cl_read_dir p := on_api (fun now => ClientApi.read_dir send status_text decode_error now p);
  cl_create_file p := done_by (fun now => ClientApi.create_file send status_text decode_error now p);
  cl_mkdir p m := done_by (fun now => ClientApi.mkdir send status_text decode_error now p m);
  cl_write_file p d o := done_by (fun now => ClientApi.write_file send status_text decode_error now p d o);
  cl_remove p := done_by (fun now => ClientApi.remove send status_text decode_error now p);
  cl_rename a b := done_by (fun now => ClientApi.rename send status_text decode_error now a b);
  cl_chmod p m := done_by (fun now => ClientApi.chmod send status_text decode_error now p m);
  cl_truncate p n := done_by (fun now => ClientApi.truncate send status_text decode_error now p n);
  cl_symlink t l := done_by (fun now => ClientApi.symlink send status_text decode_error now t l);
  cl_get_xattr p n :=
    r ← on_api (fun now => ClientApi.get_xattr send status_text decode_error now p n); mret (x_value r);
  cl_set_xattr p n v := done_by (fun now => ClientApi.set_xattr send status_text decode_error now p n v);
  cl_list_xattr p :=
    r ← on_api (fun now => ClientApi.list_xattr send status_text decode_error now p); mret (names r);
  cl_remove_xattr p n := done_by (fun now => ClientApi.remove_xattr send status_text decode_error now p n)
|}.
End Instance_.

(** ** Attributes *)

Lemma permissions_range m : 0 <= Metadata.permissions m < 512.
Proof.
  unfold Metadata.permissions. change perm_mask with (Z.ones 9). rewrite Z.land_ones by lia.
  change (2 ^ 9) with 512. apply Z.mod_pos_bound. lia.
Qed.

(** The server writes permissions in octal, the filesystem reads them as nine
    letters. *)
Lemma octal_permissions n : 0 <= n < 512 -> parse_permissions (to_octal n) = 0.
Proof.
  intros Hn.
  assert (Hall : forallb (fun n => parse_permissions (to_octal n) =? 0) (seqZ 0 512) = true) by (vm_compute; done).
  rewrite List.forallb_forall in Hall. apply Z.eqb_eq, Hall.
  apply list_elem_of_In, elem_of_seqZ. lia.
Qed.

(** What the kernel is told of a file with metadata [m]. *)
Definition remote_attr (fmt : DateTime -> string) (i : Z) (m : FileMetadata) : FileAttr :=
  metadata_to_attr i (stat_reply (metadata_response fmt m)).

(** The type bits decide on the kind; size and number are told as they are, the
    permissions and the four times are always zero. *)
Lemma remote_attr_fields fmt i m :
  let a := remote_attr fmt i m in
  ino a = i /\ attr_size a = Metadata.size m /\ perm a = 0 /\ uid a = 1000 /\ gid a = 1000 /\
  (atime a = 0 /\ mtime a = 0 /\ ctime a = 0 /\ crtime a = 0) /\
  kind a = (if Z.land (mode m) S_IFMT =? S_IFDIR then Directory
            else if Z.land (mode m) S_IFMT =? S_IFLNK then Symlink else RegularFile).
Proof.
  cbv zeta. unfold remote_attr, metadata_to_attr. cbn [ino attr_size perm atime mtime ctime crtime uid gid kind stat_reply metadata_response
    ClientTypes.size ClientTypes.permissions ClientTypes.modified ClientTypes.file_type
    mr_size mr_permissions mr_modified mr_file_type].
  split; [done|]. split; [done|]. split; [apply octal_permissions, permissions_range|]. split; [done|]. split; [done|].
  split; [by destruct (Metadata.modified m)|].
  unfold Metadata.file_type. cbv zeta.
  destruct (Z.eqb_spec (Z.land (mode m) S_IFMT) S_IFREG) as [->|]; [done|].
  destruct (Z.land (mode m) S_IFMT =? S_IFDIR); [done|].
  destruct (Z.land (mode m) S_IFMT =? S_IFLNK); [done|].
  destruct (Z.land (mode m) S_IFMT =? S_IFCHR), (Z.land (mode m) S_IFMT =? S_IFBLK),
    (Z.land (mode m) S_IFMT =? S_IFIFO), (Z.land (mode m) S_IFMT =? S_IFSOCK); done.
Qed.

(** ** Down to the server *)

Section Kernel.
Context `{BuildProfile} {V : Type} `{FileSystem V} `{Encodings} `{JsonTextLaws} `{Axum} `{Prometheus} `{Bcrypt} `{JwtEncode}.
Context (clocks : nat -> Clocks) (hash_str : string -> Z) (lost : SendError).
Context (status_text : Z -> string) (decode_error : SendError) (client_clocks : nat -> Now).
Implicit Types (now : Now).

#[local] Instance remote_client : RacfsClient (Clocked (Server V)) :=
  api_client (serve clocks hash_str lost) status_text decode_error client_clocks.

Abbreviation Fuse := (RacfsAsyncFs (Clocked (Server V))).
Implicit Types (f : Fuse).

(** The server as it is, and the client that talks to it. *)
Definition server_of f : Server V := network (http (api (client f))).

(** The next call is let through by the client and by the limiter. *)
Definition passes f (k : ClientCall) : Prop :=
  ready (api (client f)) /\ call_ok k = true /\
  requests_used clocks hash_str (api (client f)) k (server_of f) < max_requests (config (limiter (server_of f))).

Lemma call_passes f k rep :
  passes f k -> fst (local_run clocks k (server_of f)) = Ok rep -> reply_ok rep ->
  fst (client_call (serve clocks hash_str lost) status_text decode_error (client_clocks (calls (client f))) k
         (api (client f))) = Ok rep.
Proof.
  intros (Hready & Hok & Hlim) Hrun Hrep.
  destruct (call_served clocks hash_str lost status_text decode_error
              (client_clocks (calls (client f))) k _ Hready Hok) as (h & -> & _).
  - fold (server_of f). by rewrite Hrun.
  - fold (server_of f). intros rep'. rewrite Hrun. by intros [= <-].
  - fold (server_of f). cbn [fst]. destruct (Z.ltb_spec (requests_used clocks hash_str (api (client f)) k (server_of f))
      (max_requests (config (limiter (server_of f))))); [|lia]. by rewrite Hrun.
Qed.

Lemma cl_stat_run f p m :
  passes f (KStat p) -> fst (local_run clocks (KStat p) (server_of f)) = Ok (RStat m) ->
  in_u64 (ClientTypes.size m) = true -> fst (cl_stat p (client f)) = Ok m.
Proof.
  intros Hp Hrun Hm. pose proof (call_passes f (KStat p) (RStat m) Hp Hrun Hm) as Hc.
  unfold cl_stat, remote_client, api_client, on_api. cbn [client_call] in Hc. unfold fmap, M_fmap in Hc.
  destruct (ClientApi.stat _ _ _ _ _ _) as [[m'|e| |] c]; simpl in Hc; by simplify_eq.
Qed.

Lemma cl_read_file_run f p t :
  passes f (KReadFile p) -> fst (local_run clocks (KReadFile p) (server_of f)) = Ok (RText t) ->
  fst (cl_read_file p (client f)) = Ok t.
Proof.
  intros Hp Hrun. pose proof (call_passes f (KReadFile p) (RText t) Hp Hrun I) as Hc.
  unfold cl_read_file, remote_client, api_client, on_api. cbn [client_call] in Hc. unfold fmap, M_fmap in Hc.
  destruct (ClientApi.read_file _ _ _ _ _) as [[m'|e| |] c]; simpl in Hc; by simplify_eq.
Qed.

(** C39: when the attributes of a file are not cached and the client gets through
    to the server, what the kernel gets has the size of the file on the server;
    directories and symlinks have their kind, and everything else is a regular
    file, devices included; but the permissions are always none, the four times
    always the epoch, and the owner always 1000. *)
Theorem fuse_getattr_remote now i p f m :
  get_path i (inodes f) = Some p -> pm_get p (FuseCache.stat_cache (cache f)) = None ->
  now 1%nat + ttl (cache f) <= instant_max ->
  passes f (KStat p) -> validate_path p = Ok () ->
  (let cl := clocks (served (server_of f)) in
   fst (cached_stat (wall cl) (now_from 1 (mono cl)) p (app (server_of f))) = Ok m) ->
  in_u64 (Metadata.size m) = true ->
  let a := remote_attr fmt_minutes i m in
  fst (getattr_async now i f) = Ok (TTL, a) /\
  ino a = i /\ attr_size a = Metadata.size m /\ perm a = 0 /\ uid a = 1000 /\ gid a = 1000 /\
  (atime a = 0 /\ mtime a = 0 /\ ctime a = 0 /\ crtime a = 0) /\
  kind a = (if Z.land (mode m) S_IFMT =? S_IFDIR then Directory
            else if Z.land (mode m) S_IFMT =? S_IFLNK then Symlink else RegularFile).
Proof.
  intros Hi Hmiss Httl Hp Hval Hstat Hsize a. split; [|apply remote_attr_fields].
  assert (Hrun : fst (local_run clocks (KStat p) (server_of f)) = Ok (RStat (stat_reply (metadata_response fmt_minutes m)))).
  { unfold local_run. cbn [local_call]. unfold fmap, M_fmap. unfold ServerApi.stat. rewrite run_bind. unfold lift.
    rewrite Hval, run_bind. cbv zeta in Hstat.
    destruct (cached_stat _ _ _ _) as [o a']. simpl in Hstat. by subst o. }
  pose proof (cl_stat_run f p _ Hp Hrun Hsize) as Hcl.
  unfold getattr_async. rewrite run_bind, (path_of_run i p f Hi), run_bind, on_cache_run.
  assert (Hget : get_stat (E := Errno) now p (cache f) = (Ok None, count_miss (cache f))).
  { unfold get_stat. rewrite run_bind. unfold get. by rewrite Hmiss. }
  rewrite Hget. cbn [fst snd]. rewrite run_bind. unfold call. cbn [client]. rewrite Hcl.
  rewrite run_bind, on_cache_run. cbn [cache]. unfold put_stat. rewrite run_bind. unfold get.
  unfold cache_entry, instant_add. change (now_from 1 now 0%nat) with (now 1%nat).
  change (ttl (count_miss (cache f))) with (ttl (cache f)).
  destruct (Z.ltb_spec instant_max (now 1%nat + ttl (cache f))); [lia|]. reflexivity.
Qed.

(** What the kernel reads of a file that the server could read is a range of
    the JSON text of its content: a file begins with a quote, always. *)
Theorem fuse_read_remote i p f data v offset n :
  get_path i (inodes f) = Some p -> pm_get p (file_content_cache (cache f)) = None ->
  passes f (KReadFile p) -> validate_path p = Ok () ->
  fs_read (wall (clocks (served (server_of f)))) p 0 (-1) (vfs (app (server_of f))) = (Ok data, v) ->
  let text := as_bytes (json_to_string (JStr (from_utf8_lossy data))) in
  fst (read_async i offset n f) = content_range offset n text /\
  head text = Some Byte.x22 /\ fst (read_async i 0 1 f) = Ok [Byte.x22].
Proof.
  intros Hi Hmiss Hp Hval Hread text.
  assert (Hrun : fst (local_run clocks (KReadFile p) (server_of f)) = Ok (RText (json_to_string (JStr (from_utf8_lossy data))))).
  { unfold local_run. cbn [local_call]. unfold fmap, M_fmap. unfold ServerApi.read_file.
    rewrite run_bind. unfold lift. rewrite Hval. rewrite run_bind. unfold call_vfs. by rewrite Hread. }
  pose proof (cl_read_file_run f p _ Hp Hrun) as Hcl.
  assert (Hgen : forall o k, fst (read_async i o k f) = content_range o k text).
  { intros o k. unfold read_async. rewrite run_bind, (path_of_run i p f Hi), run_bind, on_cache_run.
    unfold get_file_content, gets. rewrite Hmiss. cbn [fst snd]. rewrite run_bind. unfold call_or, call.
    rewrite run_bind. cbn [client]. rewrite Hcl. unfold mret at 1, M_ret at 1. rewrite run_bind, on_cache_run. done. }
  split; [apply Hgen|]. rewrite Hgen. subst text.
  destruct (json_string_quoted (from_utf8_lossy data)) as (e & -> & _). split; [done|].
  unfold content_range. rewrite usize_add_ok by (unfold u64_max; lia).
  unfold quoted. rewrite as_bytes_app. change (as_bytes dquote) with [Byte.x22].
  set (rest := as_bytes (e +:+ dquote)). change ([Byte.x22] ++ rest) with (Byte.x22 :: rest).
  assert (Hlen : len (Byte.x22 :: rest) = 1 + len rest) by (unfold len; simpl; lia).
  pose proof (len_nonneg rest). simpl mbind. rewrite Z.min_l by lia.
  destruct (Z.ltb_spec 0 (len (Byte.x22 :: rest))); [|lia]. by rewrite slice_ok by lia.
Qed.
End Kernel.

(** ** Witnesses *)

Section Witnesses.
#[local] Existing Instance debug_profile.
#[local] Existing Instance plain_encodings.
#[local] Existing Instance binary_json.
#[local] Existing Instance binary_json_laws.
#[local] Existing Instance plain_axum.
#[local] Existing Instance small_prometheus.
#[local] Existing Instance plain_bcrypt.
#[local] Existing Instance plain_jwt.

#[local] Instance demo_remote : RacfsClient (Clocked (Server MemFS)) :=
  remote_client still_clocks str_len no_error to_string no_error (fun _ => still).

Definition demo_fuse : RacfsAsyncFs (Clocked (Server MemFS)) :=
  {| client := {| api := demo_client 100; calls := 0 |};
     inodes := snd (allocate "/d/f" FuseInodes.new); cache := with_default_ttl |}.

Lemma demo_passes k :
  call_ok k = true -> requests_used still_clocks str_len (demo_client 100) k (demo_server 100) = 0 ->
  passes still_clocks str_len demo_fuse k.
Proof.
  intros Hok Hu. split; [done|]. split; [done|].
  change (server_of demo_fuse) with (demo_server 100). change (api (client demo_fuse)) with (demo_client 100).
  rewrite Hu. vm_compute. done.
Qed.

Lemma fuse_getattr_remote_witness :
  fst (getattr_async still 2 demo_fuse)
  = Ok (TTL, remote_attr fmt_minutes 2 (metadata MemFS.demo_file)) /\
  perm (remote_attr fmt_minutes 2 (metadata MemFS.demo_file)) = 0.
Proof.
  destruct (fuse_getattr_remote still_clocks str_len no_error to_string no_error (fun _ => still)
              still 2 "/d/f" demo_fuse (metadata MemFS.demo_file)) as (H1 & _ & _ & H2 & _).
  - reflexivity.
  - reflexivity.
  - vm_compute. discriminate.
  - apply demo_passes; reflexivity.
  - reflexivity.
  - vm_compute. reflexivity.
  - reflexivity.
  - exact (conj H1 H2).
Defined.

Lemma fuse_read_remote_witness : fst (read_async 2 0 1 demo_fuse) = Ok [Byte.x22].
Proof.
  destruct (fuse_read_remote still_clocks str_len no_error to_string no_error (fun _ => still)
              2 "/d/f" demo_fuse (as_bytes "abc") MemFS.demo 0 1) as (_ & _ & H).
  - reflexivity.
  - reflexivity.
  - apply demo_passes; reflexivity.
  - reflexivity.
  - vm_compute. reflexivity.
  - exact H.
Defined.
End Witnesses.
