(* ===== verification/Stack.v ===== *)
(** * Stack: a file copied through the whole system

    The kernel's writes go through the buffer of the FUSE filesystem, the merging
    of what it holds, the client and its circuit breaker, the wire, the router,
    the limiter and the handler, the mount table and the backend.  The layers are
    composed here: a backend says what its files hold by [FileView], the mount
    table has the files of its backends, and the theorems follow the bytes from
    the kernel to the backend. *)

From S2P Require MemFS MountableFS.
From S2P Require Import Prelude Text RPath FsError Metadata Flags FileSystem Json Http HttpError.
From S2P Require Import Validation Metrics RateLimiter StatCache Auth ServerTypes ServerApi ClientApi Remote.
From S2P Require Import FuseInodes FuseCache FuseFs FuseRemote.
From Stdlib Require Strings.String.

(** ** Writes one behind the other *)

Fixpoint contiguous (o : Z) (datas : list bytes) : list Segment :=
  match datas with
  | [] => []
  | d :: datas => (o, d) :: contiguous (o + len d) datas
  end.

Lemma contiguous_app o xs ys :
  contiguous o (xs ++ ys) = contiguous o xs ++ contiguous (o + len (concat xs)) ys.
Proof.
  revert o. induction xs as [|x xs IH]; intros o; simpl.
  - unfold len. simpl. by rewrite Z.add_0_r.
  - by rewrite IH, len_app, Z.add_assoc.
Qed.

Lemma sort_contiguous o ds : sort_by segment_cmp (contiguous o ds) = contiguous o ds.
Proof.
  revert o. induction ds as [|d ds IH]; intros o; [done|]. simpl. rewrite IH.
  destruct ds as [|d' ds]; [done|]. simpl. unfold segment_cmp. cbn [fst]. pose proof (len_nonneg d).
  destruct (Z.compare_spec o (o + len d)); [done|done|lia].
Qed.

Lemma overlay_end (d d' : bytes) : overlay Byte.x00 (len d) d' d = d ++ d'.
Proof.
  unfold overlay, ztake, zdrop. rewrite Z.sub_diag. pose proof (len_nonneg d').
  rewrite drop_ge by (unfold len in *; lia). unfold len. rewrite Nat2Z.id, take_ge by done.
  simpl. by rewrite app_nil_r.
Qed.

Section Merging.
Context `{BuildProfile} {E : Type}.

Lemma merge_next o d d' :
  0 <= o -> o + len d + len d' <= isize_max ->
  merge_step (E := E) (Ok [(o, d)]) (o + len d, d') = Ok [(o, d ++ d')].
Proof.
  intros Ho Hm. pose proof (len_nonneg d). pose proof (len_nonneg d').
  assert (Hu : isize_max < u64_max) by done.
  unfold merge_step. cbn [mbind outcome_bind last fst snd].
  rewrite (unsigned_add_ok o (len d)) by lia. simpl.
  destruct (Z.leb_spec (o + len d) (o + len d)); [|lia]. unfold saturating_sub. rewrite Z.max_r by lia.
  replace (o + len d - o) with (len d) by lia. rewrite usize_add_ok by lia. simpl.
  pose proof (grow_copy_overlay (E := E) (len d) d' d ltac:(lia) ltac:(lia)) as Hg. simpl in Hg.
  destruct (if len d <? len d + len d' then _ else _) as [d1|e| |]; simpl in *; try done.
  rewrite Hg. simpl. by rewrite overlay_end.
Qed.

Lemma merge_contiguous_fold o d ds :
  0 <= o -> o + len d + len (concat ds) <= isize_max ->
  fold_left (merge_step (E := E)) (contiguous (o + len d) ds) (Ok [(o, d)]) = Ok [(o, d ++ concat ds)].
Proof.
  revert d. induction ds as [|d' ds IH]; intros d Ho Hm; [by rewrite app_nil_r|].
  cbn [contiguous fold_left concat] in *. rewrite len_app in Hm. pose proof (len_nonneg (concat ds)).
  rewrite merge_next by lia. rewrite <- Z.add_assoc, <- len_app, IH by (rewrite ?len_app; lia).
  by rewrite app_assoc.
Qed.

(** They are one run. *)
Lemma merge_contiguous o ds :
  ds <> [] -> 0 <= o -> o + len (concat ds) <= isize_max ->
  merge_write_segments (E := E) (contiguous o ds) = Ok [(o, concat ds)].
Proof.
  intros Hne Ho Hm. destruct ds as [|d ds]; [done|]. unfold merge_write_segments.
  cbn [contiguous]. change ((o, d) :: contiguous (o + len d) ds) with (contiguous o (d :: ds)).
  rewrite sort_contiguous. cbn [contiguous fold_left concat] in *. rewrite len_app in Hm.
  change (merge_step (Ok []) (o, d)) with (@Ok E _ [(o, d)]). apply merge_contiguous_fold; lia.
Qed.
End Merging.

(** ** What the files of a backend hold *)

(** What a write at an offset leaves of a content: [MemFS.written]. *)
Definition put_at (off : Z) (text d : bytes) : bytes := MemFS.written text off WriteFlags.none d.

Lemma put_at_end (text d : bytes) : put_at (len d) text d = d ++ text.
Proof.
  unfold put_at, MemFS.written. rewrite Z.sub_diag. destruct (Z.leb_spec (len d) (len d)); [|lia].
  rewrite orb_true_r. done.
Qed.

(** At the beginning of a file that is not empty, a write replaces it. *)
Lemma put_at_start (text d : bytes) : d <> [] -> put_at 0 text d = text.
Proof.
  intros Hd. unfold put_at, MemFS.written. destruct d as [|b d]; [done|].
  destruct (Z.leb_spec (len (b :: d)) 0) as [Hl|Hl]; [unfold len in Hl; simpl in Hl; lia|]. done.
Qed.

(** A backend with files that are written in this way; [None] says nothing of
    a path. *)
Class FileView (V : Type) `{FileSystem V} := {
  file_at : Path -> V -> option bytes;
  file_at_write now p v d text off :
    file_at p v = Some d -> 0 <= off <= i64_max -> Z.max off (len d) + len text <= isize_max ->
    exists v', fs_write now p text off WriteFlags.none v = (Ok (len text), v') /\
               file_at p v' = Some (put_at off text d)
}.

(** The files of a [MemFS]. *)
Definition mem_file (p : Path) (s : MemFS.MemFS) : option bytes :=
  e ← pm_get p (MemFS.files s);
  if is_directory (MemFS.metadata e) then None else Some (MemFS.data e).

#[global] Instance memfs_view `{BuildProfile} : FileView MemFS.MemFS.
Proof.
  refine {| file_at := mem_file |}. intros now p v d text off Hd Hoff Hmax.
  unfold mem_file in Hd. destruct (pm_get p (MemFS.files v)) as [e|] eqn:Hp; [|done].
  simpl in Hd. destruct (is_directory (MemFS.metadata e)) eqn:Hdir; [done|]. injection Hd as <-.
  pose proof (len_nonneg (MemFS.data e)). pose proof (len_nonneg text).
  assert (Hi : in_i64 off = true) by (unfold in_i64, i64_min; apply andb_true_iff; rewrite !Z.leb_le; lia).
  destruct (MemFS.write_content_run text off WriteFlags.none e Hi) as [Hok _]; [lia..|].
  eexists. split.
  - cbn [fs_write MemFS.memfs_filesystem]. unfold MemFS.write, MemFS.with_entry, MemFS.reject_directory, MemFS.inc_op, MemFS.metric.
    munfold. rewrite Hp, Hdir, Hok; [|rewrite MemFS.len_written; repeat case_match; lia].
    unfold MemFS.update_metadata. munfold. reflexivity.
  - unfold mem_file. simpl. rewrite pm_get_update, Hp. simpl.
    change (is_directory (set_modified _ (set_size _ (MemFS.metadata e)))) with (is_directory (MemFS.metadata e)).
    by rewrite Hdir.
Defined.

(** A mount table has the files of its backends, under the paths that resolve
    to them. *)
#[local] Existing Instance MountableFS.mountable_filesystem.

Section Mounted.
Context {T B : Type} `{MountableFS.Trie T} `{FileView B}.

Definition mounted_file (p : Path) (v : MountableFS.MountableFS T B) : option bytes :=
  match fst (MountableFS.resolve_fs p v) with
  | Ok (a, r) => file_at r (MountableFS.arcs v a)
  | _ => None
  end.

Lemma resolve_set_arc p a b (v : MountableFS.MountableFS T B) :
  fst (MountableFS.resolve_fs p (MountableFS.set_arc a b v)) = fst (MountableFS.resolve_fs p v).
Proof.
  unfold MountableFS.resolve_fs. munfold.
  change (MountableFS.trie (MountableFS.set_arc a b v)) with (MountableFS.trie v).
  change (MountableFS.mounts (MountableFS.set_arc a b v)) with (MountableFS.mounts v).
  by destruct (MountableFS.best_prefix _ _) as [[[i|] n]|e| |].
Qed.

#[global] Instance mountable_view : FileView (MountableFS.MountableFS T B).
Proof.
  refine {| file_at := mounted_file |}. intros now p v d text off Hd Hoff Hmax. unfold mounted_file in Hd.
  cbn [fs_write MountableFS.mountable_filesystem]. unfold MountableFS.write.
  rewrite MountableFS.delegate_run. unfold MountableFS.routed.
  destruct (fst (MountableFS.resolve_fs p v)) as [[a r]|e| |] eqn:Hr; [|done..].
  destruct (file_at_write now r _ d text off Hd Hoff Hmax) as (b & -> & Hb).
  eexists. split; [reflexivity|]. unfold mounted_file. rewrite resolve_set_arc, Hr. simpl.
  by rewrite decide_True.
Defined.
End Mounted.

(** A path of the mount table that resolves, and what is there. *)
Lemma mounted_file_at {T B} `{MountableFS.Trie T} `{FileView B} p (v : MountableFS.MountableFS T B) a r :
  fst (MountableFS.resolve_fs p v) = Ok (a, r) -> file_at p v = file_at r (MountableFS.arcs v a).
Proof. intros Hr. unfold file_at at 1, mountable_view. unfold mounted_file. by rewrite Hr. Qed.

(** ** One write of the client *)

(** The writes that the kernel makes through an open file. *)
Definition write_all `{BuildProfile} {C} `{RacfsClient C} (i : Z) (ws : list Segment) (f : RacfsAsyncFs C) :=
  run_all (fun w => write_async i (fst w) (snd w)) ws f.

(** What the limiter lets through at once is one more than before. *)
Lemma check_used now id (l : RateLimiter) t :
  let used t (l : RateLimiter) :=
    RateLimiter.count (renew (config l) t
      (default {| RateLimiter.count := 0; window_start := t |} (users l !! id))) in
  0 <= used (now 0%nat) l ->
  config (snd (check now id l)) = config l /\ 0 <= used t (snd (check now id l)) <= used (now 0%nat) l + 1.
Proof.
  cbv zeta. unfold check. set (u := renew _ _ _). intros Hu. unfold take_one. cbn [snd config users].
  split; [done|]. rewrite lookup_insert_eq. cbn [default].
  unfold renew at 1 2. set (u' := if _ <? _ then _ else _).
  assert (Hc : 0 <= RateLimiter.count u' <= RateLimiter.count u + 1).
  { subst u'. destruct (RateLimiter.count u <? max_requests (config l)); simpl; lia. }
  destruct (window (config l) <=? _); simpl; lia.
Qed.

(** The most that the buffer of a file holds, in bytes. *)
Definition WRITE_LIMIT : Z := DEFAULT_WRITE_BACK_FLUSH_SIZE + DEFAULT_WRITE_BACK_MAX_CHUNK.

Section Remote_.
Context `{BuildProfile} {V : Type} `{FileView V} `{Encodings} `{JsonTextLaws} `{Axum} `{Prometheus} `{Bcrypt} `{JwtEncode}.
Context (clocks : nat -> Clocks) (hash_str : string -> Z) (lost : SendError).
Context (status_text : Z -> string) (decode_error : SendError) (client_clocks : nat -> Now).

(** The server reads the bodies of writes of a buffer's size: its limit is two
    megabytes. *)
Hypothesis body_taken : forall p text off,
  str_len p <= MAX_PATH_LEN -> str_len text <= WRITE_LIMIT ->
  body_refused (body_text {| w_path := p; w_data := text; w_offset := Some off |}) = false.

#[local] Instance stack_client : RacfsClient (Clocked (Server V)) :=
  remote_client clocks hash_str lost status_text decode_error client_clocks.

Implicit Types (c : Clocked (Server V)) (s : Server V) (p : Path).
Abbreviation server c := (network (http (api c))).

Definition any_write p : ClientCall := KWriteFile p "" None.

Lemma requests_used_same (d : ApiClient (Server V)) k k' s :
  requests_used clocks hash_str d k s = requests_used clocks hash_str d k' s.
Proof.
  unfold requests_used. do 4 f_equal. unfold sent_request, build_request.
  destruct (auth_token d), k, k'; reflexivity.
Qed.

(** A client that [n] more requests are let through for, and the content of the
    file on its server. *)
Record serving (n : Z) p (d : bytes) c : Prop := {
  sv_ready : ready (api c);
  sv_path : validate_path p = Ok ();
  sv_file : file_at p (vfs (app (server c))) = Some d;
  sv_used : 0 <= requests_used clocks hash_str (api c) (any_write p) (server c);
  sv_left : requests_used clocks hash_str (api c) (any_write p) (server c) + n <= max_requests (config (limiter (server c)))
}.

Lemma serve_limiter r s :
  limiter (snd (serve clocks hash_str lost r s)) =
  snd (check (limit (clocks (served s))) (get_client_id hash_str (limiter_view r)) (limiter s)).
Proof.
  unfold serve. destruct (handle _ _ r (app s)) as [[resp|e| |] a]; [|done..].
  unfold rate_limit_middleware. cbn [has_limiter limiter_view fst snd].
  destruct (check _ _ _) as [[[[] remaining] reset] l]; done.
Qed.

(** The handler of a write. *)
Lemma local_write p text off d s :
  validate_path p = Ok () -> file_at p (vfs (app s)) = Some d -> 0 <= off <= i64_max ->
  str_len text <= WRITE_LIMIT -> Z.max off (len d) + str_len text <= isize_max ->
  exists m, fst (local_run clocks (KWriteFile p text (Some off)) s) = Ok (RMessage m) /\
    file_at p (vfs (snd (local_run clocks (KWriteFile p text (Some off)) s))) = Some (put_at off (as_bytes text) d).
Proof.
  intros Hval Hd Hoff Hlim Hmax.
  destruct (file_at_write (wall (clocks (served s))) p (vfs (app s)) d (as_bytes text) off Hd Hoff) as (v' & Hw & Hv').
  { by rewrite len_as_bytes. }
  unfold local_run. cbn [local_call]. unfold fmap, M_fmap, ServerApi.write_file. cbn [wr_path wr_data wr_offset].
  rewrite run_bind. unfold lift. rewrite Hval. rewrite run_bind.
  rewrite (proj2 (validate_write_data_len_ok (str_len text)))
    by (unfold MAX_WRITE_BODY_LEN, WRITE_LIMIT, DEFAULT_WRITE_BACK_FLUSH_SIZE, DEFAULT_WRITE_BACK_MAX_CHUNK in *; lia).
  cbn [default]. cbv zeta. rewrite run_bind. unfold call_vfs. cbn [wr_path wr_data wr_offset]. change (id off) with off. rewrite Hw. cbn [map_err fst snd]. eexists. split; [reflexivity|].
  exact Hv'.
Qed.

Lemma serving_less n m p d c : serving n p d c -> m <= n -> serving m p d c.
Proof. intros [] Hm. split; [done..|lia]. Qed.

(** A write of the client is carried out on the server, and answered. *)
Lemma write_served n p d text off c :
  serving (n + 1) p d c -> 0 <= n -> 0 <= off <= i64_max ->
  str_len text <= WRITE_LIMIT -> Z.max off (len d) + str_len text <= isize_max ->
  fst (cl_write_file p text (Some off) c) = Ok () /\
  serving n p (put_at off (as_bytes text) d) (snd (cl_write_file p text (Some off) c)).
Proof.
  intros [Hready Hval Hfile Hused Hleft] Hn Hoff Hlim Hmax.
  set (k := KWriteFile p text (Some off)).
  destruct (local_write p text off d (server c) Hval Hfile Hoff Hlim Hmax) as (m & Hrun & Hfile').
  fold k in Hrun, Hfile'. rewrite (requests_used_same _ (any_write p) k) in Hused, Hleft.
  assert (Hok : call_ok k = true).
  { unfold k, call_ok. cbn [call_body]. rewrite body_taken; [|by apply validate_path_ok|done].
    unfold in_i64, i64_min. rewrite andb_true_r. apply andb_true_iff. rewrite !Z.leb_le. lia. }
  destruct (call_served clocks hash_str lost status_text decode_error (client_clocks (calls c)) k (api c) Hready Hok)
    as (h & Hcall & Ho & Hv & _ & _ & Hnet).
  { by rewrite Hrun. }
  { intros rep. rewrite Hrun. by intros [= <-]. }
  rewrite Hrun in Hcall. destruct (Z.ltb_spec (requests_used clocks hash_str (api c) k (server c))
    (max_requests (config (limiter (server c))))); [|lia].
  assert (Hcl : cl_write_file p text (Some off) c = (Ok (), {| api := set_http h (api c); calls := S (calls c) |})).
  { unfold cl_write_file, stack_client, remote_client, api_client, done_by. rewrite run_bind. unfold on_api.
    unfold k in Hcall. cbn [client_call map_err] in Hcall. cbv zeta in Hcall. rewrite run_bind in Hcall. 
    destruct (ClientApi.write_file _ _ _ _ _ _ _ _) as [[r|e| |] a]; try discriminate. by injection Hcall as _ ->. }
  rewrite Hcl. split; [done|]. cbn [fst snd].
  pose proof (check_used (limit (clocks (served (server c))))
    (get_client_id hash_str (limiter_view (sent_request (api c) k))) (limiter (server c))
    (limit (clocks (served (network h))) 0%nat) Hused) as [Hcfg Hnext].
  rewrite <- serve_limiter, <- Hnet in Hcfg, Hnext.
  split; cbn [api network http set_http].
  - destruct Hready. by split.
  - done.
  - by rewrite Hv.
  - rewrite (requests_used_same _ (any_write p) k). apply Hnext.
  - rewrite (requests_used_same _ (any_write p) k), Hcfg.
    enough (requests_used clocks hash_str (set_http h (api c)) k (network h) <=
            requests_used clocks hash_str (api c) k (server c) + 1) by lia.
    exact (proj2 Hnext).
Qed.

(** ** The writes of the kernel *)

Abbreviation Fuse := (RacfsAsyncFs (Clocked (Server V))).
Implicit Types (f : Fuse) (ds : list bytes).

Definition ascii_data (d : bytes) : Prop := Forall (fun b => byte_val b < 128) d.

(** Between two writes: of what was written behind [d0], [sent] is on the server
    and the rest, less than [limit], is in the buffer. *)
Record copied (n : Z) p (d0 : bytes) (limit : Z) (sent rest : list bytes) f : Prop := {
  cp_serving : serving n p (d0 ++ concat sent) (client f);
  cp_buffer : match pm_get p (write_back (cache f)) with
              | Some e => segments e = contiguous (len (d0 ++ concat sent)) rest /\ total_bytes e = len (concat rest)
              | None => rest = []
              end;
  cp_ascii : Forall ascii_data rest;
  cp_limit : len (concat rest) <= limit
}.

(** A flush sends a run that is in the buffer as one request. *)
Lemma flush_run n p d o rest f :
  serving (n + 1) p d (client f) -> 0 <= n -> from_option segments [] (pm_get p (write_back (cache f))) = contiguous o rest ->
  rest <> [] -> Forall ascii_data rest -> len (concat rest) <= WRITE_LIMIT ->
  0 <= o -> Z.max o (len d) + len (concat rest) <= isize_max ->
  exists f', flush_write_back p f = (Ok (), f') /\ inodes f' = inodes f /\
             serving n p (put_at o (concat rest) d) (client f') /\ pm_get p (write_back (cache f')) = None.
Proof.
  intros Hs Hn Hb Hne Ha Hl Ho Hmax. pose proof (len_nonneg d). pose proof (len_nonneg (concat rest)).
  unfold flush_write_back. rewrite run_bind, on_cache_run.
  destruct (take_pending_run p (cache f)) as (k & -> & Hk & _). cbn [fst snd]. rewrite Hb.
  destruct rest as [|x rest']; [done|]. cbn [contiguous].
  change ((o, x) :: contiguous (o + len x) rest') with (contiguous o (x :: rest')).
  set (rest := x :: rest') in *.
  assert (Hcat : ascii_data (concat rest)) by (by apply Forall_concat).
  assert (Hu : isize_max = i64_max) by done.
  assert (Hw : i64_wrap o = o) by (apply (usize_as_i64_small o); lia).
  destruct (write_served n p d (from_bytes (concat rest)) o (client f) Hs Hn) as [Hok Hs'].
  { lia. }
  { by rewrite <- len_as_bytes, as_bytes_from_bytes. }
  { rewrite <- len_as_bytes, as_bytes_from_bytes. lia. }
  rewrite as_bytes_from_bytes in Hs'.
  rewrite run_bind. unfold lift. rewrite merge_contiguous by (done || lia).
  rewrite run_bind, send_runs_run. cbn [client inodes cache send_all fst snd].
  rewrite run_bind, Hw, lossy_ascii by done.
  destruct (cl_write_file p (from_bytes (concat rest)) (Some o) (client f)) as [r c']. cbn [fst snd] in Hok, Hs'.
  subst r. cbn [as_eio map_err fst snd mret M_ret]. rewrite on_cache_run. cbn [cache client inodes].
  destruct (invalidate_run p k) as (k' & -> & Hk'). cbn [fst snd]. eexists. split; [reflexivity|]. split; [done|].
  split; [done|]. cbn [cache]. rewrite Hk'. apply pm_get_remove.
Qed.

(** It appends what the buffer holds to what is on the server. *)
Lemma flush_copied n p d0 sent rest f :
  copied (n + 1) p d0 WRITE_LIMIT sent rest f -> 0 <= n ->
  len (d0 ++ concat sent) + len (concat rest) <= isize_max ->
  exists f', flush_write_back p f = (Ok (), f') /\ inodes f' = inodes f /\
             copied n p d0 0 (sent ++ rest) [] f' /\ pm_get p (write_back (cache f')) = None.
Proof.
  intros [Hs Hb Ha Hl] Hn Hmax. set (d := d0 ++ concat sent) in *. pose proof (len_nonneg d).
  pose proof (len_nonneg (concat rest)).
  assert (Hsegs : from_option segments [] (pm_get p (write_back (cache f))) = contiguous (len d) rest)
    by (destruct (pm_get p (write_back (cache f))); [apply Hb|by subst rest]).
  destruct (decide (rest = [])) as [->|Hne].
  - unfold flush_write_back. rewrite run_bind, on_cache_run.
    destruct (take_pending_run p (cache f)) as (k & -> & Hk & _). cbn [fst snd]. rewrite Hsegs. cbn [contiguous].
    eexists. split; [reflexivity|]. split; [done|]. split; [|done].
    rewrite app_nil_r. split; cbn [client cache]; [|by rewrite Hk|done|done]. eapply serving_less; [exact Hs|lia].
  - destruct (flush_run n p d (len d) rest f) as (f' & -> & Hi & Hs' & Hgone); [done..|lia|].
    rewrite put_at_end in Hs'. exists f'. split; [done|]. split; [done|]. split; [|done].
    split; [|by rewrite Hgone|done|done]. subst d. by rewrite concat_app, app_assoc.
Qed.

(** A write of the kernel that the buffer takes. *)
Definition small (d : bytes) : Prop := len d <= DEFAULT_WRITE_BACK_MAX_CHUNK /\ ascii_data d.

Lemma write_copied n i p d0 sent rest x f :
  get_path i (inodes f) = Some p -> copied (n + 1) p d0 DEFAULT_WRITE_BACK_FLUSH_SIZE sent rest f -> 0 <= n -> small x ->
  len (d0 ++ concat (sent ++ rest ++ [x])) <= isize_max ->
  exists f' sent' rest', write_async i (len (d0 ++ concat (sent ++ rest))) x f = (Ok (len x), f') /\
    inodes f' = inodes f /\ copied n p d0 DEFAULT_WRITE_BACK_FLUSH_SIZE sent' rest' f' /\
    sent' ++ rest' = sent ++ rest ++ [x].
Proof.
  intros Hi Hc Hn [Hlen Hasc] Hmax. pose proof (len_nonneg x).
  assert (Hl : len (d0 ++ concat (sent ++ rest)) = len (d0 ++ concat sent) + len (concat rest))
    by (rewrite concat_app, app_assoc; apply len_app).
  unfold write_async. rewrite run_bind, (path_of_run i p f Hi). cbv zeta.
  destruct (Z.leb_spec (len x) DEFAULT_WRITE_BACK_MAX_CHUNK); [|lia].
  assert (Hw : u32_wrap (len x) = len x).
  { unfold u32_wrap. apply Z.mod_small. unfold DEFAULT_WRITE_BACK_MAX_CHUNK in *. lia. }
  rewrite Hw, run_bind, on_cache_run. unfold push_write_back. rewrite run_bind. unfold get.
  set (e0 := default _ (pm_get p (write_back (cache f)))). cbn [push]. rewrite run_bind. unfold put. cbn [fst snd mret M_ret].
  set (f1 := {| client := client f; inodes := inodes f; cache := _ |}).
  destruct Hc as [Hs Hb Ha Hlim].
  assert (He0 : segments e0 = contiguous (len (d0 ++ concat sent)) rest /\ total_bytes e0 = len (concat rest)).
  { subst e0. destruct (pm_get p (write_back (cache f))) as [e|]; [done|]. by subst rest. }
  assert (Hr1 : len (concat (rest ++ [x])) = len (concat rest) + len x)
    by (rewrite concat_app, len_app; simpl; by rewrite app_nil_r).
  assert (Hc1 : forall m, 0 <= m -> len (concat rest) + len x <= m -> copied (n + 1) p d0 m sent (rest ++ [x]) f1).
  { intros m Hm Hle. split; cbn [client cache f1]; [done| | |lia].
    - cbn [write_back set_write_back]. rewrite pm_get_insert. cbn [segments total_bytes].
      destruct He0 as [-> ->]. rewrite contiguous_app, Hl. cbn [contiguous]. by rewrite Hr1.
    - apply Forall_app. split; [done|]. by constructor. }
  rewrite run_bind. destruct (Z.leb_spec DEFAULT_WRITE_BACK_FLUSH_SIZE (total_bytes e0 + len x)) as [Hge|Hlt].
  - destruct (flush_copied n p d0 sent (rest ++ [x]) f1) as (f2 & -> & Hi2 & Hc2 & _).
    { apply Hc1; [done|]. unfold WRITE_LIMIT. lia. }
    { done. }
    { rewrite Hr1. rewrite !concat_app in Hmax. rewrite !len_app in *. simpl in Hmax. rewrite app_nil_r in Hmax. lia. }
    exists f2, (sent ++ rest ++ [x]), []. split; [done|]. split; [done|]. split; [|by rewrite app_nil_r].
    destruct Hc2 as [? ? ? Hz]. split; [done..|]. etransitivity; [exact Hz|done].
  - exists f1, sent, (rest ++ [x]). split; [done|]. split; [done|]. split; [|done].
    destruct (Hc1 DEFAULT_WRITE_BACK_FLUSH_SIZE) as [Hs1 ? ? ?]; [done|lia|].
    split; [|done..]. eapply serving_less; [exact Hs1|lia].
Qed.

Lemma writes_copied n i p d0 sent rest xs f :
  get_path i (inodes f) = Some p -> 0 <= n ->
  copied (n + Z.of_nat (length xs)) p d0 DEFAULT_WRITE_BACK_FLUSH_SIZE sent rest f -> Forall small xs ->
  len (d0 ++ concat (sent ++ rest ++ xs)) <= isize_max ->
  exists f' sent' rest',
    write_all i (contiguous (len (d0 ++ concat (sent ++ rest))) xs) f = (map (fun x => Ok (len x)) xs, f') /\
    inodes f' = inodes f /\ copied n p d0 DEFAULT_WRITE_BACK_FLUSH_SIZE sent' rest' f' /\
    sent' ++ rest' = sent ++ rest ++ xs.
Proof.
  revert f sent rest. induction xs as [|x xs IH]; intros f sent rest Hi Hn Hc Hx Hmax.
  - exists f, sent, rest. rewrite app_nil_r. split; [done|]. split; [done|]. split; [|done].
    by rewrite Z.add_0_r in Hc.
  - apply Forall_cons in Hx as [Hx Hxs]. cbn [length] in Hc.
    assert (Hle : len (d0 ++ concat (sent ++ rest ++ [x])) <= isize_max).
    { etransitivity; [|exact Hmax]. change (x :: xs) with ([x] ++ xs). rewrite !concat_app, !len_app.
      pose proof (len_nonneg (concat xs)). lia. }
    destruct (write_copied (n + Z.of_nat (length xs)) i p d0 sent rest x f Hi) as (f1 & s1 & r1 & Hw1 & Hi1 & Hc1 & He1);
      [by replace (n + Z.of_nat (length xs) + 1) with (n + Z.of_nat (S (length xs))) by lia|lia|done|done|].
    destruct (IH f1 s1 r1) as (f2 & s2 & r2 & Hw2 & Hi2 & Hc2 & He2); [by rewrite Hi1|done..| |].
    { by rewrite app_assoc, He1, <- !app_assoc. }
    exists f2, s2, r2. split; [|split; [congruence|split; [done|]]].
    + unfold write_all in *. cbn [contiguous run_all map fst snd]. rewrite Hw1.
      assert (Hlen : len (d0 ++ concat (s1 ++ r1)) = len (d0 ++ concat (sent ++ rest)) + len x).
      { rewrite He1. rewrite app_assoc, concat_app, app_assoc, len_app. simpl. by rewrite app_nil_r. }
      rewrite <- Hlen, Hw2. done.
    + by rewrite He2, app_assoc, He1, <- !app_assoc.
Qed.

(** C7: A text that is written through the mounted filesystem, piece by piece
    behind what the file holds, arrives: every write and the release succeed,
    and then the file on the server, in the backend that the mount table finds
    for its path, holds its old content and the pieces behind it, whatever was
    sent at once.  The pieces are small ASCII texts, and the rate limit must
    leave one request for each and one for the release. *)
Theorem fuse_copy_arrives i p d0 datas f :
  get_path i (inodes f) = Some p -> pm_get p (write_back (cache f)) = None ->
  serving (Z.of_nat (length datas) + 1) p d0 (client f) ->
  Forall small datas -> len d0 + len (concat datas) <= isize_max ->
  let f1 := snd (write_all i (contiguous (len d0) datas) f) in
  let f2 := snd (release_async i f1) in
  fst (write_all i (contiguous (len d0) datas) f) = map (fun x => Ok (len x)) datas /\
  fst (release_async i f1) = Ok () /\
  file_at p (vfs (app (server_of f2))) = Some (d0 ++ concat datas).
Proof.
  intros Hi Hb Hs Hds Hmax.
  assert (Hc : copied (1 + Z.of_nat (length datas)) p d0 DEFAULT_WRITE_BACK_FLUSH_SIZE [] [] f).
  { split; cbn [concat]; [|by rewrite Hb|done|done]. by rewrite app_nil_r, Z.add_comm. }
  destruct (writes_copied 1 i p d0 [] [] datas f Hi ltac:(lia) Hc Hds) as (f1 & sent & rest & Hw & Hi1 & Hc1 & He).
  { simpl. by rewrite len_app. }
  cbn [app concat] in Hw, He. rewrite app_nil_r in Hw. cbv zeta. rewrite Hw. cbn [fst snd]. split; [done|].
  unfold release_async. rewrite run_bind. unfold get. rewrite Hi1, Hi. unfold ignore_error.
  destruct (flush_copied 0 p d0 sent rest f1) as (f2 & -> & _ & Hc2 & _).
  { destruct Hc1 as [? ? ? Hl]. split; [done..|]. etransitivity; [exact Hl|done]. }
  { done. }
  { rewrite <- len_app, <- app_assoc, <- concat_app, He, len_app. done. }
  split; [done|]. cbn [snd]. destruct Hc2 as [Hs2 _ _ _]. rewrite He in Hs2. apply Hs2.
Qed.

(** A piece that is written over the beginning of a file replaces the file:
    what was behind it is gone. *)
Theorem fuse_overwrite_truncates i p d0 x f :
  get_path i (inodes f) = Some p -> pm_get p (write_back (cache f)) = None ->
  serving 1 p d0 (client f) -> small x -> d0 <> [] -> len d0 + len x <= isize_max ->
  let f1 := snd (write_async i 0 x f) in
  fst (write_async i 0 x f) = Ok (len x) /\ fst (release_async i f1) = Ok () /\
  file_at p (vfs (app (server_of (snd (release_async i f1))))) = Some x.
Proof.
  intros Hi Hb Hs [Hlen Hasc] Hne Hmax. pose proof (len_nonneg x). pose proof (len_nonneg d0). cbv zeta.
  assert (Hw : exists f1, write_async i 0 x f = (Ok (len x), f1) /\ inodes f1 = inodes f /\ client f1 = client f /\
    from_option segments [] (pm_get p (write_back (cache f1))) = contiguous 0 [x]).
  { unfold write_async. rewrite run_bind, (path_of_run i p f Hi). cbv zeta.
    destruct (Z.leb_spec (len x) DEFAULT_WRITE_BACK_MAX_CHUNK); [|lia].
    assert (Hwrap : u32_wrap (len x) = len x).
    { unfold u32_wrap. apply Z.mod_small. unfold DEFAULT_WRITE_BACK_MAX_CHUNK in *. lia. }
    rewrite Hwrap, run_bind, on_cache_run. unfold push_write_back. rewrite run_bind. unfold get. rewrite Hb.
    cbn [default push total_bytes segments app]. rewrite run_bind. unfold put. cbn [fst snd mret M_ret].
    rewrite run_bind. destruct (Z.leb_spec DEFAULT_WRITE_BACK_FLUSH_SIZE (0 + len x)) as [Hge|_].
    { unfold DEFAULT_WRITE_BACK_FLUSH_SIZE, DEFAULT_WRITE_BACK_MAX_CHUNK in *. lia. }
    eexists. split; [reflexivity|]. split; [done|]. split; [done|]. cbn [cache write_back set_write_back].
    by rewrite pm_get_insert. }
  destruct Hw as (f1 & -> & Hi1 & Hcl & Hseg). cbn [fst snd]. split; [done|].
  unfold release_async. rewrite run_bind. unfold get. rewrite Hi1, Hi. unfold ignore_error.
  assert (Hone : concat [x] = x) by (simpl; by rewrite app_nil_r).
  destruct (flush_run 0 p d0 0 [x] f1) as (f2 & -> & _ & Hs2 & _).
  - by rewrite Hcl.
  - done.
  - done.
  - done.
  - by constructor.
  - rewrite Hone. unfold WRITE_LIMIT, DEFAULT_WRITE_BACK_FLUSH_SIZE, DEFAULT_WRITE_BACK_MAX_CHUNK in *. lia.
  - done.
  - rewrite Hone. lia.
  - split; [done|]. cbn [snd]. rewrite Hone, put_at_start in Hs2 by done. apply Hs2.
Qed.
End Remote_.

(** ** Witnesses *)

Section Witnesses.
#[local] Existing Instance debug_profile.
#[local] Existing Instance plain_encodings.
#[local] Existing Instance binary_json.
#[local] Existing Instance binary_json_laws.
#[local] Existing Instance plain_axum.
#[local] Existing Instance small_prometheus.
#[local] Existing Instance plain_bcrypt.
#[local] Existing Instance plain_jwt.

(** A tree with a filesystem in memory at [/m], which has a file [/d/f]. *)
Abbreviation Tree := (MountableFS.MountableFS (gmap string MountableFS.ArcId) MemFS.MemFS).
Definition demo_tree : Tree :=
  snd (MountableFS.mount "/m" 0%nat (MountableFS.new (fun _ => MemFS.demo))).

Definition tree_client : ApiClient (Server Tree) :=
  ClientApi.new "" {| limiter := RateLimiter.new default_config; app := ServerApi.with_registry demo_tree server_families zero_metrics demo_auth 2; served := 0 |}.

#[local] Instance tree_remote : RacfsClient (Clocked (Server Tree)) :=
  remote_client still_clocks str_len no_error to_string no_error (fun _ => still).

Definition tree_fuse : RacfsAsyncFs (Clocked (Server Tree)) :=
  {| client := {| api := tree_client; calls := 0 |};
     inodes := snd (allocate "/m/d/f" FuseInodes.new); cache := with_default_ttl |}.

Lemma tree_serving n : n <= 100 -> serving still_clocks str_len n "/m/d/f" (as_bytes "abc") (client tree_fuse).
Proof.
  intros Hn. split; [by split|vm_compute; reflexivity..|vm_compute; discriminate|].
  change (requests_used still_clocks str_len (api (client tree_fuse)) (any_write "/m/d/f") (network (http (api (client tree_fuse))))) with 0.
  exact Hn.
Qed.

Lemma demo_small s : str_len s <= 100 -> is_ascii s = true -> small (as_bytes s).
Proof.
  intros Hl Ha. split; [rewrite len_as_bytes; unfold DEFAULT_WRITE_BACK_MAX_CHUNK; lia|].
  unfold is_ascii in Ha. apply Forall_forall. intros b Hb.
  rewrite List.forallb_forall in Ha. apply Z.ltb_lt, Ha. by apply list_elem_of_In.
Qed.

Lemma fuse_copy_arrives_witness :
  let f1 := snd (write_all 2 (contiguous 3 [as_bytes "de"; as_bytes "fgh"]) tree_fuse) in
  pm_get "/m/d/f" (write_back (cache f1)) =
    Some {| segments := [(3, as_bytes "de"); (5, as_bytes "fgh")]; total_bytes := 5 |} /\
  file_at "/m/d/f" (vfs (app (server_of (snd (release_async 2 f1))))) = Some (as_bytes "abcdefgh").
Proof.
  split; [vm_compute; reflexivity|].
  refine (proj2 (proj2 (fuse_copy_arrives (V := Tree) still_clocks str_len no_error to_string no_error (fun _ => still)
    (fun _ _ _ _ _ => eq_refl) 2 "/m/d/f" (as_bytes "abc") [as_bytes "de"; as_bytes "fgh"] tree_fuse _ _ _ _ _))).
  - reflexivity.
  - reflexivity.
  - apply tree_serving. simpl. lia.
  - repeat (apply Forall_cons; split; [apply demo_small; vm_compute; (reflexivity || discriminate)|]). apply Forall_nil_2.
  - vm_compute. discriminate.
Defined.

Lemma fuse_overwrite_truncates_witness :
  let f1 := snd (write_async 2 0 (as_bytes "x") tree_fuse) in
  file_at "/m/d/f" (vfs (app (server_of (snd (release_async 2 f1))))) = Some (as_bytes "x").
Proof.
  refine (proj2 (proj2 (fuse_overwrite_truncates (V := Tree) still_clocks str_len no_error to_string no_error (fun _ => still)
    (fun _ _ _ _ _ => eq_refl) 2 "/m/d/f" (as_bytes "abc") (as_bytes "x") tree_fuse _ _ _ _ _ _))).
  - reflexivity.
  - reflexivity.
  - apply tree_serving. lia.
  - apply demo_small; vm_compute; (reflexivity || discriminate).
  - discriminate.
  - vm_compute. discriminate.
Defined.
End Witnesses.
