(* ===== verification/Cli.v ===== *)
(** * Cli: the commands of the command-line tool ([crates/racfs-cli])

    A command is a few calls of the client and the text that it prints.  The
    client is an interface, [CliClient], with the methods of [ClientApi] as an
    instance; what goes to the standard output is kept with it.  The parsing of
    arguments, the progress bar and the mounting are left out or arguments. *)

From S2P Require Import MemFS.
From S2P Require Import Prelude Text RPath FsError Metadata FileSystem Json Http HttpError.
From S2P Require Import Validation Metrics RateLimiter StatCache Auth ServerTypes ServerApi ClientApi Remote FuseRemote.
From Stdlib Require Import Strings.Ascii.
From Stdlib Require Strings.String.

(** The calls that the commands make. *)
Class CliClient (C : Type) := {
  cli_read_dir : string -> M C Error DirectoryListResponse;
  cli_read_file : string -> M C Error string;
  cli_write_file : string -> string -> option Z -> M C Error MessageResponse;
  cli_create_file : string -> M C Error MessageResponse;
  cli_mkdir : string -> option Z -> M C Error MessageResponse;
  cli_remove : string -> M C Error MessageResponse;
  cli_stat : string -> M C Error FileMetadataResponse;
  cli_rename : string -> string -> M C Error MessageResponse;
  cli_chmod : string -> Z -> M C Error MessageResponse;
  cli_health : M C Error HealthResponse;
  cli_capabilities : M C Error CapabilitiesResponse
}.

(** The client and what was printed. *)
Record Terminal (C : Type) := mkTerminal { cli : C; stdout : string }.
Arguments mkTerminal {C}.
Arguments cli {C}.
Arguments stdout {C}.

Definition newline : string := String (ascii_of_nat 10) "".

(** [{:>10}]. *)
Definition pad_left (n : nat) (s : string) : string :=
  String.string_of_list_ascii (replicate (n - String.length s) (ascii_of_nat 32)) +:+ s.

(* src: crates/racfs-cli/src/main.rs 12-12 CP_PROGRESS_THRESHOLD *)
Definition CP_PROGRESS_THRESHOLD : Z := 64 * 1024.

(* src: crates/racfs-cli/src/main.rs 27-72 Commands *)
Inductive Commands :=
| Ls (path : string)
| Cat (path : string)
| Write (path data : string)
| Mkdir (path : string)
| Rm (path : string)
| Rmdir (path : string)
| Stat (path : string)
| Mv (source dest : string)
| Cp (source dest : string)
| Tree (path : string)
| Mount (path : string)
| Chmod (path : string) (mode : Z)
| Health
| Capabilities.

Section Commands_.
Context {C : Type} `{CliClient C}.
Implicit Types (t : Terminal C).
Abbreviation Op := (M (Terminal C) Error).

Definition call {A} (m : M C Error A) : Op A := fun t => (fst (m (cli t)), mkTerminal (snd (m (cli t))) (stdout t)).
Definition print (s : string) : Op () := fun t => (Ok (), mkTerminal (cli t) (stdout t +:+ s)).
Definition println (s : string) : Op () := print (s +:+ newline).

Fixpoint print_lines (l : list string) : Op () := match l with [] => mret () | s :: l => println s ;; print_lines l end.

Definition entry_line (e : DirectoryEntry) : string :=
  d_permissions e +:+ " " +:+ pad_left 10 (to_string (d_size e)) +:+ " " +:+ default "unknown"%string (d_modified e) +:+ " " +:+ d_path e.

(* src: crates/racfs-cli/src/main.rs 104-116 ls *)
Definition ls (path : string) : Op () :=
  response ← call (cli_read_dir path); print_lines (map entry_line (entries response)).

(* src: crates/racfs-cli/src/main.rs 118-122 cat *)
Definition cat (path : string) : Op () := content ← call (cli_read_file path); print content.

Definition told (m : M C Error MessageResponse) : Op () := response ← call m; println (message response).

(* src: crates/racfs-cli/src/main.rs 124-132 write_file *)
Definition write_file (path data : string) : Op () := told (cli_write_file path data None).
(* src: crates/racfs-cli/src/main.rs 134-138 mkdir *)
Definition mkdir (path : string) : Op () := told (cli_mkdir path None).
(* src: crates/racfs-cli/src/main.rs 140-144 rm *)
Definition rm (path : string) : Op () := told (cli_remove path).
(* src: crates/racfs-cli/src/main.rs 146-151 rmdir *)
Definition rmdir (path : string) : Op () := told (cli_remove path).

(* src: crates/racfs-cli/src/main.rs 153-164 stat *)
Definition stat (path : string) : Op () :=
  response ← call (cli_stat path);
  print_lines ["Type: " +:+ file_type response; "Permissions: " +:+ permissions response; "Size: " +:+ to_string (size response);
               "Modified: " +:+ default "unknown"%string (modified response); "Path: " +:+ ClientTypes.path response].

(* src: crates/racfs-cli/src/main.rs 166-170 mv *)
Definition mv (source dest : string) : Op () := told (cli_rename source dest).

(* src: crates/racfs-cli/src/main.rs 172-207 cp *)
Definition cp (source dest : string) : Op () :=
  meta ← call (cli_stat source);
  let n := size meta in
  let use_progress := CP_PROGRESS_THRESHOLD <=? n in
  content ← call (cli_read_file source);
  call (cli_create_file dest) ;;
  call (cli_write_file dest content None) ;;
  if (use_progress : bool) then mret ()
  else println ("Copied " +:+ source +:+ " to " +:+ dest +:+ " (" +:+ to_string n +:+ " bytes)").

(** The last segment of a path, as the tree shows it. *)
Definition shown_path (p : string) : string := trim_end_str "/" p.
Definition last_segment (p : string) : string := default p (last (split_char slash p)).
Definition shown_name (p : string) : string := last_segment (shown_path p).
Definition shown (l : list DirectoryEntry) : list DirectoryEntry :=
  List.filter (fun e => negb (String.eqb (shown_name (d_path e)) ".") && negb (String.eqb (shown_name (d_path e)) "..")) l.

Definition branch (is_last : bool) : string := if is_last then "└── " else "├── ".
Definition next_prefix (is_last : bool) : string := if is_last then "    " else "│   ".
Definition subpath (path name : string) : string :=
  if ends_with path "/" then path +:+ name else if String.eqb path "/" then "/" +:+ name else path +:+ "/" +:+ name.
Definition is_last (rest : list DirectoryEntry) : bool := match rest with [] => true | _ => false end.

(** The loop over the entries of a directory, with the directories in it. *)
(* src: crates/racfs-cli/src/main.rs 223-248 tree *)
Fixpoint show_entries (prefix path : string) (l : list DirectoryEntry) : Op (list (string * string)) :=
  match l with
  | [] => mret []
  | e :: rest =>
    let name := shown_name (d_path e) in
    println (prefix +:+ branch (is_last rest) +:+ name) ;;
    meta ← attempt (call (cli_stat (shown_path (d_path e))));
    dirs ← show_entries prefix path rest;
    mret (match meta with
          | inr m => if String.eqb (file_type m) "directory"
                     then (prefix +:+ next_prefix (is_last rest), subpath path name) :: dirs else dirs
          | inl _ => dirs
          end)
  end.

(** The loop over the stack, whose top is the head of the list; the code has no
    bound for it. *)
(* src: crates/racfs-cli/src/main.rs 211-252 tree *)
Fixpoint tree_loop (fuel : nat) (stack : list (string * string)) : Op () :=
  match stack with
  | [] => mret ()
  | (prefix, path) :: stack =>
    match fuel with
    | O => lift Diverge
    | S fuel =>
      listing ← call (cli_read_dir path);
      dirs ← show_entries prefix path (shown (entries listing));
      tree_loop fuel (dirs ++ stack)
    end
  end.

(* src: crates/racfs-cli/src/main.rs 209-254 tree *)
Definition tree (fuel : nat) (path : string) : Op () := println path ;; tree_loop fuel [(""%string, path)].

(* src: crates/racfs-cli/src/main.rs 256-260 chmod *)
Definition chmod (path : string) (mode : Z) : Op () := told (cli_chmod path mode).

(* src: crates/racfs-cli/src/main.rs 262-274 mount *)
Definition mount (mounting : string -> string -> Op ()) (server path : string) : Op () :=
  print_lines ["Mounting " +:+ server +:+ " at " +:+ path;
               "Unmount with: fusermount -u " +:+ path +:+ "  (Linux)  or  umount " +:+ path +:+ "  (macOS)"] ;;
  mounting server path.

(* src: crates/racfs-cli/src/main.rs 276-281 health *)
Definition health : Op () :=
  response ← call cli_health; print_lines ["Status: " +:+ h_status response; "Version: " +:+ h_version response].

(* src: crates/racfs-cli/src/main.rs 283-291 capabilities *)
Definition capabilities : Op () :=
  response ← call cli_capabilities;
  print_lines ("Features:"%string :: map (fun f => "  - " +:+ f) (features response) ++
               ["Max file size: " +:+ to_string (max_file_size response) +:+ " bytes"]).

Definition run_command (fuel : nat) mounting (server : string) (c : Commands) : Op () :=
  match c with
  | Ls path => ls path
  | Cat path => cat path
  | Write path data => write_file path data
  | Mkdir path => mkdir path
  | Rm path => rm path
  | Rmdir path => rmdir path
  | Stat path => stat path
  | Mv source dest => mv source dest
  | Cp source dest => cp source dest
  | Tree path => tree fuel path
  | Mount path => mount mounting server path
  | Chmod path mode => chmod path mode
  | Health => health
  | Capabilities => capabilities
  end.

(** What a run leaves: the standard output, the standard error and the exit
    code; none when it panics or does not end. *)
Record Exit := { out : string; err : string; code : Z }.

(* src: crates/racfs-cli/src/main.rs 75-102 main *)
Definition main (fuel : nat) mounting (server : string) (c : Commands) (client : C) : option Exit * C :=
  let '(result, t) := run_command fuel mounting server c (mkTerminal client "") in
  (match result with
   | Ok _ => Some {| out := stdout t; err := ""; code := 0 |}
   | Err e => Some {| out := stdout t; err := "Error: " +:+ error_display e +:+ newline; code := 1 |}
   | _ => None
   end, cli t).
End Commands_.

(** The methods of the HTTP client, whose answers carry what is printed. *)
Section Instance_.
Context `{BuildProfile} `{JsonText} {W : Type} (send : HttpRequest -> W -> (Response + SendError) * W).
Context (status_text : Z -> string) (decode_error : SendError) (client_clocks : nat -> Now).

Definition cli_api : CliClient (Clocked W) := {|
  cli_read_dir p := on_api client_clocks (fun now => ClientApi.read_dir send status_text decode_error now p);
  cli_read_file p := on_api client_clocks (fun now => ClientApi.read_file send status_text now p);
  cli_write_file p d o := on_api client_clocks (fun now => ClientApi.write_file send status_text decode_error now p d o);
  cli_create_file p := on_api client_clocks (fun now => ClientApi.create_file send status_text decode_error now p);
  cli_mkdir p m := on_api client_clocks (fun now => ClientApi.mkdir send status_text decode_error now p m);
  cli_remove p := on_api client_clocks (fun now => ClientApi.remove send status_text decode_error now p);
  cli_stat p := on_api client_clocks (fun now => ClientApi.stat send status_text decode_error now p);
  cli_rename a b := on_api client_clocks (fun now => ClientApi.rename send status_text decode_error now a b);
  cli_chmod p m := on_api client_clocks (fun now => ClientApi.chmod send status_text decode_error now p m);
  cli_health := on_api client_clocks (fun now => ClientApi.health send status_text decode_error now);
  cli_capabilities := on_api client_clocks (fun now => ClientApi.capabilities send status_text decode_error now)
|}.
End Instance_.

(** ** The tree *)

Definition text (l : list string) : string := fold_right (fun s rest => s +:+ newline +:+ rest) ""%string l.

Lemma text_cons s l : text (s :: l) = s +:+ newline +:+ text l.
Proof. done. Qed.

Lemma text_app l k : text (l ++ k) = text l +:+ text k.
Proof. induction l as [|s l IH]; [done|]. cbn [Datatypes.app]. rewrite !text_cons, IH. by rewrite !string_app_assoc. Qed.

Section TreeSpec.
Context (listing : string -> outcome Error DirectoryListResponse) (meta : string -> Error + FileMetadataResponse).

Definition is_directory (p : string) : bool :=
  match meta p with inr m => String.eqb (file_type m) "directory" | inl _ => false end.

(** What is printed for the entries of a directory, and the directories in it. *)
Fixpoint level_lines (prefix : string) (l : list DirectoryEntry) : list string :=
  match l with
  | [] => []
  | e :: rest => (prefix +:+ branch (is_last rest) +:+ shown_name (d_path e)) :: level_lines prefix rest
  end.
Fixpoint level_dirs (prefix path : string) (l : list DirectoryEntry) : list (string * string) :=
  match l with
  | [] => []
  | e :: rest =>
    let dirs := level_dirs prefix path rest in
    if is_directory (shown_path (d_path e))
    then (prefix +:+ next_prefix (is_last rest), subpath path (shown_name (d_path e))) :: dirs else dirs
  end.

(** The tree below a directory: its entries, and then the trees of the
    directories in it; with the number of directories.  None when it is deeper
    than [depth] or a listing fails. *)
Fixpoint tree_text (depth : nat) (prefix path : string) : option (list string * nat) :=
  match depth with
  | O => None
  | S depth =>
    match listing path with
    | Ok l =>
      let es := shown (entries l) in
      subs ← mapM (fun pq => tree_text depth (fst pq) (snd pq)) (level_dirs prefix path es);
      Some (level_lines prefix es ++ concat (map fst subs), S (sum_list (map snd subs)))
    | _ => None
    end
  end.

Context {C : Type} `{CliClient C} (inv : C -> Prop).
Implicit Types (t : Terminal C).

(** The answers of the client do not change while the tree is read. *)
Definition reads_steadily : Prop := forall p c, inv c ->
  (exists c', cli_read_dir p c = (listing p, c') /\ inv c') /\
  (exists c', cli_stat p c = (match meta p with inr m => Ok m | inl e => Err e end, c') /\ inv c').

Context (steady : reads_steadily).

(** From [t] to a terminal that shows [s] more. *)
Definition shows t (s : string) t' : Prop := inv (cli t') /\ stdout t' = stdout t +:+ s.

Lemma shows_trans t s t1 s1 t2 : shows t s t1 -> shows t1 s1 t2 -> shows t (s +:+ s1) t2.
Proof. intros [_ H1] [Hi H2]. split; [done|]. by rewrite H2, H1, string_app_assoc. Qed.

Lemma show_entries_ok prefix path l t :
  inv (cli t) ->
  exists t', show_entries prefix path l t = (Ok (level_dirs prefix path l), t') /\ shows t (text (level_lines prefix l)) t'.
Proof.
  revert t. induction l as [|e l IH]; intros t Hinv.
  { exists t. split; [done|]. split; [done|]. cbn. by rewrite string_app_nil_r. }
  cbn [show_entries]. set (line := prefix +:+ branch (is_last l) +:+ shown_name (d_path e)).
  rewrite (bind_ok _ _ t (mkTerminal (cli t) (stdout t +:+ (line +:+ newline))) ()) by done.
  destruct (steady (shown_path (d_path e)) (cli t) Hinv) as [_ (c & Hs & Hc)].
  destruct (IH (mkTerminal c (stdout t +:+ (line +:+ newline))) Hc) as (t' & Ht & Hi & Ho).
  rewrite (bind_ok _ _ _ (mkTerminal c (stdout t +:+ (line +:+ newline))) (meta (shown_path (d_path e)))).
  2: { unfold attempt, call. cbn. rewrite Hs. by destruct (meta (shown_path (d_path e))). }
  rewrite (bind_ok _ _ _ _ _ Ht). exists t'. split.
  - cbn [level_dirs]. unfold is_directory. by destruct (meta (shown_path (d_path e))).
  - split; [done|]. rewrite Ho. cbn [level_lines stdout]. fold line. by rewrite text_cons, !string_app_assoc.
Qed.

(** Enough steps for a tree print it and go on with the rest of the stack. *)
Definition walks (n : nat) (stack : list (string * string)) (lines : list string) : Prop :=
  forall fuel rest t, inv (cli t) ->
  exists t', tree_loop (n + fuel) (stack ++ rest) t = tree_loop fuel rest t' /\ shows t (text lines) t'.

Lemma walks_all (walk : string * string -> option (list string * nat)) dirs subs :
  mapM walk dirs = Some subs -> (forall pq lines n, walk pq = Some (lines, n) -> walks n [pq] lines) ->
  walks (sum_list (map snd subs)) dirs (concat (map fst subs)).
Proof.
  intros Hm Hwalk. apply mapM_Some in Hm. induction Hm as [|pq [lines n] dirs subs Hpq _ IH]; intros fuel rest t Hinv.
  - exists t. split; [done|]. split; [done|]. cbn. by rewrite string_app_nil_r.
  - destruct (Hwalk pq lines n Hpq (sum_list (map snd subs) + fuel)%nat (dirs ++ rest) t Hinv) as (t1 & Ht1 & H1).
    destruct (IH fuel rest t1 (proj1 H1)) as (t2 & Ht2 & H2). exists t2. split.
    + cbn. rewrite <- Nat.add_assoc. cbn in Ht1. by rewrite Ht1.
    + cbn. rewrite text_app. by eapply shows_trans.
Qed.

Lemma tree_walks depth prefix path lines n : tree_text depth prefix path = Some (lines, n) -> walks n [(prefix, path)] lines.
Proof.
  revert prefix path lines n. induction depth as [|depth IH]; intros prefix path lines n; [done|]. cbn [tree_text].
  destruct (listing path) as [l| | |] eqn:El; try done.
  destruct (mapM _ _) as [subs|] eqn:Em; [|done]. intros [= <- <-] fuel rest t Hinv. cbn [Datatypes.app Nat.add tree_loop].
  destruct (steady path (cli t) Hinv) as [(c & Hd & Hc) _]. rewrite El in Hd.
  rewrite (bind_ok _ _ t (mkTerminal c (stdout t)) l) by (unfold call; by rewrite Hd).
  destruct (show_entries_ok prefix path (shown (entries l)) (mkTerminal c (stdout t)) Hc) as (t1 & Ht1 & H1).
  rewrite (bind_ok _ _ _ _ _ Ht1).
  destruct (walks_all _ _ _ Em (fun '(p, q) lines n Hpq => IH p q lines n Hpq) fuel rest t1 (proj1 H1)) as (t2 & Ht2 & H2).
  exists t2. split; [done|]. rewrite text_app. by apply (shows_trans t _ t1).
Qed.

(** C34: On a server whose answers stay the same and that lists what is below the
    path to a finite tree, the command tree ends with that tree, read recursively: the loop over its stack prints what
    the recursion says, in as many steps as there are directories. *)
Theorem cli_tree_spec depth path lines n fuel t :
  tree_text depth "" path = Some (lines, n) -> inv (cli t) -> (n <= fuel)%nat ->
  exists t', tree fuel path t = (Ok (), t') /\ inv (cli t') /\ stdout t' = stdout t +:+ text (path :: lines).
Proof.
  intros Htree Hinv Hfuel. unfold tree.
  rewrite (bind_ok _ _ t (mkTerminal (cli t) (stdout t +:+ (path +:+ newline))) ()) by done.
  destruct (tree_walks depth "" path lines n Htree (fuel - n)%nat [] (mkTerminal (cli t) (stdout t +:+ (path +:+ newline))) Hinv)
    as (t' & Ht & Hi & Ho).
  replace (n + (fuel - n))%nat with fuel in Ht by lia. exists t'. rewrite app_nil_r in Ht. rewrite Ht.
  split; [by destruct (fuel - n)%nat|]. split; [done|]. rewrite Ho. cbn [stdout]. by rewrite text_cons, !string_app_assoc.
Qed.
End TreeSpec.

(** ** Small examples *)

Section Demo.
(** A server with the directory [/a], the file [/a/x] and the file [/b]. *)
Definition demo_entry (p : string) : DirectoryEntry :=
  {| d_permissions := "644"; d_size := 0; d_modified := None; d_path := p; d_file_type := None |}.
Definition demo_listing (p : string) : outcome Error DirectoryListResponse :=
  if String.eqb p "/" then Ok {| entries := [demo_entry "/a"; demo_entry "/b"] |}
  else if String.eqb p "/a" then Ok {| entries := [demo_entry "/a/x"] |} else Err NotAuthenticated.
Definition demo_meta (p : string) : Error + FileMetadataResponse :=
  inr {| file_type := if String.eqb p "/a" then "directory" else "file"; permissions := "644"; size := 0; modified := None;
         ClientTypes.path := p; ClientTypes.symlink_target := None |}.

#[local] Instance demo_cli : CliClient () := {|
  cli_read_dir p := lift (demo_listing p);
  cli_stat p := lift (match demo_meta p with inr m => Ok m | inl e => Err e end);
  cli_read_file _ := fail NotAuthenticated; cli_write_file _ _ _ := fail NotAuthenticated;
  cli_create_file _ := fail NotAuthenticated; cli_mkdir _ _ := fail NotAuthenticated; cli_remove _ := fail NotAuthenticated;
  cli_rename _ _ := fail NotAuthenticated; cli_chmod _ _ := fail NotAuthenticated; cli_health := fail NotAuthenticated;
  cli_capabilities := fail NotAuthenticated
|}.

Lemma demo_steady : reads_steadily demo_listing demo_meta (fun _ : () => True).
Proof. intros p c _. split; by exists c. Qed.

Lemma cli_tree_spec_witness :
  exists t', tree 5 "/" (mkTerminal () "") = (Ok (), t') /\
    stdout t' = text ["/"; "├── a"; "└── b"; "│   └── x"]%string.
Proof.
  destruct (cli_tree_spec demo_listing demo_meta (fun _ : () => True) demo_steady
              3 "/" ["├── a"; "└── b"; "│   └── x"]%string 2 5 (mkTerminal () "")) as (t' & Ht & _ & Ho);
    [reflexivity|exact I|lia|].
  exists t'. split; [exact Ht|exact Ho].
Defined.

(** The entries of a directory come after all entries of the directory above, so
    that [x] of [a] stands below [b]. *)
Lemma cli_tree_misplaced :
  fst (main 5 (fun _ _ => mret ()) "" (Tree "/") ()) =
    Some {| out := text ["/"; "├── a"; "└── b"; "│   └── x"]%string; err := ""; code := 0 |}.
Proof. vm_compute. reflexivity. Qed.
End Demo.

Section Copy.
#[local] Existing Instance debug_profile.
#[local] Existing Instance plain_encodings.
#[local] Existing Instance binary_json.
#[local] Existing Instance plain_axum.
#[local] Existing Instance small_prometheus.
#[local] Existing Instance plain_bcrypt.
#[local] Existing Instance plain_jwt.
#[local] Instance copy_cli : CliClient (Clocked (Server MemFS)) :=
  cli_api (serve still_clocks str_len no_error) to_string no_error (fun _ => still).

(** A copy holds the JSON text of the content, quotes included, and the command
    succeeds. *)
Lemma cli_copy_quoted :
  let c := {| api := demo_client 100; calls := 0 |} in
  let '(e, c') := main 5 (fun _ _ => mret ()) "" (Cp "/d/f" "/d/g") c in
  e = Some {| out := "Copied /d/f to /d/g (3 bytes)" +:+ newline; err := ""; code := 0 |} /\
  let disk := vfs (app (network (http (api c')))) in
  fst (MemFS.read still "/d/f" 0 (-1) disk) = Ok (as_bytes "abc") /\
  fst (MemFS.read still "/d/g" 0 (-1) disk) = Ok (as_bytes (quoted "abc")).
Proof. vm_compute. done. Qed.
End Copy.
