(* ===== verification/Config.v ===== *)
(** * Config: the configuration of the server ([crates/racfs-server/src/config.rs])

    A configuration is read from a TOML file, completed with defaults,
    overridden by the environment and validated.  The crate [toml] turns the
    text into a value of serde's data model, which [Json] stands for; what the
    derived [Deserialize] makes of it is written out.  [HashMap] is iterated in
    an order of its own: [validate] takes the entries in the order they come. *)

From S2P Require Import Prelude Text RPath Json Auth.
From Stdlib Require Strings.String.

(** [toml::from_str], up to the struct that is read: the error, or the value. *)
Class TomlText := { toml_from_str : string -> option Json }.

(* src: crates/racfs-server/src/config.rs 11-13 ConfigValidationError *)
Record ConfigValidationError := { message : string }.

(** ** Data and defaults *)

(* src: crates/racfs-server/src/config.rs 53-60 RatelimitConfigOption *)
Record RatelimitConfigOption := { cfg_max_requests : Z; window_secs : Z }.

(* src: crates/racfs-server/src/config.rs 62-64 default_max_requests *)
Definition default_max_requests : Z := 100.
(* src: crates/racfs-server/src/config.rs 66-68 default_window_secs *)
Definition default_window_secs : Z := 60.

(* src: crates/racfs-server/src/config.rs 70-77 Default for RatelimitConfigOption *)
Definition default_ratelimit : RatelimitConfigOption :=
  {| cfg_max_requests := default_max_requests; window_secs := default_window_secs |}.

(* src: crates/racfs-server/src/config.rs 81-85 StatCacheConfigOption *)
Record StatCacheConfigOption := { cfg_ttl_secs : Z }.

(* src: crates/racfs-server/src/config.rs 87-89 default_stat_cache_ttl_secs *)
Definition default_stat_cache_ttl_secs : Z := 2.

(* src: crates/racfs-server/src/config.rs 91-97 Default for StatCacheConfigOption *)
Definition default_stat_cache : StatCacheConfigOption := {| cfg_ttl_secs := default_stat_cache_ttl_secs |}.

(* src: crates/racfs-server/src/config.rs 102-112 MountCacheConfig *)
Record MountCacheConfig := {
  enabled : bool;
  ttl_secs : option Z;
  max_entries : option Z
}.

(* src: crates/racfs-server/src/config.rs 116-169 MountConfig *)
Record MountConfig := {
  mount_path : string;
  fs_type : string;
  url : option string;
  root : option string;
  buffer_size : option Z;
  history_size : option Z;
  max_streams : option Z;
  storage_uri : option string;
  db_path : option string;
  database_path : option string;
  embedding_url : option string;
  table_name : option string;
  dimension : option Z;
  mount_cache : option MountCacheConfig;
  perm : Z
}.

(* src: crates/racfs-server/src/config.rs 25-49 ServerConfig *)
Record ServerConfig := {
  host : string;
  port : Z;
  mounts : gmap string MountConfig;
  cfg_jwt : JwtConfig;
  ratelimit : RatelimitConfigOption;
  cfg_stat_cache : StatCacheConfigOption
}.

(* src: crates/racfs-server/src/config.rs 171-173 default_host *)
Definition default_host : string := "127.0.0.1".
(* src: crates/racfs-server/src/config.rs 175-177 default_port *)
Definition default_port : Z := 8080.
(* src: crates/racfs-server/src/config.rs 179-181 default_fs_type *)
Definition default_fs_type : string := "memfs".
(* src: crates/racfs-server/src/config.rs 183-185 default_permissions *)
Definition default_permissions : Z := Eval cbv in octal 755.
(* src: crates/racfs-server/src/config.rs 187-189 default_buffer_size *)
Definition default_buffer_size : option Z := Some 1000.
(* src: crates/racfs-server/src/config.rs 191-193 default_history_size *)
Definition default_history_size : option Z := Some 100.
(* src: crates/racfs-server/src/config.rs 195-197 default_max_streams *)
Definition default_max_streams : option Z := Some 100.

(** The identifier is the secret that [JwtConfig::default] draws. *)
(* src: crates/racfs-server/src/config.rs 199-210 Default for ServerConfig *)
Definition default_server (uuid : string) : ServerConfig :=
  {| host := default_host; port := default_port; mounts := ∅; cfg_jwt := default_jwt uuid;
     ratelimit := default_ratelimit; cfg_stat_cache := default_stat_cache |}.

(** ** Reading a value *)

Definition in_u16 (n : Z) : bool := (0 <=? n) && (n <=? 65535).

(** A present field of type [Option<T>] with a default of its own. *)
Definition opt_from {A} (decode : Json -> option A) (v : Json) : option (option A) :=
  match v with JNull => Some None | _ => Some <$> decode v end.

(* src: crates/racfs-server/src/config.rs 53-60 Deserialize for RatelimitConfigOption *)
#[global] Instance Ratelimit_Deserialize : Deserialize RatelimitConfigOption := fun v =>
  n ← default_field "max_requests" default_max_requests (int_from in_u32) v;
  w ← default_field "window_secs" default_window_secs (int_from in_u64) v;
  Some {| cfg_max_requests := n; window_secs := w |}.

(* src: crates/racfs-server/src/config.rs 81-85 Deserialize for StatCacheConfigOption *)
#[global] Instance StatCacheOption_Deserialize : Deserialize StatCacheConfigOption := fun v =>
  t ← default_field "ttl_secs" default_stat_cache_ttl_secs (int_from in_u64) v;
  Some {| cfg_ttl_secs := t |}.

(* src: crates/racfs-server/src/config.rs 102-112 Deserialize for MountCacheConfig *)
#[global] Instance MountCache_Deserialize : Deserialize MountCacheConfig := fun v =>
  e ← default_field "enabled" false bool_from v;
  t ← opt_field "ttl_secs" (int_from in_u64) v;
  m ← opt_field "max_entries" (int_from in_u64) v;
  Some {| enabled := e; ttl_secs := t; max_entries := m |}.

(* src: crates/racfs-server/src/auth/jwt.rs 16-28 Deserialize for JwtConfig *)
#[global] Instance JwtConfig_Deserialize : Deserialize JwtConfig := fun v =>
  s ← get_field "secret" string_Deserialize v;
  e ← default_field "expiration" default_expiration (int_from in_u64) v;
  i ← default_field "issuer" default_issuer string_Deserialize v;
  a ← default_field "algorithm" default_algorithm string_Deserialize v;
  Some {| secret := s; expiration := e; issuer := i; config_algorithm := a |}.

(* src: crates/racfs-server/src/config.rs 116-169 Deserialize for MountConfig *)
#[global] Instance MountConfig_Deserialize : Deserialize MountConfig := fun v =>
  p ← get_field "path" string_Deserialize v;
  t ← default_field "fs_type" default_fs_type string_Deserialize v;
  u ← opt_field "url" string_Deserialize v;
  r ← opt_field "root" string_Deserialize v;
  bs ← default_field "buffer_size" default_buffer_size (opt_from (int_from in_u64)) v;
  hs ← default_field "history_size" default_history_size (opt_from (int_from in_u64)) v;
  ms ← default_field "max_streams" default_max_streams (opt_from (int_from in_u64)) v;
  su ← opt_field "storage_uri" string_Deserialize v;
  dp ← opt_field "db_path" string_Deserialize v;
  da ← opt_field "database_path" string_Deserialize v;
  eu ← opt_field "embedding_url" string_Deserialize v;
  tn ← opt_field "table_name" string_Deserialize v;
  di ← opt_field "dimension" (int_from in_u64) v;
  c ← opt_field "cache" MountCache_Deserialize v;
  pm ← default_field "perm" default_permissions (int_from in_u32) v;
  Some {| mount_path := p; fs_type := t; url := u; root := r; buffer_size := bs; history_size := hs;
          max_streams := ms; storage_uri := su; db_path := dp; database_path := da;
          embedding_url := eu; table_name := tn; dimension := di; mount_cache := c; perm := pm |}.

(* src: crates/racfs-server/src/config.rs 25-49 Deserialize for ServerConfig *)
Definition server_from_json (uuid : string) (v : Json) : option ServerConfig :=
  h ← default_field "host" default_host string_Deserialize v;
  p ← default_field "port" default_port (int_from in_u16) v;
  m ← default_field "mounts" ∅ (map_from MountConfig_Deserialize) v;
  j ← default_field "jwt" (default_jwt uuid) JwtConfig_Deserialize v;
  r ← default_field "ratelimit" default_ratelimit Ratelimit_Deserialize v;
  c ← default_field "stat_cache" default_stat_cache StatCacheOption_Deserialize v;
  Some {| host := h; port := p; mounts := m; cfg_jwt := j; ratelimit := r; cfg_stat_cache := c |}.

(** ** Operations *)

Section Loading.
Context `{TomlText}.
(** The file system of the machine and the environment of the process. *)
Implicit Types (files env : string -> option string) (uuid : string) (c : ServerConfig).

(** Every error is only printed. *)
(* src: crates/racfs-server/src/config.rs 214-218 ServerConfig::from_file *)
Definition from_file files uuid (path : string) : option ServerConfig :=
  content ← files path;
  v ← toml_from_str content;
  server_from_json uuid v.

(* src: crates/racfs-server/src/config.rs 221-226 ServerConfig::from_file_or_default *)
Definition from_file_or_default files uuid (path : option string) : option ServerConfig :=
  match path with
  | Some p => from_file files uuid p
  | None => Some (default_server uuid)
  end.

(** [s.parse::<u16>()] *)
Definition parse_u16 (s : string) : option Z := n ← parse_u64 s; if n <=? 65535 then Some n else None.

(* src: crates/racfs-server/src/config.rs 231-240 ServerConfig::apply_env_overrides *)
Definition apply_env_overrides env c : ServerConfig :=
  let h := default (host c) (env "RACFS_HOST"%string) in
  let p := default (port c) (s ← env "RACFS_PORT"%string; parse_u16 s) in
  {| host := h; port := p; mounts := mounts c; cfg_jwt := cfg_jwt c; ratelimit := ratelimit c;
     cfg_stat_cache := cfg_stat_cache c |}.
End Loading.

(** [push] of a message under a condition. *)
Definition push_if (b : bool) (m : string) : list string := if b then [m] else [].

(** [o.as_ref().is_none_or(|s| s.trim().is_empty())] *)
Definition missing_text (o : option string) : bool :=
  match o with Some s => String.eqb (trim s) "" | None => true end.

Definition is_zero (o : option Z) : bool := match o with Some n => n =? 0 | None => false end.

(** The messages about one mount. *)
(* src: crates/racfs-server/src/config.rs 250-311 ServerConfig::validate *)
Definition mount_errors (nm : string * MountConfig) : list string :=
  let '(name, m) := nm in
  let msg (s : string) : string := "mounts." +:+ name +:+ ": " +:+ s in
  (if String.eqb (trim (mount_path m)) "" then [msg "path must be non-empty"]
   else push_if (negb (starts_with (mount_path m) "/")) (msg "path must start with '/'")) ++
  (if String.eqb (fs_type m) "localfs" then push_if (missing_text (root m)) (msg "localfs requires 'root' path")
   else if String.eqb (fs_type m) "proxyfs" then push_if (missing_text (url m)) (msg "proxyfs requires 'url'")
   else if String.eqb (fs_type m) "streamfs" then
     push_if (is_zero (buffer_size m)) (msg "streamfs buffer_size must be > 0") ++
     push_if (is_zero (history_size m)) (msg "streamfs history_size must be > 0") ++
     push_if (is_zero (max_streams m)) (msg "streamfs max_streams must be > 0")
   else []) ++
  match mount_cache m with
  | Some cache =>
    if enabled cache then
      push_if (is_zero (ttl_secs cache)) (msg "cache.ttl_secs must be > 0 when cache is enabled") ++
      push_if (is_zero (max_entries cache)) (msg "cache.max_entries must be > 0 when cache is enabled")
    else []
  | None => []
  end.

(* src: crates/racfs-server/src/config.rs 243-320 ServerConfig::validate *)
Definition validate (entries : list (string * MountConfig)) (c : ServerConfig) : outcome ConfigValidationError () :=
  let errors := push_if (String.eqb (trim (host c)) "") "host must be non-empty" ++ concat (map mount_errors entries) in
  match errors with
  | [] => Ok ()
  | _ => Err {| message := join_str "; " errors |}
  end.

(** ** What is accepted *)

Definition has_text (o : option string) : Prop := exists s, o = Some s /\ trim s <> ""%string.

(** The conditions on a mount, one by one. *)
Record mount_valid (m : MountConfig) : Prop := {
  mv_path : trim (mount_path m) <> ""%string;
  mv_absolute : starts_with (mount_path m) "/" = true;
  mv_local : fs_type m = "localfs"%string -> has_text (root m);
  mv_proxy : fs_type m = "proxyfs"%string -> has_text (url m);
  mv_stream : fs_type m = "streamfs"%string ->
    buffer_size m <> Some 0 /\ history_size m <> Some 0 /\ max_streams m <> Some 0;
  mv_cache c : mount_cache m = Some c -> enabled c = true -> ttl_secs c <> Some 0 /\ max_entries c <> Some 0
}.

Lemma push_if_nil b m : push_if b m = [] <-> b = false.
Proof. by destruct b. Qed.

Lemma missing_text_false o : missing_text o = false <-> has_text o.
Proof.
  unfold missing_text, has_text. destruct o as [s|]; [|by split; [|intros (s & ? & ?)]].
  rewrite String.eqb_neq. split; [by exists s|]. by intros (s' & [= ->] & ?).
Qed.

Lemma is_zero_false o : is_zero o = false <-> o <> Some 0.
Proof. destruct o as [n|]; simpl; [rewrite Z.eqb_neq; split; congruence|done]. Qed.

Lemma mount_errors_nil name m : mount_errors (name, m) = [] <-> mount_valid m.
Proof.
  unfold mount_errors. rewrite !app_nil. split.
  - intros (Hp & Ht & Hc). constructor.
    + intros He%String.eqb_eq. by rewrite He in Hp.
    + destruct (String.eqb (trim (mount_path m)) ""); [done|].
      apply push_if_nil in Hp. by apply negb_false_iff in Hp.
    + intros He. rewrite He in Ht. simpl in Ht. by apply push_if_nil, missing_text_false in Ht.
    + intros He. rewrite He in Ht. simpl in Ht. by apply push_if_nil, missing_text_false in Ht.
    + intros He. rewrite He in Ht. simpl in Ht. rewrite !app_nil, !push_if_nil, !is_zero_false in Ht. tauto.
    + intros c Hm He. rewrite Hm, He, app_nil, !push_if_nil, !is_zero_false in Hc. tauto.
  - intros [Hp Ha Hl Hx Hs Hc]. split_and!.
    + rewrite (proj2 (String.eqb_neq _ _) Hp). apply push_if_nil. by rewrite Ha.
    + destruct (String.eqb_spec (fs_type m) "localfs") as [He|].
      { by apply push_if_nil, missing_text_false, Hl. }
      destruct (String.eqb_spec (fs_type m) "proxyfs") as [He|].
      { by apply push_if_nil, missing_text_false, Hx. }
      destruct (String.eqb_spec (fs_type m) "streamfs") as [He|]; [|done].
      rewrite !app_nil, !push_if_nil, !is_zero_false. by apply Hs.
    + destruct (mount_cache m) as [c|]; [|done]. destruct (enabled c) eqn:He; [|done].
      rewrite app_nil, !push_if_nil, !is_zero_false. by apply Hc.
Qed.

Definition config_valid (c : ServerConfig) : Prop :=
  trim (host c) <> ""%string /\ forall name m, mounts c !! name = Some m -> mount_valid m.

Lemma concat_nil {A} (l : list (list A)) : concat l = [] <-> Forall (fun x => x = []) l.
Proof.
  induction l as [|x l IH]; simpl; [naive_solver|]. rewrite app_nil, IH, Forall_cons. done.
Qed.

(** Validation, in whatever order the entries come. *)
Lemma validate_run c entries :
  entries ≡ₚ map_to_list (mounts c) ->
  (validate entries c = Ok () /\ config_valid c) \/ (exists e, validate entries c = Err e /\ ~ config_valid c).
Proof.
  intros Hp. unfold validate.
  set (errors := push_if _ _ ++ _).
  assert (He : errors = [] <-> config_valid c).
  { unfold errors, config_valid. rewrite app_nil, push_if_nil, concat_nil, String.eqb_neq.
    apply and_iff_compat_l. rewrite Forall_map, Forall_forall. split.
    - intros Hall name m Hm. apply (mount_errors_nil name), (Hall (name, m)).
      rewrite Hp. by apply elem_of_map_to_list.
    - intros Hall [name m] Hin. apply mount_errors_nil, (Hall name).
      rewrite Hp in Hin. by apply elem_of_map_to_list. }
  destruct errors as [|e l]; [left; split; [done|by apply He]|right].
  eexists. split; [done|]. intros Hv. by apply He in Hv.
Qed.

(** Every complaint about a mount names it. *)
Lemma mount_errors_named name m :
  Forall (fun s => exists t, s = "mounts." +:+ name +:+ ": " +:+ t) (mount_errors (name, m)).
Proof.
  assert (Hpush : forall b t, Forall (fun s => exists t, s = "mounts." +:+ name +:+ ": " +:+ t)
                                (push_if b ("mounts." +:+ name +:+ ": " +:+ t))).
  { intros [] t; repeat constructor. by exists t. }
  unfold mount_errors. rewrite !Forall_app. split_and!.
  - destruct (String.eqb _ _); [apply (Hpush true)|apply Hpush].
  - repeat case_match; rewrite ?Forall_app; auto.
  - repeat case_match; rewrite ?Forall_app; auto.
Qed.

(** C33: a configuration is accepted exactly when the host and every mount meet
    the conditions, whatever order the mounts are looked at in; every complaint
    names its mount. *)
Theorem validate_spec c entries :
  entries ≡ₚ map_to_list (mounts c) ->
  (validate entries c = Ok () <-> config_valid c) /\
  (forall e, validate entries c = Err e -> ~ config_valid c) /\
  (forall name m s, mounts c !! name = Some m -> s ∈ mount_errors (name, m) ->
     exists t, s = "mounts." +:+ name +:+ ": " +:+ t).
Proof.
  intros Hp. split_and!.
  - destruct (validate_run c entries Hp) as [[-> Hv]|(e & -> & Hv)]; by split.
  - intros e. by destruct (validate_run c entries Hp) as [[-> Hv]|(e' & _ & Hv)].
  - intros name m s _ Hs. pose proof (mount_errors_named name m) as Hall. rewrite Forall_forall in Hall. auto.
Qed.

(** ** Witness *)

Definition zero_stream : MountConfig :=
  {| mount_path := "streams"; fs_type := "streamfs"; url := None; root := None; buffer_size := Some 0;
     history_size := Some 100; max_streams := Some 100; storage_uri := None; db_path := None; database_path := None;
     embedding_url := None; table_name := None; dimension := None; mount_cache := None; perm := default_permissions |}.

Definition zero_config : ServerConfig :=
  {| host := " "; port := 80; mounts := {[ "s" := zero_stream ]}; cfg_jwt := default_jwt "";
     ratelimit := default_ratelimit; cfg_stat_cache := default_stat_cache |}.

Example zero_config_refused :
  validate (map_to_list (mounts zero_config)) zero_config =
  Err {| message := "host must be non-empty; mounts.s: path must start with '/'; mounts.s: streamfs buffer_size must be > 0" |}.
Proof. vm_compute. reflexivity. Qed.

Lemma validate_spec_witness : ~ config_valid zero_config.
Proof.
  refine (proj1 (proj2 (validate_spec zero_config (map_to_list (mounts zero_config)) (reflexivity _)))
            {| message := "host must be non-empty; mounts.s: path must start with '/'; mounts.s: streamfs buffer_size must be > 0" |} _).
  vm_compute. reflexivity.
Defined.
