(* ===== verification/SocketAddr.v ===== *)
(** * SocketAddr: the addresses a server can be bound to

    [str::parse::<SocketAddr>] of the standard library: an address is a dotted
    IPv4 address or an IPv6 address in brackets, with a port behind it.  A parser
    answers the value and what is left of the text; when it fails, nothing is
    consumed. *)

From S2P Require Import Prelude Text.
From Stdlib Require Import Strings.Ascii.
From Stdlib Require Strings.String.

Definition u8_max : Z := 2 ^ 8 - 1.
Definition u16_max : Z := 2 ^ 16 - 1.

Inductive SocketAddr :=
| V4 (octets : list Z) (port : Z)
| V6 (groups : list Z) (scope_id port : Z).

Abbreviation Parser A := (string -> option (A * string)).

(** [char::to_digit] *)
Definition to_digit (radix : Z) (c : ascii) : option Z :=
  let n := Z.of_nat (nat_of_ascii c) in
  let d := if (48 <=? n) && (n <=? 57) then n - 48
           else if (97 <=? n) && (n <=? 122) then n - 87
           else if (65 <=? n) && (n <=? 90) then n - 55 else radix in
  if d <? radix then Some d else None.

Fixpoint span_digits (radix : Z) (s : string) : list Z * string :=
  match s with
  | String c s' =>
    match to_digit radix c with
    | Some d => let '(ds, rest) := span_digits radix s' in (d :: ds, rest)
    | None => ([], s)
    end
  | EmptyString => ([], EmptyString)
  end.

Definition number_of (radix : Z) (ds : list Z) : Z := fold_left (fun acc d => acc * radix + d) ds 0.

(** [Parser::read_number] for a type whose largest value is [max]. *)
Definition read_number (radix : Z) (max_digits : option nat) (allow_zero_prefix : bool) (max : Z) : Parser Z := fun s =>
  let '(ds, rest) := span_digits radix s in
  let too_long := match max_digits with Some m => (m <? length ds)%nat | None => false end in
  let zero_prefix := match ds with 0 :: _ :: _ => true | _ => false end in
  if (length ds =? 0)%nat || too_long || (negb allow_zero_prefix && zero_prefix) || (max <? number_of radix ds)
  then None else Some (number_of radix ds, rest).

Definition read_given_char (c : ascii) : Parser () := fun s =>
  match s with String a s' => if Ascii.eqb a c then Some ((), s') else None | EmptyString => None end.

(** [Parser::read_separator] *)
Definition read_separator {A} (sep : ascii) (index : nat) (inner : Parser A) : Parser A := fun s =>
  match index with
  | O => inner s
  | _ => '(_, s) ← read_given_char sep s; inner s
  end.

Definition read_octet (index : nat) : Parser Z := read_separator "."%char index (read_number 10 (Some 3%nat) false u8_max).

Definition read_ipv4_addr : Parser (list Z) := fun s =>
  '(a, s) ← read_octet 0 s; '(b, s) ← read_octet 1 s; '(c, s) ← read_octet 2 s; '(d, s) ← read_octet 3 s;
  Some ([a; b; c; d], s).

Definition read_port : Parser Z := fun s =>
  '(_, s) ← read_given_char ":"%char s; read_number 10 None true u16_max s.

(** The groups of an IPv6 address up to the first that is none, [n] of them at
    most from number [i] on, and whether they end with an IPv4 address. *)
Fixpoint read_groups (n i : nat) (s : string) : list Z * bool * string :=
  match n with
  | O => ([], false, s)
  | S n' =>
    match (match n' with O => None | _ => read_separator ":"%char i read_ipv4_addr s end) with
    | Some ([a; b; c; d], s') => ([a * 256 + b; c * 256 + d], true, s')
    | _ =>
      match read_separator ":"%char i (read_number 16 (Some 4%nat) true u16_max) s with
      | Some (g, s') => let '(gs, v4, s'') := read_groups n' (S i) s' in (g :: gs, v4, s'')
      | None => ([], false, s)
      end
    end
  end.

(** [Parser::read_ipv6_addr]: eight groups, or fewer around two colons. *)
Definition read_ipv6_addr : Parser (list Z) := fun s =>
  let '(head, v4, s) := read_groups 8 0 s in
  if (length head =? 8)%nat then Some (head, s)
  else if (v4 : bool) then None
  else
    '(_, s) ← read_given_char ":"%char s;
    '(_, s) ← read_given_char ":"%char s;
    let '(tail, _, s) := read_groups (8 - (length head + 1)) 0 s in
    Some (head ++ replicate (8 - length head - length tail) 0 ++ tail, s).

Definition read_scope_id : Parser Z := fun s =>
  '(_, s) ← read_given_char "%"%char s; read_number 10 None true u32_max s.

Definition read_socket_addr_v4 : Parser SocketAddr := fun s =>
  '(ip, s) ← read_ipv4_addr s; '(p, s) ← read_port s; Some (V4 ip p, s).

Definition read_socket_addr_v6 : Parser SocketAddr := fun s =>
  '(_, s) ← read_given_char "["%char s;
  '(ip, s) ← read_ipv6_addr s;
  let '(scope, s) := default (0, s) (read_scope_id s) in
  '(_, s) ← read_given_char "]"%char s;
  '(p, s) ← read_port s; Some (V6 ip scope p, s).

(** The whole text must be read. *)
Definition parse_socket_addr (s : string) : option SocketAddr :=
  match (match read_socket_addr_v4 s with Some r => Some r | None => read_socket_addr_v6 s end) with
  | Some (a, EmptyString) => Some a
  | _ => None
  end.

Example socket_addrs :
  map parse_socket_addr ["127.0.0.1:8080"; "0.0.0.0:0"; "[::1]:8080"; "[fe80::1%3]:80"; "[::ffff:1.2.3.4]:1";
                         "[1:2:3:4:5:6:7:8]:65535"; "localhost:8080"; ":::8080"; "1.2.3.4"; "1.2.3.04:5"; "1.2.3.256:5";
                         "1.2.3.4:65536"; " 1.2.3.4:5"; "[1::2::3]:4"; "[1:2:3:4:5:6:7:8:9]:1"]%string =
  [Some (V4 [127; 0; 0; 1] 8080); Some (V4 [0; 0; 0; 0] 0); Some (V6 [0; 0; 0; 0; 0; 0; 0; 1] 0 8080);
   Some (V6 [65152; 0; 0; 0; 0; 0; 0; 1] 3 80); Some (V6 [0; 0; 0; 0; 0; 65535; 258; 772] 0 1);
   Some (V6 [1; 2; 3; 4; 5; 6; 7; 8] 0 65535); None; None; None; None; None; None; None; None; None].
Proof. vm_compute. reflexivity. Qed.

(** ** What is read of a printed number *)

Lemma to_digit_digit d : 0 <= d < 10 -> to_digit 10 (digit d) = Some d.
Proof.
  intros Hd. unfold to_digit. rewrite nat_of_digit by done.
  replace (Z.of_nat (48 + Z.to_nat d)) with (48 + d) by lia.
  destruct (Z.leb_spec 48 (48 + d)); [|lia]. destruct (Z.leb_spec (48 + d) 57); [|lia]. simpl.
  replace (48 + d - 48) with d by lia. by destruct (Z.ltb_spec d 10); [|lia].
Qed.

(** The text goes on with something that is no digit. *)
Definition stops (s : string) : Prop :=
  match s with String c _ => to_digit 10 c = None | EmptyString => True end.

Lemma span_stops s : stops s -> span_digits 10 s = ([], s).
Proof. destruct s as [|c s]; [done|]. simpl. by intros ->. Qed.

(** The digits of a text of digits do not depend on what comes behind. *)
Lemma span_app s rest :
  all_digits s -> stops rest -> span_digits 10 (s +:+ rest) = (fst (span_digits 10 s), rest).
Proof.
  intros Hs Hr. induction s as [|c s IH]; [by apply span_stops|]. destruct Hs as [(d & Hd & ->) Hs].
  change (String (digit d) s +:+ rest) with (String (digit d) (s +:+ rest)). cbn [span_digits].
  rewrite to_digit_digit by done. rewrite (IH Hs). by destruct (span_digits 10 s).
Qed.

Lemma span_value s acc n :
  all_digits s -> parse_digits acc s = Some n ->
  fold_left (fun acc d => acc * 10 + d) (fst (span_digits 10 s)) acc = n /\
  length (fst (span_digits 10 s)) = String.length s.
Proof.
  revert acc. induction s as [|c s IH]; intros acc; [by intros _ [= ->]|]. intros [(d & Hd & ->) Hs].
  cbn [parse_digits span_digits]. rewrite digit_val_digit, to_digit_digit by done. cbv zeta.
  destruct (acc * 10 + d <=? u64_max); [|done]. intros Hn. destruct (IH _ Hs Hn) as [H1 H2].
  destruct (span_digits 10 s) as [ds r]. cbn [fst fold_left length String.length] in *. split; [done|]. by rewrite H2.
Qed.

Lemma span_to_string n rest :
  0 <= n <= u64_max -> stops rest ->
  let ds := fst (span_digits 10 (to_string n)) in
  span_digits 10 (to_string n +:+ rest) = (ds, rest) /\ length ds = String.length (to_string n) /\ number_of 10 ds = n.
Proof.
  intros Hn Hr ds. split; [apply span_app; [apply to_string_digits; lia|done]|].
  destruct (span_value (to_string n) 0 n) as [H1 H2]; [apply to_string_digits; lia| |done].
  pose proof (parse_fmt_radix 20 n "" Hn) as Hp. apply Hp. apply Z.le_lt_trans with u64_max; [lia|vm_compute; reflexivity].
Qed.

Lemma to_string_length n : (0 < String.length (to_string n))%nat.
Proof. 
  assert (Hf : forall fuel m t, (String.length t < String.length (fmt_radix (S fuel) 10 m t))%nat).
  { intros fuel. induction fuel as [|fuel IH]; intros m t; simpl; [destruct (m <? 10); simpl; lia|].
    destruct (m <? 10); [simpl; lia|]. specialize (IH (m / 10) (String (digit (m mod 10)) t)). simpl in *. lia. }
  apply (Hf 19%nat n EmptyString).
Qed.

Lemma read_port_printed p : 0 <= p <= u16_max -> read_port (":" +:+ to_string p) = Some (p, EmptyString).
Proof.
  intros Hp. change (read_port (":" +:+ to_string p)) with (read_number 10 None true u16_max (to_string p)).
  unfold read_number.
  destruct (span_to_string p EmptyString) as (Hs & Hl & Hn); [unfold u16_max, u64_max in *; lia|done|].
  rewrite string_app_nil_r in Hs. rewrite Hs, Hn, Hl. pose proof (to_string_length p).
  destruct (Nat.eqb_spec (String.length (to_string p)) 0); [lia|]. simpl.
  by destruct (Z.ltb_spec u16_max p); [lia|].
Qed.

(** The digits of an octet. *)
Lemma octet_digits n :
  0 <= n <= u8_max -> (String.length (to_string n) <= 3)%nat /\
  (fst (span_digits 10 (to_string n)) = [0] \/ exists d ds, fst (span_digits 10 (to_string n)) = d :: ds /\ d <> 0).
Proof.
  intros Hn.
  assert (Hall : forallb (fun n => (String.length (to_string n) <=? 3)%nat &&
    match fst (span_digits 10 (to_string n)) with [0] => true | 0 :: _ => false | [] => false | _ => true end) (seqZ 0 256) = true)
    by (vm_compute; reflexivity).
  rewrite List.forallb_forall in Hall. specialize (Hall n).
  rewrite <- list_elem_of_In, elem_of_seqZ in Hall. unfold u8_max in Hn. specialize (Hall ltac:(lia)).
  apply andb_true_iff in Hall as [H1 H2]. split; [by apply Nat.leb_le|].
  destruct (fst (span_digits 10 (to_string n))) as [|d ds]; [done|].
  destruct (decide (d = 0)) as [->|Hd]; [left; by destruct ds|]. right. by exists d, ds.
Qed.

Lemma read_number_printed n rest :
  0 <= n <= u8_max -> stops rest ->
  read_number 10 (Some 3%nat) false u8_max (to_string n +:+ rest) = Some (n, rest).
Proof.
  intros Hn Hr. unfold read_number.
  destruct (span_to_string n rest) as (Hs & Hl & Hv); [unfold u8_max, u64_max in *; lia|done|].
  rewrite Hs, Hv, Hl. destruct (octet_digits n Hn) as [Hlen Ho]. pose proof (to_string_length n).
  destruct (Nat.eqb_spec (String.length (to_string n)) 0); [lia|].
  destruct (Nat.ltb_spec 3 (String.length (to_string n))); [lia|]. simpl orb. cbn [negb andb].
  assert (Hz : match fst (span_digits 10 (to_string n)) with 0 :: _ :: _ => true | _ => false end = false)
    by (destruct Ho as [->|(d & l & -> & Hd)]; [done|]; by destruct d).
  rewrite Hz. by destruct (Z.ltb_spec u8_max n); [lia|].
Qed.

(** Whatever dotted address and port are printed, they are read back. *)
Theorem parse_printed_address a b c d p :
  Forall (fun n => 0 <= n <= u8_max) [a; b; c; d] -> 0 <= p <= u16_max ->
  parse_socket_addr (to_string a +:+ "." +:+ to_string b +:+ "." +:+ to_string c +:+ "." +:+ to_string d +:+ ":" +:+ to_string p)
  = Some (V4 [a; b; c; d] p).
Proof.
  rewrite !Forall_cons. intros (Ha & Hb & Hc & Hd & _) Hp.
  assert (Hv4 : read_socket_addr_v4 (to_string a +:+ "." +:+ to_string b +:+ "." +:+ to_string c +:+ "." +:+ to_string d +:+ ":" +:+ to_string p)
                = Some (V4 [a; b; c; d] p, EmptyString)).
  { unfold read_socket_addr_v4, read_ipv4_addr, read_octet, read_separator.
    do 3 (rewrite read_number_printed by done; cbn [mbind option_bind];
          match goal with |- context [read_given_char "."%char ("." +:+ ?t)] =>
            change (read_given_char "."%char ("." +:+ t)) with (Some ((), t)) end; cbn [mbind option_bind]).
    rewrite read_number_printed by done. cbn [mbind option_bind]. by rewrite (read_port_printed p Hp). }
  unfold parse_socket_addr. by rewrite Hv4.
Qed.

(** A text that begins with neither a digit nor a bracket. *)
Definition name_like (s : string) : Prop :=
  match s with String c _ => to_digit 10 c = None /\ c <> "["%char | EmptyString => True end.

(** A name is no address. *)
Lemma name_is_no_address s : name_like s -> parse_socket_addr s = None.
Proof.
  intros Hs. destruct s as [|c s]; [done|]. destruct Hs as [Hd Hb].
  unfold parse_socket_addr, read_socket_addr_v4, read_ipv4_addr, read_octet, read_separator, read_number.
  rewrite (span_stops (String c s)) by done. cbn [length Nat.eqb orb mbind option_bind].
  unfold read_socket_addr_v6. cbn [read_given_char].
  by destruct (Ascii.eqb_spec c "["%char).
Qed.
