(* ===== verification/Startup.v ===== *)
(** * Startup: from the configuration to the running server
    ([crates/racfs-server/src/main.rs])

    [run] loads, overrides and validates the configuration, builds a backend
    for every mount and mounts it, makes the state of the server with its metrics
    and parses the address that it binds;
    [reload_on_sighup] is one turn of the loop that reloads the limits.  An
    [Arc<dyn FileSystem>] is a sum of the backends.  How those are opened that
    work on a disk, a database or another server is the interface [Openers]; the
    constructors of [LocalFS], [ProxyFS], [VectorFS] and [KvSqlite] implement it,
    each backend with an outside of its own: roots that overlap are not modelled
    as one disk. *)

From S2P Require Import Prelude Text RPath FsError Metadata FileSystem AbsPath Json Metrics SocketAddr Config Cache.
From S2P Require Import StatCache.
From S2P Require MemFS DevFS StreamFS QueueFS KvFS LocalFS ProxyFS VectorFS KvSqlite HelloFS MountableFS CachedFs.
From S2P Require Http ClientCircuit ClientApi RateLimiter Auth ServerApi Remote FuseInodes FuseCache FuseFs FuseRemote.
From Stdlib Require Strings.String.

(** ** [dyn FileSystem] *)

Section Dynamic.
Context {A B I S : Type}.

(** A call of the method of the value at hand. *)
Definition on_sum {R} (f : FsOp A R) (g : FsOp B R) : FsOp (A + B) R := fun s =>
  match s with
  | inl a => let '(r, a') := f a in (r, inl a')
  | inr b => let '(r, b') := g b in (r, inr b')
  end.

#[global] Instance sum_filesystem `{FileSystem A, FileSystem B} : FileSystem (A + B) := {
  fs_read now p o n := on_sum (fs_read now p o n) (fs_read now p o n);
  fs_stat now p := on_sum (fs_stat now p) (fs_stat now p);
  fs_create now p := on_sum (fs_create now p) (fs_create now p);
  fs_write now p d o f := on_sum (fs_write now p d o f) (fs_write now p d o f);
  fs_mkdir now p m := on_sum (fs_mkdir now p m) (fs_mkdir now p m);
  fs_read_dir now p := on_sum (fs_read_dir now p) (fs_read_dir now p);
  fs_remove now p := on_sum (fs_remove now p) (fs_remove now p);
  fs_remove_all now p := on_sum (fs_remove_all now p) (fs_remove_all now p);
  fs_rename now p q := on_sum (fs_rename now p q) (fs_rename now p q);
  fs_chmod now p m := on_sum (fs_chmod now p m) (fs_chmod now p m);
  fs_truncate now p n := on_sum (fs_truncate now p n) (fs_truncate now p n);
  fs_touch now p := on_sum (fs_touch now p) (fs_touch now p);
  fs_readlink now p := on_sum (fs_readlink now p) (fs_readlink now p);
  fs_symlink now t l := on_sum (fs_symlink now t l) (fs_symlink now t l);
  fs_get_xattr now p x := on_sum (fs_get_xattr now p x) (fs_get_xattr now p x);
  fs_set_xattr now p x v := on_sum (fs_set_xattr now p x v) (fs_set_xattr now p x v);
  fs_remove_xattr now p x := on_sum (fs_remove_xattr now p x) (fs_remove_xattr now p x);
  fs_list_xattr now p := on_sum (fs_list_xattr now p) (fs_list_xattr now p)
}.

(** A backend whose methods read a configuration that does not change. *)
Definition on_config {R} (f : I -> FsOp S R) : FsOp (I * S) R := fun '(i, s) =>
  let '(r, s') := f i s in (r, (i, s')).

Definition config_filesystem (F : I -> FileSystem S) : FileSystem (I * S) := {|
  fs_read now p o n := on_config (fun i => @fs_read _ (F i) now p o n);
  fs_stat now p := on_config (fun i => @fs_stat _ (F i) now p);
  fs_create now p := on_config (fun i => @fs_create _ (F i) now p);
  fs_write now p d o f := on_config (fun i => @fs_write _ (F i) now p d o f);
  fs_mkdir now p m := on_config (fun i => @fs_mkdir _ (F i) now p m);
  fs_read_dir now p := on_config (fun i => @fs_read_dir _ (F i) now p);
  fs_remove now p := on_config (fun i => @fs_remove _ (F i) now p);
  fs_remove_all now p := on_config (fun i => @fs_remove_all _ (F i) now p);
  fs_rename now p q := on_config (fun i => @fs_rename _ (F i) now p q);
  fs_chmod now p m := on_config (fun i => @fs_chmod _ (F i) now p m);
  fs_truncate now p n := on_config (fun i => @fs_truncate _ (F i) now p n);
  fs_touch now p := on_config (fun i => @fs_touch _ (F i) now p);
  fs_readlink now p := on_config (fun i => @fs_readlink _ (F i) now p);
  fs_symlink now t l := on_config (fun i => @fs_symlink _ (F i) now t l);
  fs_get_xattr now p x := on_config (fun i => @fs_get_xattr _ (F i) now p x);
  fs_set_xattr now p x v := on_config (fun i => @fs_set_xattr _ (F i) now p x v);
  fs_remove_xattr now p x := on_config (fun i => @fs_remove_xattr _ (F i) now p x);
  fs_list_xattr now p := on_config (fun i => @fs_list_xattr _ (F i) now p)
|}.
End Dynamic.

(** A stream backend carries its configuration. *)
Abbreviation StreamMount := (StreamFS.StreamConfig * StreamFS.StreamState)%type.

#[global] Instance stream_mount_filesystem `{BuildProfile} : FileSystem StreamMount :=
  config_filesystem StreamFS.streamfs_filesystem.

(** ** Opening backends *)

(** The backends that have something outside of the program behind them. *)
Class Openers (X : Type) := {
  local_fs : Path -> X;
  proxy_fs : string -> X;
  vector_fs : Now -> VectorFS.VectorConfig -> outcome FSError X;
  kv_database : Path -> outcome FSError X
}.

(** The constructors of the plugins, on what they find: the disk, the network
    and what opens a database. *)
Section Opened.
Context {FD D N C L Q : Type} `{VectorFS.LanceDb C L} `{KvSqlite.KvDb Q}.
Context (disk : D) (network : N) (open : Path -> outcome string Q).

Abbreviation Opened :=
  (LocalFS.LocalFS D + (ProxyFS.ProxyFS N + (VectorFS.VectorFS L + KvSqlite.KvBackend Q)))%type.

Definition plugin_openers : Openers Opened := {|
  local_fs root := inl (LocalFS.new root disk);
  proxy_fs url := inr (inl (ProxyFS.new url network));
  vector_fs now c := (fun f => inr (inr (inl f))) <$> VectorFS.with_config_async now c;
  kv_database p := (fun f => inr (inr (inr f))) <$> KvSqlite.with_database open p
|}.

(** They are one backend with what their own calls ask of the outside. *)
Context `{BuildProfile} `{JsonText} `{LocalFS.StdFs FD D} (join_error : string).
Context (send : Http.HttpRequest -> N -> (Http.Response + ClientCircuit.SendError) * N).
Context `{VectorFS.Lance L} `{VectorFS.EmbedApi L}.
Context (iter_meta : PathMap FileMetadata -> list (Path * FileMetadata)) (iter_names : gmap string bytes -> list string).

Definition opened_filesystem : FileSystem Opened :=
  let local := LocalFS.localfs_filesystem (FD := FD) (W := D) join_error in
  let proxy := ProxyFS.proxyfs_filesystem send in
  let vector := VectorFS.vectorfs_filesystem (W := L) iter_meta iter_names in
  sum_filesystem (H := local) (H0 := sum_filesystem (H := proxy) (H0 := sum_filesystem (H := vector))).

(** They open what is there to be opened. *)
Lemma plugin_openers_open (Hq : KvSqlite.KvLaws Q) :
  (forall p w, open p = Ok w -> exists x, @kv_database _ plugin_openers p = Ok x) /\
  (forall now c conn t,
     VectorFS.lance_connect (VectorFS.storage_uri c) = Ok conn ->
     VectorFS.table_names conn = Ok [VectorFS.table_name c] ->
     VectorFS.open_table conn (VectorFS.table_name c) = Ok t -> exists x, @vector_fs _ plugin_openers now c = Ok x).
Proof.
  split.
  - intros p w Hw. cbn. unfold KvSqlite.with_database. rewrite Hw. cbn [map_err mbind outcome_bind].
    destruct (KvSqlite.kv_execute_ok KvSqlite.CreateTable w) as (w1 & k & Hc1 & _). rewrite run_bind.
    unfold KvSqlite.initialize_schema, KvSqlite.create_root, KvSqlite.on_db. munfold. rewrite Hc1.
    cbn [map_err fst snd]. match goal with |- context [KvSqlite.kv_execute ?u w1] => pose proof (KvSqlite.kv_execute_ok u w1) as Hc2 end.
    unfold KvSqlite.kv_apply in Hc2. case_bool_decide; destruct Hc2 as (w2 & k2 & Hc2 & _); rewrite Hc2; by eexists.
  - intros now c conn t Hc1 Hc2 Hc3. cbn. unfold VectorFS.with_config_async, VectorFS.open_or_create_table.
    rewrite Hc1. cbn [map_err mbind outcome_bind]. rewrite Hc2. cbn [map_err mbind outcome_bind existsb].
    rewrite String.eqb_refl. cbn [orb]. rewrite Hc3. by eexists.
Qed.
End Opened.

Section Startup.
Context `{BuildProfile} `{JsonText} `{CachedFs.TsMilliseconds} `{TomlText}.
Context {T X F : Type} `{MountableFS.Trie T} `{FileSystem X} `{Openers X} `{Foyer F} `{Prometheus}.
(** The order in which a [HashMap] is iterated, the environment, the draws of
    the identifiers and the hashes of the default passwords. *)
Context (iter : gmap string MountConfig -> list (string * MountConfig)).
Context (env : string -> option string) (uuid admin_id user_id kid : string).
Context (admin_hash user_hash key_hash : option string).
Implicit Types (now : Now) (m : MountConfig) (c : ServerConfig).

(** A backend, with or without a cache in front of it. *)
Definition RawFs : Type :=
  (MemFS.MemFS + (DevFS.DevFS + (StreamMount + (QueueFS.QueueFS + (KvFS.KvFS + X)))))%type.
Definition MountedFs : Type := (RawFs + CachedFs.CachedFs RawFs (FoyerCache.FoyerCache F))%type.

#[global] Instance raw_filesystem : FileSystem RawFs := _.
#[global] Instance mounted_filesystem : FileSystem MountedFs := _.

Abbreviation Vfs := (MountableFS.MountableFS T MountedFs).

Inductive StartError :=
| Invalid (e : ConfigValidationError)
| Opening (e : FSError)
| Mounting (name : string) (e : FSError)
| NoMetrics (text : string)
| NoAddress (text : string).

Definition mem_fs (s : MemFS.MemFS) : RawFs := inl s.
Definition dev_fs (s : DevFS.DevFS) : RawFs := inr (inl s).
Definition stream_fs (s : StreamMount) : RawFs := inr (inr (inl s)).
Definition queue_fs (s : QueueFS.QueueFS) : RawFs := inr (inr (inr (inl s))).
Definition kv_fs (s : KvFS.KvFS) : RawFs := inr (inr (inr (inr (inl s)))).
Definition external_fs (x : X) : RawFs := inr (inr (inr (inr (inr x)))).
(** The backend of a mount; a type that is not known is skipped. *)
(* src: crates/racfs-server/src/main.rs 184-253 run *)
Definition build_fs now m : outcome StartError (option RawFs) :=
  let t := fs_type m in
  if String.eqb t "memfs" then Ok (Some (mem_fs (MemFS.new now)))
  else if String.eqb t "devfs" then Ok (Some (dev_fs DevFS.new))
  else if String.eqb t "localfs" then
    r ← ok_or (root m) (Invalid {| message := "localfs requires 'root' path" |});
    Ok (Some (external_fs (local_fs r)))
  else if String.eqb t "proxyfs" then
    u ← ok_or (url m) (Invalid {| message := "proxyfs requires 'url'" |});
    Ok (Some (external_fs (proxy_fs u)))
  else if String.eqb t "streamfs" then
    let stream_config :=
      {| StreamFS.buffer_size := default 1000 (buffer_size m);
         StreamFS.history_size := default 100 (history_size m);
         StreamFS.max_streams := default 100 (max_streams m);
         StreamFS.compression := None |} in
    Ok (Some (stream_fs (stream_config, StreamFS.new)))
  else if String.eqb t "vectorfs" then
    let uri := default "./vector_db"%string (match storage_uri m with Some s => Some s | None => db_path m end) in
    let vector_config :=
      {| VectorFS.storage_uri := uri; VectorFS.embedding_api := embedding_url m;
         VectorFS.table_name := default "vectors"%string (table_name m);
         VectorFS.dimension := default 384 (dimension m) |} in
    x ← map_err Opening (vector_fs now vector_config);
    Ok (Some (external_fs x))
  else if String.eqb t "queuefs" then Ok (Some (queue_fs QueueFS.new))
  else if String.eqb t "kvfs" then
    match database_path m with
    | Some d => x ← map_err Opening (kv_database d); Ok (Some (external_fs x))
    | None => Ok (Some (kv_fs KvFS.new))
    end
  else Ok None.

(* src: crates/racfs-server/src/main.rs 255-267 run *)
Definition with_cache m (fs : RawFs) : MountedFs :=
  match mount_cache m with
  | Some cache_cfg =>
    match (if enabled cache_cfg then max_entries cache_cfg else None) with
    | Some n =>
      inr (CachedFs.with_key_prefix (mount_path m +:+ ":") (CachedFs.new fs (FoyerCache.new n)))
    | None => inl fs
    end
  | None => inl fs
  end.

(** An operation whose error is put into another one. *)
Definition with_error {E} (f : FSError -> E) {R} (op : FsOp Vfs R) : M Vfs E R := fun s =>
  (map_err f (fst (op s)), snd (op s)).

(** Every backend is a new object. *)
Definition add_mount (i : MountableFS.ArcId) (name p : string) (fs : MountedFs) : M Vfs StartError () :=
  modify (MountableFS.set_arc i fs) ;;
  with_error (Mounting name) (MountableFS.mount p i).

(** What is there behind the cache. *)
Definition raw_of (f : MountedFs) : RawFs := match f with inl r => r | inr c => CachedFs.inner c end.
Definition with_raw (g : RawFs -> RawFs) (f : MountedFs) : MountedFs :=
  match f with
  | inl r => inl (g r)
  | inr c => inr (CachedFs.mkCachedFs (g (CachedFs.inner c)) (CachedFs.cache c) (CachedFs.key_prefix c))
  end.
Definition raw_memfs (r : RawFs) : option MemFS.MemFS := match r with inl s => Some s | inr _ => None end.

(** The [MemFS] of a mount as a plugin with metrics: the same object that the
    mount table has. *)
Definition memfs_metrics (i : MountableFS.ArcId) : PluginMetrics Vfs := fun '(r, v) =>
  match raw_memfs (raw_of (MountableFS.arcs v i)) with
  | Some s =>
    let '(o, (r, s)) := MemFS.register (fun v => default s (raw_memfs (raw_of (MountableFS.arcs v i)))) (r, s) in
    (o, (r, MountableFS.set_arc i (with_raw (fun _ => mem_fs s) (MountableFS.arcs v i)) v))
  | None => (Ok (), (r, v))
  end.

(** A mount, and the plugin with metrics if it is one. *)
(* src: crates/racfs-server/src/main.rs 184-282 run *)
Definition mount_one now (i : MountableFS.ArcId) (nm : string * MountConfig) : M Vfs StartError (list MountableFS.ArcId) :=
  fs ← lift (build_fs now (snd nm));
  match fs with
  | Some fs =>
    add_mount i (fst nm) (mount_path (snd nm)) (with_cache (snd nm) fs) ;;
    mret (if String.eqb (fs_type (snd nm)) "memfs" then [i] else [])
  | None => mret []
  end.

(* src: crates/racfs-server/src/main.rs 183-283 run *)
Fixpoint mount_all (clocks : nat -> Now) (i : nat) (entries : list (string * MountConfig)) : M Vfs StartError (list MountableFS.ArcId) :=
  match entries with
  | [] => mret []
  | nm :: rest => plugin ← mount_one (clocks i) i nm; plugins ← mount_all clocks (S i) rest; mret (plugin ++ plugins)
  end.

(* src: crates/racfs-server/src/main.rs 168-180 run *)
Definition mount_defaults now : M Vfs StartError (list MountableFS.ArcId) :=
  add_mount 0%nat "" "/memfs" (inl (mem_fs (MemFS.new now))) ;;
  add_mount 1%nat "" "/dev" (inl (dev_fs DevFS.new)) ;;
  mret [0%nat].

(** The objects that are not made yet. *)
Definition empty_vfs : Vfs := MountableFS.new (fun _ => inl (dev_fs DevFS.new)).

(* src: crates/racfs-server/src/main.rs 296-300 run *)
Definition limit_config c : RateLimiter.RateLimitConfig :=
  {| RateLimiter.max_requests := cfg_max_requests (ratelimit c);
     RateLimiter.window := window_secs (ratelimit c) * 10 ^ 9;
     RateLimiter.headers := RateLimiter.default_headers |}.

(** What [run] serves with: the address it binds, the shared state, the limiter
    and the file that SIGHUP reads again. *)
Record Server := {
  address : SocketAddr;
  app : ServerApi.AppState Vfs;
  limiter : RateLimiter.RateLimiter;
  config_path : option string
}.

(** The configuration in force: a file that cannot be read is replaced by the
    defaults. *)
(* src: crates/racfs-server/src/main.rs 145-152 run *)
Definition load_config (files : string -> option string) (path : option string) : ServerConfig :=
  apply_env_overrides env (default (default_server uuid) (from_file_or_default files uuid path)).

(** Up to the binding of the address.  The arguments [--host] and [--port] are
    parsed and not used. *)
(* src: crates/racfs-server/src/main.rs 129-351 run *)
Definition run (clocks : nat -> Now) (files : string -> option string) (arg_config : option string)
  : outcome StartError Server :=
  let path := match arg_config with Some p => Some p | None => env "RACFS_CONFIG"%string end in
  let c := load_config files path in
  map_err Invalid (validate (iter (mounts c)) c) ;;
  let '(mounted, vfs) :=
    (if decide (mounts c = ∅) then mount_defaults (clocks 0%nat) else mount_all clocks 0 (iter (mounts c))) empty_vfs in
  plugin_metrics ← mounted;
  state ← map_err NoMetrics
    (ServerApi.new vfs (Auth.new_auth (cfg_jwt c) admin_id user_id kid admin_hash user_hash key_hash)
                   (cfg_ttl_secs (cfg_stat_cache c)) (map memfs_metrics plugin_metrics));
  let addr := host c +:+ ":" +:+ to_string (port c) in
  a ← ok_or (parse_socket_addr addr) (NoAddress addr);
  Ok {| address := a; app := state; limiter := RateLimiter.new (limit_config c); config_path := path |}.

(** One SIGHUP: a file that cannot be read or is not valid changes nothing. *)
(* src: crates/racfs-server/src/main.rs 60-100 reload_on_sighup *)
Definition reload (files : string -> option string) (srv : Server) : Server :=
  match path ← config_path srv; from_file files uuid path with
  | None => srv
  | Some c =>
    let c := apply_env_overrides env c in
    match validate (iter (mounts c)) c with
    | Ok _ =>
      {| address := address srv;
         app := ServerApi.set_cache (StatCache.set_ttl (cfg_ttl_secs (cfg_stat_cache c) * 10 ^ 9)
                                       (ServerApi.stat_cache (app srv))) (app srv);
         limiter := RateLimiter.update_config (limit_config c) (limiter srv);
         config_path := config_path srv |}
    | _ => srv
    end
  end.
End Startup.

(** ** The tree of the server is its configuration *)

(** The mount is written as the absolute path of these names. *)
Definition mount_at (m : MountConfig) (l : list string) : Prop :=
  names_ok l /\ l <> [] /\ exists b, mount_path m = MountableFS.mount_text l b.


Section Tree.
Context `{BuildProfile} `{JsonText} `{CachedFs.TsMilliseconds} `{TomlText}.
Context {T X F : Type} `{MountableFS.TrieLaws T} `{FileSystem X} `{Openers X} `{Foyer F} `{PrometheusLaws}.
Context (iter : gmap string MountConfig -> list (string * MountConfig)).
Hypothesis iter_perm : forall ms, iter ms ≡ₚ map_to_list ms.
Context (env : string -> option string) (uuid admin_id user_id kid : string).
Context (admin_hash user_hash key_hash : option string).
Implicit Types (now : Now) (m : MountConfig) (c : ServerConfig).
Abbreviation Vfs := (MountableFS.MountableFS T (MountedFs (X := X) (F := F))).
Abbreviation build := (build_fs (X := X)).




(** The mounts of [done] have been carried out. *)
Record mounted_as (clocks : nat -> Now) (done : list (string * MountConfig)) (s : Vfs) tbl : Prop := {
  ma_routes : MountableFS.routes tbl s;
  ma_table l a : tbl !! l = Some a <-> exists nm, done !! a = Some nm /\ mount_at (snd nm) l;
  ma_arcs a nm fs : done !! a = Some nm -> build (clocks a) (snd nm) = Ok (Some fs) ->
                    MountableFS.arcs s a = with_cache (snd nm) fs
}.

Lemma routes_set_arc tbl (s : Vfs) i fs : MountableFS.routes tbl s -> MountableFS.routes tbl (MountableFS.set_arc i fs s).
Proof. by intros [Hn Ht Hm]. Qed.







(** *** Its metrics *)


Abbreviation has_memfs v i := (is_Some (raw_memfs (raw_of (MountableFS.arcs v i)))).












(** A host that is a name, and no address, is valid, and the server mounts
    everything and does not start. *)
Lemma named_host_refused clocks files arg srv :
  let path := match arg with Some p => Some p | None => env "RACFS_CONFIG"%string end in
  let c := load_config env uuid files path in
  name_like (host c) ->
  run (T := T) iter env uuid admin_id user_id kid admin_hash user_hash key_hash clocks files arg <> Ok srv.
Proof.
  intros path c Hh. unfold run. fold path. fold c. clearbody c.
  assert (Ha : parse_socket_addr (host c +:+ ":" +:+ to_string (port c)) = None).
  { apply name_is_no_address. by destruct (host c). }
  destruct (map_err Invalid (validate (iter (mounts c)) c)); [|done..]. cbn [mbind outcome_bind].
  match goal with |- context [let '(_, _) := ?o in _] => destruct o as [[plugins|e| |] v] end; [|done..].
  cbn [mbind outcome_bind].
  destruct (map_err NoMetrics _) as [state|e| |]; [|done..]. cbn [mbind outcome_bind]. by rewrite Ha.
Qed.

(** ** What SIGHUP changes *)

(** A reload replaces the limits and the time to live by those of the file,
    when the file can be read and is valid, and changes nothing else: the tree,
    the logins, the requests counted and the answers cached stay.  A file that
    cannot be read or is not valid changes nothing at all. *)
Theorem reload_spec files (srv : Server (T := T) (X := X) (F := F)) :
  let srv' := reload iter env uuid files srv in
  let loaded := apply_env_overrides env <$> (path ← config_path srv; from_file files uuid path) in
  address srv' = address srv /\ config_path srv' = config_path srv /\
  ServerApi.vfs (app srv') = ServerApi.vfs (app srv) /\ ServerApi.auth (app srv') = ServerApi.auth (app srv) /\
  RateLimiter.users (limiter srv') = RateLimiter.users (limiter srv) /\
  StatCache.entries (ServerApi.stat_cache (app srv')) = StatCache.entries (ServerApi.stat_cache (app srv)) /\
  match loaded with
  | Some c =>
    (config_valid c -> RateLimiter.config (limiter srv') = limit_config c /\
                       StatCache.ttl (ServerApi.stat_cache (app srv')) = cfg_ttl_secs (cfg_stat_cache c) * 10 ^ 9) /\
    (~ config_valid c -> srv' = srv)
  | None => srv' = srv
  end.
Proof.
  unfold reload. destruct (path ← config_path srv; from_file files uuid path) as [c|]; [|done]. simpl.
  set (c' := apply_env_overrides env c). change (mounts c) with (mounts c').
  destruct (validate_run c' (iter (mounts c')) (iter_perm _)) as [[-> Hv]|(e & -> & Hv)]; simpl; repeat split; done.
Qed.

(** ** What validation lets through *)

(** A mount at [/] is a valid one, and the server does not start with it. *)
Lemma root_mount_refused now i name m fs (s : Vfs) :
  mount_path m = "/"%string -> build now m = Ok (Some fs) ->
  fst (mount_one now i (name, m) s) = Err (Mounting name (InvalidInput "cannot mount at root")).
Proof.
  intros Hp Hb. unfold mount_one, add_mount, with_error, MountableFS.mount. munfold. rewrite Hb, Hp. done.
Qed.

(** Two mounts at the same place are valid, and the second is refused. *)
Lemma same_mount_refused clocks done nm l fs (s : Vfs) tbl :
  mounted_as clocks done s tbl -> mount_at (snd nm) l -> is_Some (tbl !! l) ->
  build (clocks (length done)) (snd nm) = Ok (Some fs) ->
  fst (mount_one (clocks (length done)) (length done) nm s) =
    Err (Mounting (fst nm) (AlreadyExists (mount_path (snd nm)))).
Proof.
  intros [Hr Ht Ha] (Hl & Hne & b & Hb) [a Hn] Hfs. unfold mount_one, add_mount, with_error. munfold.
  rewrite Hfs, Hb.
  pose proof (MountableFS.mount_run tbl (MountableFS.set_arc (length done) (with_cache (snd nm) fs) s) l b (length done)
                (routes_set_arc _ _ _ _ Hr) Hl Hne) as Hm.
  rewrite Hn in Hm. by rewrite Hm.
Qed.

(** A cache that is enabled without a number of entries is not there; its time
    to live is never used. *)
Lemma cache_without_entries m fs :
  (forall c : MountCacheConfig, mount_cache m = Some c -> max_entries c = None) -> with_cache (X := X) (F := F) m fs = inl fs.
Proof.
  intros Hc. unfold with_cache. destruct (mount_cache m) as [c|]; [|done]. rewrite (Hc c eq_refl).
  by destruct (enabled c).
Qed.
End Tree.

(** ** Witnesses *)

(** An outside where everything opens to the same small filesystem. *)
#[global] Instance hello_openers : Openers HelloFS.HelloFS := {|
  local_fs _ := HelloFS.new (fun _ => 0);
  proxy_fs _ := HelloFS.new (fun _ => 0);
  vector_fs now _ := Ok (HelloFS.new now);
  kv_database _ := Ok (HelloFS.new (fun _ => 0))
|}.

Section Witnesses.
#[local] Existing Instance debug_profile.
#[local] Existing Instance binary_json.
#[local] Existing Instance CachedFs.number_ms.
#[local] Existing Instance small_prometheus.
#[local] Existing Instance small_prometheus_laws.

(** A text that stands for a value. *)
Definition demo_mount (p t : string) (entries : option Z) : Json :=
  JObj [("path"%string, JStr p); ("fs_type"%string, JStr t);
        ("cache"%string, JObj (("enabled"%string, JBool true) ::
           match entries with Some n => [("max_entries"%string, JNum n)] | None => [] end))].

Definition demo_toml : TomlText := {| toml_from_str t :=
  if String.eqb t "two" then
    Some (JObj [("port"%string, JNum 9000);
                ("mounts"%string, JObj [("data"%string, demo_mount "/data" "memfs" None);
                                        ("jobs"%string, demo_mount "/work/jobs/" "queuefs" (Some 10))])])
  else if String.eqb t "slow" then
    Some (JObj [("ratelimit"%string, JObj [("max_requests"%string, JNum 7)])])
  else if String.eqb t "bad" then Some (JObj [("host"%string, JStr " ")])
  else None |}.
#[local] Existing Instance demo_toml.

Definition no_env (_ : string) : option string := None.
Definition demo_run (file : string) :=
  run (T := gmap string MountableFS.ArcId) (X := HelloFS.HelloFS) (F := SmallFoyer.SmallFoyer)
      map_to_list no_env "secret" "id1" "id2" "kid" None None None (fun _ _ => 0) (fun p => Some p) (Some file).








(** A reload of a slower limit, of an invalid file and of one that is missing. *)
Definition demo_reload (file : string) : outcome StartError (Z * Z) :=
  srv ← demo_run "two";
  let srv := {| address := address srv; app := app srv; limiter := limiter srv; config_path := Some file |} in
  let srv' := reload map_to_list no_env "secret" (fun p => Some p) srv in
  Ok (RateLimiter.max_requests (RateLimiter.config (limiter srv')), StatCache.ttl (ServerApi.stat_cache (app srv'))).

Definition demo_server : Server (T := gmap string MountableFS.ArcId) (X := HelloFS.HelloFS) (F := SmallFoyer.SmallFoyer) :=
  {| address := V4 [127; 0; 0; 1] 8080;
     app := ServerApi.with_registry empty_vfs server_families zero_metrics
              (Auth.new_auth (Auth.default_jwt "secret") "id1" "id2" "kid" None None None) 2;
     limiter := RateLimiter.new RateLimiter.default_config; config_path := Some "slow"%string |}.

Lemma reload_spec_witness :
  ServerApi.vfs (app (reload map_to_list no_env "secret" (fun p => Some p) demo_server)) =
  ServerApi.vfs (app demo_server).
Proof.
  apply (reload_spec map_to_list (fun _ => reflexivity _) no_env "secret" (fun p => Some p) demo_server).
Defined.

Example reloads :
  demo_reload "slow" = Ok (7, 2 * 10 ^ 9) /\ demo_reload "bad" = Ok (100, 2 * 10 ^ 9) /\
  demo_reload "none" = Ok (100, 2 * 10 ^ 9).
Proof. repeat split; vm_compute; reflexivity. Qed.

#[local] Existing Instance MountableFS.mountable_filesystem.

(** The answers of a server to calls of its tree. *)
Definition demo_calls (file : string) (xs : list FsCall) : outcome StartError (list (outcome FSError FsReply)) :=
  srv ← demo_run file;
  Ok (fst (run_all (fun x => run_call (fun _ => 0) x) xs (ServerApi.vfs (app srv)))).

(** With the default configuration the devices are not where they are
    expected: the backend that is mounted at [/dev] has them below [/dev]
    again. *)
Example default_devices_unreachable :
  demo_calls "none" [CRead "/dev/null" 0 10; CRead "/dev/zero" 0 2; CRead "/dev/dev/zero" 0 2] =
  Ok [Err (NotFound "/null"); Err (NotFound "/zero"); Ok (RBytes [Byte.x00; Byte.x00])].
Proof. vm_compute. reflexivity. Qed.

(** A queue behind a cache: the message that was acknowledged stays the head of
    the queue, which is empty behind the cache. *)
Example cached_queue_repeats :
  demo_calls "two"
    [CMkdir "/work/jobs/q" 493; CWrite "/work/jobs/q/tail" (as_bytes "a") 0 0; CRead "/work/jobs/q/head" 0 (-1);
     CWrite "/work/jobs/q/.ack/000001" (as_bytes "done") 0 0; CRead "/work/jobs/q/head" 0 (-1)] =
  Ok [Ok RUnit; Ok (RCount 6); Ok (RBytes (as_bytes "000001")); Ok (RCount 4); Ok (RBytes (as_bytes "000001"))].
Proof. vm_compute. reflexivity. Qed.

(** *** All of it *)

#[local] Existing Instance Remote.plain_encodings.
#[local] Existing Instance binary_json_laws.
#[local] Existing Instance Remote.plain_axum.
#[local] Existing Instance Auth.plain_bcrypt.
#[local] Existing Instance Auth.plain_jwt.

Abbreviation DemoVfs := (MountableFS.MountableFS (gmap string MountableFS.ArcId) (MountedFs (X := HelloFS.HelloFS) (F := SmallFoyer.SmallFoyer))).

#[local] Instance demo_client : FuseFs.RacfsClient (FuseRemote.Clocked (Remote.Server DemoVfs)) :=
  FuseRemote.remote_client Remote.still_clocks str_len Remote.no_error to_string Remote.no_error (fun _ => Remote.still).

(** A server as it was started, with a client of the mounted filesystem. *)
Definition demo_mounted (srv : Server (T := gmap string MountableFS.ArcId) (X := HelloFS.HelloFS) (F := SmallFoyer.SmallFoyer)) :
    FuseFs.RacfsAsyncFs (FuseRemote.Clocked (Remote.Server DemoVfs)) :=
  FuseFs.new {| FuseRemote.api := ClientApi.new "" {| Remote.limiter := limiter srv; Remote.app := app srv; Remote.served := 0 |};
                FuseRemote.calls := 0 |}.

(** The kernel looks up the mount, makes a file in it and writes it in two
    pieces; then the file is read on the server, and through the mount. *)
Definition demo_session (file : string) : outcome StartError (outcome FuseFs.Errno bytes * outcome FSError bytes) :=
  srv ← demo_run file;
  let now := Remote.still in
  let '(seen, f) :=
    (d ← FuseFs.lookup_async now 1 "data";
     made ← FuseFs.create_async (FuseFs.ino (snd (fst d))) "notes" 0 0;
     let i := FuseFs.ino (snd (fst made)) in
     FuseFs.write_async i 0 (as_bytes "hello ") ;;
     FuseFs.write_async i 6 (as_bytes "world") ;;
     FuseFs.release_async i ;;
     FuseFs.read_async i 0 100) (demo_mounted srv) in
  Ok (seen, fst (fs_read now "/data/notes" 0 (-1) (ServerApi.vfs (Remote.app (FuseRemote.server_of f))))).

Example whole_system :
  demo_session "two" = Ok (Ok (as_bytes (quoted "hello world")), Ok (as_bytes "hello world")).
Proof. vm_compute. reflexivity. Qed.
End Witnesses.
